(** * The acorn statement and expression parser, embedded in Rocq

    The development follows the layout of the sources:
    - [tt], [TokenType]   : tokentype.js (token types and their flags);
    - [Node]              : node.js and the AST kinds built by the parser;
    - the parser state and its error monad;
    - parseutil.js        : [eat], [expect], [semicolon], [DestructuringErrors],
                            [checkPatternErrors], [checkExpressionErrors];
    - lval.js             : [toAssignable], [toAssignableList], [checkLVal...],
                            [parseBindingList];
    - expression.js       : [parseExprOp], [parseMaybeUnary], [parseSubscripts]...;
    - statement.js        : [isLet], [parseStatement], [parseVar],
                            [parseDoStatement], [exitClassBody]...

    A parser method [pp.f = function(args) {...}] becomes a function
    [f args : M A], a computation over the parser state that either returns
    a value and a new state or stops with a syntax error. *)

From Stdlib Require Import ZArith List String Bool Lia.
Import ListNotations.
Local Open Scope string_scope.
Local Open Scope list_scope.
Local Open Scope Z_scope.
Set Warnings "-register-all".

(** ** tokentype.js *)

(** The members of [types]. *)
Module tt.
Inductive TokenType : Type :=
| num | regexp | string | name | privateId | eof
| bracketL | bracketR | braceL | braceR | parenL | parenR
| comma | semi | colon | dot | question | questionDot | arrow
| template | invalidTemplate | ellipsis | backQuote | dollarBraceL
| eq | assign | incDec | prefix
| logicalOR | logicalAND | bitwiseOR | bitwiseXOR | bitwiseAND
| equality | relational | bitShift | plusMin | modulo | star | slash
| starstar | coalesce
| _break | _case | _catch | _continue | _debugger | _default | _do | _else
| _finally | _for | _function | _if | _return | _switch | _throw | _try
| _var | _const | _while | _with | _new | _this | _super | _class
| _extends | _export | _import | _null | _true | _false | _in
| _instanceof | _typeof | _void | _delete.
End tt.

(** The properties a [TokenType] object carries. *)
Module TokenType.
Definition t := tt.TokenType.

Definition eq_dec : forall a b : t, {a = b} + {a <> b}.
Proof. decide equality. Defined.

Definition eqb (a b : t) : bool := if eq_dec a b then true else false.

Definition keyword (ty : t) : option String.string :=
  match ty with
  | tt._break => Some "break" | tt._case => Some "case"
  | tt._catch => Some "catch" | tt._continue => Some "continue"
  | tt._debugger => Some "debugger" | tt._default => Some "default"
  | tt._do => Some "do" | tt._else => Some "else"
  | tt._finally => Some "finally" | tt._for => Some "for"
  | tt._function => Some "function" | tt._if => Some "if"
  | tt._return => Some "return" | tt._switch => Some "switch"
  | tt._throw => Some "throw" | tt._try => Some "try"
  | tt._var => Some "var" | tt._const => Some "const"
  | tt._while => Some "while" | tt._with => Some "with"
  | tt._new => Some "new" | tt._this => Some "this"
  | tt._super => Some "super" | tt._class => Some "class"
  | tt._extends => Some "extends" | tt._export => Some "export"
  | tt._import => Some "import" | tt._null => Some "null"
  | tt._true => Some "true" | tt._false => Some "false"
  | tt._in => Some "in" | tt._instanceof => Some "instanceof"
  | tt._typeof => Some "typeof" | tt._void => Some "void"
  | tt._delete => Some "delete"
  | _ => None
  end.

(** [binop(name, prec)] and the two keyword operators. *)
Definition binop (ty : t) : option Z :=
  match ty with
  | tt.logicalOR => Some 1 | tt.logicalAND => Some 2
  | tt.bitwiseOR => Some 3 | tt.bitwiseXOR => Some 4
  | tt.bitwiseAND => Some 5 | tt.equality => Some 6
  | tt.relational => Some 7 | tt.bitShift => Some 8
  | tt.plusMin => Some 9 | tt.modulo => Some 10
  | tt.star => Some 10 | tt.slash => Some 10
  | tt.coalesce => Some 1
  | tt._in => Some 7 | tt._instanceof => Some 7
  | _ => None
  end.

Definition isAssign (ty : t) : bool :=
  match ty with tt.eq | tt.assign => true | _ => false end.

Definition prefix (ty : t) : bool :=
  match ty with
  | tt.incDec | tt.prefix | tt.plusMin
  | tt._typeof | tt._void | tt._delete => true
  | _ => false
  end.

Definition postfix (ty : t) : bool :=
  match ty with tt.incDec => true | _ => false end.

Definition isLoop (ty : t) : bool :=
  match ty with tt._do | tt._for | tt._while => true | _ => false end.

Definition startsExpr (ty : t) : bool :=
  match ty with
  | tt.num | tt.regexp | tt.string | tt.name | tt.privateId
  | tt.bracketL | tt.braceL | tt.parenL | tt.backQuote | tt.dollarBraceL
  | tt.incDec | tt.prefix | tt.plusMin
  | tt._function | tt._new | tt._this | tt._super | tt._class | tt._import
  | tt._null | tt._true | tt._false | tt._typeof | tt._void | tt._delete => true
  | _ => false
  end.
End TokenType.

(** ** node.js: the AST

    A JavaScript value stored in a token or in a literal node.  Numbers are
    kept as integers: the parser never computes with them. *)
Inductive JsVal : Type :=
| VUndefined
| VNull
| VBool (b : bool)
| VNum (n : Z)
| VStr (s : string).

(** Every node carries [start] and [end]; the other fields depend on its
    [type].  A field that the code sets only under some [ecmaVersion] is an
    [option].  [elements] and [arguments] hold [None] for a [null] entry.
    [OtherNode] stands for the kinds built by the parts of the parser that
    are not embedded here (functions, classes, templates, [new], ...). *)
Inductive Node : Type :=
| Identifier (start end_ : Z) (name : string)
| PrivateIdentifier (start end_ : Z) (name : string)
| Literal (start end_ : Z) (value : JsVal) (raw : list Z) (bigint : option (list Z))
| ThisExpression (start end_ : Z)
| Super (start end_ : Z)
| ArrayExpression (start end_ : Z) (elements : list (option Node))
| ArrayPattern (start end_ : Z) (elements : list (option Node))
| ObjectExpression (start end_ : Z) (properties : list Node)
| ObjectPattern (start end_ : Z) (properties : list Node)
| Property (start end_ : Z) (method shorthand computed : bool)
    (key value : Node) (kind : string)
| SpreadElement (start end_ : Z) (argument : Node)
| RestElement (start end_ : Z) (argument : Node)
| AssignmentExpression (start end_ : Z) (operator : string) (left right : Node)
| AssignmentPattern (start end_ : Z) (left right : Node)
| ParenthesizedExpression (start end_ : Z) (expression : Node)
| ChainExpression (start end_ : Z) (expression : Node)
| MemberExpression (start end_ : Z) (object property : Node)
    (computed : bool) (optional : option bool)
| CallExpression (start end_ : Z) (callee : Node)
    (arguments : list (option Node)) (optional : option bool)
| TaggedTemplateExpression (start end_ : Z) (tag quasi : Node)
| LogicalExpression (start end_ : Z) (left : Node) (operator : string) (right : Node)
| BinaryExpression (start end_ : Z) (left : Node) (operator : string) (right : Node)
| UnaryExpression (start end_ : Z) (operator : string) (prefix : bool) (argument : Node)
| UpdateExpression (start end_ : Z) (operator : string) (prefix : bool) (argument : Node)
| ConditionalExpression (start end_ : Z) (test consequent alternate : Node)
| SequenceExpression (start end_ : Z) (expressions : list Node)
| AwaitExpression (start end_ : Z) (argument : Node)
| ArrowFunctionExpression (start end_ : Z) (generator expression async : option bool)
    (params : list (option Node)) (body : Node)
| FunctionExpression (start end_ : Z) (id : option Node)
    (generator expression async : option bool)
    (params : list (option Node)) (body : Node)
| ClassDeclaration (start end_ : Z) (id superClass : option Node) (body : Node)
| ClassExpression (start end_ : Z) (id superClass : option Node) (body : Node)
| ClassBody (start end_ : Z) (body : list Node)
| MethodDefinition (start end_ : Z) (static : bool) (computed : option bool)
    (key : Node) (kind : string) (value : Node)
| PropertyDefinition (start end_ : Z) (static : bool) (computed : option bool)
    (key : Node) (value : option Node)
| StaticBlock (start end_ : Z) (body : list Node)
| ExpressionStatement (start end_ : Z) (expression : Node) (directive : option (list Z))
| EmptyStatement (start end_ : Z)
| BlockStatement (start end_ : Z) (body : list Node)
| DebuggerStatement (start end_ : Z)
| DoWhileStatement (start end_ : Z) (body test : Node)
| WhileStatement (start end_ : Z) (test body : Node)
| IfStatement (start end_ : Z) (test consequent : Node) (alternate : option Node)
| ReturnStatement (start end_ : Z) (argument : option Node)
| ThrowStatement (start end_ : Z) (argument : Node)
| LabeledStatement (start end_ : Z) (body label : Node)
| ForStatement (start end_ : Z) (init test update : option Node) (body : Node)
| ForInStatement (start end_ : Z) (left right body : Node)
| ForOfStatement (start end_ : Z) (await : option bool) (left right body : Node)
| VariableDeclarator (start end_ : Z) (id : Node) (init : option Node)
| VariableDeclaration (start end_ : Z) (declarations : list Node) (kind : string)
| OtherNode (type : string) (start end_ : Z).

(** [node.type] *)
Definition node_type (n : Node) : string :=
  match n with
  | Identifier _ _ _ => "Identifier"
  | PrivateIdentifier _ _ _ => "PrivateIdentifier"
  | Literal _ _ _ _ _ => "Literal"
  | ThisExpression _ _ => "ThisExpression"
  | Super _ _ => "Super"
  | ArrayExpression _ _ _ => "ArrayExpression"
  | ArrayPattern _ _ _ => "ArrayPattern"
  | ObjectExpression _ _ _ => "ObjectExpression"
  | ObjectPattern _ _ _ => "ObjectPattern"
  | Property _ _ _ _ _ _ _ _ => "Property"
  | SpreadElement _ _ _ => "SpreadElement"
  | RestElement _ _ _ => "RestElement"
  | AssignmentExpression _ _ _ _ _ => "AssignmentExpression"
  | AssignmentPattern _ _ _ _ => "AssignmentPattern"
  | ParenthesizedExpression _ _ _ => "ParenthesizedExpression"
  | ChainExpression _ _ _ => "ChainExpression"
  | MemberExpression _ _ _ _ _ _ => "MemberExpression"
  | CallExpression _ _ _ _ _ => "CallExpression"
  | TaggedTemplateExpression _ _ _ _ => "TaggedTemplateExpression"
  | LogicalExpression _ _ _ _ _ => "LogicalExpression"
  | BinaryExpression _ _ _ _ _ => "BinaryExpression"
  | UnaryExpression _ _ _ _ _ => "UnaryExpression"
  | UpdateExpression _ _ _ _ _ => "UpdateExpression"
  | ConditionalExpression _ _ _ _ _ => "ConditionalExpression"
  | SequenceExpression _ _ _ => "SequenceExpression"
  | AwaitExpression _ _ _ => "AwaitExpression"
  | ArrowFunctionExpression _ _ _ _ _ _ _ => "ArrowFunctionExpression"
  | FunctionExpression _ _ _ _ _ _ _ _ => "FunctionExpression"
  | ClassDeclaration _ _ _ _ _ => "ClassDeclaration"
  | ClassExpression _ _ _ _ _ => "ClassExpression"
  | ClassBody _ _ _ => "ClassBody"
  | MethodDefinition _ _ _ _ _ _ _ => "MethodDefinition"
  | PropertyDefinition _ _ _ _ _ _ => "PropertyDefinition"
  | StaticBlock _ _ _ => "StaticBlock"
  | ExpressionStatement _ _ _ _ => "ExpressionStatement"
  | EmptyStatement _ _ => "EmptyStatement"
  | BlockStatement _ _ _ => "BlockStatement"
  | DebuggerStatement _ _ => "DebuggerStatement"
  | DoWhileStatement _ _ _ _ => "DoWhileStatement"
  | WhileStatement _ _ _ _ => "WhileStatement"
  | IfStatement _ _ _ _ _ => "IfStatement"
  | ReturnStatement _ _ _ => "ReturnStatement"
  | ThrowStatement _ _ _ => "ThrowStatement"
  | LabeledStatement _ _ _ _ => "LabeledStatement"
  | ForStatement _ _ _ _ _ _ => "ForStatement"
  | ForInStatement _ _ _ _ _ => "ForInStatement"
  | ForOfStatement _ _ _ _ _ _ => "ForOfStatement"
  | VariableDeclarator _ _ _ _ => "VariableDeclarator"
  | VariableDeclaration _ _ _ _ => "VariableDeclaration"
  | OtherNode ty _ _ => ty
  end.

(** [node.start] *)
Definition node_start (n : Node) : Z :=
  match n with
  | Identifier s _ _ | PrivateIdentifier s _ _ | Literal s _ _ _ _
  | ThisExpression s _ | Super s _
  | ArrayExpression s _ _ | ArrayPattern s _ _
  | ObjectExpression s _ _ | ObjectPattern s _ _
  | Property s _ _ _ _ _ _ _
  | SpreadElement s _ _ | RestElement s _ _
  | AssignmentExpression s _ _ _ _ | AssignmentPattern s _ _ _
  | ParenthesizedExpression s _ _ | ChainExpression s _ _
  | MemberExpression s _ _ _ _ _ | CallExpression s _ _ _ _
  | TaggedTemplateExpression s _ _ _
  | LogicalExpression s _ _ _ _ | BinaryExpression s _ _ _ _
  | UnaryExpression s _ _ _ _ | UpdateExpression s _ _ _ _
  | ConditionalExpression s _ _ _ _ | SequenceExpression s _ _
  | AwaitExpression s _ _ | ArrowFunctionExpression s _ _ _ _ _ _
  | FunctionExpression s _ _ _ _ _ _ _
  | ClassDeclaration s _ _ _ _ | ClassExpression s _ _ _ _ | ClassBody s _ _
  | MethodDefinition s _ _ _ _ _ _ | PropertyDefinition s _ _ _ _ _
  | StaticBlock s _ _
  | ExpressionStatement s _ _ _ | EmptyStatement s _ | BlockStatement s _ _
  | DebuggerStatement s _ | DoWhileStatement s _ _ _ | WhileStatement s _ _ _
  | IfStatement s _ _ _ _ | ReturnStatement s _ _ | ThrowStatement s _ _
  | LabeledStatement s _ _ _ | ForStatement s _ _ _ _ _
  | ForInStatement s _ _ _ _ | ForOfStatement s _ _ _ _ _
  | VariableDeclarator s _ _ _ | VariableDeclaration s _ _ _
  | OtherNode _ s _ => s
  end.

(** [node.end] *)
Definition node_end (n : Node) : Z :=
  match n with
  | Identifier _ e _ | PrivateIdentifier _ e _ | Literal _ e _ _ _
  | ThisExpression _ e | Super _ e
  | ArrayExpression _ e _ | ArrayPattern _ e _
  | ObjectExpression _ e _ | ObjectPattern _ e _
  | Property _ e _ _ _ _ _ _
  | SpreadElement _ e _ | RestElement _ e _
  | AssignmentExpression _ e _ _ _ | AssignmentPattern _ e _ _
  | ParenthesizedExpression _ e _ | ChainExpression _ e _
  | MemberExpression _ e _ _ _ _ | CallExpression _ e _ _ _
  | TaggedTemplateExpression _ e _ _
  | LogicalExpression _ e _ _ _ | BinaryExpression _ e _ _ _
  | UnaryExpression _ e _ _ _ | UpdateExpression _ e _ _ _
  | ConditionalExpression _ e _ _ _ | SequenceExpression _ e _
  | AwaitExpression _ e _ | ArrowFunctionExpression _ e _ _ _ _ _
  | FunctionExpression _ e _ _ _ _ _ _
  | ClassDeclaration _ e _ _ _ | ClassExpression _ e _ _ _ | ClassBody _ e _
  | MethodDefinition _ e _ _ _ _ _ | PropertyDefinition _ e _ _ _ _
  | StaticBlock _ e _
  | ExpressionStatement _ e _ _ | EmptyStatement _ e | BlockStatement _ e _
  | DebuggerStatement _ e | DoWhileStatement _ e _ _ | WhileStatement _ e _ _
  | IfStatement _ e _ _ _ | ReturnStatement _ e _ | ThrowStatement _ e _
  | LabeledStatement _ e _ _ | ForStatement _ e _ _ _ _
  | ForInStatement _ e _ _ _ | ForOfStatement _ e _ _ _ _
  | VariableDeclarator _ e _ _ | VariableDeclaration _ e _ _
  | OtherNode _ _ e => e
  end.

(** [node.optional], read as a condition: [undefined] is falsy. *)
Definition node_optional (n : Node) : bool :=
  match n with
  | MemberExpression _ _ _ _ _ (Some true) => true
  | CallExpression _ _ _ _ (Some true) => true
  | _ => false
  end.

(** ** The parser state (state.js) and the token interface

    Modelled from the spec: state.js and the tokenizer are not under src/.
    Section 4.C2 gives what the parser reads of a token ([type], [value],
    [start], [end], [containsEsc], [lastTokStart], [lastTokEnd]) and says that
    [next()] advances.  The tokens the tokenizer would deliver are given as a
    list; after the last one the current token is [eof] at the end of the
    input. *)
Record Token : Type := mkToken {
  tok_type : TokenType.t;
  tok_value : JsVal;
  tok_start : Z;
  tok_end : Z;
  tok_containsEsc : bool
}.

Record Options : Type := mkOptions {
  ecmaVersion : Z;
  preserveParens : bool;
  allowReserved : JsVal;               (* true, false or "never" *)
  allowReturnOutsideFunction : bool;
  allowImportExportEverywhere : bool
}.

(** An entry of [this.labels]: [{name, kind, statementStart}]. *)
Record Label : Type := mkLabel {
  label_name : option string;
  label_kind : option string;
  label_statementStart : option Z
}.

(** An entry of [this.privateNameStack]: [{declared, used}]. *)
Record PrivateFrame : Type := mkPrivateFrame {
  declared : list (string * string);
  used : list Node
}.

(** Modelled from the spec: the scope records of section 4.C3 (scope.js is
    not under src/): bit flags, the names bound in the scope and the
    class-field-initializer flag. *)
Record Scope : Type := mkScope {
  scope_flags : Z;
  scope_var : list string;
  scope_lexical : list string;
  scope_functions : list string;
  scope_inClassFieldInit : bool
}.

Record State : Type := mkState {
  options : Options;
  input : list Z;                       (* UTF-16 code units *)
  toks : list Token;                    (* the current token and those after it *)
  lastTokStart : Z;
  lastTokEnd : Z;
  strict : bool;
  exprAllowed : bool;
  potentialArrowAt : Z;
  potentialArrowInForAwait : bool;
  yieldPos : Z;
  awaitPos : Z;
  awaitIdentPos : Z;
  labels : list Label;
  privateNameStack : list PrivateFrame;
  scopeStack : list Scope
}.

Definition set_toks (v : list Token) (s : State) : State :=
  mkState (options s) (input s) v (lastTokStart s) (lastTokEnd s) (strict s)
    (exprAllowed s) (potentialArrowAt s) (potentialArrowInForAwait s)
    (yieldPos s) (awaitPos s) (awaitIdentPos s) (labels s)
    (privateNameStack s) (scopeStack s).

Definition set_lastTok (a b : Z) (s : State) : State :=
  mkState (options s) (input s) (toks s) a b (strict s)
    (exprAllowed s) (potentialArrowAt s) (potentialArrowInForAwait s)
    (yieldPos s) (awaitPos s) (awaitIdentPos s) (labels s)
    (privateNameStack s) (scopeStack s).

Definition set_strict (v : bool) (s : State) : State :=
  mkState (options s) (input s) (toks s) (lastTokStart s) (lastTokEnd s) v
    (exprAllowed s) (potentialArrowAt s) (potentialArrowInForAwait s)
    (yieldPos s) (awaitPos s) (awaitIdentPos s) (labels s)
    (privateNameStack s) (scopeStack s).

Definition set_exprAllowed (v : bool) (s : State) : State :=
  mkState (options s) (input s) (toks s) (lastTokStart s) (lastTokEnd s)
    (strict s) v (potentialArrowAt s) (potentialArrowInForAwait s)
    (yieldPos s) (awaitPos s) (awaitIdentPos s) (labels s)
    (privateNameStack s) (scopeStack s).

Definition set_potentialArrow (a : Z) (b : bool) (s : State) : State :=
  mkState (options s) (input s) (toks s) (lastTokStart s) (lastTokEnd s)
    (strict s) (exprAllowed s) a b
    (yieldPos s) (awaitPos s) (awaitIdentPos s) (labels s)
    (privateNameStack s) (scopeStack s).

Definition set_yieldPos (v : Z) (s : State) : State :=
  mkState (options s) (input s) (toks s) (lastTokStart s) (lastTokEnd s)
    (strict s) (exprAllowed s) (potentialArrowAt s) (potentialArrowInForAwait s)
    v (awaitPos s) (awaitIdentPos s) (labels s)
    (privateNameStack s) (scopeStack s).

Definition set_awaitPos (v : Z) (s : State) : State :=
  mkState (options s) (input s) (toks s) (lastTokStart s) (lastTokEnd s)
    (strict s) (exprAllowed s) (potentialArrowAt s) (potentialArrowInForAwait s)
    (yieldPos s) v (awaitIdentPos s) (labels s)
    (privateNameStack s) (scopeStack s).

Definition set_awaitIdentPos (v : Z) (s : State) : State :=
  mkState (options s) (input s) (toks s) (lastTokStart s) (lastTokEnd s)
    (strict s) (exprAllowed s) (potentialArrowAt s) (potentialArrowInForAwait s)
    (yieldPos s) (awaitPos s) v (labels s)
    (privateNameStack s) (scopeStack s).

Definition set_labels (v : list Label) (s : State) : State :=
  mkState (options s) (input s) (toks s) (lastTokStart s) (lastTokEnd s)
    (strict s) (exprAllowed s) (potentialArrowAt s) (potentialArrowInForAwait s)
    (yieldPos s) (awaitPos s) (awaitIdentPos s) v
    (privateNameStack s) (scopeStack s).

Definition set_privateNameStack (v : list PrivateFrame) (s : State) : State :=
  mkState (options s) (input s) (toks s) (lastTokStart s) (lastTokEnd s)
    (strict s) (exprAllowed s) (potentialArrowAt s) (potentialArrowInForAwait s)
    (yieldPos s) (awaitPos s) (awaitIdentPos s) (labels s)
    v (scopeStack s).

Definition set_scopeStack (v : list Scope) (s : State) : State :=
  mkState (options s) (input s) (toks s) (lastTokStart s) (lastTokEnd s)
    (strict s) (exprAllowed s) (potentialArrowAt s) (potentialArrowInForAwait s)
    (yieldPos s) (awaitPos s) (awaitIdentPos s) (labels s)
    (privateNameStack s) v.

(** The current token: [this.type], [this.value], [this.start], [this.end],
    [this.containsEsc].  [this.pos], the place where the tokenizer stands, is
    the end of the current token. *)
Definition eofToken (s : State) : Token :=
  mkToken tt.eof VUndefined (Z.of_nat (List.length (input s)))
    (Z.of_nat (List.length (input s))) false.

Definition cur (s : State) : Token := hd (eofToken s) (toks s).
Definition type (s : State) : TokenType.t := tok_type (cur s).
Definition value (s : State) : JsVal := tok_value (cur s).
Definition start (s : State) : Z := tok_start (cur s).
Definition end_ (s : State) : Z := tok_end (cur s).
Definition containsEsc (s : State) : bool := tok_containsEsc (cur s).
Definition pos (s : State) : Z := end_ s.

(** A token value used where the code expects a string ([node.name],
    [node.operator]). *)
Definition str (v : JsVal) : string :=
  match v with VStr s => s | _ => "" end.

Definition JsVal_eqb (a b : JsVal) : bool :=
  match a, b with
  | VUndefined, VUndefined | VNull, VNull => true
  | VBool x, VBool y => Bool.eqb x y
  | VNum x, VNum y => Z.eqb x y
  | VStr x, VStr y => String.eqb x y
  | _, _ => false
  end.

(** ** Errors (location.js) and the parser monad

    Modelled from the spec: location.js is not under src/.  Section 7 has two
    channels: [raise] stops parsing at the given offset with a message;
    [raiseRecoverable] does the same by default (a subclass may collect
    these).  The channel is kept in the result. *)
Inductive Severity : Type := Fatal | Recoverable.

(** Why an evaluation of the embedding stops without an answer of the
    parser: the fuel that bounds the recursion ran out, the JavaScript code
    would throw a [TypeError], or the parser calls a function that is not
    embedded. *)
Inductive Halt : Type :=
| OutOfFuel
| TypeError (what : string)
| NotEmbedded (what : string).

Inductive Outcome (A : Type) : Type :=
| Ok (a : A) (st : State)
| SyntaxError (sev : Severity) (pos : Z) (msg : string)
| Halted (h : Halt).

Arguments Ok {A} a st.
Arguments SyntaxError {A} sev pos msg.
Arguments Halted {A} h.

Definition M (A : Type) : Type := State -> Outcome A.

Definition ret {A} (a : A) : M A := fun s => Ok a s.

Definition bind {A B} (m : M A) (k : A -> M B) : M B :=
  fun s => match m s with
           | Ok a s' => k a s'
           | SyntaxError sev p msg => SyntaxError sev p msg
           | Halted h => Halted h
           end.

Notation "x <- m ;; k" := (bind m (fun x => k))
  (at level 100, m at next level, right associativity).
Notation "m ;; k" := (bind m (fun _ => k))
  (at level 100, right associativity).
Notation "' pat <- m ;; k" := (bind m (fun x => match x with pat => k end))
  (at level 100, pat pattern, m at next level, right associativity).

Definition gets {A} (f : State -> A) : M A := fun s => Ok (f s) s.
Definition modify (f : State -> State) : M unit := fun s => Ok tt (f s).
Definition when (b : bool) (m : M unit) : M unit := if b then m else ret tt.
Definition halt {A} (h : Halt) : M A := fun _ => Halted h.

Definition raise {A} (pos : Z) (msg : string) : M A :=
  fun _ => SyntaxError Fatal pos msg.

Definition raiseRecoverable (pos : Z) (msg : string) : M unit :=
  fun _ => SyntaxError Recoverable pos msg.

(** [next()]: remember where the current token was, then advance. *)
Definition advance (s : State) : State :=
  set_toks (tl (toks s)) (set_lastTok (start s) (end_ s) s).

Definition next : M unit := fun s => Ok tt (advance s).

(** The state a computation ends in, [d] when it does not return. *)
Definition state_of {A} (o : Outcome A) (d : State) : State :=
  match o with Ok _ s => s | _ => d end.

(** The computation stops with the value [a], in some state. *)
Definition returns {A} (o : Outcome A) (a : A) : Prop := exists s', o = Ok a s'.

(** ** whitespace.js *)

Definition isNewLine (code : Z) : bool :=
  (code =? 10) || (code =? 13) || (code =? 0x2028) || (code =? 0x2029).

(** [lineBreak.test(s)]: some code unit of [s] is CR, LF, U+2028 or U+2029. *)
Definition lineBreak_test (s : list Z) : bool := existsb isNewLine s.

(** [input.slice(a, b)] for [0 <= a]. *)
Definition slice (l : list Z) (a b : Z) : list Z :=
  firstn (Z.to_nat (b - a)) (skipn (Z.to_nat a) l).

(** [input.charCodeAt(i)]; [None] is [NaN]. *)
Definition charCodeAt (l : list Z) (i : Z) : option Z :=
  if i <? 0 then None else nth_error l (Z.to_nat i).

(** ** parseutil.js *)

Definition unexpected {A} (pos : option Z) : M A :=
  fun s => raise (match pos with Some p => p | None => start s end)
                 "Unexpected token" s.

Definition eat (ty : TokenType.t) : M bool :=
  fun s => if TokenType.eqb (type s) ty
           then (next ;; ret true) s
           else ret false s.

Definition isContextual (name : string) (s : State) : bool :=
  TokenType.eqb (type s) tt.name && JsVal_eqb (value s) (VStr name)
  && negb (containsEsc s).

Definition eatContextual (name : string) : M bool :=
  fun s => if negb (isContextual name s) then ret false s
           else (next ;; ret true) s.

Definition expectContextual (name : string) : M unit :=
  b <- eatContextual name ;; if negb b then unexpected None else ret tt.

Definition canInsertSemicolon (s : State) : bool :=
  TokenType.eqb (type s) tt.eof ||
  TokenType.eqb (type s) tt.braceR ||
  lineBreak_test (slice (input s) (lastTokEnd s) (start s)).

(** [options.onInsertedSemicolon] and [options.onTrailingComma] are
    callbacks of the user; they do not act on the parser. *)
Definition insertSemicolon : M bool :=
  fun s => if canInsertSemicolon s then ret true s else ret false s.

Definition semicolon : M unit :=
  b <- eat tt.semi ;;
  if negb b then
    (i <- insertSemicolon ;; if negb i then unexpected None else ret tt)
  else ret tt.

Definition afterTrailingComma (tokType : TokenType.t) (notNext : bool) : M bool :=
  fun s => if TokenType.eqb (type s) tokType
           then ((if negb notNext then next else ret tt) ;; ret true) s
           else ret false s.

Definition expect (ty : TokenType.t) : M unit :=
  b <- eat ty ;; if b then ret tt else unexpected None.

Record DestructuringErrors : Type := mkDestructuringErrors {
  shorthandAssign : Z;
  trailingComma : Z;
  parenthesizedAssign : Z;
  parenthesizedBind : Z;
  doubleProto : Z
}.

(** [new DestructuringErrors] *)
Definition newDestructuringErrors : DestructuringErrors :=
  mkDestructuringErrors (-1) (-1) (-1) (-1) (-1).

Definition checkPatternErrors (refDestructuringErrors : option DestructuringErrors)
    (isAssign : bool) : M unit :=
  match refDestructuringErrors with
  | None => ret tt
  | Some r =>
      when (trailingComma r >? -1)
        (raiseRecoverable (trailingComma r)
           "Comma is not permitted after the rest element") ;;
      let parens := if isAssign then parenthesizedAssign r else parenthesizedBind r in
      when (parens >? -1)
        (raiseRecoverable parens
           (if isAssign then "Assigning to rvalue" else "Parenthesized pattern"))
  end.

(** The result is the boolean the code returns; [undefined] is [false]. *)
Definition checkExpressionErrors (refDestructuringErrors : option DestructuringErrors)
    (andThrow : bool) : M bool :=
  match refDestructuringErrors with
  | None => ret false
  | Some r =>
      if negb andThrow then ret ((shorthandAssign r >=? 0) || (doubleProto r >=? 0))
      else
        (if shorthandAssign r >=? 0
         then raise (shorthandAssign r)
                "Shorthand property assignments are valid only in destructuring patterns"
         else ret tt) ;;
        when (doubleProto r >=? 0)
          (raiseRecoverable (doubleProto r) "Redefinition of __proto__ property") ;;
        ret false
  end.

Definition checkYieldAwaitInDefaultParams : M unit :=
  fun s =>
    ((if negb (yieldPos s =? 0) && ((awaitPos s =? 0) || (yieldPos s <? awaitPos s))
      then raise (yieldPos s) "Yield expression cannot be a default value"
      else ret tt) ;;
     (if negb (awaitPos s =? 0)
      then raise (awaitPos s) "Await expression cannot be a default value"
      else ret tt)) s.

Fixpoint isSimpleAssignTarget (expr : Node) : bool :=
  match expr with
  | ParenthesizedExpression _ _ e => isSimpleAssignTarget e
  | Identifier _ _ _ | MemberExpression _ _ _ _ _ _ => true
  | _ => false
  end.

(** ** What the embedded functions take from the rest of acorn

    identifier.js, state.js, scope.js and scopeflags.js are not under src/,
    and the functions for functions, classes, object literals, templates,
    [new], [import], [switch] and [try] are left outside the embedding.  All
    are fields of [Env]; the embedded functions are defined for any [Env],
    and so are the theorems about them. *)

(** Modelled from the spec: the binding kinds of section 4.C6
    (scopeflags.js is not under src/). *)
Inductive BindingType : Type :=
| BIND_NONE | BIND_VAR | BIND_LEXICAL | BIND_FUNCTION | BIND_SIMPLE_CATCH | BIND_OUTSIDE.

Definition BindingType_eqb (a b : BindingType) : bool :=
  match a, b with
  | BIND_NONE, BIND_NONE | BIND_VAR, BIND_VAR | BIND_LEXICAL, BIND_LEXICAL
  | BIND_FUNCTION, BIND_FUNCTION | BIND_SIMPLE_CATCH, BIND_SIMPLE_CATCH
  | BIND_OUTSIDE, BIND_OUTSIDE => true
  | _, _ => false
  end.

(** Modelled from the spec: the scope bit flags of section 4.C3
    (scopeflags.js is not under src/). *)
Definition SCOPE_TOP : Z := 1.
Definition SCOPE_FUNCTION : Z := 2.
Definition SCOPE_ASYNC : Z := 4.
Definition SCOPE_GENERATOR : Z := 8.
Definition SCOPE_ARROW : Z := 16.
Definition SCOPE_SIMPLE_CATCH : Z := 32.
Definition SCOPE_SUPER : Z := 64.
Definition SCOPE_DIRECT_SUPER : Z := 128.
Definition SCOPE_CLASS_STATIC_BLOCK : Z := 256.

Definition functionFlags (async generator : bool) : Z :=
  Z.lor SCOPE_FUNCTION
    (Z.lor (if async then SCOPE_ASYNC else 0) (if generator then SCOPE_GENERATOR else 0)).

Record Env : Type := mkEnv {
  (* identifier.js *)
  isIdentifierStart : Z -> bool -> bool;
  isIdentifierChar : Z -> bool -> bool;
  (* state.js: the word tables [this.keywords], [this.reservedWords]... *)
  keywords : string -> bool;
  reservedWords : string -> bool;
  reservedWordsStrict : string -> bool;
  reservedWordsStrictBind : string -> bool;
  (* state.js: getters computed from the scope stack *)
  inModule : State -> bool;
  inFunction : State -> bool;
  inGenerator : State -> bool;
  inAsync : State -> bool;
  canAwait : State -> bool;
  allowSuper : State -> bool;
  allowDirectSuper : State -> bool;
  inClassStaticBlock : State -> bool;
  (* scope.js *)
  currentThisScope_inClassFieldInit : State -> bool;
  set_currentThisScope_inClassFieldInit : bool -> M unit;
  enterScope : Z -> M unit;
  exitScope : M unit;
  declareName : string -> BindingType -> Z -> M unit;
  (* tokenizer *)
  readRegexp : M unit;
  (* parseutil.js, outside the embedding *)
  strictDirective : Z -> M bool;
  (* expression.js and statement.js, outside the embedding *)
  parseObj : bool -> option DestructuringErrors -> M (Node * option DestructuringErrors);
  parseFunction : Z -> Z -> bool -> bool -> JsVal -> M Node;
  parseNew : M Node;
  parseTemplate : bool -> M Node;
  parseExprImport : M Node;
  parseYield : JsVal -> M Node;
  parseRegexpLiteral : M Node;
  parseSwitchStatement : Z -> M Node;
  parseTryStatement : Z -> M Node;
  parseImport : Z -> M Node;
  parseExport : Z -> M Node;
  parseBreakContinueStatement : Z -> string -> M Node;
  parseWithStatement : Z -> M Node
}.

(** Monadic traversal of a list, for the [for] loops over node lists. *)
Section MapM.
Context {A B : Type} (f : A -> M B).

Fixpoint mapM (l : list A) : M (list B) :=
  match l with
  | [] => ret []
  | x :: tl => y <- f x ;; ys <- mapM tl ;; ret (y :: ys)
  end.

End MapM.

Section Parser.

Variable env : Env.

(** ** lval.js *)

(** The check [toAssignableList] makes on the last element once the loop
    is over. *)
Definition checkLastRest (exprList : list (option Node)) (isBinding : bool) : M unit :=
  fun s =>
    match last exprList None with
    | Some (RestElement _ _ argument) =>
        if (ecmaVersion (options s) =? 6) && isBinding
           && negb (String.eqb (node_type argument) "Identifier")
        then unexpected (Some (node_start argument)) s
        else ret tt s
    | _ => ret tt s
    end.

(** [toAssignableList], over the conversion of one node. *)
Definition toAssignableList_of (toAssignable : Node -> bool -> M Node)
    (exprList : list (option Node)) (isBinding : bool) : M (list (option Node)) :=
  l <- mapM (fun elt => match elt with
                        | Some e => e' <- toAssignable e isBinding ;; ret (Some e')
                        | None => ret None
                        end) exprList ;;
  checkLastRest l isBinding ;;
  ret l.

(** The early error on a converted property of an object pattern. *)
Definition checkRestProperty (prop : Node) : M unit :=
  match prop with
  | RestElement _ _ argument =>
      if String.eqb (node_type argument) "ArrayPattern"
         || String.eqb (node_type argument) "ObjectPattern"
      then raise (node_start argument) "Unexpected token"
      else ret tt
  | _ => ret tt
  end.

(** [toAssignable(node, isBinding, refDestructuringErrors)].  The code
    rewrites [node] in place and returns it; here the rewritten node is the
    result.  Every caller passes a node, never [null]. *)
Fixpoint toAssignable (node : Node) (isBinding : bool)
    (refDestructuringErrors : option DestructuringErrors) {struct node} : M Node :=
  fun s =>
  if ecmaVersion (options s) >=? 6 then
    match node with
    | Identifier start _ name =>
        (if inAsync env s && String.eqb name "await"
         then raise start "Cannot use 'await' as identifier inside an async function"
         else ret node) s
    | ObjectPattern _ _ _ | ArrayPattern _ _ _
    | AssignmentPattern _ _ _ _ | RestElement _ _ _ => ret node s
    | ObjectExpression start end_ properties =>
        (checkPatternErrors refDestructuringErrors true ;;
         props <- mapM (fun prop =>
                          prop' <- toAssignable prop isBinding None ;;
                          checkRestProperty prop' ;;
                          ret prop') properties ;;
         ret (ObjectPattern start end_ props)) s
    | Property start end_ method shorthand computed key value kind =>
        ((if negb (String.eqb kind "init")
          then raise (node_start key) "Object pattern can't contain getter or setter"
          else ret tt) ;;
         value' <- toAssignable value isBinding None ;;
         ret (Property start end_ method shorthand computed key value' kind)) s
    | ArrayExpression start end_ elements =>
        (checkPatternErrors refDestructuringErrors true ;;
         elts <- toAssignableList_of (fun e b => toAssignable e b None)
                   elements isBinding ;;
         ret (ArrayPattern start end_ elts)) s
    | SpreadElement start end_ argument =>
        (argument' <- toAssignable argument isBinding None ;;
         (if String.eqb (node_type argument') "AssignmentPattern"
          then raise (node_start argument') "Rest elements cannot have a default value"
          else ret tt) ;;
         ret (RestElement start end_ argument')) s
    | AssignmentExpression start end_ operator left_ right_ =>
        ((if negb (String.eqb operator "=")
          then raise (node_end left_)
                 "Only '=' operator can be used for specifying default value."
          else ret tt) ;;
         left' <- toAssignable left_ isBinding None ;;
         ret (AssignmentPattern start end_ left' right_)) s
    | ParenthesizedExpression start end_ expression =>
        (expression' <- toAssignable expression isBinding refDestructuringErrors ;;
         ret (ParenthesizedExpression start end_ expression')) s
    | ChainExpression start _ _ =>
        (raiseRecoverable start "Optional chaining cannot appear in left-hand side" ;;
         ret node) s
    | MemberExpression start _ _ _ _ _ =>
        (if negb isBinding then ret node
         else raise start "Assigning to rvalue") s
    | _ => raise (node_start node) "Assigning to rvalue" s
    end
  else
    (checkPatternErrors refDestructuringErrors true ;; ret node) s.

Definition toAssignableList (exprList : list (option Node)) (isBinding : bool)
  : M (list (option Node)) :=
  toAssignableList_of (fun e b => toAssignable e b None) exprList isBinding.

(** The conversion as the specification words it: [ObjectExpression]
    becomes [ObjectPattern], [ArrayExpression] becomes [ArrayPattern],
    [SpreadElement] becomes [RestElement], an [AssignmentExpression] becomes
    an [AssignmentPattern] that has no [operator], and the conversion goes
    on into [properties], [elements], the [value] of a [Property], the
    [argument], the [left] side and the parenthesized [expression].
    [toAssignable_patternOf] compares [toAssignable] with it. *)
Fixpoint patternOf (node : Node) : Node :=
  match node with
  | ObjectExpression start end_ properties =>
      ObjectPattern start end_ (map patternOf properties)
  | ArrayExpression start end_ elements =>
      ArrayPattern start end_ (map (option_map patternOf) elements)
  | SpreadElement start end_ argument => RestElement start end_ (patternOf argument)
  | AssignmentExpression start end_ _ left_ right_ =>
      AssignmentPattern start end_ (patternOf left_) right_
  | Property start end_ method shorthand computed key value kind =>
      Property start end_ method shorthand computed key (patternOf value) kind
  | ParenthesizedExpression start end_ expression =>
      ParenthesizedExpression start end_ (patternOf expression)
  | _ => node
  end.

(** The kinds [toAssignable] has no [case] for. *)
Definition hasNoCase (node : Node) : bool :=
  match node with
  | Identifier _ _ _ | ObjectPattern _ _ _ | ArrayPattern _ _ _
  | AssignmentPattern _ _ _ _ | RestElement _ _ _
  | ObjectExpression _ _ _ | Property _ _ _ _ _ _ _ _ | ArrayExpression _ _ _
  | SpreadElement _ _ _ | AssignmentExpression _ _ _ _ _
  | ParenthesizedExpression _ _ _ | ChainExpression _ _ _
  | MemberExpression _ _ _ _ _ _ => false
  | _ => true
  end.

(** The kinds that are patterns already. *)
Definition isPatternKind (node : Node) : bool :=
  match node with
  | ObjectPattern _ _ _ | ArrayPattern _ _ _
  | AssignmentPattern _ _ _ _ | RestElement _ _ _ => true
  | _ => false
  end.

(** [hasOwn(checkClashes, name)] on the table of argument names. *)
Definition hasOwn_names (checkClashes : list string) (name : string) : bool :=
  existsb (String.eqb name) checkClashes.

(** [checkLValSimple(expr, bindingType, checkClashes)].  [checkClashes] is
    an object the code writes to, or a falsy value ([None]); the table as it
    is after the call is the result. *)
Fixpoint checkLValSimple (expr : Node) (bindingType : BindingType)
    (checkClashes : option (list string)) {struct expr} : M (option (list string)) :=
  let isBind := negb (BindingType_eqb bindingType BIND_NONE) in
  match expr with
  | Identifier start _ name =>
      fun s =>
      (when (strict s && reservedWordsStrictBind env name)
         (raiseRecoverable start
            ((if isBind then "Binding " else "Assigning to ") ++ name ++ " in strict mode")) ;;
       if isBind then
         when (BindingType_eqb bindingType BIND_LEXICAL && String.eqb name "let")
           (raiseRecoverable start "let is disallowed as a lexically bound name") ;;
         checkClashes' <-
           match checkClashes with
           | Some names =>
               when (hasOwn_names names name)
                 (raiseRecoverable start "Argument name clash") ;;
               ret (Some (name :: names))
           | None => ret None
           end ;;
         when (negb (BindingType_eqb bindingType BIND_OUTSIDE))
           (declareName env name bindingType start) ;;
         ret checkClashes'
       else ret checkClashes) s
  | ChainExpression start _ _ =>
      raiseRecoverable start "Optional chaining cannot appear in left-hand side" ;;
      ret checkClashes
  | MemberExpression start _ _ _ _ _ =>
      when isBind (raiseRecoverable start "Binding member expression") ;;
      ret checkClashes
  | ParenthesizedExpression start _ expression =>
      when isBind (raiseRecoverable start "Binding parenthesized expression") ;;
      checkLValSimple expression bindingType checkClashes
  | _ =>
      raise (node_start expr) ((if isBind then "Binding" else "Assigning to") ++ " rvalue")
  end.

(** A loop over nodes that threads the table [checkClashes]. *)
Section FoldM.
Context {A C : Type} (f : A -> C -> M C).

Fixpoint foldM (l : list A) (c : C) : M C :=
  match l with
  | [] => ret c
  | x :: tl => c' <- f x c ;; foldM tl c'
  end.

End FoldM.

(** [checkLValPattern] and [checkLValInnerPattern] call each other, the
    second one the first on the very node it was given.  They are one
    structural recursion here, [inner] telling which of the two is running;
    [checkLValInnerPattern_eq] and [checkLValPattern_eq] below give back the
    two bodies of the source. *)
Fixpoint checkLVal (inner : bool) (expr : Node) (bindingType : BindingType)
    (checkClashes : option (list string)) {struct expr} : M (option (list string)) :=
  match expr with
  | Property _ _ _ _ _ _ value _ =>
      if inner then checkLVal true value bindingType checkClashes
      else checkLValSimple expr bindingType checkClashes
  | AssignmentPattern _ _ left_ _ =>
      if inner then checkLVal false left_ bindingType checkClashes
      else checkLValSimple expr bindingType checkClashes
  | RestElement _ _ argument =>
      if inner then checkLVal false argument bindingType checkClashes
      else checkLValSimple expr bindingType checkClashes
  | ObjectPattern _ _ properties =>
      foldM (fun prop c => checkLVal true prop bindingType c) properties checkClashes
  | ArrayPattern _ _ elements =>
      foldM (fun elem c => match elem with
                           | Some e => checkLVal true e bindingType c
                           | None => ret c
                           end) elements checkClashes
  | _ => checkLValSimple expr bindingType checkClashes
  end.

Definition checkLValPattern := checkLVal false.
Definition checkLValInnerPattern := checkLVal true.

(** ** statement.js: [checkPatternExport] and [checkExport]

    [exports] is the table of exported names, or a falsy value. *)
Definition checkExport (exports : option (list string)) (name : string) (pos : Z)
  : M (option (list string)) :=
  match exports with
  | None => ret None
  | Some names =>
      when (hasOwn_names names name)
        (raiseRecoverable pos ("Duplicate export '" ++ name ++ "'")) ;;
      ret (Some (name :: names))
  end.

Fixpoint checkPatternExport (exports : option (list string)) (pat : Node)
    {struct pat} : M (option (list string)) :=
  match pat with
  | Identifier start _ name => checkExport exports name start
  | ObjectPattern _ _ properties =>
      foldM (fun prop ex => checkPatternExport ex prop) properties exports
  | ArrayPattern _ _ elements =>
      foldM (fun elt ex => match elt with
                           | Some e => checkPatternExport ex e
                           | None => ret ex
                           end) elements exports
  | Property _ _ _ _ _ _ value _ => checkPatternExport exports value
  | AssignmentPattern _ _ left_ _ => checkPatternExport exports left_
  | RestElement _ _ argument => checkPatternExport exports argument
  | ParenthesizedExpression _ _ expression => checkPatternExport exports expression
  | _ => ret exports
  end.

(** ** expression.js

    The parsing functions call each other recursively.  A call that closes
    a cycle goes through the record [Rec]; [fuel] bounds the iterations of
    the loops of one function.  [parser] below ties the knot.

    [forInit] is [false], [true], ["await"] or [undefined].  A function that
    is handed [refDestructuringErrors] and writes to it returns the record
    as it is after the call. *)
Definition Ref : Type := option DestructuringErrors.

Definition truthy (v : JsVal) : bool :=
  match v with
  | VUndefined | VNull | VBool false => false
  | VNum n => negb (n =? 0)
  | VStr s => negb (String.eqb s "")
  | VBool true => true
  end.

Record Rec : Type := mkRec {
  rec_parseExpression : JsVal -> Ref -> M (Node * Ref);
  rec_parseMaybeAssign : JsVal -> Ref -> option (Node -> Z -> Node) -> M (Node * Ref);
  rec_parseMaybeUnary : Ref -> bool -> bool -> JsVal -> M (Node * Ref);
  rec_parseExprOp : Node -> Z -> Z -> JsVal -> M Node;
  rec_parseBindingAtom : M Node;
  rec_parseStatement : option string -> bool -> M Node;
  rec_parseFunctionBody : Z -> option Node -> list (option Node) -> bool -> bool ->
                          JsVal -> M (Node * bool);
  rec_parseClass : Z -> JsVal -> M Node
}.

(** The code units of an ASCII string. *)
Fixpoint codeUnits (s : string) : list Z :=
  match s with
  | EmptyString => []
  | String c tl => Z.of_nat (Ascii.nat_of_ascii c) :: codeUnits tl
  end.

(** [finishNode(node, type)]: the node started at [startPos] gets its type
    and fields from [build], and [this.lastTokEnd] as its end. *)
Definition finishNode (build : Z -> Z -> Node) (startPos : Z) : M Node :=
  fun s => Ok (build startPos (lastTokEnd s)) s.

Section Bodies.

Variable rec : Rec.
Variable fuel : nat.

Definition checkUnreserved (start end_ : Z) (name : string) : M unit :=
  fun s =>
  (when (inGenerator env s && String.eqb name "yield")
     (raiseRecoverable start "Cannot use 'yield' as identifier inside a generator") ;;
   when (inAsync env s && String.eqb name "await")
     (raiseRecoverable start "Cannot use 'await' as identifier inside an async function") ;;
   when (currentThisScope_inClassFieldInit env s && String.eqb name "arguments")
     (raiseRecoverable start "Cannot use 'arguments' in class field initializer") ;;
   (if inClassStaticBlock env s && (String.eqb name "arguments" || String.eqb name "await")
    then raise start ("Cannot use " ++ name ++ " in class static initialization block")
    else ret tt) ;;
   (if keywords env name
    then raise start ("Unexpected keyword '" ++ name ++ "'")
    else ret tt) ;;
   if (ecmaVersion (options s) <? 6) && existsb (Z.eqb 92) (slice (input s) start end_)
   then ret tt
   else
     let re := if strict s then reservedWordsStrict env else reservedWords env in
     if re name then
       when (negb (inAsync env s) && String.eqb name "await")
         (raiseRecoverable start "Cannot use keyword 'await' outside an async function") ;;
       raiseRecoverable start ("The keyword '" ++ name ++ "' is reserved")
     else ret tt) s.

(** [parseIdent(liberal, isBinding)].  The lines that pop the tokenizer
    context for [class] and [function] act on the tokenizer only. *)
Definition parseIdent (liberal : bool) : M Node :=
  fun s =>
  let startPos := start s in
  (name <- (if TokenType.eqb (type s) tt.name then ret (str (value s))
            else match TokenType.keyword (type s) with
                 | Some kw => ret kw
                 | None => unexpected None
                 end) ;;
   next ;;
   node <- finishNode (fun st en => Identifier st en name) startPos ;;
   (if negb liberal then
      checkUnreserved (node_start node) (node_end node) name ;;
      (fun s' => if String.eqb name "await" && (awaitIdentPos s' =? 0)
                 then Ok tt (set_awaitIdentPos (node_start node) s')
                 else Ok tt s')
    else ret tt) ;;
   ret node) s.

(** [this.privateNameStack] is a JavaScript array used as a stack, here a
    list whose head is the last element of the array: [push] is [cons],
    [pop] takes the head.  [push_used] is
    [privateNameStack[privateNameStack.length - 1].used.push(node)]. *)
Definition push_used (node : Node) (stack : list PrivateFrame) : list PrivateFrame :=
  match stack with
  | [] => []
  | top :: below => mkPrivateFrame (declared top) (used top ++ [node]) :: below
  end.

Definition parsePrivateIdent : M Node :=
  fun s =>
  let startPos := start s in
  (name <- (if TokenType.eqb (type s) tt.privateId then ret (str (value s))
            else unexpected None) ;;
   next ;;
   node <- finishNode (fun st en => PrivateIdentifier st en name) startPos ;;
   (fun s' =>
      if (Z.of_nat (List.length (privateNameStack s')) =? 0)
      then raise (node_start node)
             ("Private field '#" ++ name ++ "' must be declared in an enclosing class") s'
      else Ok tt (set_privateNameStack (push_used node (privateNameStack s')) s')) ;;
   ret node) s.

(** [raw.slice(0, -1).replace(/_/g, "")] *)
Definition bigint_of_raw (raw : list Z) : option (list Z) :=
  if match last raw (-1) with 110 => true | _ => false end
  then Some (filter (fun c => negb (c =? 95)) (removelast raw))
  else None.

Definition parseLiteral (value : JsVal) : M Node :=
  fun s =>
  let startPos := start s in
  let raw := slice (input s) (start s) (end_ s) in
  (next ;;
   finishNode (fun st en => Literal st en value raw (bigint_of_raw raw)) startPos) s.

(** [parseArrowExpression(node, params, isAsync, forInit)], [node] started
    at [startPos].  [parseFunctionBody] answers with [node.body] and
    [node.expression]. *)
Definition parseArrowExpression (startPos : Z) (params : list (option Node))
    (isAsync : bool) (forInit : JsVal) : M Node :=
  fun s =>
  let oldYieldPos := yieldPos s in
  let oldAwaitPos := awaitPos s in
  let oldAwaitIdentPos := awaitIdentPos s in
  let ev := ecmaVersion (options s) in
  (enterScope env (Z.lor (functionFlags isAsync false) SCOPE_ARROW) ;;
   modify (fun s => set_awaitIdentPos 0 (set_awaitPos 0 (set_yieldPos 0 s))) ;;
   params' <- toAssignableList params true ;;
   '(body, expression) <- rec_parseFunctionBody rec startPos None params' true false
                            forInit ;;
   modify (fun s => set_awaitIdentPos oldAwaitIdentPos
                      (set_awaitPos oldAwaitPos (set_yieldPos oldYieldPos s))) ;;
   finishNode (fun st en =>
                 ArrowFunctionExpression st en
                   (if ev >=? 6 then Some false else None)
                   (Some expression)
                   (if ev >=? 8 then Some isAsync else None)
                   params' body) startPos) s.

Definition parseSpread (refDestructuringErrors : Ref) : M (Node * Ref) :=
  fun s =>
  let startPos := start s in
  (next ;;
   '(argument, r) <- rec_parseMaybeAssign rec (VBool false) refDestructuringErrors None ;;
   node <- finishNode (fun st en => SpreadElement st en argument) startPos ;;
   ret (node, r)) s.

Definition set_trailingComma (v : Z) (r : DestructuringErrors) : DestructuringErrors :=
  mkDestructuringErrors (shorthandAssign r) v (parenthesizedAssign r)
    (parenthesizedBind r) (doubleProto r).

Definition set_parenthesizedAssign (v : Z) (r : DestructuringErrors) : DestructuringErrors :=
  mkDestructuringErrors (shorthandAssign r) (trailingComma r) v
    (parenthesizedBind r) (doubleProto r).

Definition set_parenthesizedBind (v : Z) (r : DestructuringErrors) : DestructuringErrors :=
  mkDestructuringErrors (shorthandAssign r) (trailingComma r) (parenthesizedAssign r)
    v (doubleProto r).

Definition set_shorthandAssign (v : Z) (r : DestructuringErrors) : DestructuringErrors :=
  mkDestructuringErrors v (trailingComma r) (parenthesizedAssign r)
    (parenthesizedBind r) (doubleProto r).

Definition set_doubleProto (v : Z) (r : DestructuringErrors) : DestructuringErrors :=
  mkDestructuringErrors (shorthandAssign r) (trailingComma r) (parenthesizedAssign r)
    (parenthesizedBind r) v.

(** The [while (!this.eat(close))] loop of [parseExprList]; [elts] and
    [first] are its variables. *)
Fixpoint parseExprList_loop (n : nat) (close : TokenType.t)
    (allowTrailingComma allowEmpty : bool) (refDestructuringErrors : Ref)
    (elts : list (option Node)) (first : bool) : M (list (option Node) * Ref) :=
  match n with
  | O => halt OutOfFuel
  | S n' =>
      closed <- eat close ;;
      if closed then ret (elts, refDestructuringErrors) else
      brk <- (if negb first
              then expect tt.comma ;;
                   (if allowTrailingComma then afterTrailingComma close false
                    else ret false)
              else ret false) ;;
      if brk then ret (elts, refDestructuringErrors) else
      ty <- gets type ;;
      '(elt, r) <-
        (if allowEmpty && TokenType.eqb ty tt.comma then
           ret (None, refDestructuringErrors)
         else if TokenType.eqb ty tt.ellipsis then
           '(e, r) <- parseSpread refDestructuringErrors ;;
           s <- gets (fun s => s) ;;
           ret (Some e,
                match r with
                | Some d => if TokenType.eqb (type s) tt.comma && (trailingComma d <? 0)
                            then Some (set_trailingComma (start s) d) else r
                | None => r
                end)
         else
           '(e, r) <- rec_parseMaybeAssign rec (VBool false) refDestructuringErrors None ;;
           ret (Some e, r)) ;;
      parseExprList_loop n' close allowTrailingComma allowEmpty r (elts ++ [elt]) false
  end.

Definition parseExprList (close : TokenType.t) (allowTrailingComma allowEmpty : bool)
    (refDestructuringErrors : Ref) : M (list (option Node) * Ref) :=
  parseExprList_loop fuel close allowTrailingComma allowEmpty refDestructuringErrors [] true.

Definition parseParenExpression : M Node :=
  expect tt.parenL ;;
  '(val, _) <- rec_parseExpression rec VUndefined None ;;
  expect tt.parenR ;;
  ret val.

Definition parseParenItem (item : Node) (startPos : Z) : Node := item.

(** [parseRestBinding] of lval.js *)
Definition parseRestBinding : M Node :=
  fun s =>
  let startPos := start s in
  (next ;;
   (fun s' => if (ecmaVersion (options s') =? 6) && negb (TokenType.eqb (type s') tt.name)
              then unexpected None s' else ret tt s') ;;
   argument <- rec_parseBindingAtom rec ;;
   finishNode (fun st en => RestElement st en argument) startPos) s.

Definition parseParenArrowList (startPos : Z) (exprList : list (option Node))
    (forInit : JsVal) : M Node :=
  parseArrowExpression startPos exprList false forInit.

(** The [while (this.type !== tt.parenR)] loop of
    [parseParenAndDistinguishExpression], with its variables [exprList],
    [first], [lastIsComma] and [spreadStart]. *)
Fixpoint parseParen_loop (n : nat) (allowTrailingComma : bool)
    (refDestructuringErrors : DestructuringErrors)
    (exprList : list (option Node)) (first : bool)
  : M (list (option Node) * bool * option Z * DestructuringErrors) :=
  match n with
  | O => halt OutOfFuel
  | S n' =>
      ty <- gets type ;;
      if TokenType.eqb ty tt.parenR
      then ret (exprList, false, None, refDestructuringErrors) else
      (if first then ret tt else expect tt.comma) ;;
      trailing <- (if allowTrailingComma then afterTrailingComma tt.parenR true
                   else ret false) ;;
      if trailing then ret (exprList, true, None, refDestructuringErrors) else
      s <- gets (fun s => s) ;;
      if TokenType.eqb (type s) tt.ellipsis then
        let spreadStart := start s in
        rest <- parseRestBinding ;;
        (fun s' => if TokenType.eqb (type s') tt.comma
                   then raise (start s') "Comma is not permitted after the rest element" s'
                   else ret tt s') ;;
        ret (exprList ++ [Some (parseParenItem rest spreadStart)], false,
             Some spreadStart, refDestructuringErrors)
      else
        '(e, r) <- rec_parseMaybeAssign rec (VBool false) (Some refDestructuringErrors)
                     (Some parseParenItem) ;;
        parseParen_loop n' allowTrailingComma
          (match r with Some d => d | None => refDestructuringErrors end)
          (exprList ++ [Some e]) false
  end.

(** [oldPos || this.pos] on offsets, where [0] is falsy. *)
Definition orZ (a b : Z) : Z := if a =? 0 then b else a.

Definition unwrapNodes (l : list (option Node)) : list Node :=
  flat_map (fun o => match o with Some n => [n] | None => [] end) l.

Definition parseParenAndDistinguishExpression (canBeArrow : bool) (forInit : JsVal)
  : M Node :=
  fun s =>
  let startPos := start s in
  let allowTrailingComma := ecmaVersion (options s) >=? 8 in
  (val <-
     (if ecmaVersion (options s) >=? 6 then
        next ;;
        innerStartPos <- gets start ;;
        oldYieldPos <- gets yieldPos ;;
        oldAwaitPos <- gets awaitPos ;;
        modify (fun s => set_awaitPos 0 (set_yieldPos 0 s)) ;;
        '(exprList, lastIsComma, spreadStart, refDestructuringErrors) <-
          parseParen_loop fuel allowTrailingComma newDestructuringErrors [] true ;;
        innerEndPos <- gets lastTokEnd ;;
        expect tt.parenR ;;
        isArrow <- (fun s' => if canBeArrow && negb (canInsertSemicolon s')
                              then eat tt.arrow s' else ret false s') ;;
        if isArrow then
          checkPatternErrors (Some refDestructuringErrors) false ;;
          checkYieldAwaitInDefaultParams ;;
          modify (fun s => set_awaitPos oldAwaitPos (set_yieldPos oldYieldPos s)) ;;
          arrow <- parseParenArrowList startPos exprList forInit ;;
          ret (inl arrow)
        else
          (fun s' => if (Z.of_nat (List.length exprList) =? 0) || lastIsComma
                     then unexpected (Some (lastTokStart s')) s' else ret tt s') ;;
          match spreadStart with
          | Some p => if negb (p =? 0) then unexpected (Some p) else ret tt
          | None => ret tt
          end ;;
          checkExpressionErrors (Some refDestructuringErrors) true ;;
          modify (fun s => set_awaitPos (orZ oldAwaitPos (awaitPos s))
                             (set_yieldPos (orZ oldYieldPos (yieldPos s)) s)) ;;
          match exprList with
          | [Some e] => ret (inr e)
          | _ => ret (inr (SequenceExpression innerStartPos innerEndPos
                             (unwrapNodes exprList)))
          end
      else
        v <- parseParenExpression ;; ret (inr v)) ;;
   match val with
   | inl arrow => ret arrow
   | inr v =>
       fun s' => if preserveParens (options s')
                 then finishNode (fun st en => ParenthesizedExpression st en v) startPos s'
                 else ret v s'
   end) s.

(** [parseExprAtom(refDestructuringErrors, forInit)].  [overrideContext]
    acts on the tokenizer only. *)
Definition parseExprAtom (refDestructuringErrors : Ref) (forInit : JsVal)
  : M (Node * Ref) :=
  (fun s => if TokenType.eqb (type s) tt.slash then readRegexp env s else ret tt s) ;;
  fun s =>
  let canBeArrow := potentialArrowAt s =? start s in
  let noRef (m : M Node) : M (Node * Ref) := n <- m ;; ret (n, refDestructuringErrors) in
  match type s with
  | tt._super =>
      noRef
      ((if negb (allowSuper env s)
        then raise (start s) "'super' keyword outside a method" else ret tt) ;;
       let startPos := start s in
       next ;;
       (fun s' => if TokenType.eqb (type s') tt.parenL && negb (allowDirectSuper env s')
                  then raise startPos "super() call outside constructor of a subclass" s'
                  else ret tt s') ;;
       (fun s' => if negb (TokenType.eqb (type s') tt.dot)
                     && negb (TokenType.eqb (type s') tt.bracketL)
                     && negb (TokenType.eqb (type s') tt.parenL)
                  then unexpected None s' else ret tt s') ;;
       finishNode (fun st en => Super st en) startPos) s
  | tt._this =>
      noRef (let startPos := start s in
             next ;; finishNode (fun st en => ThisExpression st en) startPos) s
  | tt.name =>
      noRef
      (let startPos := start s in
       let containsEsc := containsEsc s in
       id <- parseIdent false ;;
       let name := match id with Identifier _ _ n => n | _ => "" end in
       isAsyncFunction <-
         (fun s' => if (ecmaVersion (options s') >=? 8) && negb containsEsc
                       && String.eqb name "async" && negb (canInsertSemicolon s')
                    then eat tt._function s' else ret false s') ;;
       if isAsyncFunction then parseFunction env startPos 0 false true forInit
       else
       s1 <- gets (fun s => s) ;;
       if canBeArrow && negb (canInsertSemicolon s1) then
         isArrow <- eat tt.arrow ;;
         if isArrow then parseArrowExpression startPos [Some id] false forInit
         else
           fun s2 =>
           if (ecmaVersion (options s2) >=? 8) && String.eqb name "async"
              && TokenType.eqb (type s2) tt.name && negb containsEsc
              && (negb (potentialArrowInForAwait s2)
                  || negb (JsVal_eqb (value s2) (VStr "of"))
                  || tok_containsEsc (cur s2))
           then
             (id2 <- parseIdent false ;;
              (fun s3 => if canInsertSemicolon s3 then unexpected None s3
                         else (a <- eat tt.arrow ;;
                               if negb a then unexpected None else ret tt) s3) ;;
              parseArrowExpression startPos [Some id2] true forInit) s2
           else ret id s2
       else ret id) s
  | tt.regexp => noRef (parseRegexpLiteral env) s
  | tt.num | tt.string => noRef (parseLiteral (value s)) s
  | tt._null | tt._true | tt._false =>
      noRef
      (let startPos := start s in
       let value := if TokenType.eqb (type s) tt._null then VNull
                    else VBool (TokenType.eqb (type s) tt._true) in
       let raw := codeUnits (match TokenType.keyword (type s) with
                             | Some kw => kw | None => "" end) in
       next ;;
       finishNode (fun st en => Literal st en value raw None) startPos) s
  | tt.parenL =>
      (let start_ := start s in
       expr <- parseParenAndDistinguishExpression canBeArrow forInit ;;
       ret (expr,
            match refDestructuringErrors with
            | Some r =>
                let r1 := if (parenthesizedAssign r <? 0) && negb (isSimpleAssignTarget expr)
                          then set_parenthesizedAssign start_ r else r in
                let r2 := if parenthesizedBind r1 <? 0
                          then set_parenthesizedBind start_ r1 else r1 in
                Some r2
            | None => None
            end)) s
  | tt.bracketL =>
      (let startPos := start s in
       next ;;
       '(elements, r) <- parseExprList tt.bracketR true true refDestructuringErrors ;;
       node <- finishNode (fun st en => ArrayExpression st en elements) startPos ;;
       ret (node, r)) s
  | tt.braceL => parseObj env false refDestructuringErrors s
  | tt._function =>
      noRef (let startPos := start s in
             next ;; parseFunction env startPos 0 false false VUndefined) s
  | tt._class => noRef (rec_parseClass rec (start s) (VBool false)) s
  | tt._new => noRef (parseNew env) s
  | tt.backQuote => noRef (parseTemplate env false) s
  | tt._import =>
      (if ecmaVersion (options s) >=? 11 then noRef (parseExprImport env)
       else unexpected None) s
  | _ => unexpected None s
  end.

(** [parseSubscript(base, startPos, startLoc, noCalls, maybeAsyncArrow,
    optionalChained, forInit)].  The code returns either a node it has just
    built or [base] itself, and the caller tests [element === base]; the
    boolean of the result is that identity test. *)
Definition parseSubscript (base : Node) (startPos : Z) (noCalls maybeAsyncArrow
    optionalChained : bool) (forInit : JsVal) : M (Node * bool) :=
  fun s =>
  let optionalSupported := ecmaVersion (options s) >=? 11 in
  (optional <- (if optionalSupported then eat tt.questionDot else ret false) ;;
   (fun s' => if noCalls && optional
              then raise (lastTokStart s')
                     "Optional chaining cannot appear in the callee of new expressions" s'
              else ret tt s') ;;
   computed <- eat tt.bracketL ;;
   member <- (fun s' =>
                if computed
                   || (optional && negb (TokenType.eqb (type s') tt.parenL)
                       && negb (TokenType.eqb (type s') tt.backQuote))
                then ret true s' else eat tt.dot s') ;;
   if member then
     property <-
       (if computed then
          '(p, _) <- rec_parseExpression rec VUndefined None ;;
          expect tt.bracketR ;;
          ret p
        else
          fun s' =>
          if TokenType.eqb (type s') tt.privateId
             && negb (String.eqb (node_type base) "Super")
          then parsePrivateIdent s'
          else parseIdent (negb (JsVal_eqb (allowReserved (options s')) (VStr "never"))) s') ;;
     node <- finishNode (fun st en =>
                           MemberExpression st en base property computed
                             (if optionalSupported then Some optional else None))
               startPos ;;
     ret (node, false)
   else
     call <- (if negb noCalls then eat tt.parenL else ret false) ;;
     if call then
       oldYieldPos <- gets yieldPos ;;
       oldAwaitPos <- gets awaitPos ;;
       oldAwaitIdentPos <- gets awaitIdentPos ;;
       modify (fun s => set_awaitIdentPos 0 (set_awaitPos 0 (set_yieldPos 0 s))) ;;
       ev <- gets (fun s => ecmaVersion (options s)) ;;
       '(exprList, r) <- parseExprList tt.parenR (ev >=? 8) false
                           (Some newDestructuringErrors) ;;
       isArrow <- (fun s' => if maybeAsyncArrow && negb optional
                                && negb (canInsertSemicolon s')
                             then eat tt.arrow s' else ret false s') ;;
       if isArrow then
         checkPatternErrors r false ;;
         checkYieldAwaitInDefaultParams ;;
         (fun s' => if awaitIdentPos s' >? 0
                    then raise (awaitIdentPos s')
                           "Cannot use 'await' as identifier inside an async function" s'
                    else ret tt s') ;;
         modify (fun s => set_awaitIdentPos oldAwaitIdentPos
                            (set_awaitPos oldAwaitPos (set_yieldPos oldYieldPos s))) ;;
         arrow <- parseArrowExpression startPos exprList true forInit ;;
         ret (arrow, false)
       else
         checkExpressionErrors r true ;;
         modify (fun s => set_awaitIdentPos (orZ oldAwaitIdentPos (awaitIdentPos s))
                            (set_awaitPos (orZ oldAwaitPos (awaitPos s))
                               (set_yieldPos (orZ oldYieldPos (yieldPos s)) s))) ;;
         node <- finishNode (fun st en =>
                               CallExpression st en base exprList
                                 (if optionalSupported then Some optional else None))
                   startPos ;;
         ret (node, false)
     else
       fun s' =>
       if TokenType.eqb (type s') tt.backQuote then
         ((if optional || optionalChained
           then raise (start s')
                  "Optional chaining cannot appear in the tag of tagged template expressions"
           else ret tt) ;;
          quasi <- parseTemplate env true ;;
          node <- finishNode (fun st en => TaggedTemplateExpression st en base quasi)
                    startPos ;;
          ret (node, false)) s'
       else ret (base, true) s') s.

(** The [while (true)] loop of [parseSubscripts]. *)
Fixpoint parseSubscripts_loop (n : nat) (base : Node) (startPos : Z)
    (noCalls maybeAsyncArrow optionalChained : bool) (forInit : JsVal) : M Node :=
  match n with
  | O => halt OutOfFuel
  | S n' =>
      '(element, same) <- parseSubscript base startPos noCalls maybeAsyncArrow
                            optionalChained forInit ;;
      let optionalChained := if node_optional element then true else optionalChained in
      if same || String.eqb (node_type element) "ArrowFunctionExpression" then
        if optionalChained
        then finishNode (fun st en => ChainExpression st en element) startPos
        else ret element
      else parseSubscripts_loop n' element startPos noCalls maybeAsyncArrow
             optionalChained forInit
  end.

Definition parseSubscripts (base : Node) (startPos : Z) (noCalls : bool)
    (forInit : JsVal) : M Node :=
  fun s =>
  let maybeAsyncArrow :=
    (ecmaVersion (options s) >=? 8)
    && match base with
       | Identifier bstart bend name =>
           String.eqb name "async" && (lastTokEnd s =? bend)
           && negb (canInsertSemicolon s) && (bend - bstart =? 5)
           && (potentialArrowAt s =? bstart)
       | _ => false
       end in
  parseSubscripts_loop fuel base startPos noCalls maybeAsyncArrow false forInit s.

Definition list_eqb (a b : list Z) : bool :=
  (Nat.eqb (List.length a) (List.length b))
  && forallb (fun p => fst p =? snd p) (combine a b).

Definition parseExprSubscripts (refDestructuringErrors : Ref) (forInit : JsVal)
  : M (Node * Ref) :=
  fun s =>
  let startPos := start s in
  ('(expr, r) <- parseExprAtom refDestructuringErrors forInit ;;
   fun s' =>
   if String.eqb (node_type expr) "ArrowFunctionExpression"
      && negb (list_eqb (slice (input s') (lastTokStart s') (lastTokEnd s')) [41])
   then ret (expr, r) s'
   else
     (result <- parseSubscripts expr startPos false forInit ;;
      ret (result,
           match r with
           | Some d =>
               if String.eqb (node_type result) "MemberExpression" then
                 let d1 := if parenthesizedAssign d >=? node_start result
                           then set_parenthesizedAssign (-1) d else d in
                 let d2 := if parenthesizedBind d1 >=? node_start result
                           then set_parenthesizedBind (-1) d1 else d1 in
                 let d3 := if trailingComma d2 >=? node_start result
                           then set_trailingComma (-1) d2 else d2 in
                 Some d3
               else r
           | None => None
           end)) s') s.

Fixpoint isPrivateFieldAccess (node : Node) : bool :=
  match node with
  | MemberExpression _ _ _ property _ _ =>
      String.eqb (node_type property) "PrivateIdentifier"
  | ChainExpression _ _ expression => isPrivateFieldAccess expression
  | _ => false
  end.

Definition buildBinary (startPos : Z) (left_ right_ : Node) (op : string)
    (logical : bool) : M Node :=
  (if String.eqb (node_type right_) "PrivateIdentifier"
   then raise (node_start right_)
          "Private identifier can only be left side of binary expression"
   else ret tt) ;;
  finishNode (fun st en => if logical then LogicalExpression st en left_ op right_
                           else BinaryExpression st en left_ op right_) startPos.

Definition parseAwait (forInit : JsVal) : M Node :=
  fun s =>
  let startPos := start s in
  (modify (fun s => if awaitPos s =? 0 then set_awaitPos (start s) s else s) ;;
   next ;;
   '(argument, _) <- rec_parseMaybeUnary rec None true false forInit ;;
   finishNode (fun st en => AwaitExpression st en argument) startPos) s.

(** The [while (this.type.postfix && !this.canInsertSemicolon())] loop of
    [parseMaybeUnary]. *)
Fixpoint parsePostfix_loop (n : nat) (startPos : Z) (expr : Node) : M Node :=
  match n with
  | O => halt OutOfFuel
  | S n' =>
      fun s =>
      if TokenType.postfix (type s) && negb (canInsertSemicolon s) then
        (let operator := str (value s) in
         checkLValSimple expr BIND_NONE None ;;
         next ;;
         node <- finishNode (fun st en => UnaryExpression st en operator false expr)
                   startPos ;;
         parsePostfix_loop n' startPos node) s
      else ret expr s
  end.

Definition parseMaybeUnary (refDestructuringErrors : Ref) (sawUnary incDec : bool)
    (forInit : JsVal) : M (Node * Ref) :=
  fun s =>
  let startPos := start s in
  (* the part up to the test for [**]: the expression, [sawUnary], and
     whether the function has already returned *)
  ('(expr, r, sawUnary, returned) <-
     (if isContextual "await" s && canAwait env s then
        e <- parseAwait forInit ;; ret (e, refDestructuringErrors, true, false)
      else if TokenType.prefix (type s) then
        let update := TokenType.eqb (type s) tt.incDec in
        let operator := str (value s) in
        next ;;
        '(argument, _) <- rec_parseMaybeUnary rec None true update forInit ;;
        checkExpressionErrors refDestructuringErrors true ;;
        sawUnary' <-
          (if update then checkLValSimple argument BIND_NONE None ;; ret sawUnary
           else
             fun s' =>
             if strict s' && String.eqb operator "delete"
                && String.eqb (node_type argument) "Identifier"
             then (raiseRecoverable startPos "Deleting local variable in strict mode" ;;
                   ret sawUnary) s'
             else if String.eqb operator "delete" && isPrivateFieldAccess argument
             then (raiseRecoverable startPos "Private fields can not be deleted" ;;
                   ret sawUnary) s'
             else ret true s') ;;
        e <- finishNode (fun st en => if update
                                      then UpdateExpression st en operator true argument
                                      else UnaryExpression st en operator true argument)
               startPos ;;
        ret (e, refDestructuringErrors, sawUnary', false)
      else if negb sawUnary && TokenType.eqb (type s) tt.privateId then
        (if truthy forInit || (Z.of_nat (List.length (privateNameStack s)) =? 0)
         then unexpected None else ret tt) ;;
        e <- parsePrivateIdent ;;
        (fun s' => if negb (TokenType.eqb (type s') tt._in)
                   then unexpected None s' else ret tt s') ;;
        ret (e, refDestructuringErrors, sawUnary, false)
      else
        '(e, r) <- parseExprSubscripts refDestructuringErrors forInit ;;
        err <- checkExpressionErrors r false ;;
        if err then ret (e, r, sawUnary, true)
        else
          e' <- parsePostfix_loop fuel startPos e ;;
          ret (e', r, sawUnary, false)) ;;
   if returned then ret (expr, r)
   else
     starstar <- (if negb incDec then eat tt.starstar else ret false) ;;
     if starstar then
       if sawUnary then
         fun s' => unexpected (Some (lastTokStart s')) s'
       else
         '(right_, _) <- rec_parseMaybeUnary rec None false false forInit ;;
         node <- buildBinary startPos expr right_ "**" false ;;
         ret (node, r)
     else ret (expr, r)) s.

Definition parseExprOp (left_ : Node) (leftStartPos : Z) (minPrec : Z)
    (forInit : JsVal) : M Node :=
  fun s =>
  match TokenType.binop (type s) with
  | Some prec =>
      if (negb (truthy forInit) || negb (TokenType.eqb (type s) tt._in))
         && (prec >? minPrec) then
        let logical := TokenType.eqb (type s) tt.logicalOR
                       || TokenType.eqb (type s) tt.logicalAND in
        let coalesce := TokenType.eqb (type s) tt.coalesce in
        let prec := if coalesce
                    then match TokenType.binop tt.logicalAND with
                         | Some p => p | None => prec end
                    else prec in
        let op := str (value s) in
        (next ;;
         startPos <- gets start ;;
         '(operand, _) <- rec_parseMaybeUnary rec None false false forInit ;;
         right_ <- rec_parseExprOp rec operand startPos prec forInit ;;
         node <- buildBinary leftStartPos left_ right_ op (logical || coalesce) ;;
         (fun s' =>
            if (logical && TokenType.eqb (type s') tt.coalesce)
               || (coalesce && (TokenType.eqb (type s') tt.logicalOR
                                || TokenType.eqb (type s') tt.logicalAND))
            then raiseRecoverable (start s')
                   "Logical expressions and coalesce expressions cannot be mixed. Wrap either by parentheses" s'
            else ret tt s') ;;
         rec_parseExprOp rec node leftStartPos minPrec forInit) s
      else ret left_ s
  | None => ret left_ s
  end.

Definition parseExprOps (forInit : JsVal) (refDestructuringErrors : Ref)
  : M (Node * Ref) :=
  fun s =>
  let startPos := start s in
  ('(expr, r) <- parseMaybeUnary refDestructuringErrors false false forInit ;;
   err <- checkExpressionErrors r false ;;
   if err then ret (expr, r)
   else if (node_start expr =? startPos)
           && String.eqb (node_type expr) "ArrowFunctionExpression"
   then ret (expr, r)
   else e <- parseExprOp expr startPos (-1) forInit ;; ret (e, r)) s.

Definition parseMaybeConditional (forInit : JsVal) (refDestructuringErrors : Ref)
  : M (Node * Ref) :=
  fun s =>
  let startPos := start s in
  ('(expr, r) <- parseExprOps forInit refDestructuringErrors ;;
   err <- checkExpressionErrors r false ;;
   if err then ret (expr, r)
   else
     q <- eat tt.question ;;
     if q then
       '(consequent, _) <- rec_parseMaybeAssign rec VUndefined None None ;;
       expect tt.colon ;;
       '(alternate, _) <- rec_parseMaybeAssign rec forInit None None ;;
       node <- finishNode (fun st en =>
                             ConditionalExpression st en expr consequent alternate)
                 startPos ;;
       ret (node, r)
     else ret (expr, r)) s.

Definition parseMaybeAssign (forInit : JsVal) (refDestructuringErrors : Ref)
    (afterLeftParse : option (Node -> Z -> Node)) : M (Node * Ref) :=
  fun s =>
  if isContextual "yield" s && inGenerator env s then
    (n <- parseYield env forInit ;; ret (n, refDestructuringErrors)) s
  else
  ((* The tokenizer will assume an expression is allowed after `yield` *)
   when (isContextual "yield" s) (modify (set_exprAllowed false)) ;;
   let ownDestructuringErrors :=
     match refDestructuringErrors with Some _ => false | None => true end in
   let oldParenAssign :=
     match refDestructuringErrors with Some r => parenthesizedAssign r | None => -1 end in
   let oldTrailingComma :=
     match refDestructuringErrors with Some r => trailingComma r | None => -1 end in
   let oldDoubleProto :=
     match refDestructuringErrors with Some r => doubleProto r | None => -1 end in
   let r0 := match refDestructuringErrors with
             | Some r => set_trailingComma (-1) (set_parenthesizedAssign (-1) r)
             | None => newDestructuringErrors
             end in
   let out (r : DestructuringErrors) : Ref :=
     if ownDestructuringErrors then None else Some r in
   startPos <- gets start ;;
   modify (fun s => if TokenType.eqb (type s) tt.parenL || TokenType.eqb (type s) tt.name
                    then set_potentialArrow (start s)
                           (JsVal_eqb forInit (VStr "await")) s
                    else s) ;;
   '(left0, r1) <- parseMaybeConditional forInit (Some r0) ;;
   let r1 := match r1 with Some r => r | None => r0 end in
   let left1 := match afterLeftParse with
                | Some f => f left0 startPos
                | None => left0
                end in
   fun s1 =>
   if TokenType.isAssign (type s1) then
     (let operator := str (value s1) in
      let isEq := TokenType.eqb (type s1) tt.eq in
      left2 <- (if isEq then toAssignable left1 false (Some r1) else ret left1) ;;
      let r2 := if negb ownDestructuringErrors
                then set_doubleProto (-1)
                       (set_trailingComma (-1) (set_parenthesizedAssign (-1) r1))
                else r1 in
      let r3 := if shorthandAssign r2 >=? node_start left2
                then set_shorthandAssign (-1) r2 else r2 in
      (if isEq then checkLValPattern left2 BIND_NONE None
       else checkLValSimple left2 BIND_NONE None) ;;
      next ;;
      '(right_, _) <- rec_parseMaybeAssign rec forInit None None ;;
      let r4 := if oldDoubleProto >? -1 then set_doubleProto oldDoubleProto r3 else r3 in
      node <- finishNode (fun st en => AssignmentExpression st en operator left2 right_)
                startPos ;;
      ret (node, out r4)) s1
   else
     ((if ownDestructuringErrors
       then checkExpressionErrors (Some r1) true ;; ret tt else ret tt) ;;
      let r2 := if oldParenAssign >? -1
                then set_parenthesizedAssign oldParenAssign r1 else r1 in
      let r3 := if oldTrailingComma >? -1
                then set_trailingComma oldTrailingComma r2 else r2 in
      ret (left1, out r3)) s1) s.

(** The [while (this.eat(tt.comma))] loop of [parseExpression]. *)
Fixpoint parseExpression_loop (n : nat) (forInit : JsVal) (refDestructuringErrors : Ref)
    (expressions : list Node) : M (list Node * Ref) :=
  match n with
  | O => halt OutOfFuel
  | S n' =>
      c <- eat tt.comma ;;
      if c then
        '(e, r) <- parseMaybeAssign forInit refDestructuringErrors None ;;
        parseExpression_loop n' forInit r (expressions ++ [e])
      else ret (expressions, refDestructuringErrors)
  end.

Definition parseExpression (forInit : JsVal) (refDestructuringErrors : Ref)
  : M (Node * Ref) :=
  fun s =>
  let startPos := start s in
  ('(expr, r) <- parseMaybeAssign forInit refDestructuringErrors None ;;
   fun s' =>
   if TokenType.eqb (type s') tt.comma then
     ('(expressions, r') <- parseExpression_loop fuel forInit r [expr] ;;
      node <- finishNode (fun st en => SequenceExpression st en expressions) startPos ;;
      ret (node, r')) s'
   else ret (expr, r) s') s.

(** ** lval.js: binding patterns *)

Definition parseBindingListItem (param : Node) : Node := param.

Definition parseMaybeDefault (startPos : Z) (left_ : option Node) : M Node :=
  left1 <- match left_ with Some l => ret l | None => rec_parseBindingAtom rec end ;;
  fun s =>
  if ecmaVersion (options s) <? 6 then ret left1 s
  else
    (e <- eat tt.eq ;;
     if negb e then ret left1
     else
       '(right_, _) <- parseMaybeAssign VUndefined None None ;;
       finishNode (fun st en => AssignmentPattern st en left1 right_) startPos) s.

(** The [while (!this.eat(close))] loop of [parseBindingList]. *)
Fixpoint parseBindingList_loop (n : nat) (close : TokenType.t)
    (allowEmpty allowTrailingComma : bool) (elts : list (option Node)) (first : bool)
  : M (list (option Node)) :=
  match n with
  | O => halt OutOfFuel
  | S n' =>
      closed <- eat close ;;
      if closed then ret elts else
      (if first then ret tt else expect tt.comma) ;;
      s <- gets (fun s => s) ;;
      if allowEmpty && TokenType.eqb (type s) tt.comma then
        parseBindingList_loop n' close allowEmpty allowTrailingComma (elts ++ [None]) false
      else
        trailing <- (if allowTrailingComma then afterTrailingComma close false
                     else ret false) ;;
        if trailing then ret elts else
        s1 <- gets (fun s => s) ;;
        if TokenType.eqb (type s1) tt.ellipsis then
          rest <- parseRestBinding ;;
          let rest := parseBindingListItem rest in
          (fun s2 => if TokenType.eqb (type s2) tt.comma
                     then raise (start s2) "Comma is not permitted after the rest element" s2
                     else ret tt s2) ;;
          expect close ;;
          ret (elts ++ [Some rest])
        else
          elem <- parseMaybeDefault (start s1) None ;;
          let elem := parseBindingListItem elem in
          parseBindingList_loop n' close allowEmpty allowTrailingComma
            (elts ++ [Some elem]) false
  end.

Definition parseBindingList (close : TokenType.t) (allowEmpty allowTrailingComma : bool)
  : M (list (option Node)) :=
  parseBindingList_loop fuel close allowEmpty allowTrailingComma [] true.

Definition parseBindingAtom : M Node :=
  fun s =>
  if ecmaVersion (options s) >=? 6 then
    match type s with
    | tt.bracketL =>
        (let startPos := start s in
         next ;;
         elements <- parseBindingList tt.bracketR true true ;;
         finishNode (fun st en => ArrayPattern st en elements) startPos) s
    | tt.braceL => ('(n, _) <- parseObj env true None ;; ret n) s
    | _ => parseIdent false s
    end
  else parseIdent false s.

(** *** What the theorems below speak of *)

(** The node a prefix operator builds, whose operator is the current token
    of [s]. *)
Definition prefixNode (s : State) (end_ : Z) (argument : Node) : Node :=
  if TokenType.eqb (type s) tt.incDec
  then UpdateExpression (start s) end_ (str (value s)) true argument
  else UnaryExpression (start s) end_ (str (value s)) true argument.

(** The test [parseExprOp] makes after it has built the node of operator
    [op], with [next] the type of the token then current. *)
Definition mixed (op next : TokenType.t) : bool :=
  ((TokenType.eqb op tt.logicalOR || TokenType.eqb op tt.logicalAND)
   && TokenType.eqb next tt.coalesce)
  || (TokenType.eqb op tt.coalesce
      && (TokenType.eqb next tt.logicalOR || TokenType.eqb next tt.logicalAND)).

Definition mixedMessage : string :=
  "Logical expressions and coalesce expressions cannot be mixed. Wrap either by parentheses".

(** The precedence [parseExprOp] parses the right operand of [op] at, [prec]
    being [op.binop]. *)
Definition operandPrec (op : TokenType.t) (prec : Z) : Z :=
  if TokenType.eqb op tt.coalesce
  then match TokenType.binop tt.logicalAND with Some p => p | None => prec end
  else prec.

(** The node [buildBinary] builds for operator token [op]. *)
Definition binaryNode (op : TokenType.t) (start end_ : Z) (left_ : Node)
    (operator : string) (right_ : Node) : Node :=
  if TokenType.eqb op tt.logicalOR || TokenType.eqb op tt.logicalAND
     || TokenType.eqb op tt.coalesce
  then LogicalExpression start end_ left_ operator right_
  else BinaryExpression start end_ left_ operator right_.

(** The number of nodes with [optional] true on the spine of a chain: the
    [MemberExpression] and [CallExpression] nodes reached through [object]
    and [callee]. *)
Fixpoint optionalsOnSpine (node : Node) : nat :=
  match node with
  | MemberExpression _ _ object _ _ optional =>
      (match optional with Some true => 1 | _ => 0 end + optionalsOnSpine object)%nat
  | CallExpression _ _ callee _ optional =>
      (match optional with Some true => 1 | _ => 0 end + optionalsOnSpine callee)%nat
  | _ => O
  end.

(** The loop of [parseSubscripts] up to its exit: the last element and
    [optionalChained], before the code wraps the element.
    [parseSubscripts_loop_elements] relates it to the loop. *)
Fixpoint parseSubscripts_elements (n : nat) (base : Node) (startPos : Z)
    (noCalls maybeAsyncArrow optionalChained : bool) (forInit : JsVal)
  : M (Node * bool) :=
  match n with
  | O => halt OutOfFuel
  | S n' =>
      '(element, same) <- parseSubscript base startPos noCalls maybeAsyncArrow
                            optionalChained forInit ;;
      let optionalChained := if node_optional element then true else optionalChained in
      if same || String.eqb (node_type element) "ArrowFunctionExpression"
      then ret (element, optionalChained)
      else parseSubscripts_elements n' element startPos noCalls maybeAsyncArrow
             optionalChained forInit
  end.

(** ** statement.js *)

(** [\s] of a JavaScript regular expression, on a code unit. *)
Definition isWhiteSpaceUnit (c : Z) : bool :=
  ((9 <=? c) && (c <=? 13)) || (c =? 32) || (c =? 0xa0) || (c =? 0x1680)
  || ((0x2000 <=? c) && (c <=? 0x200a)) || (c =? 0x2028) || (c =? 0x2029)
  || (c =? 0x202f) || (c =? 0x205f) || (c =? 0x3000) || (c =? 0xfeff).

(** The number of code units before the first line terminator: what [.*]
    matches. *)
Fixpoint restOfLine (l : list Z) : nat :=
  match l with
  | c :: tl => if isNewLine c then O else S (restOfLine tl)
  | [] => O
  end.

(** The number of code units up to and including the first [*/], if there
    is one: what [[^]*?\*\/] matches. *)
Fixpoint blockCommentEnd (l : list Z) : option nat :=
  match l with
  | 42 :: ((47 :: _) as tl) => Some 2%nat
  | _ :: tl => option_map S (blockCommentEnd tl)
  | [] => None
  end.

(** [skipWhiteSpace = /(?:\s|\/\/.*|\/\*[^]*?\*\/)*/g]: the length of the
    match at the head of [l], that is [skipWhiteSpace.exec(input)[0].length]
    after [skipWhiteSpace.lastIndex] was set to where [l] starts.  The
    pattern matches the empty string, so the match does begin there. *)
Fixpoint skipWhiteSpace_exec (n : nat) (l : list Z) : nat :=
  match n with
  | O => O
  | S n' =>
      match l with
      | c :: tl =>
          if isWhiteSpaceUnit c then S (skipWhiteSpace_exec n' tl)
          else if c =? 47 then
            match tl with
            | 47 :: tl' =>
                let k := restOfLine tl' in
                (2 + k + skipWhiteSpace_exec n' (skipn k tl'))%nat
            | 42 :: tl' =>
                match blockCommentEnd tl' with
                | Some k => (2 + k + skipWhiteSpace_exec n' (skipn k tl'))%nat
                | None => O
                end
            | _ => O
            end
          else O
      | [] => O
      end
  end.

(** [pos + skip[0].length] for [skipWhiteSpace.lastIndex = pos]. *)
Definition afterWhiteSpace (input : list Z) (pos : Z) : Z :=
  let l := skipn (Z.to_nat pos) input in
  pos + Z.of_nat (skipWhiteSpace_exec (S (List.length l)) l).

(** Modelled from the spec: [keywordRelationalOperator] of identifier.js
    (not under src/) tests for the keyword relational operators [in] and
    [instanceof]. *)
Definition keywordRelationalOperator_test (ident : list Z) : bool :=
  list_eqb ident (codeUnits "in") || list_eqb ident (codeUnits "instanceof").

(** A code unit that is a lead surrogate: [ch > 0xd7ff && ch < 0xdc00].
    [charCodeAt] past the end is [NaN], which fails every comparison and is
    no identifier character. *)
Definition isLeadSurrogate (ch : option Z) : bool :=
  match ch with Some c => (c >? 0xd7ff) && (c <? 0xdc00) | None => false end.

Definition isCode (ch : option Z) (code : Z) : bool :=
  match ch with Some c => c =? code | None => false end.

Definition identifierStart (ch : option Z) (astral : bool) : bool :=
  match ch with Some c => isIdentifierStart env c astral | None => false end.

Definition identifierChar (ch : option Z) (astral : bool) : bool :=
  match ch with Some c => isIdentifierChar env c astral | None => false end.

(** [while (isIdentifierChar(nextCh = this.input.charCodeAt(pos), true)) ++pos]:
    the value of [pos] after the loop. *)
Fixpoint identEnd (n : nat) (input : list Z) (pos : Z) : Z :=
  match n with
  | O => pos
  | S n' => if identifierChar (charCodeAt input pos) true
            then identEnd n' input (pos + 1) else pos
  end.

(** A [context] argument read as a condition. *)
Definition isContext (context : option string) : bool :=
  match context with Some c => negb (String.eqb c "") | None => false end.

Definition isLet (context : option string) (s : State) : bool :=
  if (ecmaVersion (options s) <? 6) || negb (isContextual "let" s) then false else
  let next := afterWhiteSpace (input s) (pos s) in
  let nextCh := charCodeAt (input s) next in
  if isCode nextCh 91 || isCode nextCh 92 then true else
  if isContext context then false else
  if isCode nextCh 123 || isLeadSurrogate nextCh then true else
  if identifierStart nextCh true then
    let pos := identEnd (List.length (input s)) (input s) (next + 1) in
    let nextCh := charCodeAt (input s) pos in
    if isCode nextCh 92 || isLeadSurrogate nextCh then true else
    let ident := slice (input s) next pos in
    if negb (keywordRelationalOperator_test ident) then true else false
  else false.

Definition isAsyncFunction (s : State) : bool :=
  if (ecmaVersion (options s) <? 8) || negb (isContextual "async" s) then false else
  let next := afterWhiteSpace (input s) (pos s) in
  negb (lineBreak_test (slice (input s) (pos s) next))
  && list_eqb (slice (input s) next (next + 8)) (codeUnits "function")
  && ((next + 8 =? Z.of_nat (List.length (input s)))
      || negb (identifierChar (charCodeAt (input s) (next + 8)) false
               || isLeadSurrogate (charCodeAt (input s) (next + 8)))).

Definition FUNC_STATEMENT : Z := 1.
Definition FUNC_HANGING_STATEMENT : Z := 2.
Definition FUNC_NULLABLE_ID : Z := 4.

(** [const loopLabel = {kind: "loop"}] *)
Definition loopLabel : Label := mkLabel None (Some "loop") None.

(** [this.labels] is an array used as a stack; the head of the list is its
    last element. *)
Definition labels_push (l : Label) : M unit := modify (fun s => set_labels (l :: labels s) s).
Definition labels_pop : M unit := modify (fun s => set_labels (tl (labels s)) s).

Definition parseFunctionStatement (startPos : Z) (isAsync declarationPosition : bool)
  : M Node :=
  next ;;
  parseFunction env startPos
    (Z.lor FUNC_STATEMENT (if declarationPosition then 0 else FUNC_HANGING_STATEMENT))
    false isAsync VUndefined.

Definition parseDebuggerStatement (startPos : Z) : M Node :=
  next ;; semicolon ;; finishNode (fun st en => DebuggerStatement st en) startPos.

Definition parseDoStatement (startPos : Z) : M Node :=
  next ;;
  labels_push loopLabel ;;
  body <- rec_parseStatement rec (Some "do") false ;;
  labels_pop ;;
  expect tt._while ;;
  test <- parseParenExpression ;;
  (fun s => if ecmaVersion (options s) >=? 6
            then (eat tt.semi ;; ret tt) s
            else semicolon s) ;;
  finishNode (fun st en => DoWhileStatement st en body test) startPos.

(** The lines of [parseDoStatement] before the semicolon is looked for. *)
Definition parseDoStatement_head : M (Node * Node) :=
  next ;;
  labels_push loopLabel ;;
  body <- rec_parseStatement rec (Some "do") false ;;
  labels_pop ;;
  expect tt._while ;;
  test <- parseParenExpression ;;
  ret (body, test).

Definition parseIfStatement (startPos : Z) : M Node :=
  next ;;
  test <- parseParenExpression ;;
  consequent <- rec_parseStatement rec (Some "if") false ;;
  e <- eat tt._else ;;
  alternate <- (if e then a <- rec_parseStatement rec (Some "if") false ;; ret (Some a)
                else ret None) ;;
  finishNode (fun st en => IfStatement st en test consequent alternate) startPos.

Definition parseReturnStatement (startPos : Z) : M Node :=
  (fun s => if negb (inFunction env s) && negb (allowReturnOutsideFunction (options s))
            then raise (start s) "'return' outside of function" s else ret tt s) ;;
  next ;;
  e <- eat tt.semi ;;
  i <- (if e then ret true else insertSemicolon) ;;
  argument <- (if i then ret None
               else '(a, _) <- parseExpression VUndefined None ;;
                    semicolon ;; ret (Some a)) ;;
  finishNode (fun st en => ReturnStatement st en argument) startPos.

Definition parseThrowStatement (startPos : Z) : M Node :=
  next ;;
  (fun s => if lineBreak_test (slice (input s) (lastTokEnd s) (start s))
            then raise (lastTokEnd s) "Illegal newline after throw" s else ret tt s) ;;
  '(argument, _) <- parseExpression VUndefined None ;;
  semicolon ;;
  finishNode (fun st en => ThrowStatement st en argument) startPos.

Definition parseVarId (kind : string) : M Node :=
  id <- parseBindingAtom ;;
  checkLValPattern id (if String.eqb kind "var" then BIND_VAR else BIND_LEXICAL) None ;;
  ret id.

(** The [for (;;)] loop of [parseVar]; the result is [node.declarations]. *)
Fixpoint parseVar_loop (n : nat) (isFor : bool) (kind : string)
    (declarations : list Node) : M (list Node) :=
  match n with
  | O => halt OutOfFuel
  | S n' =>
      startPos <- gets start ;;
      id <- parseVarId kind ;;
      e <- eat tt.eq ;;
      init <-
        (if e then '(i, _) <- parseMaybeAssign (VBool isFor) None None ;; ret (Some i)
         else
           fun s =>
           if String.eqb kind "const"
              && negb (TokenType.eqb (type s) tt._in
                       || ((ecmaVersion (options s) >=? 6) && isContextual "of" s))
           then unexpected None s
           else if negb (String.eqb (node_type id) "Identifier")
                   && negb (isFor && (TokenType.eqb (type s) tt._in || isContextual "of" s))
           then raise (lastTokEnd s)
                  "Complex binding patterns require an initialization value" s
           else ret None s) ;;
      decl <- finishNode (fun st en => VariableDeclarator st en id init) startPos ;;
      c <- eat tt.comma ;;
      if negb c then ret (declarations ++ [decl])
      else parseVar_loop n' isFor kind (declarations ++ [decl])
  end.

(** [parseVar(node, isFor, kind)] fills [node.declarations] and [node.kind];
    the caller finishes the node. *)
Definition parseVar (isFor : bool) (kind : string) : M (list Node) :=
  parseVar_loop fuel isFor kind [].

Definition parseVarStatement (startPos : Z) (kind : string) : M Node :=
  next ;;
  declarations <- parseVar false kind ;;
  semicolon ;;
  finishNode (fun st en => VariableDeclaration st en declarations kind) startPos.

Definition parseWhileStatement (startPos : Z) : M Node :=
  next ;;
  test <- parseParenExpression ;;
  labels_push loopLabel ;;
  body <- rec_parseStatement rec (Some "while") false ;;
  labels_pop ;;
  finishNode (fun st en => WhileStatement st en test body) startPos.

Definition parseEmptyStatement (startPos : Z) : M Node :=
  next ;; finishNode (fun st en => EmptyStatement st en) startPos.

Definition parseExpressionStatement (startPos : Z) (expr : Node) : M Node :=
  semicolon ;; finishNode (fun st en => ExpressionStatement st en expr None) startPos.

(** The loop of [parseLabeledStatement] that updates the labels which
    start at this statement, from the last one pushed downwards. *)
Fixpoint updateLabels (labels : list Label) (nodeStart newStart : Z)
    (kind : option string) : list Label :=
  match labels with
  | l :: tl =>
      match label_statementStart l with
      | Some p => if p =? nodeStart
                  then mkLabel (label_name l) kind (Some newStart)
                       :: updateLabels tl nodeStart newStart kind
                  else labels
      | None => labels
      end
  | [] => []
  end.

Definition parseLabeledStatement (startPos : Z) (maybeName : string) (expr : Node)
    (context : option string) : M Node :=
  (fun s => if existsb (fun l => match label_name l with
                                | Some n => String.eqb n maybeName
                                | None => false
                                end) (labels s)
            then raise (node_start expr) ("Label '" ++ maybeName ++ "' is already declared") s
            else ret tt s) ;;
  kind <- gets (fun s => if TokenType.isLoop (type s) then Some "loop"
                         else if TokenType.eqb (type s) tt._switch then Some "switch"
                         else None) ;;
  modify (fun s => set_labels (updateLabels (labels s) startPos (start s) kind) s) ;;
  (fun s => labels_push (mkLabel (Some maybeName) kind (Some (start s))) s) ;;
  body <- rec_parseStatement rec
            (Some (match context with
                   | Some c => if negb (String.eqb c "")
                               then match String.index 0 "label" c with
                                    | None => (c ++ "label")%string
                                    | Some _ => c
                                    end
                               else "label"
                   | None => "label"
                   end)) false ;;
  labels_pop ;;
  finishNode (fun st en => LabeledStatement st en body expr) startPos.

(** The [while (this.type !== tt.braceR)] loop of [parseBlock]. *)
Fixpoint parseBlock_loop (n : nat) (body : list Node) : M (list Node) :=
  match n with
  | O => halt OutOfFuel
  | S n' =>
      ty <- gets type ;;
      if TokenType.eqb ty tt.braceR then ret body
      else stmt <- rec_parseStatement rec None false ;;
           parseBlock_loop n' (body ++ [stmt])
  end.

Definition parseBlock (createNewLexicalScope : bool) (startPos : option Z)
    (exitStrict : bool) : M Node :=
  fun s =>
  let startPos := match startPos with Some p => p | None => start s end in
  (expect tt.braceL ;;
   when createNewLexicalScope (enterScope env 0) ;;
   body <- parseBlock_loop fuel [] ;;
   when exitStrict (modify (set_strict false)) ;;
   next ;;
   when createNewLexicalScope (exitScope env) ;;
   finishNode (fun st en => BlockStatement st en body) startPos) s.

Definition parseFor (startPos : Z) (init : option Node) : M Node :=
  expect tt.semi ;;
  test <- (fun s => if TokenType.eqb (type s) tt.semi then ret None s
                    else ('(e, _) <- parseExpression VUndefined None ;; ret (Some e)) s) ;;
  expect tt.semi ;;
  update <- (fun s => if TokenType.eqb (type s) tt.parenR then ret None s
                      else ('(e, _) <- parseExpression VUndefined None ;; ret (Some e)) s) ;;
  expect tt.parenR ;;
  body <- rec_parseStatement rec (Some "for") false ;;
  exitScope env ;;
  labels_pop ;;
  finishNode (fun st en => ForStatement st en init test update body) startPos.

(** [parseForIn(node, init)]; [await] is [node.await] as the caller has set
    it. *)
Definition parseForIn (startPos : Z) (await : option bool) (init : Node) : M Node :=
  fun s =>
  let isForIn := TokenType.eqb (type s) tt._in in
  (next ;;
   match init with
   | VariableDeclaration istart _ declarations kind =>
       match declarations with
       | VariableDeclarator _ _ id (Some _) :: _ =>
           fun s' =>
           if negb isForIn || (ecmaVersion (options s') <? 8) || strict s'
              || negb (String.eqb kind "var")
              || negb (String.eqb (node_type id) "Identifier")
           then raise istart
                  ((if isForIn then "for-in" else "for-of")
                   ++ " loop variable declaration may not have an initializer") s'
           else ret tt s'
       | [] => halt (TypeError "init.declarations[0] is undefined")
       | _ => ret tt
       end
   | _ => ret tt
   end ;;
   right_ <- (if isForIn then '(e, _) <- parseExpression VUndefined None ;; ret e
              else '(e, _) <- parseMaybeAssign VUndefined None None ;; ret e) ;;
   expect tt.parenR ;;
   body <- rec_parseStatement rec (Some "for") false ;;
   exitScope env ;;
   labels_pop ;;
   finishNode (fun st en => if isForIn then ForInStatement st en init right_ body
                            else ForOfStatement st en await init right_ body)
     startPos) s.

(** The lines of [parseForStatement] that both branches share once [in] or
    [of] is seen: [node.await] is set for [of] when [ecmaVersion >= 9]. *)
Definition forInAwait (awaitAt : Z) : M (option bool) :=
  fun s =>
  if ecmaVersion (options s) >=? 9 then
    if TokenType.eqb (type s) tt._in then
      (if awaitAt >? -1 then unexpected (Some awaitAt) else ret None) s
    else ret (Some (awaitAt >? -1)) s
  else ret None s.

Definition parseForStatement (startPos : Z) : M Node :=
  next ;;
  awaitAt <- (fun s =>
                if (ecmaVersion (options s) >=? 9) && canAwait env s
                then (a <- eatContextual "await" ;;
                      if a then gets lastTokStart else ret (-1)) s
                else ret (-1) s) ;;
  labels_push loopLabel ;;
  enterScope env 0 ;;
  expect tt.parenL ;;
  fun s =>
  if TokenType.eqb (type s) tt.semi then
    ((if awaitAt >? -1 then unexpected (Some awaitAt) else ret tt) ;;
     parseFor startPos None) s
  else
  let isLet_ := isLet None s in
  if TokenType.eqb (type s) tt._var || TokenType.eqb (type s) tt._const || isLet_ then
    (let initStart := start s in
     let kind := if isLet_ then "let" else str (value s) in
     next ;;
     declarations <- parseVar true kind ;;
     init <- finishNode (fun st en => VariableDeclaration st en declarations kind)
               initStart ;;
     fun s' =>
     if (TokenType.eqb (type s') tt._in
         || ((ecmaVersion (options s') >=? 6) && isContextual "of" s'))
        && (Z.of_nat (List.length declarations) =? 1)
     then (await <- forInAwait awaitAt ;; parseForIn startPos await init) s'
     else ((if awaitAt >? -1 then unexpected (Some awaitAt) else ret tt) ;;
           parseFor startPos (Some init)) s') s
  else
    (let startsWithLet := isContextual "let" s in
     '(init, r) <- parseExpression (if awaitAt >? -1 then VStr "await" else VBool true)
                     (Some newDestructuringErrors) ;;
     fun s' =>
     let isIn := TokenType.eqb (type s') tt._in in
     let isForOf := negb isIn && (ecmaVersion (options s') >=? 6) && isContextual "of" s' in
     if isIn || isForOf then
       (await <- forInAwait awaitAt ;;
        (if startsWithLet && isForOf
         then raise (node_start init)
                "The left-hand side of a for-of loop may not start with 'let'."
         else ret tt) ;;
        init' <- toAssignable init false r ;;
        checkLValPattern init' BIND_NONE None ;;
        parseForIn startPos await init') s'
     else
       (checkExpressionErrors r true ;;
        (if awaitAt >? -1 then unexpected (Some awaitAt) else ret tt) ;;
        parseFor startPos (Some init)) s') s.

Definition contextIs (context : option string) (c : string) : bool :=
  match context with Some x => String.eqb x c | None => false end.

(** [parseStatement(context, topLevel, exports)].  [exports] is used by
    [parseExport] only, a field of [env]. *)
Definition parseStatement (context : option string) (topLevel : bool) : M Node :=
  fun s =>
  let startPos := start s in
  let isLet_ := isLet context s in
  let starttype := if isLet_ then tt._var else type s in
  let kind := if isLet_ then Some "let" else None in
  let defaultCase : M Node :=
    fun s =>
    if isAsyncFunction s then
      ((if isContext context then unexpected None else ret tt) ;;
       next ;;
       parseFunctionStatement startPos true (negb (isContext context))) s
    else
      (let maybeName := str (value s) in
       '(expr, _) <- parseExpression VUndefined None ;;
       labelled <- (if TokenType.eqb starttype tt.name
                       && String.eqb (node_type expr) "Identifier"
                    then eat tt.colon else ret false) ;;
       if labelled then parseLabeledStatement startPos maybeName expr context
       else parseExpressionStatement startPos expr) s in
  match starttype with
  | tt._break | tt._continue =>
      parseBreakContinueStatement env startPos
        (match TokenType.keyword starttype with Some k => k | None => "" end) s
  | tt._debugger => parseDebuggerStatement startPos s
  | tt._do => parseDoStatement startPos s
  | tt._for => parseForStatement startPos s
  | tt._function =>
      ((if (isContext context
            && (strict s || (negb (contextIs context "if")
                             && negb (contextIs context "label"))))
           && (ecmaVersion (options s) >=? 6)
        then unexpected None else ret tt) ;;
       parseFunctionStatement startPos false (negb (isContext context))) s
  | tt._class =>
      ((if isContext context then unexpected None else ret tt) ;;
       rec_parseClass rec startPos (VBool true)) s
  | tt._if => parseIfStatement startPos s
  | tt._return => parseReturnStatement startPos s
  | tt._switch => parseSwitchStatement env startPos s
  | tt._throw => parseThrowStatement startPos s
  | tt._try => parseTryStatement env startPos s
  | tt._const | tt._var =>
      (let kind := match kind with Some k => k | None => str (value s) end in
       (if isContext context && negb (String.eqb kind "var")
        then unexpected None else ret tt) ;;
       parseVarStatement startPos kind) s
  | tt._while => parseWhileStatement startPos s
  | tt._with => parseWithStatement env startPos s
  | tt.braceL => parseBlock true (Some startPos) false s
  | tt.semi => parseEmptyStatement startPos s
  | tt._export | tt._import =>
      let next := afterWhiteSpace (input s) (pos s) in
      let nextCh := charCodeAt (input s) next in
      if (ecmaVersion (options s) >? 10) && TokenType.eqb starttype tt._import
         && (isCode nextCh 40 || isCode nextCh 46)
      then ('(expr, _) <- parseExpression VUndefined None ;;
            parseExpressionStatement startPos expr) s
      else
        ((if negb (allowImportExportEverywhere (options s)) then
            (if negb topLevel
             then raise (start s) "'import' and 'export' may only appear at the top level"
             else ret tt) ;;
            (if negb (inModule env s)
             then raise (start s)
                    "'import' and 'export' may appear only with 'sourceType: module'"
             else ret tt)
          else ret tt) ;;
         if TokenType.eqb starttype tt._import then parseImport env startPos
         else parseExport env startPos) s
  | _ => defaultCase s
  end.

(** ** statement.js: the private names of class bodies *)

Definition enterClassBody : M unit :=
  modify (fun s => set_privateNameStack (mkPrivateFrame [] [] :: privateNameStack s) s).

Definition hasOwn_declared (declared : list (string * string)) (name : string) : bool :=
  existsb (fun p => String.eqb (fst p) name) declared.

(** [id.name] and [id.start] of an entry of [used]. *)
Definition node_name (n : Node) : string :=
  match n with
  | Identifier _ _ name | PrivateIdentifier _ _ name => name
  | _ => ""
  end.

(** The [for] loop of [exitClassBody]: [parent] is the frame below the one
    popped, or [None]; the result is [parent.used] after the loop. *)
Fixpoint exitClassBody_loop (declared : list (string * string)) (used : list Node)
    (parent : option (list Node)) : M (option (list Node)) :=
  match used with
  | [] => ret parent
  | id :: rest =>
      if negb (hasOwn_declared declared (node_name id)) then
        match parent with
        | Some parentUsed =>
            exitClassBody_loop declared rest (Some (parentUsed ++ [id]))
        | None =>
            raiseRecoverable (node_start id)
              ("Private field '#" ++ node_name id
               ++ "' must be declared in an enclosing class") ;;
            exitClassBody_loop declared rest None
        end
      else exitClassBody_loop declared rest parent
  end.

Definition exitClassBody : M unit :=
  fun s =>
  match privateNameStack s with
  | [] => halt (TypeError "cannot destructure the result of pop() on an empty array") s
  | mkPrivateFrame declared used :: below =>
      match below with
      | [] =>
          (modify (set_privateNameStack []) ;;
           exitClassBody_loop declared used None ;;
           ret tt) s
      | mkPrivateFrame pdeclared pused :: rest =>
          (parentUsed <- exitClassBody_loop declared used (Some pused) ;;
           modify (set_privateNameStack
                     (mkPrivateFrame pdeclared
                        (match parentUsed with Some u => u | None => pused end) :: rest))) s
      end
  end.

(** [isPrivateNameConflicted(privateNameMap, element)]: the element is
    given by its key name, its type, its kind and [element.static]; the
    result is the answer and [privateNameMap] after the call. *)
Definition lookup_declared (privateNameMap : list (string * string)) (name : string)
  : option string :=
  match find (fun p => String.eqb (fst p) name) privateNameMap with
  | Some p => Some (snd p)
  | None => None
  end.

Definition set_declared (privateNameMap : list (string * string)) (name v : string)
  : list (string * string) :=
  (name, v) :: filter (fun p => negb (String.eqb (fst p) name)) privateNameMap.

Definition isPrivateNameConflicted (privateNameMap : list (string * string))
    (name type kind : string) (static : bool) : bool * list (string * string) :=
  let curr := lookup_declared privateNameMap name in
  let next := if String.eqb type "MethodDefinition"
                 && (String.eqb kind "get" || String.eqb kind "set")
              then ((if static then "s" else "i") ++ kind)%string
              else "true" in
  let currIs (c : option string) (v : string) :=
    match c with Some x => String.eqb x v | None => false end in
  if (currIs curr "iget" && String.eqb next "iset")
     || (currIs curr "iset" && String.eqb next "iget")
     || (currIs curr "sget" && String.eqb next "sset")
     || (currIs curr "sset" && String.eqb next "sget")
  then (false, set_declared privateNameMap name "true")
  else match curr with
       | None => (false, set_declared privateNameMap name next)
       | Some c => if String.eqb c "" then (false, set_declared privateNameMap name next)
                   else (true, privateNameMap)
       end.

(** ** expression.js: function bodies and methods *)

(** [isSimpleParamList(params)].  [param.type] of a [null] entry is a
    [TypeError]. *)
Fixpoint isSimpleParamList (params : list (option Node)) : M bool :=
  match params with
  | [] => ret true
  | None :: _ => halt (TypeError "param is null")
  | Some param :: rest =>
      if negb (String.eqb (node_type param) "Identifier") then ret false
      else isSimpleParamList rest
  end.

(** [checkParams(node, allowDuplicates)] on [node.params]; [nameHash] is
    threaded through the calls. *)
Definition checkParams (params : list (option Node)) (allowDuplicates : bool) : M unit :=
  foldM (fun param nameHash =>
           match param with
           | None => halt (TypeError "expr is null")
           | Some p =>
               h <- checkLValInnerPattern p BIND_VAR
                      (if allowDuplicates then None else Some nameHash) ;;
               ret (match h with Some h' => h' | None => nameHash end)
           end) params [] ;;
  ret tt.

(** statement.js: [isDirectiveCandidate(statement)]; 34 and 39 are the two
    quotes. *)
Definition isDirectiveCandidate (s : State) (statement : Node) : bool :=
  (ecmaVersion (options s) >=? 5)
  && match statement with
     | ExpressionStatement start _ (Literal _ _ (VStr _) _ _) _ =>
         match charCodeAt (input s) start with
         | Some c => (c =? 34) || (c =? 39)
         | None => false
         end
     | _ => false
     end.

(** statement.js: [adaptDirectivePrologue(statements)]: the leading
    candidates get [directive = expression.raw.slice(1, -1)]. *)
Fixpoint adaptDirectivePrologue (s : State) (statements : list Node) : list Node :=
  match statements with
  | [] => []
  | statement :: rest =>
      if isDirectiveCandidate s statement then
        match statement with
        | ExpressionStatement st en (Literal lst len v raw b) _ =>
            ExpressionStatement st en (Literal lst len v raw b)
              (Some (slice raw 1 (Z.of_nat (List.length raw) - 1)))
            :: adaptDirectivePrologue s rest
        | _ => statements
        end
      else statements
  end.

(** [parseFunctionBody(node, isArrowFunction, isMethod, forInit)]: [node]
    started at [startPos] and has [node.id] and [node.params]; the result
    is [node.body] and [node.expression]. *)
Definition parseFunctionBody (startPos : Z) (id : option Node)
    (params : list (option Node)) (isArrowFunction isMethod : bool) (forInit : JsVal)
  : M (Node * bool) :=
  fun s =>
  let isExpression := isArrowFunction && negb (TokenType.eqb (type s) tt.braceL) in
  let oldStrict := strict s in
  let ev := ecmaVersion (options s) in
  (r <- (if isExpression then
           '(body, _) <- rec_parseMaybeAssign rec forInit None None ;;
           checkParams params false ;;
           ret (body, true)
         else
           nonSimple <- (if ev >=? 7 then simple <- isSimpleParamList params ;;
                                          ret (negb simple)
                         else ret false) ;;
           useStrict <- (if negb oldStrict || nonSimple then
                           useStrict <- (fun s1 => strictDirective env (end_ s1) s1) ;;
                           when (useStrict && nonSimple)
                             (raiseRecoverable startPos
                                "Illegal 'use strict' directive in function with non-simple parameter list") ;;
                           ret useStrict
                         else ret false) ;;
           oldLabels <- gets labels ;;
           modify (set_labels []) ;;
           when useStrict (modify (set_strict true)) ;;
           allowDuplicates <- (if negb oldStrict && negb useStrict
                                  && negb isArrowFunction && negb isMethod
                               then isSimpleParamList params else ret false) ;;
           checkParams params allowDuplicates ;;
           (fun s1 => match id with
                      | Some id' =>
                          if strict s1
                          then (checkLValSimple id' BIND_OUTSIDE None ;; ret tt) s1
                          else ret tt s1
                      | None => ret tt s1
                      end) ;;
           block <- parseBlock false None (useStrict && negb oldStrict) ;;
           body <- (fun s1 => ret (match block with
                                   | BlockStatement st en statements =>
                                       BlockStatement st en
                                         (adaptDirectivePrologue s1 statements)
                                   | _ => block
                                   end) s1) ;;
           modify (set_labels oldLabels) ;;
           ret (body, false)) ;;
   exitScope env ;;
   ret r) s.

(** [parseMethod(isGenerator, isAsync, allowDirectSuper)]. *)
Definition parseMethod (isGenerator isAsync allowDirectSuper : bool) : M Node :=
  fun s =>
  let startPos := start s in
  let oldYieldPos := yieldPos s in
  let oldAwaitPos := awaitPos s in
  let oldAwaitIdentPos := awaitIdentPos s in
  let ev := ecmaVersion (options s) in
  let generator := if ev >=? 6 then Some isGenerator else None in
  (modify (fun s => set_awaitIdentPos 0 (set_awaitPos 0 (set_yieldPos 0 s))) ;;
   enterScope env
     (Z.lor (Z.lor (functionFlags isAsync
                      (match generator with Some g => g | None => false end))
                   SCOPE_SUPER)
            (if allowDirectSuper then SCOPE_DIRECT_SUPER else 0)) ;;
   expect tt.parenL ;;
   params <- parseBindingList tt.parenR false (ev >=? 8) ;;
   checkYieldAwaitInDefaultParams ;;
   '(body, expression) <- parseFunctionBody startPos None params false true (VBool false) ;;
   modify (fun s => set_awaitIdentPos oldAwaitIdentPos
                      (set_awaitPos oldAwaitPos (set_yieldPos oldYieldPos s))) ;;
   finishNode (fun st en =>
                 FunctionExpression st en None generator (Some expression)
                   (if ev >=? 8 then Some isAsync else None)
                   params body) startPos) s.

(** [parsePropertyName(prop)]: the result is [prop.computed] ([None] when
    the field is not set) and [prop.key]. *)
Definition parsePropertyName : M (option bool * Node) :=
  fun s =>
  let plain (computed : option bool) : M (option bool * Node) :=
    fun s' =>
    (key <- (if TokenType.eqb (type s') tt.num || TokenType.eqb (type s') tt.string
             then '(e, _) <- parseExprAtom None VUndefined ;; ret e
             else parseIdent (negb (JsVal_eqb (allowReserved (options s')) (VStr "never")))) ;;
     ret (computed, key)) s' in
  if ecmaVersion (options s) >=? 6 then
    (bracket <- eat tt.bracketL ;;
     if bracket then
       '(key, _) <- parseMaybeAssign VUndefined None None ;;
       expect tt.bracketR ;;
       ret (Some true, key)
     else plain (Some false)) s
  else plain None s.

(** ** statement.js: classes *)

Definition isClassElementNameStart (s : State) : bool :=
  TokenType.eqb (type s) tt.name
  || TokenType.eqb (type s) tt.privateId
  || TokenType.eqb (type s) tt.num
  || TokenType.eqb (type s) tt.string
  || TokenType.eqb (type s) tt.bracketL
  || match TokenType.keyword (type s) with Some _ => true | None => false end.

(** [checkKeyName(node, name)] on [node.computed] and [node.key]. *)
Definition checkKeyName (computed : option bool) (key : Node) (name : string) : bool :=
  negb (match computed with Some b => b | None => false end)
  && match key with
     | Identifier _ _ n => String.eqb n name
     | Literal _ _ v _ _ => JsVal_eqb v (VStr name)
     | _ => false
     end.

(** [parseClassElementName(element)]: the result is [element.computed] and
    [element.key]. *)
Definition parseClassElementName : M (option bool * Node) :=
  fun s =>
  if TokenType.eqb (type s) tt.privateId then
    (when (JsVal_eqb (value s) (VStr "constructor"))
       (raise (start s) "Classes can't have an element named '#constructor'") ;;
     key <- parsePrivateIdent ;;
     ret (Some false, key)) s
  else parsePropertyName s.

(** [value.params] of the function a method holds. *)
Definition node_params (n : Node) : list (option Node) :=
  match n with
  | FunctionExpression _ _ _ _ _ _ params _
  | ArrowFunctionExpression _ _ _ _ _ params _ => params
  | _ => []
  end.

(** [parseClassMethod(method, isGenerator, isAsync, allowsDirectSuper)]:
    [method] started at [startPos] and has [static], [computed], [key] and
    [kind]. *)
Definition parseClassMethod (startPos : Z) (static : bool) (computed : option bool)
    (key : Node) (kind : string) (isGenerator isAsync allowsDirectSuper : bool) : M Node :=
  (if String.eqb kind "constructor" then
     when isGenerator (raise (node_start key) "Constructor can't be a generator") ;;
     when isAsync (raise (node_start key) "Constructor can't be an async method")
   else
     when (static && checkKeyName computed key "prototype")
       (raise (node_start key) "Classes may not have a static property named prototype")) ;;
  value <- parseMethod isGenerator isAsync allowsDirectSuper ;;
  let params := node_params value in
  when (String.eqb kind "get" && negb (Nat.eqb (List.length params) 0))
    (raiseRecoverable (node_start value) "getter should have no params") ;;
  when (String.eqb kind "set" && negb (Nat.eqb (List.length params) 1))
    (raiseRecoverable (node_start value) "setter should have exactly one param") ;;
  (if String.eqb kind "set" then
     match params with
     | Some p :: _ =>
         when (String.eqb (node_type p) "RestElement")
           (raiseRecoverable (node_start p) "Setter cannot use rest params")
     | _ => halt (TypeError "value.params[0] has no type")
     end
   else ret tt) ;;
  finishNode (fun st en => MethodDefinition st en static computed key kind value) startPos.

(** [parseClassField(field)].  [scope] is the object [currentThisScope()]
    gives before the initializer; it is the current one again after it. *)
Definition parseClassField (startPos : Z) (static : bool) (computed : option bool)
    (key : Node) : M Node :=
  (if checkKeyName computed key "constructor" then
     raise (node_start key) "Classes can't have a field named 'constructor'"
   else
     when (static && checkKeyName computed key "prototype")
       (raise (node_start key) "Classes can't have a static field named 'prototype'")) ;;
  hasInit <- eat tt.eq ;;
  value <- (if hasInit then
              inClassFieldInit <- gets (currentThisScope_inClassFieldInit env) ;;
              set_currentThisScope_inClassFieldInit env true ;;
              '(v, _) <- parseMaybeAssign VUndefined None None ;;
              set_currentThisScope_inClassFieldInit env inClassFieldInit ;;
              ret (Some v)
            else ret None) ;;
  semicolon ;;
  finishNode (fun st en => PropertyDefinition st en static computed key value) startPos.

(** [parseClassStaticBlock(node)]; its loop is the one of [parseBlock]:
    [parseStatement(null)] until [tt.braceR]. *)
Definition parseClassStaticBlock (startPos : Z) : M Node :=
  oldLabels <- gets labels ;;
  modify (set_labels []) ;;
  enterScope env (Z.lor SCOPE_CLASS_STATIC_BLOCK SCOPE_SUPER) ;;
  body <- parseBlock_loop fuel [] ;;
  next ;;
  exitScope env ;;
  modify (set_labels oldLabels) ;;
  finishNode (fun st en => StaticBlock st en body) startPos.

(** [parseClassElement(constructorAllowsSuper)]; [None] is [null]. *)
Definition parseClassElement (constructorAllowsSuper : bool) : M (option Node) :=
  semi <- eat tt.semi ;;
  if semi then ret None else
  fun s =>
  let ev := ecmaVersion (options s) in
  let startPos := start s in
  let nameStart (st : State) :=
    isClassElementNameStart st || TokenType.eqb (type st) tt.star in
  (static_ <- eatContextual "static" ;;
   r <- (if static_ then
           brace <- (if ev >=? 13 then eat tt.braceL else ret false) ;;
           if brace then n <- parseClassStaticBlock startPos ;; ret (inl n)
           else fun s1 => if nameStart s1 then ret (inr (true, "")) s1
                          else ret (inr (false, "static")) s1
         else ret (inr (false, ""))) ;;
   match r with
   | inl n => ret (Some n)
   | inr (isStatic, keyName) =>
       '(isAsync, keyName) <-
          (if String.eqb keyName "" && (ev >=? 8) then
             async_ <- eatContextual "async" ;;
             if async_ then
               fun s2 => if nameStart s2 && negb (canInsertSemicolon s2)
                         then ret (true, keyName) s2
                         else ret (false, "async") s2
             else ret (false, keyName)
           else ret (false, keyName)) ;;
       isGenerator <- (if String.eqb keyName "" && ((ev >=? 9) || negb isAsync)
                       then eat tt.star else ret false) ;;
       '(kind, keyName) <-
          (if String.eqb keyName "" && negb isAsync && negb isGenerator then
             lastValue <- gets value ;;
             get_ <- eatContextual "get" ;;
             accessor <- (if get_ then ret true else eatContextual "set") ;;
             if accessor then
               fun s3 => if isClassElementNameStart s3
                         then ret (str lastValue, keyName) s3
                         else ret ("method", str lastValue) s3
             else ret ("method", keyName)
           else ret ("method", keyName)) ;;
       '(computed, key) <-
          (if negb (String.eqb keyName "") then
             fun s4 => ret (Some false,
                            Identifier (lastTokStart s4) (lastTokEnd s4) keyName) s4
           else parseClassElementName) ;;
       fun s5 =>
       if (ev <? 13) || TokenType.eqb (type s5) tt.parenL
          || negb (String.eqb kind "method") || isGenerator || isAsync then
         let isConstructor := negb isStatic && checkKeyName computed key "constructor" in
         let allowsDirectSuper := isConstructor && constructorAllowsSuper in
         (when (isConstructor && negb (String.eqb kind "method"))
            (raise (node_start key) "Constructor can't have get/set modifier") ;;
          n <- parseClassMethod startPos isStatic computed key
                 (if isConstructor then "constructor" else kind)
                 isGenerator isAsync allowsDirectSuper ;;
          ret (Some n)) s5
       else
         (n <- parseClassField startPos isStatic computed key ;; ret (Some n)) s5
   end) s.

(** [parseClassId(node, isStatement)]: the result is [node.id];
    [isStatement] is [true], [false] or ["nullableID"]. *)
Definition parseClassId (isStatement : JsVal) : M (option Node) :=
  fun s =>
  if TokenType.eqb (type s) tt.name then
    (id <- parseIdent false ;;
     when (truthy isStatement) (checkLValSimple id BIND_LEXICAL None ;; ret tt) ;;
     ret (Some id)) s
  else
    (when (JsVal_eqb isStatement (VBool true)) (unexpected None) ;;
     ret None) s.

(** [parseClassSuper(node)]: the result is [node.superClass]. *)
Definition parseClassSuper : M (option Node) :=
  extends <- eat tt._extends ;;
  if extends then '(e, _) <- parseExprSubscripts None VUndefined ;; ret (Some e)
  else ret None.

(** [isPrivateNameConflicted(privateNameMap, element)] on the object
    [enterClassBody] returned: the [declared] of the frame of this class,
    which is on top of the stack whenever an element has been parsed. *)
Definition declarePrivateName (name type kind : string) (static : bool) : M bool :=
  fun s =>
  match privateNameStack s with
  | mkPrivateFrame declared used :: below =>
      let '(conflicted, declared') := isPrivateNameConflicted declared name type kind static in
      Ok conflicted (set_privateNameStack (mkPrivateFrame declared' used :: below) s)
  | [] => halt (TypeError "the frame of the class is not on the stack") s
  end.

(** The [while (this.type !== tt.braceR)] loop of [parseClass]. *)
Fixpoint parseClass_loop (n : nat) (constructorAllowsSuper : bool) (body : list Node)
    (hadConstructor : bool) : M (list Node) :=
  match n with
  | O => halt OutOfFuel
  | S n' =>
      ty <- gets type ;;
      if TokenType.eqb ty tt.braceR then ret body
      else
        element <- parseClassElement constructorAllowsSuper ;;
        match element with
        | None => parseClass_loop n' constructorAllowsSuper body hadConstructor
        | Some element =>
            let body' := body ++ [element] in
            match element with
            | MethodDefinition st _ static _ key kind _ =>
                if String.eqb kind "constructor" then
                  when hadConstructor
                    (raise st "Duplicate constructor in the same class") ;;
                  parseClass_loop n' constructorAllowsSuper body' true
                else
                  match key with
                  | PrivateIdentifier kstart _ name =>
                      conflicted <- declarePrivateName name "MethodDefinition" kind static ;;
                      when conflicted
                        (raiseRecoverable kstart
                           ("Identifier '#" ++ name ++ "' has already been declared")) ;;
                      parseClass_loop n' constructorAllowsSuper body' hadConstructor
                  | _ => parseClass_loop n' constructorAllowsSuper body' hadConstructor
                  end
            | PropertyDefinition _ _ static _ (PrivateIdentifier kstart _ name) _ =>
                conflicted <- declarePrivateName name "PropertyDefinition" "" static ;;
                when conflicted
                  (raiseRecoverable kstart
                     ("Identifier '#" ++ name ++ "' has already been declared")) ;;
                parseClass_loop n' constructorAllowsSuper body' hadConstructor
            | _ => parseClass_loop n' constructorAllowsSuper body' hadConstructor
            end
        end
  end.

(** [parseClass(node, isStatement)], [node] started at [startPos]. *)
Definition parseClass (startPos : Z) (isStatement : JsVal) : M Node :=
  next ;;
  oldStrict <- gets strict ;;
  modify (set_strict true) ;;
  id <- parseClassId isStatement ;;
  superClass <- parseClassSuper ;;
  enterClassBody ;;
  classBodyStart <- gets start ;;
  expect tt.braceL ;;
  elements <- parseClass_loop fuel
                (match superClass with Some _ => true | None => false end) [] false ;;
  modify (set_strict oldStrict) ;;
  next ;;
  body <- finishNode (fun st en => ClassBody st en elements) classBodyStart ;;
  exitClassBody ;;
  finishNode (fun st en => if truthy isStatement
                           then ClassDeclaration st en id superClass body
                           else ClassExpression st en id superClass body) startPos.

End Bodies.

(** ** Tying the knot

    [parser (S n)] runs the functions above with [parser n] for their
    recursive calls and [n] iterations for their loops; [parser 0] has run
    out of fuel. *)
Definition outOfFuel : Rec :=
  mkRec (fun _ _ => halt OutOfFuel) (fun _ _ _ => halt OutOfFuel)
        (fun _ _ _ _ => halt OutOfFuel) (fun _ _ _ _ => halt OutOfFuel)
        (halt OutOfFuel) (fun _ _ => halt OutOfFuel)
        (fun _ _ _ _ _ _ => halt OutOfFuel) (fun _ _ => halt OutOfFuel).

Fixpoint parser (fuel : nat) : Rec :=
  match fuel with
  | O => outOfFuel
  | S n =>
      let rec := parser n in
      mkRec (parseExpression rec n) (parseMaybeAssign rec n) (parseMaybeUnary rec n)
            (parseExprOp rec) (parseBindingAtom rec n) (parseStatement rec n)
            (parseFunctionBody rec n) (parseClass rec n)
  end.

(** The [while (this.type !== tt.eof)] loop of [parseTopLevel]: the
    statements of the program, [node.body] as it is before
    [adaptDirectivePrologue]. *)
Fixpoint parseTopLevel_loop (n : nat) (body : list Node) : M (list Node) :=
  match n with
  | O => halt OutOfFuel
  | S n' =>
      ty <- gets type ;;
      if TokenType.eqb ty tt.eof then ret body
      else stmt <- rec_parseStatement (parser n') None true ;;
           parseTopLevel_loop n' (body ++ [stmt])
  end.

End Parser.

(** ** The lookahead of [isLet], as a proposition

    What follows [let] so that it starts a declaration: after white space
    and comments the input continues with [[] (91), a backslash (92), [{]
    (123), a lead surrogate, or an identifier start whose identifier is
    followed by a backslash or a lead surrogate, or is not one of [in] and
    [instanceof]. *)
Definition startsBinding (env : Env) (input : list Z) (pos : Z) : Prop :=
  let next := afterWhiteSpace input pos in
  let nextCh := charCodeAt input next in
  nextCh = Some 91 \/ nextCh = Some 92 \/ nextCh = Some 123
  \/ isLeadSurrogate nextCh = true
  \/ (identifierStart env nextCh true = true
      /\ let p := identEnd env (List.length input) input (next + 1) in
         (charCodeAt input p = Some 92
          \/ isLeadSurrogate (charCodeAt input p) = true
          \/ keywordRelationalOperator_test (slice input next p) = false)).

(** The same where the statement has a context: only [[] and a backslash. *)
Definition startsBindingInContext (input : list Z) (pos : Z) : Prop :=
  let nextCh := charCodeAt input (afterWhiteSpace input pos) in
  nextCh = Some 91 \/ nextCh = Some 92.

(** The [used] entries of a frame that its [declared] does not have. *)
Definition undeclared (declared : list (string * string)) (used : list Node) : list Node :=
  filter (fun id => negb (hasOwn_declared declared (node_name id))) used.

(** ** An instance of [Env]

    Modelled from the spec: sections 4.C3 and 6 describe what identifier.js,
    state.js and scope.js provide; none is under src/.  The instance is the
    one the examples run in: ECMAScript 2015 and later, source type
    "script", ASCII identifiers.  The functions outside the embedding stop
    the evaluation with [NotEmbedded]. *)
Module Acorn.

Definition wordsRegexp (words : list string) (w : string) : bool :=
  existsb (String.eqb w) words.

Definition keywords : string -> bool :=
  wordsRegexp ["break"; "case"; "catch"; "continue"; "debugger"; "default"; "do";
               "else"; "finally"; "for"; "function"; "if"; "return"; "switch";
               "throw"; "try"; "var"; "while"; "with"; "null"; "true"; "false";
               "instanceof"; "typeof"; "void"; "delete"; "new"; "in"; "this";
               "const"; "class"; "extends"; "export"; "import"; "super"].

Definition reservedWords : string -> bool := wordsRegexp ["enum"].

Definition reservedWordsStrict : string -> bool :=
  wordsRegexp ["enum"; "implements"; "interface"; "let"; "package"; "private";
               "protected"; "public"; "static"; "yield"].

Definition reservedWordsStrictBind : string -> bool :=
  wordsRegexp ["enum"; "implements"; "interface"; "let"; "package"; "private";
               "protected"; "public"; "static"; "yield"; "eval"; "arguments"].

(** ASCII identifier characters: [$], [_], letters, and digits after the
    first character. *)
Definition isIdentifierStart (code : Z) (astral : bool) : bool :=
  (code =? 36) || (code =? 95)
  || ((65 <=? code) && (code <=? 90)) || ((97 <=? code) && (code <=? 122)).

Definition isIdentifierChar (code : Z) (astral : bool) : bool :=
  isIdentifierStart code astral || ((48 <=? code) && (code <=? 57)).

Definition has (flags bit : Z) : bool := negb (Z.land flags bit =? 0).

Definition SCOPE_VAR : Z :=
  Z.lor SCOPE_TOP (Z.lor SCOPE_FUNCTION SCOPE_CLASS_STATIC_BLOCK).

Definition noScope : Scope := mkScope 0 [] [] [] false.

(** [currentVarScope()]: the nearest function, static block or top scope. *)
Definition currentVarScope (s : State) : Scope :=
  match find (fun sc => has (scope_flags sc) SCOPE_VAR) (scopeStack s) with
  | Some sc => sc
  | None => noScope
  end.

(** [currentThisScope()]: the same, arrow functions skipped. *)
Definition currentThisScope (s : State) : Scope :=
  match find (fun sc => has (scope_flags sc) SCOPE_VAR
                        && negb (has (scope_flags sc) SCOPE_ARROW)) (scopeStack s) with
  | Some sc => sc
  | None => noScope
  end.

(** [currentThisScope().inClassFieldInit = v]. *)
Fixpoint set_inClassFieldInit (v : bool) (l : list Scope) : list Scope :=
  match l with
  | [] => []
  | sc :: tl =>
      if has (scope_flags sc) SCOPE_VAR && negb (has (scope_flags sc) SCOPE_ARROW)
      then mkScope (scope_flags sc) (scope_var sc) (scope_lexical sc)
             (scope_functions sc) v :: tl
      else sc :: set_inClassFieldInit v tl
  end.

Definition set_currentThisScope_inClassFieldInit (v : bool) : M unit :=
  modify (fun s => set_scopeStack (set_inClassFieldInit v (scopeStack s)) s).

Definition inFunction (s : State) : bool :=
  has (scope_flags (currentVarScope s)) SCOPE_FUNCTION.

Definition inGenerator (s : State) : bool :=
  has (scope_flags (currentVarScope s)) SCOPE_GENERATOR
  && negb (scope_inClassFieldInit (currentVarScope s)).

Definition inAsync (s : State) : bool :=
  has (scope_flags (currentVarScope s)) SCOPE_ASYNC
  && negb (scope_inClassFieldInit (currentVarScope s)).

Fixpoint canAwait_from (l : list Scope) : bool :=
  match l with
  | [] => false
  | sc :: tl =>
      if scope_inClassFieldInit sc || has (scope_flags sc) SCOPE_CLASS_STATIC_BLOCK
      then false
      else if has (scope_flags sc) SCOPE_FUNCTION then has (scope_flags sc) SCOPE_ASYNC
      else canAwait_from tl
  end.

Definition canAwait (s : State) : bool := canAwait_from (scopeStack s).

Definition allowSuper (s : State) : bool :=
  has (scope_flags (currentThisScope s)) SCOPE_SUPER
  || scope_inClassFieldInit (currentThisScope s).

Definition allowDirectSuper (s : State) : bool :=
  has (scope_flags (currentThisScope s)) SCOPE_DIRECT_SUPER.

Definition inClassStaticBlock (s : State) : bool :=
  has (scope_flags (currentVarScope s)) SCOPE_CLASS_STATIC_BLOCK.

Definition enterScope (flags : Z) : M unit :=
  modify (fun s => set_scopeStack (mkScope flags [] [] [] false :: scopeStack s) s).

Definition exitScope : M unit :=
  modify (fun s => set_scopeStack (tl (scopeStack s)) s).

Definition mem (name : string) (l : list string) : bool := existsb (String.eqb name) l.

(** A [var] binding goes up to the nearest function or top scope and may
    not meet a lexical binding of the same name on the way; [None] is a
    redeclaration. *)
Fixpoint declareVar (name : string) (l : list Scope) : option (list Scope) :=
  match l with
  | [] => Some []
  | sc :: tl =>
      if mem name (scope_lexical sc)
         && negb (has (scope_flags sc) SCOPE_SIMPLE_CATCH
                  && match scope_lexical sc with
                     | first :: _ => String.eqb first name
                     | [] => false
                     end)
      then None
      else
        let sc' := mkScope (scope_flags sc) (scope_var sc ++ [name]) (scope_lexical sc)
                     (scope_functions sc) (scope_inClassFieldInit sc) in
        if has (scope_flags sc) SCOPE_VAR then Some (sc' :: tl)
        else option_map (cons sc') (declareVar name tl)
  end.

(** [declareName(name, bindingType, pos)]: [let] and [const] may not repeat
    in their scope; [var] may repeat, but may not collide with an enclosing
    [let] or [const]. *)
Definition declareName (name : string) (bindingType : BindingType) (pos : Z) : M unit :=
  fun s =>
  let redeclared := raiseRecoverable pos
                      ("Identifier '" ++ name ++ "' has already been declared") in
  match bindingType, scopeStack s with
  | BIND_LEXICAL, sc :: tl =>
      (when (mem name (scope_lexical sc) || mem name (scope_functions sc)
             || mem name (scope_var sc)) redeclared ;;
       modify (set_scopeStack
                 (mkScope (scope_flags sc) (scope_var sc) (scope_lexical sc ++ [name])
                    (scope_functions sc) (scope_inClassFieldInit sc) :: tl))) s
  | BIND_SIMPLE_CATCH, sc :: tl =>
      modify (set_scopeStack
                (mkScope (scope_flags sc) (scope_var sc) (scope_lexical sc ++ [name])
                   (scope_functions sc) (scope_inClassFieldInit sc) :: tl)) s
  | BIND_FUNCTION, sc :: tl =>
      (when (mem name (scope_lexical sc)) redeclared ;;
       modify (set_scopeStack
                 (mkScope (scope_flags sc) (scope_var sc) (scope_lexical sc)
                    (scope_functions sc ++ [name]) (scope_inClassFieldInit sc) :: tl))) s
  | _, l =>
      match declareVar name l with
      | Some l' => modify (set_scopeStack l') s
      | None => redeclared s
      end
  end.

Definition env : Env :=
  mkEnv isIdentifierStart isIdentifierChar
    keywords reservedWords reservedWordsStrict reservedWordsStrictBind
    (fun _ => false) inFunction inGenerator inAsync canAwait allowSuper
    allowDirectSuper inClassStaticBlock
    (fun s => scope_inClassFieldInit (currentThisScope s))
    set_currentThisScope_inClassFieldInit
    enterScope exitScope declareName
    (halt (NotEmbedded "readRegexp"))
    (fun _ => halt (NotEmbedded "strictDirective"))
    (fun _ _ => halt (NotEmbedded "parseObj"))
    (fun _ _ _ _ _ => halt (NotEmbedded "parseFunction"))
    (halt (NotEmbedded "parseNew"))
    (fun _ => halt (NotEmbedded "parseTemplate"))
    (halt (NotEmbedded "parseExprImport"))
    (fun _ => halt (NotEmbedded "parseYield"))
    (halt (NotEmbedded "parseLiteral of a regexp token"))
    (fun _ => halt (NotEmbedded "parseSwitchStatement"))
    (fun _ => halt (NotEmbedded "parseTryStatement"))
    (fun _ => halt (NotEmbedded "parseImport"))
    (fun _ => halt (NotEmbedded "parseExport"))
    (fun _ _ => halt (NotEmbedded "parseBreakContinueStatement"))
    (fun _ => halt (NotEmbedded "parseWithStatement")).

(** The state of a parser just created on [input], before any token is
    consumed: the options but [ecmaVersion] are the defaults. *)
Definition init (ecmaVersion : Z) (input : string) (toks : list Token) : State :=
  mkState (mkOptions ecmaVersion false (VBool (ecmaVersion <? 5)) false false)
    (codeUnits input) toks 0 0 false true (-1) false 0 0 0 [] []
    [mkScope SCOPE_TOP [] [] [] false].

(** A token whose value is its text, at [start]. *)
Definition tok (ty : TokenType.t) (text : string) (start : Z) : Token :=
  mkToken ty (VStr text) start (start + Z.of_nat (String.length text)) false.

(** A number token. *)
Definition numTok (n : Z) (text : string) (start : Z) : Token :=
  mkToken tt.num (VNum n) start (start + Z.of_nat (String.length text)) false.

(** A private name token [#name]: its value is the name without [#]. *)
Definition privTok (name : string) (start : Z) : Token :=
  mkToken tt.privateId (VStr name) start (start + 1 + Z.of_nat (String.length name)) false.

(** The text the input holds where each token lies. *)
Definition texts (s : State) : list (list Z) :=
  map (fun t => slice (input s) (tok_start t) (tok_end t)) (toks s).

Definition parseExpression (fuel : nat) : M Node :=
  '(e, _) <- rec_parseExpression (parser env fuel) VUndefined None ;; ret e.

Definition parseStatement (fuel : nat) (context : option string) (topLevel : bool)
  : M Node :=
  rec_parseStatement (parser env fuel) context topLevel.

Definition parseProgramBody (fuel : nat) : M (list Node) :=
  parseTopLevel_loop env fuel [].

End Acorn.

(** ** Inputs of the examples *)

(** The array literal [[a,,b=1,...{c:(d.e)}]] as an assignment target. *)
Definition C1_example : Node :=
  ArrayExpression 0 21
    [Some (Identifier 1 2 "a"); None;
     Some (AssignmentExpression 4 7 "=" (Identifier 4 5 "b")
             (Literal 6 7 (VNum 1) [49] None));
     Some (SpreadElement 8 20
             (ObjectExpression 11 20
                [Property 12 19 false false false (Identifier 12 13 "c")
                   (ParenthesizedExpression 14 19
                      (MemberExpression 15 18 (Identifier 15 16 "d")
                         (Identifier 17 18 "e") false (Some false)))
                   "init"]))].

Definition C1_example_pattern : Node :=
  ArrayPattern 0 21
    [Some (Identifier 1 2 "a"); None;
     Some (AssignmentPattern 4 7 (Identifier 4 5 "b")
             (Literal 6 7 (VNum 1) [49] None));
     Some (RestElement 8 20
             (ObjectPattern 11 20
                [Property 12 19 false false false (Identifier 12 13 "c")
                   (ParenthesizedExpression 14 19
                      (MemberExpression 15 18 (Identifier 15 16 "d")
                         (Identifier 17 18 "e") false (Some false)))
                   "init"]))].


(** [[a,,b]], [[a,,b] = c] and [let [a,,b] = c] *)
Definition C9_literal : State :=
  Acorn.init 2020 "[a,,b]"
    [Acorn.tok tt.bracketL "[" 0; Acorn.tok tt.name "a" 1; Acorn.tok tt.comma "," 2;
     Acorn.tok tt.comma "," 3; Acorn.tok tt.name "b" 4; Acorn.tok tt.bracketR "]" 5].

Definition C9_assignment : State :=
  Acorn.init 2020 "[a,,b] = c"
    [Acorn.tok tt.bracketL "[" 0; Acorn.tok tt.name "a" 1; Acorn.tok tt.comma "," 2;
     Acorn.tok tt.comma "," 3; Acorn.tok tt.name "b" 4; Acorn.tok tt.bracketR "]" 5;
     Acorn.tok tt.eq "=" 7; Acorn.tok tt.name "c" 9].

Definition C9_binding : State :=
  Acorn.init 2020 "let [a,,b] = c"
    [Acorn.tok tt.name "let" 0; Acorn.tok tt.bracketL "[" 4; Acorn.tok tt.name "a" 5;
     Acorn.tok tt.comma "," 6; Acorn.tok tt.comma "," 7; Acorn.tok tt.name "b" 8;
     Acorn.tok tt.bracketR "]" 9; Acorn.tok tt.eq "=" 11; Acorn.tok tt.name "c" 13].

(** [do x; while (y) z] on one line, for a given [ecmaVersion], and with a
    line break before [z]. *)
Definition C10_tokens : list Token :=
  [Acorn.tok tt._do "do" 0; Acorn.tok tt.name "x" 3; Acorn.tok tt.semi ";" 4;
   Acorn.tok tt._while "while" 6; Acorn.tok tt.parenL "(" 12; Acorn.tok tt.name "y" 13;
   Acorn.tok tt.parenR ")" 14; Acorn.tok tt.name "z" 16].

Definition C10_one_line (ecmaVersion : Z) : State :=
  Acorn.init ecmaVersion "do x; while (y) z" C10_tokens.

Definition C10_two_lines (ecmaVersion : Z) : State :=
  Acorn.init ecmaVersion ("do x; while (y)" ++ String (Ascii.ascii_of_nat 10) "z")
    C10_tokens.

(** [[a,,b]] once [[a] is consumed: the parser is at the first comma. *)
Definition C9_at_elision : State := advance (advance C9_literal).

(** [++x], [!x], [typeof x], [x++], [++x ** 2], and [x] followed by [++y]
    on the next line. *)
Definition C4_prefix_update : State :=
  Acorn.init 2020 "++x" [Acorn.tok tt.incDec "++" 0; Acorn.tok tt.name "x" 2].

Definition C4_prefix_not : State :=
  Acorn.init 2020 "!x" [Acorn.tok tt.prefix "!" 0; Acorn.tok tt.name "x" 1].

Definition C4_prefix_typeof : State :=
  Acorn.init 2020 "typeof x" [Acorn.tok tt._typeof "typeof" 0; Acorn.tok tt.name "x" 7].

Definition C4_postfix : State :=
  Acorn.init 2020 "x++" [Acorn.tok tt.name "x" 0; Acorn.tok tt.incDec "++" 1].

Definition C4_newline : State :=
  Acorn.init 2020 ("x" ++ String (Ascii.ascii_of_nat 10) "++y")
    [Acorn.tok tt.name "x" 0; Acorn.tok tt.incDec "++" 2; Acorn.tok tt.name "y" 4].

(** [1 && 2 ?? 3], [(1 && 2) ?? 3], [1 ?? 2 || 3] and [1 ?? (2 || 3)] *)
Definition C3_mixed : State :=
  Acorn.init 2020 "1 && 2 ?? 3"
    [Acorn.numTok 1 "1" 0; Acorn.tok tt.logicalAND "&&" 2; Acorn.numTok 2 "2" 5;
     Acorn.tok tt.coalesce "??" 7; Acorn.numTok 3 "3" 10].

Definition C3_parenthesized : State :=
  Acorn.init 2020 "(1 && 2) ?? 3"
    [Acorn.tok tt.parenL "(" 0; Acorn.numTok 1 "1" 1; Acorn.tok tt.logicalAND "&&" 3;
     Acorn.numTok 2 "2" 6; Acorn.tok tt.parenR ")" 7; Acorn.tok tt.coalesce "??" 9;
     Acorn.numTok 3 "3" 12].

Definition C3_mixed_or : State :=
  Acorn.init 2020 "1 ?? 2 || 3"
    [Acorn.numTok 1 "1" 0; Acorn.tok tt.coalesce "??" 2; Acorn.numTok 2 "2" 5;
     Acorn.tok tt.logicalOR "||" 7; Acorn.numTok 3 "3" 10].

Definition C3_parenthesized_or : State :=
  Acorn.init 2020 "1 ?? (2 || 3)"
    [Acorn.numTok 1 "1" 0; Acorn.tok tt.coalesce "??" 2; Acorn.tok tt.parenL "(" 5;
     Acorn.numTok 2 "2" 6; Acorn.tok tt.logicalOR "||" 8; Acorn.numTok 3 "3" 11;
     Acorn.tok tt.parenR ")" 12].

(** [a?.b.c?.()], [a?.b] and [a.b] *)
Definition C2_two_optionals : State :=
  Acorn.init 2020 "a?.b.c?.()"
    [Acorn.tok tt.name "a" 0; Acorn.tok tt.questionDot "?." 1; Acorn.tok tt.name "b" 3;
     Acorn.tok tt.dot "." 4; Acorn.tok tt.name "c" 5; Acorn.tok tt.questionDot "?." 6;
     Acorn.tok tt.parenL "(" 8; Acorn.tok tt.parenR ")" 9].

Definition C2_one_optional : State :=
  Acorn.init 2020 "a?.b"
    [Acorn.tok tt.name "a" 0; Acorn.tok tt.questionDot "?." 1; Acorn.tok tt.name "b" 3].

Definition C2_no_optional : State :=
  Acorn.init 2020 "a.b"
    [Acorn.tok tt.name "a" 0; Acorn.tok tt.dot "." 1; Acorn.tok tt.name "b" 2].

(** [class C { #x; method() { return this.#x; } }],
    [class C { method() { return this.#x; } }] and
    [class A { #x; m() { class B { n() { return this.#x; } } } }] *)
Definition C7_declared : State :=
  Acorn.init 2022 "class C { #x; method() { return this.#x; } }"
    [Acorn.tok tt._class "class" 0; Acorn.tok tt.name "C" 6; Acorn.tok tt.braceL "{" 8;
     Acorn.privTok "x" 10; Acorn.tok tt.semi ";" 12;
     Acorn.tok tt.name "method" 14; Acorn.tok tt.parenL "(" 20; Acorn.tok tt.parenR ")" 21;
     Acorn.tok tt.braceL "{" 23; Acorn.tok tt._return "return" 25;
     Acorn.tok tt._this "this" 32; Acorn.tok tt.dot "." 36; Acorn.privTok "x" 37;
     Acorn.tok tt.semi ";" 39; Acorn.tok tt.braceR "}" 41; Acorn.tok tt.braceR "}" 43].

Definition C7_undeclared : State :=
  Acorn.init 2022 "class C { method() { return this.#x; } }"
    [Acorn.tok tt._class "class" 0; Acorn.tok tt.name "C" 6; Acorn.tok tt.braceL "{" 8;
     Acorn.tok tt.name "method" 10; Acorn.tok tt.parenL "(" 16; Acorn.tok tt.parenR ")" 17;
     Acorn.tok tt.braceL "{" 19; Acorn.tok tt._return "return" 21;
     Acorn.tok tt._this "this" 28; Acorn.tok tt.dot "." 32; Acorn.privTok "x" 33;
     Acorn.tok tt.semi ";" 35; Acorn.tok tt.braceR "}" 37; Acorn.tok tt.braceR "}" 39].

Definition C7_nested : State :=
  Acorn.init 2022 "class A { #x; m() { class B { n() { return this.#x; } } } }"
    [Acorn.tok tt._class "class" 0; Acorn.tok tt.name "A" 6; Acorn.tok tt.braceL "{" 8;
     Acorn.privTok "x" 10; Acorn.tok tt.semi ";" 12;
     Acorn.tok tt.name "m" 14; Acorn.tok tt.parenL "(" 15; Acorn.tok tt.parenR ")" 16;
     Acorn.tok tt.braceL "{" 18;
     Acorn.tok tt._class "class" 20; Acorn.tok tt.name "B" 26; Acorn.tok tt.braceL "{" 28;
     Acorn.tok tt.name "n" 30; Acorn.tok tt.parenL "(" 31; Acorn.tok tt.parenR ")" 32;
     Acorn.tok tt.braceL "{" 34; Acorn.tok tt._return "return" 36;
     Acorn.tok tt._this "this" 43; Acorn.tok tt.dot "." 47; Acorn.privTok "x" 48;
     Acorn.tok tt.semi ";" 50; Acorn.tok tt.braceR "}" 52; Acorn.tok tt.braceR "}" 54;
     Acorn.tok tt.braceR "}" 56; Acorn.tok tt.braceR "}" 58].

(** [const x], line break, [of]; [for (const x of xs) x++;]; [const x;] and
    [const x in y] *)
Definition C8_const_of : State :=
  Acorn.init 2020 ("const x" ++ String (Ascii.ascii_of_nat 10) "of")
    [Acorn.tok tt._const "const" 0; Acorn.tok tt.name "x" 6; Acorn.tok tt.name "of" 8].

Definition C8_for_of : State :=
  Acorn.init 2020 "for (const x of xs) x++;"
    [Acorn.tok tt._for "for" 0; Acorn.tok tt.parenL "(" 4; Acorn.tok tt._const "const" 5;
     Acorn.tok tt.name "x" 11; Acorn.tok tt.name "of" 13; Acorn.tok tt.name "xs" 16;
     Acorn.tok tt.parenR ")" 18; Acorn.tok tt.name "x" 20; Acorn.tok tt.incDec "++" 21;
     Acorn.tok tt.semi ";" 23].

Definition C8_const_semi : State :=
  Acorn.init 2020 "const x;"
    [Acorn.tok tt._const "const" 0; Acorn.tok tt.name "x" 6; Acorn.tok tt.semi ";" 7].

Definition C8_const_in : State :=
  Acorn.init 2020 "const x in y"
    [Acorn.tok tt._const "const" 0; Acorn.tok tt.name "x" 6; Acorn.tok tt._in "in" 8;
     Acorn.tok tt.name "y" 11].

(** [let x = 1], [let in x], [let [x] = 1] for a given [ecmaVersion],
    [let] followed by the name [a] written as the escape sequence of code
    unit 92 and [u0061], [l: let [x] = 1], and [if (a) let], line break,
    [x]. *)
Definition C5_let_x : State :=
  Acorn.init 2020 "let x = 1"
    [Acorn.tok tt.name "let" 0; Acorn.tok tt.name "x" 4; Acorn.tok tt.eq "=" 6;
     Acorn.numTok 1 "1" 8].

Definition C5_let_in : State :=
  Acorn.init 2020 "let in x"
    [Acorn.tok tt.name "let" 0; Acorn.tok tt._in "in" 4; Acorn.tok tt.name "x" 7].

Definition C5_let_bracket (ecmaVersion : Z) : State :=
  Acorn.init ecmaVersion "let [x] = 1"
    [Acorn.tok tt.name "let" 0; Acorn.tok tt.bracketL "[" 4; Acorn.tok tt.name "x" 5;
     Acorn.tok tt.bracketR "]" 6; Acorn.tok tt.eq "=" 8; Acorn.numTok 1 "1" 10].

Definition C5_let_escape : State :=
  Acorn.init 2020 ("let " ++ String (Ascii.ascii_of_nat 92) "u0061 = 1")
    [Acorn.tok tt.name "let" 0; mkToken tt.name (VStr "a") 4 10 true;
     Acorn.tok tt.eq "=" 11; Acorn.numTok 1 "1" 13].

Definition C5_label_let : State :=
  Acorn.init 2020 "l: let [x] = 1"
    [Acorn.tok tt.name "l" 0; Acorn.tok tt.colon ":" 1; Acorn.tok tt.name "let" 3;
     Acorn.tok tt.bracketL "[" 7; Acorn.tok tt.name "x" 8; Acorn.tok tt.bracketR "]" 9;
     Acorn.tok tt.eq "=" 11; Acorn.numTok 1 "1" 13].

Definition C5_if_let : State :=
  Acorn.init 2020 ("if (a) let" ++ String (Ascii.ascii_of_nat 10) "x")
    [Acorn.tok tt._if "if" 0; Acorn.tok tt.parenL "(" 3; Acorn.tok tt.name "a" 4;
     Acorn.tok tt.parenR ")" 5; Acorn.tok tt.name "let" 7; Acorn.tok tt.name "x" 11].

(** The parser as it leaves the body of an inner class that declared [#y]
    and read [#x] and [#y], inside a class that declared [#x]; and as it
    leaves the body of an outermost class that read [#x] at 33 and declared
    nothing. *)
Definition C7_inner_exit : State :=
  set_privateNameStack
    [mkPrivateFrame [("y", "true")] [PrivateIdentifier 48 50 "x"; PrivateIdentifier 60 62 "y"];
     mkPrivateFrame [("x", "true")] []]
    (Acorn.init 2022 "" []).

Definition C7_outer_exit : State :=
  set_privateNameStack [mkPrivateFrame [] [PrivateIdentifier 33 35 "x"]]
    (Acorn.init 2022 "" []).

(** [class C { #x; method() { return this.#x; } }] at the second [#x], the
    parser being inside the body of [C]. *)
Definition C7_at_use : State :=
  set_privateNameStack [mkPrivateFrame [("x", "true")] [PrivateIdentifier 10 12 "x"]]
    (set_toks [Acorn.privTok "x" 37; Acorn.tok tt.semi ";" 39; Acorn.tok tt.braceR "}" 41;
               Acorn.tok tt.braceR "}" 43]
       (set_lastTok 36 37 C7_declared)).

(** ** util.js

    [codePointToString(code)] for an integer [code]: the code units of the
    string it returns.  [>>] and [&] work on [ToInt32] of their operands,
    [String.fromCharCode] on [ToUint16] of its arguments. *)
Module Util.

Definition toInt32 (z : Z) : Z := (z + 2 ^ 31) mod 2 ^ 32 - 2 ^ 31.

Definition fromCharCode (c : Z) : Z := c mod 2 ^ 16.

Definition codePointToString (code : Z) : list Z :=
  if code <=? 0xFFFF then [fromCharCode code]
  else
    let code := code - 0x10000 in
    [fromCharCode (Z.shiftr (toInt32 code) 10 + 0xD800);
     fromCharCode (Z.land (toInt32 code) 1023 + 0xDC00)].

End Util.

(** ** whitespace.js: [nextLineBreak]

    [nextLineBreak(code, from, end)]: the loop runs for [i] from [from] up
    to [end], so [end - from] rounds at most. *)
Fixpoint nextLineBreak_loop (n : nat) (code : list Z) (i end_ : Z) : Z :=
  match n with
  | O => -1
  | S n' =>
      if i <? end_ then
        let next := charCodeAt code i in
        if match next with Some c => isNewLine c | None => false end then
          if (i <? end_ - 1) && isCode next 13 && isCode (charCodeAt code (i + 1)) 10
          then i + 2 else i + 1
        else nextLineBreak_loop n' code (i + 1) end_
      else -1
  end.

Definition nextLineBreak (code : list Z) (from end_ : Z) : Z :=
  nextLineBreak_loop (Z.to_nat (end_ - from)) code from end_.

(** The code unit at [j] is a line terminator. *)
Definition newlineAt (code : list Z) (j : Z) : bool :=
  match charCodeAt code j with Some c => isNewLine c | None => false end.

(** ** locutil.js *)
Module Locutil.

Record Position : Type := mkPosition { line : Z; column : Z }.

(** [Position.prototype.offset(n)] *)
Definition offset (p : Position) (n : Z) : Position :=
  mkPosition (line p) (column p + n).

(** The [for (let line = 1, cur = 0;;)] loop of [getLineInfo]; [None] when
    the rounds allowed are used up. *)
Fixpoint getLineInfo_loop (n : nat) (input : list Z) (offset line cur : Z)
  : option Position :=
  match n with
  | O => None
  | S n' =>
      let nextBreak := nextLineBreak input cur offset in
      if nextBreak <? 0 then Some (mkPosition line (offset - cur))
      else getLineInfo_loop n' input offset (line + 1) nextBreak
  end.

(** Every round but the last moves [cur] forward and keeps it at most
    [offset]: [offset + 1] rounds are enough. *)
Definition getLineInfo (input : list Z) (offset : Z) : option Position :=
  getLineInfo_loop (S (Z.to_nat offset)) input offset 1 0.

(** The line breaks of a text, a CR LF pair being one. *)
Fixpoint lineBreaks (l : list Z) : nat :=
  match l with
  | [] => O
  | c :: tl =>
      match tl with
      | d :: tl' =>
          if (c =? 13) && (d =? 10) then S (lineBreaks tl')
          else if isNewLine c then S (lineBreaks tl) else lineBreaks tl
      | [] => if isNewLine c then 1%nat else O
      end
  end.

(** The code units after the last line terminator of a text. *)
Fixpoint lastLine (l : list Z) : list Z :=
  match l with
  | [] => []
  | c :: tl => if existsb isNewLine l then lastLine tl else l
  end.

End Locutil.

(** ** parseutil.js: [strictDirective] *)
Module Parseutil.

(** The body of a string literal after its opening quote [q], as the
    lazy repetition of the pattern [literal] followed by [q] matches it: the
    text between the quotes and the number of code units up to and
    including the closing quote.  A backslash (92) takes the next code unit
    with it, which may not be a line terminator; any other code unit but
    the quote stands for itself. *)
Fixpoint literalBody (q : Z) (l : list Z) : option (list Z * nat) :=
  match l with
  | [] => None
  | c :: tl =>
      if c =? q then Some ([], 1%nat)
      else if c =? 92 then
        match tl with
        | d :: tl' =>
            if isNewLine d then None
            else match literalBody q tl' with
                 | Some (content, n) => Some (c :: d :: content, S (S n))
                 | None => None
                 end
        | [] => None
        end
      else match literalBody q tl with
           | Some (content, n) => Some (c :: content, S n)
           | None => None
           end
  end.

(** [literal.exec(text)]: the pattern [literal] matches, at the start of
    the text, a string in single quotes (39) or in double quotes (34).  The
    result is the group that matched, which is the text between the quotes,
    and [match[0].length]. *)
Definition literal_exec (text : list Z) : option (list Z * nat) :=
  match text with
  | c :: tl =>
      if (c =? 39) || (c =? 34) then
        match literalBody c tl with
        | Some (content, n) => Some (content, S n)
        | None => None
        end
      else None
  | [] => None
  end.

(** The test of [next] against the class of the punctuators that
    continue an expression: one of ( ` . [ + - / * % < > = , ? ^ and the
    ampersand; [next] is one code unit, or none at the end of the input. *)
Definition continuesExpression (next : option Z) : bool :=
  match next with
  | Some c =>
      existsb (Z.eqb c) [40; 96; 46; 91; 43; 45; 47; 42; 37; 60; 62; 61; 44; 63; 94; 38]
  | None => false
  end.

(** The [for (;;)] loop of [strictDirective]; [None] when the rounds
    allowed are used up. *)
Fixpoint strictDirective_loop (n : nat) (input : list Z) (start : Z) : option bool :=
  match n with
  | O => None
  | S n' =>
      let start := afterWhiteSpace input start in
      match literal_exec (skipn (Z.to_nat start) input) with
      | None => Some false
      | Some (content, len) =>
          if list_eqb content (codeUnits "use strict") then
            let spaceStart := start + Z.of_nat len in
            let end_ := afterWhiteSpace input spaceStart in
            let next := charCodeAt input end_ in
            Some (isCode next 59 || isCode next 125
                  || (lineBreak_test (slice input spaceStart end_)
                      && negb (continuesExpression next
                               || (isCode next 33
                                   && isCode (charCodeAt input (end_ + 1)) 61))))
          else
            let start := afterWhiteSpace input (start + Z.of_nat len) in
            let start := if isCode (charCodeAt input start) 59 then start + 1 else start in
            strictDirective_loop n' input start
      end
  end.

(** [strictDirective(start)].  Every round of the loop passes a string
    literal: as many rounds as the input has code units, and one, are
    enough. *)
Definition strictDirective (start : Z) : M bool :=
  fun s =>
  if ecmaVersion (options s) <? 5 then ret false s
  else match strictDirective_loop (S (List.length (input s))) (input s) start with
       | Some b => ret b s
       | None => halt OutOfFuel s
       end.

End Parseutil.

(** ** Names a pattern binds

    The names of the identifiers that [checkLValPattern]
    ([inner] false) and [checkLValInnerPattern] ([inner] true) come to in a
    pattern, in the order they come to them. *)
Fixpoint boundNames (inner : bool) (expr : Node) : list string :=
  match expr with
  | Identifier _ _ name => [name]
  | ParenthesizedExpression _ _ expression => boundNames false expression
  | Property _ _ _ _ _ _ value _ => if inner then boundNames true value else []
  | AssignmentPattern _ _ left_ _ => if inner then boundNames false left_ else []
  | RestElement _ _ argument => if inner then boundNames false argument else []
  | ObjectPattern _ _ properties => flat_map (boundNames true) properties
  | ArrayPattern _ _ elements =>
      flat_map (fun elem => match elem with
                            | Some e => boundNames true e
                            | None => []
                            end) elements
  | _ => []
  end.

(** The names the parameters of a function bind. *)
Definition paramNames (params : list (option Node)) : list string :=
  flat_map (fun param => match param with
                         | Some p => boundNames true p
                         | None => []
                         end) params.

(** The slot that [isPrivateNameConflicted] computes for an element, its
    [next]. *)
Definition privateSlot (type kind : string) (static : bool) : string :=
  if String.eqb type "MethodDefinition" && (String.eqb kind "get" || String.eqb kind "set")
  then ((if static then "s" else "i") ++ kind)%string
  else "true".

(** A getter slot and a setter slot of the same placement. *)
Definition slotsPair (a b : string) : bool :=
  (String.eqb a "iget" && String.eqb b "iset")
  || (String.eqb a "iset" && String.eqb b "iget")
  || (String.eqb a "sget" && String.eqb b "sset")
  || (String.eqb a "sset" && String.eqb b "sget").

(** An element of a class body that is its constructor: a
    [MethodDefinition] of kind "constructor". *)
Definition isConstructorMethod (element : Node) : bool :=
  match element with
  | MethodDefinition _ _ _ _ _ kind _ => String.eqb kind "constructor"
  | _ => false
  end.

Definition constructors (body : list Node) : list Node := filter isConstructorMethod body.

(** A declarator whose target is a pattern has an initializer. *)
Definition patternInitialized (d : Node) : bool :=
  match d with
  | VariableDeclarator _ _ id init =>
      String.eqb (node_type id) "Identifier"
      || match init with Some _ => true | None => false end
  | _ => false
  end.

(** What the checks of [parseClassMethod], [parseClassField] and
    [parseClassElement] leave in a class body: the kind [constructor] goes
    with the instance method named [constructor] and no other element, no
    field has that name, no static element is named [prototype], a getter
    has no parameter, and a setter has one, which is not a rest element. *)
Definition wellFormedElement (element : Node) : bool :=
  match element with
  | MethodDefinition _ _ static computed key kind value =>
      negb (static && checkKeyName computed key "prototype")
      && Bool.eqb (String.eqb kind "constructor")
           (negb static && checkKeyName computed key "constructor")
      && (if String.eqb kind "get" then
            match node_params value with [] => true | _ => false end
          else if String.eqb kind "set" then
            match node_params value with
            | [Some param] => negb (String.eqb (node_type param) "RestElement")
            | _ => false
            end
          else true)
  | PropertyDefinition _ _ static computed key _ =>
      negb (checkKeyName computed key "constructor")
      && negb (static && checkKeyName computed key "prototype")
  | StaticBlock _ _ _ => true
  | _ => false
  end.

(** [node.body.body] of a class. *)
Definition class_elements (node : Node) : list Node :=
  match node with
  | ClassDeclaration _ _ _ _ (ClassBody _ _ elements)
  | ClassExpression _ _ _ _ (ClassBody _ _ elements) => elements
  | _ => []
  end.

(** A statement with [directive] set to the text between the quotes of
    its literal. *)
Definition withDirective (statement : Node) : Node :=
  match statement with
  | ExpressionStatement st en (Literal lst len v raw b) _ =>
      ExpressionStatement st en (Literal lst len v raw b)
        (Some (slice raw 1 (Z.of_nat (List.length raw) - 1)))
  | _ => statement
  end.

(** ** statement.js: the names a declaration exports *)

(** [checkVariableExport(exports, decls)]; [decl.id] is [undefined] or
    [null] where a node has no [id]. *)
Definition checkVariableExport (exports : option (list string)) (decls : list Node)
  : M (option (list string)) :=
  match exports with
  | None => ret None
  | Some _ =>
      foldM (fun decl ex =>
               match decl with
               | VariableDeclarator _ _ id _
               | FunctionExpression _ _ (Some id) _ _ _ _ _
               | ClassDeclaration _ _ (Some id) _ _
               | ClassExpression _ _ (Some id) _ _ => checkPatternExport ex id
               | _ => halt (TypeError "pat is undefined")
               end) decls exports
  end.

(** The names of the identifiers that [checkPatternExport] comes to in a
    pattern, in the order it comes to them. *)
Fixpoint exportNames (pat : Node) : list string :=
  match pat with
  | Identifier _ _ name => [name]
  | ObjectPattern _ _ properties => flat_map exportNames properties
  | ArrayPattern _ _ elements =>
      flat_map (fun elt => match elt with
                           | Some e => exportNames e
                           | None => []
                           end) elements
  | Property _ _ _ _ _ _ value _ => exportNames value
  | AssignmentPattern _ _ left_ _ => exportNames left_
  | RestElement _ _ argument => exportNames argument
  | ParenthesizedExpression _ _ expression => exportNames expression
  | _ => []
  end.

(** The names the declarators of a declaration export. *)
Definition declaredNames (decls : list Node) : list string :=
  flat_map (fun decl => match decl with
                        | VariableDeclarator _ _ id _ => exportNames id
                        | _ => []
                        end) decls.

Definition isDeclarator (decl : Node) : bool :=
  match decl with VariableDeclarator _ _ _ _ => true | _ => false end.

(** ** expression.js: where [parseExprOp] stops

    The current token is no binary operator that [parseExprOp] takes at the
    level [minPrec]: it is no binary operator at all, or [in] while
    [forInit] is set, or its precedence is not above [minPrec]. *)
Definition stopsBinary (minPrec : Z) (forInit : JsVal) (s : State) : bool :=
  match TokenType.binop (type s) with
  | Some prec => (truthy forInit && TokenType.eqb (type s) tt._in) || (prec <=? minPrec)
  | None => true
  end.

(** ** lval.js: the nodes an assignment may have on its left

    [simpleTarget] follows [checkLValSimple] and [assignTarget] follows
    [checkLValPattern] ([inner] false) and [checkLValInnerPattern] ([inner]
    true): the shapes they do not refuse. *)
Fixpoint simpleTarget (expr : Node) : bool :=
  match expr with
  | Identifier _ _ _ => true
  | MemberExpression _ _ _ _ _ _ => true
  | ParenthesizedExpression _ _ expression => simpleTarget expression
  | _ => false
  end.

Fixpoint assignTarget (inner : bool) (expr : Node) : bool :=
  match expr with
  | Property _ _ _ _ _ _ value _ => inner && assignTarget true value
  | AssignmentPattern _ _ left_ _ => inner && assignTarget false left_
  | RestElement _ _ argument => inner && assignTarget false argument
  | ObjectPattern _ _ properties => forallb (assignTarget true) properties
  | ArrayPattern _ _ elements =>
      forallb (fun elem => match elem with
                           | Some e => assignTarget true e
                           | None => true
                           end) elements
  | _ => simpleTarget expr
  end.

(** ** statement.js: [break], [continue], [try] and [switch]

    The nodes of these statements, with the fields the code gives them. *)
Module Statement.

Record BreakContinue : Type := mkBreakContinue {
  bc_type : string;                    (* "BreakStatement" or "ContinueStatement" *)
  bc_start : Z;
  bc_end : Z;
  bc_label : option Node
}.

Record CatchClause : Type := mkCatchClause {
  cc_start : Z;
  cc_end : Z;
  cc_param : option Node;
  cc_body : Node
}.

Record TryStatement : Type := mkTryStatement {
  try_start : Z;
  try_end : Z;
  try_block : Node;
  try_handler : option CatchClause;
  try_finalizer : option Node
}.

Record SwitchCase : Type := mkSwitchCase {
  sc_start : Z;
  sc_end : Z;
  sc_test : option Node;
  sc_consequent : list Node
}.

Record SwitchStatement : Type := mkSwitchStatement {
  sw_start : Z;
  sw_end : Z;
  sw_discriminant : Node;
  sw_cases : list SwitchCase
}.

(** [const switchLabel = {kind: "switch"}] *)
Definition switchLabel : Label := mkLabel None (Some "switch") None.

(** The test the loop of [parseBreakContinueStatement] makes on a label
    [lab] of [this.labels]: the loop stops at it. *)
Definition isTarget (isBreak : bool) (label : option Node) (lab : Label) : bool :=
  match label with
  | None => true
  | Some l => match label_name lab with
              | Some name => String.eqb name (node_name l)
              | None => false
              end
  end
  && (match label_kind lab with
      | Some kind => isBreak || String.eqb kind "loop"
      | None => false
      end
      || match label with Some _ => isBreak | None => false end).

Section Statements.

Variable env : Env.
Variable rec : Rec.
Variable fuel : nat.

(** [parseBreakContinueStatement(node, keyword)], [node] started at
    [startPos].  The loop looks for a label at which it stops, and
    [i === this.labels.length] says that there is none: the order in which
    the labels are looked at does not matter. *)
Definition parseBreakContinueStatement (startPos : Z) (keyword : string)
  : M BreakContinue :=
  let isBreak := String.eqb keyword "break" in
  next ;;
  semi <- eat tt.semi ;;
  inserted <- (if semi then ret true else insertSemicolon) ;;
  label <- (if inserted then ret None
            else fun s =>
                 if negb (TokenType.eqb (type s) tt.name) then unexpected None s
                 else (l <- parseIdent env false ;; semicolon ;; ret (Some l)) s) ;;
  found <- gets (fun s => existsb (isTarget isBreak label) (labels s)) ;;
  (if negb found then raise startPos ("Unsyntactic " ++ keyword) else ret tt) ;;
  fun s =>
  Ok (mkBreakContinue (if isBreak then "BreakStatement" else "ContinueStatement")
        startPos (lastTokEnd s) label) s.

(** [parseTryStatement(node)] *)
Definition parseTryStatement (startPos : Z) : M TryStatement :=
  next ;;
  block <- parseBlock env rec fuel true None false ;;
  handler <-
    (fun s =>
     if TokenType.eqb (type s) tt._catch then
       let clauseStart := start s in
       (next ;;
        paren <- eat tt.parenL ;;
        param <- (if paren then
                    param <- parseBindingAtom env rec fuel ;;
                    let simple := String.eqb (node_type param) "Identifier" in
                    enterScope env (if simple then SCOPE_SIMPLE_CATCH else 0) ;;
                    checkLValPattern env param
                      (if simple then BIND_SIMPLE_CATCH else BIND_LEXICAL) None ;;
                    expect tt.parenR ;;
                    ret (Some param)
                  else
                    (fun s1 => if ecmaVersion (options s1) <? 10
                               then unexpected None s1 else ret tt s1) ;;
                    enterScope env 0 ;;
                    ret None) ;;
        body <- parseBlock env rec fuel false None false ;;
        exitScope env ;;
        fun s1 => Ok (Some (mkCatchClause clauseStart (lastTokEnd s1) param body)) s1) s
     else ret None s) ;;
  hasFinally <- eat tt._finally ;;
  finalizer <- (if hasFinally
                then b <- parseBlock env rec fuel true None false ;; ret (Some b)
                else ret None) ;;
  (match handler, finalizer with
   | None, None => raise startPos "Missing catch or finally clause"
   | _, _ => ret tt
   end) ;;
  fun s => Ok (mkTryStatement startPos (lastTokEnd s) block handler finalizer) s.

(** [cur], the case the statements are added to, once it is finished. *)
Definition finishCase (cur : option (Z * option Node * list Node)) (cases : list SwitchCase)
  : M (list SwitchCase) :=
  fun s =>
  match cur with
  | Some (caseStart, test, consequent) =>
      Ok (cases ++ [mkSwitchCase caseStart (lastTokEnd s) test consequent]) s
  | None => Ok cases s
  end.

(** The [for] loop of [parseSwitchStatement]: [cases] holds the cases that
    are finished, [cur] the one that is open. *)
Fixpoint parseSwitch_loop (n : nat) (cases : list SwitchCase)
    (cur : option (Z * option Node * list Node)) (sawDefault : bool)
  : M (list SwitchCase * option (Z * option Node * list Node)) :=
  match n with
  | O => halt OutOfFuel
  | S n' =>
      fun s =>
      if TokenType.eqb (type s) tt.braceR then ret (cases, cur) s
      else if TokenType.eqb (type s) tt._case || TokenType.eqb (type s) tt._default then
        let isCase := TokenType.eqb (type s) tt._case in
        let caseStart := start s in
        (cases' <- finishCase cur cases ;;
         next ;;
         r <- (if isCase then
                 '(test, _) <- parseExpression env rec fuel VUndefined None ;;
                 ret (Some test, sawDefault)
               else
                 (fun s1 => if sawDefault
                            then raiseRecoverable (lastTokStart s1)
                                   "Multiple default clauses" s1
                            else ret tt s1) ;;
                 ret (None, true)) ;;
         expect tt.colon ;;
         parseSwitch_loop n' cases' (Some (caseStart, fst r, [])) (snd r)) s
      else
        match cur with
        | None => unexpected None s
        | Some (caseStart, test, consequent) =>
            (stmt <- rec_parseStatement rec None false ;;
             parseSwitch_loop n' cases (Some (caseStart, test, consequent ++ [stmt]))
               sawDefault) s
        end
  end.

(** [parseSwitchStatement(node)] *)
Definition parseSwitchStatement (startPos : Z) : M SwitchStatement :=
  next ;;
  discriminant <- parseParenExpression rec ;;
  expect tt.braceL ;;
  labels_push switchLabel ;;
  enterScope env 0 ;;
  '(cases, cur) <- parseSwitch_loop fuel [] None false ;;
  exitScope env ;;
  cases' <- finishCase cur cases ;;
  next ;;
  labels_pop ;;
  fun s => Ok (mkSwitchStatement startPos (lastTokEnd s) discriminant cases') s.

End Statements.

End Statement.

(** The [default] clauses among the cases of a [switch]: the ones whose
    [test] is [null]. *)
Definition isDefaultCase (c : Statement.SwitchCase) : bool :=
  match Statement.sc_test c with None => true | Some _ => false end.

Definition defaultCases (cases : list Statement.SwitchCase) : list Statement.SwitchCase :=
  filter isDefaultCase cases.

(** The case that is open in the loop of [parseSwitchStatement], as a list
    of cases that ends at [end_]. *)
Definition openCase (cur : option (Z * option Node * list Node)) (end_ : Z)
  : list Statement.SwitchCase :=
  match cur with
  | Some (caseStart, test, consequent) =>
      [Statement.mkSwitchCase caseStart end_ test consequent]
  | None => []
  end.

(** [this.labels] while the body of a statement labelled [maybeName] is
    parsed: the statement started at [startPos], and the parser [s] stands
    after the colon. *)
Definition labelDeclared (maybeName : string) (labels : list Label) : bool :=
  existsb (fun l => match label_name l with
                    | Some n => String.eqb n maybeName
                    | None => false
                    end) labels.

Definition labelKind (s : State) : option string :=
  if TokenType.isLoop (type s) then Some "loop"
  else if TokenType.eqb (type s) tt._switch then Some "switch"
  else None.

Definition bodyLabels (startPos : Z) (maybeName : string) (s : State) : list Label :=
  mkLabel (Some maybeName) (labelKind s) (Some (start s))
  :: updateLabels (labels s) startPos (start s) (labelKind s).

(** ** Inputs of the further examples *)

(** The text ['use], backslash, [x20strict';]: the directive written with
    an escape. *)
Definition X5_escaped : State :=
  Acorn.init 2020 ("'use" ++ String (Ascii.ascii_of_nat 92) "x20strict';") [].

(** ['a'; 'use strict'; f()]: the directive after another one. *)
Definition X5_second : State :=
  Acorn.init 2020 "'a'; 'use strict'; f()" [].

(** The parameters [a, b = 1)] of a function once [(] is consumed, and the
    parameters [...a, b)].  The arguments [x, y)] of a call. *)
Definition X10_params : State :=
  Acorn.init 2020 "(a, b = 1)"
    [Acorn.tok tt.name "a" 1; Acorn.tok tt.comma "," 2; Acorn.tok tt.name "b" 4;
     Acorn.tok tt.eq "=" 6; Acorn.numTok 1 "1" 8; Acorn.tok tt.parenR ")" 9].

Definition X10_rest_comma : State :=
  Acorn.init 2020 "(...a, b)"
    [Acorn.tok tt.ellipsis "..." 1; Acorn.tok tt.name "a" 4; Acorn.tok tt.comma "," 5;
     Acorn.tok tt.name "b" 7; Acorn.tok tt.parenR ")" 8].

Definition X10_arguments : State :=
  Acorn.init 2020 "(x, y)"
    [Acorn.tok tt.name "x" 1; Acorn.tok tt.comma "," 2; Acorn.tok tt.name "y" 4;
     Acorn.tok tt.parenR ")" 5].

(** [class A { constructor() {} constructor() {} }]; the parser in the
    body of the class, before its first element and before its second. *)
Definition X11_two_constructors : State :=
  Acorn.init 2022 "class A { constructor() {} constructor() {} }"
    [Acorn.tok tt._class "class" 0; Acorn.tok tt.name "A" 6; Acorn.tok tt.braceL "{" 8;
     Acorn.tok tt.name "constructor" 10; Acorn.tok tt.parenL "(" 21;
     Acorn.tok tt.parenR ")" 22; Acorn.tok tt.braceL "{" 24; Acorn.tok tt.braceR "}" 25;
     Acorn.tok tt.name "constructor" 27; Acorn.tok tt.parenL "(" 38;
     Acorn.tok tt.parenR ")" 39; Acorn.tok tt.braceL "{" 41; Acorn.tok tt.braceR "}" 42;
     Acorn.tok tt.braceR "}" 44].

Definition X11_first_element : State :=
  state_of ((next ;;
             modify (set_strict true) ;;
             parseClassId Acorn.env (VBool true) ;;
             parseClassSuper Acorn.env (parser Acorn.env 8) 8 ;;
             enterClassBody ;;
             expect tt.braceL) X11_two_constructors) X11_two_constructors.

Definition X11_second_element : State :=
  state_of (parseClassElement Acorn.env (parser Acorn.env 8) 8 false X11_first_element)
    X11_first_element.

(** [class A { constructor() {} m() {} }] *)
Definition X11_one_constructor : State :=
  Acorn.init 2022 "class A { constructor() {} m() {} }"
    [Acorn.tok tt._class "class" 0; Acorn.tok tt.name "A" 6; Acorn.tok tt.braceL "{" 8;
     Acorn.tok tt.name "constructor" 10; Acorn.tok tt.parenL "(" 21;
     Acorn.tok tt.parenR ")" 22; Acorn.tok tt.braceL "{" 24; Acorn.tok tt.braceR "}" 25;
     Acorn.tok tt.name "m" 27; Acorn.tok tt.parenL "(" 28;
     Acorn.tok tt.parenR ")" 29; Acorn.tok tt.braceL "{" 31; Acorn.tok tt.braceR "}" 32;
     Acorn.tok tt.braceR "}" 34].

(** The node a computation returns, a node without type when it does not
    return. *)
Definition node_of (o : Outcome Node) : Node :=
  match o with Ok n _ => n | _ => OtherNode "" 0 0 end.

(** [continue;] in the body of a loop, and at the top of a program. *)
Definition X12_continue_in_loop : State :=
  set_labels [loopLabel]
    (Acorn.init 2020 "continue;"
       [Acorn.tok tt._continue "continue" 0; Acorn.tok tt.semi ";" 8]).

Definition X12_continue_outside : State :=
  Acorn.init 2020 "continue;"
    [Acorn.tok tt._continue "continue" 0; Acorn.tok tt.semi ";" 8].

(** [switch (x) { default: default: }], and the parser in the body of the
    switch, before the second [default]. *)
Definition X13_two_defaults : State :=
  Acorn.init 2020 "switch (x) { default: default: }"
    [Acorn.tok tt._switch "switch" 0; Acorn.tok tt.parenL "(" 7; Acorn.tok tt.name "x" 8;
     Acorn.tok tt.parenR ")" 9; Acorn.tok tt.braceL "{" 11;
     Acorn.tok tt._default "default" 13; Acorn.tok tt.colon ":" 20;
     Acorn.tok tt._default "default" 22; Acorn.tok tt.colon ":" 29;
     Acorn.tok tt.braceR "}" 31].

Definition X13_second_default : State :=
  Nat.iter 7 advance X13_two_defaults.

(** [switch (x) { case 1: f; default: g }] *)
Definition X13_switch : State :=
  Acorn.init 2020 "switch (x) { case 1: f; default: g }"
    [Acorn.tok tt._switch "switch" 0; Acorn.tok tt.parenL "(" 7; Acorn.tok tt.name "x" 8;
     Acorn.tok tt.parenR ")" 9; Acorn.tok tt.braceL "{" 11;
     Acorn.tok tt._case "case" 13; Acorn.numTok 1 "1" 18; Acorn.tok tt.colon ":" 19;
     Acorn.tok tt.name "f" 21; Acorn.tok tt.semi ";" 22;
     Acorn.tok tt._default "default" 24; Acorn.tok tt.colon ":" 31;
     Acorn.tok tt.name "g" 33; Acorn.tok tt.braceR "}" 35].

(** [try { }] with nothing after it; [try { } catch { }] for ECMAScript
    2018 and 2019; [try { } finally { }]. *)
Definition X14_try_alone : State :=
  Acorn.init 2020 "try { }"
    [Acorn.tok tt._try "try" 0; Acorn.tok tt.braceL "{" 4; Acorn.tok tt.braceR "}" 6].

Definition X14_try_catch (ecmaVersion : Z) : State :=
  Acorn.init ecmaVersion "try { } catch { }"
    [Acorn.tok tt._try "try" 0; Acorn.tok tt.braceL "{" 4; Acorn.tok tt.braceR "}" 6;
     Acorn.tok tt._catch "catch" 8; Acorn.tok tt.braceL "{" 14; Acorn.tok tt.braceR "}" 16].

Definition X14_try_finally : State :=
  Acorn.init 2020 "try { } finally { }"
    [Acorn.tok tt._try "try" 0; Acorn.tok tt.braceL "{" 4; Acorn.tok tt.braceR "}" 6;
     Acorn.tok tt._finally "finally" 8; Acorn.tok tt.braceL "{" 16;
     Acorn.tok tt.braceR "}" 18].

(** [var a, [b] = c;] *)
Definition X15_declaration : State :=
  Acorn.init 2020 "var a, [b] = c;"
    [Acorn.tok tt._var "var" 0; Acorn.tok tt.name "a" 4; Acorn.tok tt.comma "," 5;
     Acorn.tok tt.bracketL "[" 7; Acorn.tok tt.name "b" 8; Acorn.tok tt.bracketR "]" 9;
     Acorn.tok tt.eq "=" 11; Acorn.tok tt.name "c" 13; Acorn.tok tt.semi ";" 14].

(** [class A { constructor() {} get a() {} set a(v) {} static b = 1; }] *)
Definition X19_class : State :=
  Acorn.init 2022 "class A { constructor() {} get a() {} set a(v) {} static b = 1; }"
    [Acorn.tok tt._class "class" 0; Acorn.tok tt.name "A" 6; Acorn.tok tt.braceL "{" 8;
     Acorn.tok tt.name "constructor" 10; Acorn.tok tt.parenL "(" 21;
     Acorn.tok tt.parenR ")" 22; Acorn.tok tt.braceL "{" 24; Acorn.tok tt.braceR "}" 25;
     Acorn.tok tt.name "get" 27; Acorn.tok tt.name "a" 31; Acorn.tok tt.parenL "(" 32;
     Acorn.tok tt.parenR ")" 33; Acorn.tok tt.braceL "{" 35; Acorn.tok tt.braceR "}" 36;
     Acorn.tok tt.name "set" 38; Acorn.tok tt.name "a" 42; Acorn.tok tt.parenL "(" 43;
     Acorn.tok tt.name "v" 44; Acorn.tok tt.parenR ")" 45; Acorn.tok tt.braceL "{" 47;
     Acorn.tok tt.braceR "}" 48;
     Acorn.tok tt.name "static" 50; Acorn.tok tt.name "b" 57; Acorn.tok tt.eq "=" 59;
     Acorn.numTok 1 "1" 61; Acorn.tok tt.semi ";" 62; Acorn.tok tt.braceR "}" 64].

(** [a: while (x) continue a;] and [a: { continue a; }], the parser after
    the colon; [a: a: ;] after the second colon, inside the first label. *)
Definition X21_labelled_loop : State :=
  Nat.iter 2 advance
    (Acorn.init 2020 "a: while (x) continue a;"
       [Acorn.tok tt.name "a" 0; Acorn.tok tt.colon ":" 1; Acorn.tok tt._while "while" 3;
        Acorn.tok tt.parenL "(" 9; Acorn.tok tt.name "x" 10; Acorn.tok tt.parenR ")" 11;
        Acorn.tok tt._continue "continue" 13; Acorn.tok tt.name "a" 22;
        Acorn.tok tt.semi ";" 23]).

Definition X21_labelled_block : State :=
  Nat.iter 2 advance
    (Acorn.init 2020 "a: { continue a; }"
       [Acorn.tok tt.name "a" 0; Acorn.tok tt.colon ":" 1; Acorn.tok tt.braceL "{" 3;
        Acorn.tok tt._continue "continue" 5; Acorn.tok tt.name "a" 14;
        Acorn.tok tt.semi ";" 15; Acorn.tok tt.braceR "}" 17]).

Definition X21_label_twice : State :=
  set_labels [mkLabel (Some "a") None (Some 3)]
    (Nat.iter 4 advance
       (Acorn.init 2020 "a: a: ;"
          [Acorn.tok tt.name "a" 0; Acorn.tok tt.colon ":" 1; Acorn.tok tt.name "a" 3;
           Acorn.tok tt.colon ":" 4; Acorn.tok tt.semi ";" 6])).

(** [return], a line break and [x], inside a function; the same with
    [throw] and with [continue] in a loop. *)
Definition X22_return : State :=
  set_scopeStack [mkScope SCOPE_FUNCTION [] [] [] false; mkScope SCOPE_TOP [] [] [] false]
    (Acorn.init 2020 ("return" ++ String (Ascii.ascii_of_nat 10) "x")
       [Acorn.tok tt._return "return" 0; Acorn.tok tt.name "x" 7]).

Definition X22_throw : State :=
  Acorn.init 2020 ("throw" ++ String (Ascii.ascii_of_nat 10) "x")
    [Acorn.tok tt._throw "throw" 0; Acorn.tok tt.name "x" 6].

Definition X22_continue : State :=
  set_labels [loopLabel]
    (Acorn.init 2020 ("continue" ++ String (Ascii.ascii_of_nat 10) "x")
       [Acorn.tok tt._continue "continue" 0; Acorn.tok tt.name "x" 9]).

(** [class A {}] and [const a = 1] as the body of an [if]; [function f() {}]
    as the body of a loop; [export default 1] inside a block. *)
Definition X23_class : State :=
  Acorn.init 2020 "class A {}"
    [Acorn.tok tt._class "class" 0; Acorn.tok tt.name "A" 6; Acorn.tok tt.braceL "{" 8;
     Acorn.tok tt.braceR "}" 9].

Definition X23_const : State :=
  Acorn.init 2020 "const a = 1"
    [Acorn.tok tt._const "const" 0; Acorn.tok tt.name "a" 6; Acorn.tok tt.eq "=" 8;
     Acorn.numTok 1 "1" 10].

Definition X23_function : State :=
  Acorn.init 2020 "function f() {}"
    [Acorn.tok tt._function "function" 0; Acorn.tok tt.name "f" 9;
     Acorn.tok tt.parenL "(" 10; Acorn.tok tt.parenR ")" 11; Acorn.tok tt.braceL "{" 13;
     Acorn.tok tt.braceR "}" 14].

Definition X23_export : State :=
  Acorn.init 2020 "export default 1"
    [Acorn.tok tt._export "export" 0; Acorn.tok tt._default "default" 7;
     Acorn.numTok 1 "1" 15].

(** [a - b * c - d < e], the parser after [a]. *)
Definition X25_operators : State :=
  advance
    (Acorn.init 2020 "a - b * c - d < e"
       [Acorn.tok tt.name "a" 0; Acorn.tok tt.plusMin "-" 2; Acorn.tok tt.name "b" 4;
        Acorn.tok tt.star "*" 6; Acorn.tok tt.name "c" 8; Acorn.tok tt.plusMin "-" 10;
        Acorn.tok tt.name "d" 12; Acorn.tok tt.relational "<" 14;
        Acorn.tok tt.name "e" 16]).

(** [[a, b.c] = d] *)
Definition X26_destructuring : State :=
  Acorn.init 2020 "[a, b.c] = d"
    [Acorn.tok tt.bracketL "[" 0; Acorn.tok tt.name "a" 1; Acorn.tok tt.comma "," 2;
     Acorn.tok tt.name "b" 4; Acorn.tok tt.dot "." 5; Acorn.tok tt.name "c" 6;
     Acorn.tok tt.bracketR "]" 7; Acorn.tok tt.eq "=" 9; Acorn.tok tt.name "d" 11].

(** [a, b = 1, c;] *)
Definition X27_sequence : State :=
  Acorn.init 2020 "a, b = 1, c;"
    [Acorn.tok tt.name "a" 0; Acorn.tok tt.comma "," 1; Acorn.tok tt.name "b" 3;
     Acorn.tok tt.eq "=" 5; Acorn.numTok 1 "1" 7; Acorn.tok tt.comma "," 8;
     Acorn.tok tt.name "c" 10; Acorn.tok tt.semi ";" 11].

(** The program [a; b] *)
Definition X28_program : State :=
  Acorn.init 2020 "a; b"
    [Acorn.tok tt.name "a" 0; Acorn.tok tt.semi ";" 1; Acorn.tok tt.name "b" 3].

(** ** expression.js: object literals and object patterns *)
Module Expression.

(** A [Property] node.  [method], [shorthand] and [computed] are set only
    for [ecmaVersion >= 6]: [None] is a field that is not set. *)
Record PropertyNode : Type := mkPropertyNode {
  prop_start : Z;
  prop_end : Z;
  prop_method : option bool;
  prop_shorthand : option bool;
  prop_computed : option bool;
  prop_key : Node;
  prop_value : Node;
  prop_kind : string
}.

(** What [parseProperty] returns: a [Property], a [RestElement] or a
    [SpreadElement]. *)
Inductive Member : Type :=
| PropertyMember (p : PropertyNode)
| RestMember (start end_ : Z) (argument : Node)
| SpreadMember (start end_ : Z) (argument : Node).

(** The node of [parseObj]: an [ObjectPattern] or an [ObjectExpression]. *)
Record ObjectNode : Type := mkObjectNode {
  obj_type : string;
  obj_start : Z;
  obj_end : Z;
  obj_properties : list Member
}.

(** [propHash], the object that [checkPropClash] fills: the key [proto]
    holds a boolean, a key [$name] holds an object [{init, get, set}], kept
    here as the list of the kinds that are [true] in it. *)
Record PropHash : Type := mkPropHash {
  ph_proto : bool;
  ph_names : list (string * list string)
}.

Definition emptyHash : PropHash := mkPropHash false [].

Definition lookup (name : string) (l : list (string * list string)) : option (list string) :=
  match find (fun e => String.eqb (fst e) name) l with
  | Some e => Some (snd e)
  | None => None
  end.

(** [propHash[name] = other], for a key that may be there already. *)
Fixpoint store (name : string) (other : list string) (l : list (string * list string))
  : list (string * list string) :=
  match l with
  | [] => [(name, other)]
  | e :: tl => if String.eqb (fst e) name then (name, other) :: tl
               else e :: store name other tl
  end.

Definition has (kind : string) (other : list string) : bool :=
  existsb (String.eqb kind) other.

Definition isTrue (b : option bool) : bool :=
  match b with Some true => true | _ => false end.

(** The decimal numeral of a number that is not negative; it has no more
    digits than [n], and the number has no more digits than bits. *)
Fixpoint decimal (n : nat) (z : Z) (acc : string) : string :=
  match n with
  | O => acc
  | S n' =>
      let acc' := String (Ascii.ascii_of_nat (48 + Z.to_nat (z mod 10))) acc in
      if z <? 10 then acc' else decimal n' (z / 10) acc'
  end.

(** [String(value)] for the value of a literal.  The embedding keeps the
    numbers as integers, and the string of one is its decimal numeral. *)
Definition String_ (v : JsVal) : string :=
  match v with
  | VStr s => s
  | VNum n => if n <? 0 then ("-" ++ decimal (S (Z.to_nat (Z.log2 (- n)))) (- n) "")%string
              else decimal (S (Z.to_nat (Z.log2 n))) n ""
  | VBool true => "true"
  | VBool false => "false"
  | VNull => "null"
  | VUndefined => "undefined"
  end.

(** The [switch (key.type)] of [checkPropClash]: the name of the key, or
    [None] where the function returns. *)
Definition keyName (key : Node) : option string :=
  match key with
  | Identifier _ _ name => Some name
  | Literal _ _ value _ _ => Some (String_ value)
  | _ => None
  end.

(** [checkPropClash(prop, propHash, refDestructuringErrors)]; the result
    is [propHash] and [refDestructuringErrors] as the call leaves them. *)
Definition checkPropClash (prop : Member) (propHash : PropHash) (ref : Ref)
  : M (PropHash * Ref) :=
  fun s =>
  let ev := ecmaVersion (options s) in
  match prop with
  | SpreadMember _ _ _ =>
      if ev >=? 9 then ret (propHash, ref) s
      else halt (TypeError "prop.key is undefined") s
  | RestMember _ _ _ => halt (TypeError "prop.key is undefined") s
  | PropertyMember p =>
      if (ev >=? 6)
         && (isTrue (prop_computed p) || isTrue (prop_method p) || isTrue (prop_shorthand p))
      then ret (propHash, ref) s
      else
        let key := prop_key p in
        let kind := prop_kind p in
        match keyName key with
        | None => ret (propHash, ref) s
        | Some name =>
            if ev >=? 6 then
              if String.eqb name "__proto__" && String.eqb kind "init" then
                (ref' <-
                   (if ph_proto propHash then
                      match ref with
                      | Some r =>
                          ret (Some (if doubleProto r <? 0
                                     then set_doubleProto (node_start key) r else r))
                      | None =>
                          raiseRecoverable (node_start key)
                            "Redefinition of __proto__ property" ;;
                          ret ref
                      end
                    else ret ref) ;;
                 ret (mkPropHash true (ph_names propHash), ref')) s
              else ret (propHash, ref) s
            else
              let name' := ("$" ++ name)%string in
              match lookup name' (ph_names propHash) with
              | Some other =>
                  let redefinition :=
                    if String.eqb kind "init"
                    then (strict s && has "init" other) || has "get" other || has "set" other
                    else has "init" other || has kind other in
                  (when redefinition
                     (raiseRecoverable (node_start key) "Redefinition of property") ;;
                   ret (mkPropHash (ph_proto propHash)
                          (store name' (kind :: other) (ph_names propHash)), ref)) s
              | None =>
                  ret (mkPropHash (ph_proto propHash)
                         (store name' [kind] (ph_names propHash)), ref) s
              end
        end
  end.

Section Objects.

Variable env : Env.
Variable rec : Rec.
Variable fuel : nat.

Definition isAsyncProp (computed : option bool) (key : Node) (s : State) : bool :=
  negb (isTrue computed)
  && String.eqb (node_type key) "Identifier" && String.eqb (node_name key) "async"
  && (TokenType.eqb (type s) tt.name || TokenType.eqb (type s) tt.num
      || TokenType.eqb (type s) tt.string || TokenType.eqb (type s) tt.bracketL
      || match TokenType.keyword (type s) with Some _ => true | None => false end
      || ((ecmaVersion (options s) >=? 9) && TokenType.eqb (type s) tt.star))
  && negb (lineBreak_test (slice (input s) (lastTokEnd s) (start s))).

(** [parsePropertyName(prop)] on a property that has [computed] already:
    the field keeps its value when the call does not set it. *)
Definition parsePropertyName_again (computed : option bool) : M (option bool * Node) :=
  '(computed', key) <- parsePropertyName env rec fuel ;;
  ret (match computed' with Some b => Some b | None => computed end, key).

(** [parseMaybeDefault(startPos, startLoc, left)] where [startPos] may be
    [undefined]: the node would then start at [undefined]. *)
Definition parseMaybeDefault_at (startPos : option Z) (left_ : Node) : M Node :=
  match startPos with
  | Some p => parseMaybeDefault env rec fuel p (Some left_)
  | None => halt (NotEmbedded "a node that starts at undefined")
  end.

(** The fields of [prop] that [parsePropertyValue] reads and writes. *)
Record Fields : Type := mkFields {
  f_method : option bool;
  f_shorthand : option bool;
  f_computed : option bool;
  f_key : Node;
  f_value : Node;
  f_kind : string
}.

(** [parsePropertyValue(prop, isPattern, isGenerator, isAsync, startPos,
    startLoc, refDestructuringErrors, containsEsc)]: [prop] has [method],
    [shorthand], [computed] and [key]; the result is [prop] with [value] and
    [kind], and [refDestructuringErrors].  [copyNode] gives a node with the
    same fields.  [this.awaitIdentPos] is only tested for being zero or
    positive: [undefined] is kept as [0]. *)
Definition parsePropertyValue (method shorthand computed : option bool) (key : Node)
    (isPattern isGenerator isAsync : bool) (startPos : option Z) (ref : Ref)
    (containsEsc : bool) : M (Fields * Ref) :=
  (fun s => if (isGenerator || isAsync) && TokenType.eqb (type s) tt.colon
            then unexpected None s else ret tt s) ;;
  colon <- eat tt.colon ;;
  if colon then
    '(value, ref') <-
      (if isPattern
       then fun s => (v <- parseMaybeDefault env rec fuel (start s) None ;; ret (v, ref)) s
       else parseMaybeAssign env rec fuel (VBool false) ref None) ;;
    ret (mkFields method shorthand computed key value "init", ref')
  else
    fun s =>
    if (ecmaVersion (options s) >=? 6) && TokenType.eqb (type s) tt.parenL then
      ((if isPattern then unexpected None else ret tt) ;;
       value <- parseMethod env rec fuel isGenerator isAsync false ;;
       ret (mkFields (Some true) shorthand computed key value "init", ref)) s
    else if negb isPattern && negb containsEsc
            && (ecmaVersion (options s) >=? 5) && negb (isTrue computed)
            && String.eqb (node_type key) "Identifier"
            && (String.eqb (node_name key) "get" || String.eqb (node_name key) "set")
            && (negb (TokenType.eqb (type s) tt.comma)
                && negb (TokenType.eqb (type s) tt.braceR)
                && negb (TokenType.eqb (type s) tt.eq)) then
      ((if isGenerator || isAsync then unexpected None else ret tt) ;;
       let kind := node_name key in
       '(computed', key') <- parsePropertyName_again computed ;;
       value <- parseMethod env rec fuel false false false ;;
       let paramCount := if String.eqb kind "get" then O else 1%nat in
       (if negb (Nat.eqb (List.length (node_params value)) paramCount) then
          if String.eqb kind "get"
          then raiseRecoverable (node_start value) "getter should have no params"
          else raiseRecoverable (node_start value) "setter should have exactly one param"
        else if String.eqb kind "set" then
          match node_params value with
          | Some param :: _ =>
              when (String.eqb (node_type param) "RestElement")
                (raiseRecoverable (node_start param) "Setter cannot use rest params")
          | _ => halt (TypeError "prop.value.params[0] is null")
          end
        else ret tt) ;;
       ret (mkFields method shorthand computed' key' value kind, ref)) s
    else if (ecmaVersion (options s) >=? 6) && negb (isTrue computed)
            && String.eqb (node_type key) "Identifier" then
      ((if isGenerator || isAsync then unexpected None else ret tt) ;;
       checkUnreserved env (node_start key) (node_end key) (node_name key) ;;
       (fun s1 => if String.eqb (node_name key) "await" && (awaitIdentPos s1 =? 0)
                  then Ok tt (set_awaitIdentPos
                                (match startPos with Some p => p | None => 0 end) s1)
                  else Ok tt s1) ;;
       fun s1 =>
       if isPattern then
         (value <- parseMaybeDefault_at startPos key ;;
          ret (mkFields method (Some true) computed key value "init", ref)) s1
       else
         match ref with
         | Some r =>
             if TokenType.eqb (type s1) tt.eq then
               let r' := if shorthandAssign r <? 0
                         then set_shorthandAssign (start s1) r else r in
               (value <- parseMaybeDefault_at startPos key ;;
                ret (mkFields method (Some true) computed key value "init", Some r')) s1
             else ret (mkFields method (Some true) computed key key "init", ref) s1
         | None => ret (mkFields method (Some true) computed key key "init", ref) s1
         end) s
    else unexpected None s.

(** [parseProperty(isPattern, refDestructuringErrors)] *)
Definition parseProperty (isPattern : bool) (ref : Ref) : M (Member * Ref) :=
  fun s =>
  let propStart := start s in
  (ellipsis <- (fun s0 => if ecmaVersion (options s0) >=? 9
                          then eat tt.ellipsis s0 else ret false s0) ;;
   if ellipsis then
     if isPattern then
       argument <- parseIdent env false ;;
       (fun s1 => if TokenType.eqb (type s1) tt.comma
                  then raise (start s1) "Comma is not permitted after the rest element" s1
                  else ret tt s1) ;;
       fun s1 => Ok (RestMember propStart (lastTokEnd s1) argument, ref) s1
     else
       '(argument, ref1) <- parseMaybeAssign env rec fuel (VBool false) ref None ;;
       fun s1 =>
       let ref2 := match ref1 with
                   | Some r => if TokenType.eqb (type s1) tt.comma && (trailingComma r <? 0)
                               then Some (set_trailingComma (start s1) r) else ref1
                   | None => ref1
                   end in
       Ok (SpreadMember propStart (lastTokEnd s1) argument, ref2) s1
   else
     fun s1 =>
     let es6 := ecmaVersion (options s1) >=? 6 in
     let method := if es6 then Some false else None in
     let shorthand := if es6 then Some false else None in
     let startPos := if es6 && (isPattern || match ref with Some _ => true | None => false end)
                     then Some (start s1) else None in
     (isGenerator <- (if es6 && negb isPattern then eat tt.star else ret false) ;;
      containsEsc <- gets containsEsc ;;
      '(computed, key) <- parsePropertyName env rec fuel ;;
      '(isAsync, isGenerator1, computed1, key1) <-
        (fun s2 =>
         if negb isPattern && negb containsEsc && (ecmaVersion (options s2) >=? 8)
            && negb isGenerator && isAsyncProp computed key s2
         then
           (star <- (fun s3 => if ecmaVersion (options s3) >=? 9
                               then eat tt.star s3 else ret false s3) ;;
            '(computed', key') <- parsePropertyName_again computed ;;
            ret (true, star, computed', key')) s2
         else ret (false, isGenerator, computed, key) s2) ;;
      '(f, ref') <- parsePropertyValue method shorthand computed1 key1
                      isPattern isGenerator1 isAsync startPos ref containsEsc ;;
      fun s2 =>
      Ok (PropertyMember
            (mkPropertyNode propStart (lastTokEnd s2) (f_method f) (f_shorthand f)
               (f_computed f) (f_key f) (f_value f) (f_kind f)), ref') s2) s1) s.

(** The [while (!this.eat(tt.braceR))] loop of [parseObj]. *)
Fixpoint parseObj_loop (n : nat) (isPattern : bool) (first : bool) (propHash : PropHash)
    (ref : Ref) (properties : list Member) : M (list Member * Ref) :=
  match n with
  | O => halt OutOfFuel
  | S n' =>
      close <- eat tt.braceR ;;
      if close then ret (properties, ref)
      else
        stop <- (if negb first then
                   expect tt.comma ;;
                   fun s => if ecmaVersion (options s) >=? 5
                            then afterTrailingComma tt.braceR false s
                            else ret false s
                 else ret false) ;;
        if stop then ret (properties, ref)
        else
          '(prop, ref1) <- parseProperty isPattern ref ;;
          '(propHash', ref2) <- (if negb isPattern then checkPropClash prop propHash ref1
                                 else ret (propHash, ref1)) ;;
          parseObj_loop n' isPattern false propHash' ref2 (properties ++ [prop])
  end.

(** [parseObj(isPattern, refDestructuringErrors)] *)
Definition parseObj (isPattern : bool) (ref : Ref) : M (ObjectNode * Ref) :=
  fun s =>
  let startPos := start s in
  (next ;;
   '(properties, ref') <- parseObj_loop fuel isPattern true emptyHash ref [] ;;
   fun s1 =>
   Ok (mkObjectNode (if isPattern then "ObjectPattern" else "ObjectExpression")
         startPos (lastTokEnd s1) properties, ref') s1) s.

End Objects.

End Expression.

(** What an object pattern holds: properties of kind [init] that are not
    methods, and rest elements whose argument is an identifier. *)
Definition isRest (m : Expression.Member) : bool :=
  match m with Expression.RestMember _ _ _ => true | _ => false end.

Definition patternMember (m : Expression.Member) : bool :=
  match m with
  | Expression.PropertyMember p =>
      String.eqb (Expression.prop_kind p) "init"
      && negb (Expression.isTrue (Expression.prop_method p))
  | Expression.RestMember _ _ argument => String.eqb (node_type argument) "Identifier"
  | Expression.SpreadMember _ _ _ => false
  end.

(** A getter has no parameter, a setter has one, which is not a rest
    element; the other properties have the kind [init]. *)
Definition accessorArity (m : Expression.Member) : bool :=
  match m with
  | Expression.PropertyMember p =>
      let params := node_params (Expression.prop_value p) in
      if String.eqb (Expression.prop_kind p) "get" then
        match params with [] => true | _ => false end
      else if String.eqb (Expression.prop_kind p) "set" then
        match params with
        | [Some param] => negb (String.eqb (node_type param) "RestElement")
        | _ => false
        end
      else String.eqb (Expression.prop_kind p) "init"
  | _ => true
  end.

(** A property [__proto__: value], the key an identifier or a string. *)
Definition isProtoInit (m : Expression.Member) : bool :=
  match m with
  | Expression.PropertyMember p =>
      negb (Expression.isTrue (Expression.prop_computed p))
      && negb (Expression.isTrue (Expression.prop_method p))
      && negb (Expression.isTrue (Expression.prop_shorthand p))
      && String.eqb (Expression.prop_kind p) "init"
      && match Expression.prop_key p with
         | Identifier _ _ name => String.eqb name "__proto__"
         | Literal _ _ (VStr name) _ _ => String.eqb name "__proto__"
         | _ => false
         end
  | _ => false
  end.

(** Calls of [checkPropClash] one after the other on the same [propHash],
    each with its property, its [refDestructuringErrors] and the state of
    the parser: [propHash] after the last one, when none of them fails. *)
Fixpoint checkAll (calls : list (Expression.Member * Ref * State))
    (propHash : Expression.PropHash) : option Expression.PropHash :=
  match calls with
  | [] => Some propHash
  | (prop, ref, s) :: rest =>
      match Expression.checkPropClash prop propHash ref s with
      | Ok (propHash', _) _ => checkAll rest propHash'
      | _ => None
      end
  end.

(** A call that checks a property [__proto__: value] under ECMAScript 6 or
    later. *)
Definition checksProto (call : Expression.Member * Ref * State) : bool :=
  isProtoInit (fst (fst call)) && (6 <=? ecmaVersion (options (snd call))).

(** The pattern [{a, b: c, ...d}]. *)
Definition X16_pattern : State :=
  Acorn.init 2020 "{a, b: c, ...d}"
    [Acorn.tok tt.braceL "{" 0; Acorn.tok tt.name "a" 1; Acorn.tok tt.comma "," 2;
     Acorn.tok tt.name "b" 4; Acorn.tok tt.colon ":" 5; Acorn.tok tt.name "c" 7;
     Acorn.tok tt.comma "," 8; Acorn.tok tt.ellipsis "..." 10; Acorn.tok tt.name "d" 13;
     Acorn.tok tt.braceR "}" 14].

(** The literal [{get a() {}, set b(x) {}, c: 1}] in strict code. *)
Definition X17_accessors : State :=
  set_strict true
    (Acorn.init 2020 "{get a() {}, set b(x) {}, c: 1}"
       [Acorn.tok tt.braceL "{" 0; Acorn.tok tt.name "get" 1; Acorn.tok tt.name "a" 5;
        Acorn.tok tt.parenL "(" 6; Acorn.tok tt.parenR ")" 7; Acorn.tok tt.braceL "{" 9;
        Acorn.tok tt.braceR "}" 10; Acorn.tok tt.comma "," 11;
        Acorn.tok tt.name "set" 13; Acorn.tok tt.name "b" 17; Acorn.tok tt.parenL "(" 18;
        Acorn.tok tt.name "x" 19; Acorn.tok tt.parenR ")" 20; Acorn.tok tt.braceL "{" 22;
        Acorn.tok tt.braceR "}" 23; Acorn.tok tt.comma "," 24;
        Acorn.tok tt.name "c" 26; Acorn.tok tt.colon ":" 27; Acorn.numTok 1 "1" 29;
        Acorn.tok tt.braceR "}" 30]).

(** The properties [__proto__: a], [b: c] and ["__proto__": d] of the
    literal [{__proto__: a, b: c, "__proto__": d}]. *)
Definition X18_literal : State :=
  Acorn.init 2020 "{__proto__: a, b: c, '__proto__': d}" [].

Definition X18_proto : Expression.Member :=
  Expression.PropertyMember
    (Expression.mkPropertyNode 1 13 (Some false) (Some false) (Some false)
       (Identifier 1 10 "__proto__") (Identifier 12 13 "a") "init").

Definition X18_other : Expression.Member :=
  Expression.PropertyMember
    (Expression.mkPropertyNode 15 19 (Some false) (Some false) (Some false)
       (Identifier 15 16 "b") (Identifier 18 19 "c") "init").

Definition X18_proto_again : Expression.PropertyNode :=
  Expression.mkPropertyNode 21 35 (Some false) (Some false) (Some false)
    (Literal 21 32 (VStr "__proto__") (codeUnits "'__proto__'") None)
    (Identifier 34 35 "d") "init".

(** What a computation returns, [d] when it does not return. *)
Definition value_of {A} (o : Outcome A) (d : A) : A :=
  match o with Ok a _ => a | _ => d end.

(** * Properties

    ** Token types *)

Lemma TokenType_eqb_eq (a b : TokenType.t) : TokenType.eqb a b = true <-> a = b.
Proof.
  unfold TokenType.eqb. destruct (TokenType.eq_dec a b); split; congruence.
Qed.

Lemma TokenType_eqb_refl (a : TokenType.t) : TokenType.eqb a a = true.
Proof. now apply TokenType_eqb_eq. Qed.

Lemma TokenType_eqb_neq (a b : TokenType.t) : TokenType.eqb a b = false <-> a <> b.
Proof.
  unfold TokenType.eqb. destruct (TokenType.eq_dec a b); split; congruence.
Qed.


(** ** The monad *)

Lemma bind_Ok {A B} {m : M A} (k : A -> M B) {s s' : State} {a : A} :
  m s = Ok a s' -> bind m k s = k a s'.
Proof. intros H. unfold bind. now rewrite H. Qed.

Lemma bind_SyntaxError {A B} (m : M A) (k : A -> M B) (s : State) sev p msg :
  m s = SyntaxError sev p msg -> bind m k s = SyntaxError sev p msg.
Proof. intros H. unfold bind. now rewrite H. Qed.

Lemma bind_inv_Ok {A B} (m : M A) (k : A -> M B) (s s' : State) (b : B) :
  bind m k s = Ok b s' -> exists a s1, m s = Ok a s1 /\ k a s1 = Ok b s'.
Proof.
  unfold bind. destruct (m s) as [a s1|sev p msg|h]; try discriminate.
  intros H. now exists a, s1.
Qed.

(** ** Delayed errors: [checkExpressionErrors] and [checkPatternErrors] *)

Section DelayedErrors.

Variable r : DestructuringErrors.
Variable s : State.

Lemma checkExpressionErrors_shorthand :
  shorthandAssign r >= 0 ->
  checkExpressionErrors (Some r) true s
  = SyntaxError Fatal (shorthandAssign r)
      "Shorthand property assignments are valid only in destructuring patterns".
Proof.
  intros H. unfold checkExpressionErrors; cbn.
  unfold bind. destruct (Z.geb_spec (shorthandAssign r) 0); [reflexivity | lia].
Qed.

Lemma checkExpressionErrors_doubleProto :
  shorthandAssign r < 0 -> doubleProto r >= 0 ->
  checkExpressionErrors (Some r) true s
  = SyntaxError Recoverable (doubleProto r) "Redefinition of __proto__ property".
Proof.
  intros H1 H2. unfold checkExpressionErrors; cbn. unfold bind.
  destruct (Z.geb_spec (shorthandAssign r) 0); [lia |]. cbn.
  destruct (Z.geb_spec (doubleProto r) 0); [reflexivity | lia].
Qed.

Lemma checkExpressionErrors_none :
  shorthandAssign r < 0 -> doubleProto r < 0 ->
  checkExpressionErrors (Some r) true s = Ok false s.
Proof.
  intros H1 H2. unfold checkExpressionErrors; cbn. unfold bind.
  destruct (Z.geb_spec (shorthandAssign r) 0); [lia |]. cbn.
  destruct (Z.geb_spec (doubleProto r) 0); [lia | reflexivity].
Qed.

Lemma checkPatternErrors_trailingComma (isAssign : bool) :
  trailingComma r > -1 ->
  checkPatternErrors (Some r) isAssign s
  = SyntaxError Recoverable (trailingComma r)
      "Comma is not permitted after the rest element".
Proof.
  intros H. unfold checkPatternErrors, bind, when.
  destruct (Z.gtb_spec (trailingComma r) (-1)); [reflexivity | lia].
Qed.

Lemma checkPatternErrors_parens (isAssign : bool) :
  trailingComma r <= -1 ->
  (if isAssign then parenthesizedAssign r else parenthesizedBind r) > -1 ->
  checkPatternErrors (Some r) isAssign s
  = SyntaxError Recoverable
      (if isAssign then parenthesizedAssign r else parenthesizedBind r)
      (if isAssign then "Assigning to rvalue" else "Parenthesized pattern").
Proof.
  intros H1 H2. unfold checkPatternErrors, bind, when.
  destruct (Z.gtb_spec (trailingComma r) (-1)); [lia |]. cbn.
  destruct (Z.gtb_spec (if isAssign then parenthesizedAssign r else parenthesizedBind r) (-1));
    [reflexivity | lia].
Qed.

Lemma checkPatternErrors_none (isAssign : bool) :
  trailingComma r <= -1 ->
  (if isAssign then parenthesizedAssign r else parenthesizedBind r) <= -1 ->
  checkPatternErrors (Some r) isAssign s = Ok tt s.
Proof.
  intros H1 H2. unfold checkPatternErrors, bind, when.
  destruct (Z.gtb_spec (trailingComma r) (-1)); [lia |]. cbn.
  destruct (Z.gtb_spec (if isAssign then parenthesizedAssign r else parenthesizedBind r) (-1));
    [lia | reflexivity].
Qed.

End DelayedErrors.

(** C6, as amended.  A new [DestructuringErrors] has its five fields at -1.
    [checkExpressionErrors(refErrs, true)] promotes [shorthandAssign] (a fatal
    error) and otherwise [doubleProto] (a recoverable one), each at the
    stored offset, and nothing else: whatever [trailingComma],
    [parenthesizedAssign] and [parenthesizedBind] hold, it raises nothing when
    those two fields are unset.  [checkPatternErrors(refErrs, isAssign)]
    promotes [trailingComma] and otherwise [parenthesizedAssign] (when
    [isAssign]) or [parenthesizedBind] (when not), as recoverable errors at
    the stored offset, and nothing else. *)
Theorem C6_delayed_errors_promoted :
  newDestructuringErrors = mkDestructuringErrors (-1) (-1) (-1) (-1) (-1)
  /\ (forall r s,
        (shorthandAssign r >= 0 ->
         checkExpressionErrors (Some r) true s
         = SyntaxError Fatal (shorthandAssign r)
             "Shorthand property assignments are valid only in destructuring patterns")
        /\ (shorthandAssign r < 0 -> doubleProto r >= 0 ->
            checkExpressionErrors (Some r) true s
            = SyntaxError Recoverable (doubleProto r)
                "Redefinition of __proto__ property")
        /\ (shorthandAssign r < 0 -> doubleProto r < 0 ->
            checkExpressionErrors (Some r) true s = Ok false s))
  /\ (forall r (isAssign : bool) s,
        let parens := if isAssign then parenthesizedAssign r else parenthesizedBind r in
        (trailingComma r > -1 ->
         checkPatternErrors (Some r) isAssign s
         = SyntaxError Recoverable (trailingComma r)
             "Comma is not permitted after the rest element")
        /\ (trailingComma r <= -1 -> parens > -1 ->
            checkPatternErrors (Some r) isAssign s
            = SyntaxError Recoverable parens
                (if isAssign then "Assigning to rvalue" else "Parenthesized pattern"))
        /\ (trailingComma r <= -1 -> parens <= -1 ->
            checkPatternErrors (Some r) isAssign s = Ok tt s)).
Proof.
  split; [reflexivity | split].
  - intros r s. repeat split.
    + apply checkExpressionErrors_shorthand.
    + apply checkExpressionErrors_doubleProto.
    + apply checkExpressionErrors_none.
  - intros r isAssign s parens. repeat split.
    + apply checkPatternErrors_trailingComma.
    + apply checkPatternErrors_parens.
    + apply checkPatternErrors_none.
Qed.

(** C6 at concrete records: a shorthand default at offset 2 in the
    expression role, a parenthesized pattern at offset 4 in the binding role,
    and a record whose only set fields are not those of the role. *)
Lemma C6_delayed_errors_promoted_witness :
  checkExpressionErrors (Some (mkDestructuringErrors 2 (-1) (-1) (-1) 7)) true
    (Acorn.init 2020 "" [])
  = SyntaxError Fatal 2
      "Shorthand property assignments are valid only in destructuring patterns"
  /\ checkPatternErrors (Some (mkDestructuringErrors (-1) (-1) (-1) 4 (-1))) false
       (Acorn.init 2020 "" [])
     = SyntaxError Recoverable 4 "Parenthesized pattern"
  /\ checkExpressionErrors (Some (mkDestructuringErrors (-1) 3 1 5 (-1))) true
       (Acorn.init 2020 "" [])
     = Ok false (Acorn.init 2020 "" []).
Proof.
  destruct C6_delayed_errors_promoted as [_ [He Hp]].
  split; [| split].
  - apply (proj1 (He (mkDestructuringErrors 2 (-1) (-1) (-1) 7) (Acorn.init 2020 "" []))).
    simpl. lia.
  - apply (proj1 (proj2 (Hp (mkDestructuringErrors (-1) (-1) (-1) 4 (-1)) false
                           (Acorn.init 2020 "" [])))); simpl; lia.
  - apply (proj2 (proj2 (He (mkDestructuringErrors (-1) 3 1 5 (-1))
                           (Acorn.init 2020 "" [])))); simpl; lia.
Defined.

(** C6 as stated fails: [trailingComma] and [parenthesizedBind] are set,
    and the expression role promotes neither; [parenthesizedBind] is set, and
    the assignment-pattern role does not promote it. *)
Lemma C6_counterexample :
  checkExpressionErrors (Some (mkDestructuringErrors (-1) 3 (-1) 5 (-1))) true
    (Acorn.init 2020 "" [])
  = Ok false (Acorn.init 2020 "" [])
  /\ checkPatternErrors (Some (mkDestructuringErrors (-1) (-1) (-1) 5 (-1))) true
       (Acorn.init 2020 "" [])
     = Ok tt (Acorn.init 2020 "" []).
Proof. split; reflexivity. Qed.

(** ** [toAssignable] *)

Section ToAssignable.

Variable env : Env.

Lemma when_inv_Ok (b : bool) (m : M unit) s u s' :
  when b m s = Ok u s' -> (b = false /\ s' = s) \/ (b = true /\ m s = Ok u s').
Proof.
  destruct b; cbn; intros H; [now right | left].
  unfold ret in H. inversion H. now split.
Qed.

Lemma checkPatternErrors_state ref isAssign s u s' :
  checkPatternErrors ref isAssign s = Ok u s' -> s' = s.
Proof.
  destruct ref as [r|]; cbn.
  - unfold bind, when, raiseRecoverable, ret.
    destruct (trailingComma r >? -1); [discriminate|].
    destruct ((if isAssign then parenthesizedAssign r else parenthesizedBind r) >? -1);
      [discriminate|]. now inversion 1.
  - unfold ret. now inversion 1.
Qed.

Lemma list_last_map {A B} (f : A -> B) (l : list A) (d : A) :
  last (map f l) (f d) = f (last l d).
Proof.
  induction l as [|x [|y tl] IH]; cbn in *; auto.
Qed.

Lemma checkLastRest_state l b s u s' : checkLastRest l b s = Ok u s' -> s' = s.
Proof.
  unfold checkLastRest. destruct (last l None) as [[]|]; cbn;
    try (unfold ret; now inversion 1).
  destruct (_ && _); cbn; [discriminate | unfold ret; now inversion 1].
Qed.

Lemma checkRestProperty_state p s u s' : checkRestProperty p s = Ok u s' -> s' = s.
Proof.
  destruct p; cbn; try (unfold ret; now inversion 1).
  destruct (_ || _); cbn; [discriminate | unfold ret; now inversion 1].
Qed.

(** What [toAssignable] returns is the pattern of the specification, and
    the parser state is as before. *)
Lemma toAssignable_patternOf :
  forall node isBinding ref s n s',
    ecmaVersion (options s) >= 6 ->
    toAssignable env node isBinding ref s = Ok n s' ->
    n = patternOf node /\ s' = s.
Proof.
  fix IH 1.
  intros node isBinding ref s n s' Hv H.
  assert (Hge : (ecmaVersion (options s) >=? 6) = true) by (apply Z.geb_le; lia).
  destruct node; cbn in H; rewrite Hge in H;
    try (cbn in H; discriminate H);
    try (cbn in H; unfold ret in H; inversion H; subst; now split).
  - (* Identifier *)
    destruct (inAsync env s && String.eqb name "await"); cbn in H;
      [discriminate | unfold ret in H; inversion H; now split].
  - (* ArrayExpression *)
    apply bind_inv_Ok in H. destruct H as (u & s1 & Hc & H).
    apply checkPatternErrors_state in Hc. subst s1.
    apply bind_inv_Ok in H. destruct H as (elts & s2 & Hl & H).
    unfold ret in H. inversion H; subst; clear H.
    unfold toAssignableList_of in Hl.
    apply bind_inv_Ok in Hl. destruct Hl as (l & s3 & Hm & Hl).
    apply bind_inv_Ok in Hl. destruct Hl as (u' & s4 & Hlast & Hl).
    unfold ret in Hl. inversion Hl; subst; clear Hl.
    apply checkLastRest_state in Hlast. subst s3.
    cbn. 
    assert (Hmap : elts = map (option_map patternOf) elements /\ s' = s).
    { revert elts s Hv Hge Hm.
      induction elements as [|[e|] tl IHl]; intros elts s Hv Hge Hm; cbn in Hm.
      - unfold ret in Hm. inversion Hm. now split.
      - apply bind_inv_Ok in Hm. destruct Hm as (y & s1 & Hy & Hm).
        apply bind_inv_Ok in Hy. destruct Hy as (e' & s2 & He & Hy).
        unfold ret in Hy. inversion Hy; subst; clear Hy.
        apply IH in He; [|assumption]. destruct He as [-> ->].
        apply bind_inv_Ok in Hm. destruct Hm as (ys & s3 & Hys & Hm).
        unfold ret in Hm. inversion Hm; subst; clear Hm.
        apply IHl in Hys; try assumption. destruct Hys as [-> ->]. now split.
      - apply bind_inv_Ok in Hm. destruct Hm as (ys & s3 & Hys & Hm).
        unfold ret in Hm. inversion Hm; subst; clear Hm.
        apply IHl in Hys; try assumption. destruct Hys as [-> ->]. now split. }
    destruct Hmap as [-> ->]. now split.
  - (* ObjectExpression *)
    apply bind_inv_Ok in H. destruct H as (u & s1 & Hc & H).
    apply checkPatternErrors_state in Hc. subst s1.
    apply bind_inv_Ok in H. destruct H as (props & s2 & Hl & H).
    unfold ret in H. inversion H; subst; clear H. cbn.
    assert (Hmap : props = map patternOf properties /\ s' = s).
    { revert props s Hv Hge Hl.
      induction properties as [|p tl IHl]; intros props s Hv Hge Hl; cbn in Hl.
      - unfold ret in Hl. inversion Hl. now split.
      - apply bind_inv_Ok in Hl. destruct Hl as (y & s1 & Hy & Hl).
        apply bind_inv_Ok in Hy. destruct Hy as (p' & s2 & Hp & Hy).
        apply IH in Hp; [|assumption]. destruct Hp as [-> ->].
        apply bind_inv_Ok in Hy. destruct Hy as (u0 & s3 & Hr & Hy).
        apply checkRestProperty_state in Hr. subst s3.
        unfold ret in Hy. inversion Hy; subst; clear Hy.
        apply bind_inv_Ok in Hl. destruct Hl as (ys & s3 & Hys & Hl).
        unfold ret in Hl. inversion Hl; subst; clear Hl.
        apply IHl in Hys; try assumption. destruct Hys as [-> ->]. now split. }
    destruct Hmap as [-> ->]. now split.
  - (* Property *)
    apply bind_inv_Ok in H. destruct H as (u & s1 & Hk & H).
    destruct (negb (String.eqb kind "init")); cbn in Hk; [discriminate|].
    unfold ret in Hk. inversion Hk; subst; clear Hk.
    apply bind_inv_Ok in H. destruct H as (v' & s2 & Hval & H).
    apply IH in Hval; [|assumption]. destruct Hval as [-> ->].
    unfold ret in H. inversion H; subst. now split.
  - (* SpreadElement *)
    apply bind_inv_Ok in H. destruct H as (a' & s1 & Ha & H).
    apply IH in Ha; [|assumption]. destruct Ha as [-> ->].
    apply bind_inv_Ok in H. destruct H as (u & s2 & Hd & H).
    destruct (String.eqb (node_type (patternOf node)) "AssignmentPattern");
      cbn in Hd; [discriminate|].
    unfold ret in Hd, H. inversion Hd; subst. inversion H; subst. now split.
  - (* AssignmentExpression *)
    apply bind_inv_Ok in H. destruct H as (u & s1 & Ho & H).
    destruct (negb (String.eqb operator "=")); cbn in Ho; [discriminate|].
    unfold ret in Ho. inversion Ho; subst; clear Ho.
    apply bind_inv_Ok in H. destruct H as (l' & s2 & Hl & H).
    apply IH in Hl; [|assumption]. destruct Hl as [-> ->].
    unfold ret in H. inversion H; subst. now split.
  - (* ParenthesizedExpression *)
    apply bind_inv_Ok in H. destruct H as (e' & s1 & He & H).
    apply IH in He; [|assumption]. destruct He as [-> ->].
    unfold ret in H. inversion H; subst. now split.
  - (* MemberExpression *)
    destruct (negb isBinding); cbn in H;
      [unfold ret in H; inversion H; now split | discriminate].
Qed.

End ToAssignable.




(** ** Null entries of element lists *)

Section NullElements.

Variable env : Env.

Lemma mapM_app {A B} (f : A -> M B) (l1 l2 : list A) (s : State) :
  mapM f (l1 ++ l2) s
  = (x <- mapM f l1 ;; y <- mapM f l2 ;; ret (x ++ y)) s.
Proof.
  revert s. induction l1 as [|a l1 IH]; intros s; cbn [mapM app].
  - unfold bind, ret. destruct (mapM f l2 s); reflexivity.
  - unfold bind. destruct (f a s) as [b s1| |]; try reflexivity.
    rewrite IH. unfold bind, ret.
    destruct (mapM f l1 s1) as [x s2| |]; try reflexivity.
    destruct (mapM f l2 s2) as [y s3| |]; reflexivity.
Qed.

Lemma mapM_length {A B} (f : A -> M B) (l : list A) (s s' : State) (l' : list B) :
  mapM f l s = Ok l' s' -> List.length l' = List.length l.
Proof.
  revert s l'. induction l as [|a l IH]; intros s l' H; cbn in H.
  - unfold ret in H. now inversion H.
  - apply bind_inv_Ok in H. destruct H as (b & s1 & _ & H).
    apply bind_inv_Ok in H. destruct H as (ys & s2 & Hys & H).
    unfold ret in H. inversion H; subst. cbn. f_equal. eauto.
Qed.

Lemma foldM_app {A C} (f : A -> C -> M C) (l1 l2 : list A) (c : C) (s : State) :
  foldM f (l1 ++ l2) c s = (c' <- foldM f l1 c ;; foldM f l2 c') s.
Proof.
  revert c s. induction l1 as [|a l1 IH]; intros c s; cbn [foldM app]; [reflexivity|].
  unfold bind. destruct (f a c s) as [c1 s1| |]; try reflexivity.
  rewrite IH. reflexivity.
Qed.

Lemma last_app_cons {A} (l1 l2 : list A) (x d : A) :
  last (l1 ++ x :: l2) d = last (x :: l2) d.
Proof.
  induction l1 as [|a l1 IH]; [reflexivity|].
  cbn [app]. change (last (a :: l1 ++ x :: l2) d)
    with (match l1 ++ x :: l2 with [] => a | _ :: _ => last (l1 ++ x :: l2) d end).
  destruct (l1 ++ x :: l2) eqn:E; [now destruct l1 | exact IH].
Qed.

(** [toAssignableList] keeps a [null] entry where it is and raises nothing
    for it: a list that converts still converts once a [null] is put into
    it, to the same elements around the [null]. *)
Lemma toAssignableList_null (l1 l2 l' : list (option Node)) (isBinding : bool)
    (s s' : State) :
  toAssignableList env (l1 ++ l2) isBinding s = Ok l' s' ->
  exists l1' l2',
    l' = l1' ++ l2' /\ List.length l1' = List.length l1
    /\ toAssignableList env (l1 ++ None :: l2) isBinding s
       = Ok (l1' ++ None :: l2') s'.
Proof.
  unfold toAssignableList, toAssignableList_of. intros H.
  apply bind_inv_Ok in H. destruct H as (l & s1 & Hm & H).
  apply bind_inv_Ok in H. destruct H as (u & s2 & Hlast & H).
  unfold ret in H. inversion H; subst; clear H.
  rewrite mapM_app in Hm.
  apply bind_inv_Ok in Hm. destruct Hm as (l1' & sa & H1 & Hm).
  apply bind_inv_Ok in Hm. destruct Hm as (l2' & sb & H2 & Hm).
  unfold ret in Hm. inversion Hm; subst; clear Hm.
  exists l1', l2'. split; [reflexivity|]. split; [eapply mapM_length; eauto|].
  assert (Hm' : mapM (fun elt => match elt with
                                 | Some e => e' <- toAssignable env e isBinding None ;;
                                             ret (Some e')
                                 | None => ret None
                                 end) (l1 ++ None :: l2) s
                = Ok (l1' ++ None :: l2') s1).
  { rewrite mapM_app. rewrite (bind_Ok _ H1). cbn [mapM].
    unfold bind, ret. unfold bind, ret in H2. rewrite H2. reflexivity. }
  rewrite (bind_Ok _ Hm').
  assert (Hs : s' = s1) by (eapply checkLastRest_state; eauto). subst s'.
  assert (Hl : checkLastRest (l1' ++ None :: l2') isBinding s1 = Ok tt s1).
  { unfold checkLastRest in *. rewrite last_app_cons.
    destruct l2' as [|y l2'].
    - reflexivity.
    - rewrite last_app_cons in Hlast.
      change (last (None :: y :: l2') None) with (last (y :: l2') None).
      destruct u. exact Hlast. }
  rewrite (bind_Ok _ Hl). reflexivity.
Qed.

(** [checkLValPattern] skips a [null] element of an [ArrayPattern]. *)
Lemma checkLValPattern_null st en (l1 l2 : list (option Node)) bindingType
    checkClashes (s : State) :
  checkLValPattern env (ArrayPattern st en (l1 ++ None :: l2)) bindingType checkClashes s
  = checkLValPattern env (ArrayPattern st en (l1 ++ l2)) bindingType checkClashes s.
Proof.
  unfold checkLValPattern. cbn [checkLVal].
  rewrite !foldM_app. cbn [foldM]. unfold bind.
  destruct (foldM _ l1 checkClashes s); reflexivity.
Qed.

(** [checkPatternExport] skips a [null] element of an [ArrayPattern]. *)
Lemma checkPatternExport_null st en (l1 l2 : list (option Node)) exports (s : State) :
  checkPatternExport exports (ArrayPattern st en (l1 ++ None :: l2)) s
  = checkPatternExport exports (ArrayPattern st en (l1 ++ l2)) s.
Proof.
  cbn [checkPatternExport].
  rewrite !foldM_app. cbn [foldM]. unfold bind.
  destruct (foldM _ l1 exports s); reflexivity.
Qed.

End NullElements.

(** ** Elisions *)

Lemma eat_other {ty : TokenType.t} {s : State} :
  type s <> ty -> eat ty s = Ok false s.
Proof.
  intros H. unfold eat. apply TokenType_eqb_neq in H. now rewrite H.
Qed.

Lemma eat_same {ty : TokenType.t} {s : State} :
  type s = ty -> eat ty s = Ok true (advance s).
Proof.
  intros H. unfold eat. rewrite H, TokenType_eqb_refl. reflexivity.
Qed.

Lemma expect_same {ty : TokenType.t} {s : State} :
  type s = ty -> expect ty s = Ok tt (advance s).
Proof.
  intros H. unfold expect. rewrite (bind_Ok _ (eat_same H)). reflexivity.
Qed.

Lemma afterTrailingComma_other (ty : TokenType.t) (notNext : bool) (s : State) :
  type s <> ty -> afterTrailingComma ty notNext s = Ok false s.
Proof.
  intros H. unfold afterTrailingComma. apply TokenType_eqb_neq in H. now rewrite H.
Qed.

Section Elisions.

Variable env : Env.
Variable rec : Rec.
Variable fuel : nat.

(** In [parseExprList] with [allowEmpty]: a comma where an element is due
    appends [null] and consumes nothing but the separator. *)
Lemma parseExprList_elision_first n close atc ref elts s :
  close <> tt.comma -> type s = tt.comma ->
  parseExprList_loop rec (S n) close atc true ref elts true s
  = parseExprList_loop rec n close atc true ref (elts ++ [None]) false s.
Proof.
  intros Hc Hs. cbn [parseExprList_loop].
  assert (Hne : type s <> close) by congruence.
  rewrite (bind_Ok _ (eat_other Hne)).
  cbn [negb]. unfold bind at 1, ret at 1. unfold bind at 1, gets at 1.
  rewrite Hs, TokenType_eqb_refl. cbn [andb]. reflexivity.
Qed.

Lemma parseExprList_elision n close atc ref elts s :
  close <> tt.comma -> type s = tt.comma -> type (advance s) = tt.comma ->
  parseExprList_loop rec (S n) close atc true ref elts false s
  = parseExprList_loop rec n close atc true ref (elts ++ [None]) false (advance s).
Proof.
  intros Hc Hs Hs'. cbn [parseExprList_loop].
  assert (Hne : type s <> close) by congruence.
  rewrite (bind_Ok _ (eat_other Hne)).
  cbn [negb].
  assert (Hsep : (expect tt.comma ;;
                  (if atc then afterTrailingComma close false else ret false)) s
                 = Ok false (advance s)).
  { rewrite (bind_Ok _ (expect_same Hs)). destruct atc; [|reflexivity].
    apply afterTrailingComma_other. congruence. }
  rewrite (bind_Ok _ Hsep). unfold bind at 1, gets at 1.
  rewrite Hs', TokenType_eqb_refl. cbn [andb]. reflexivity.
Qed.

(** The same in [parseBindingList]. *)
Lemma parseBindingList_elision_first n close atc elts s :
  close <> tt.comma -> type s = tt.comma ->
  parseBindingList_loop env rec fuel (S n) close true atc elts true s
  = parseBindingList_loop env rec fuel n close true atc (elts ++ [None]) false s.
Proof.
  intros Hc Hs. cbn [parseBindingList_loop].
  assert (Hne : type s <> close) by congruence.
  rewrite (bind_Ok _ (eat_other Hne)).
  unfold bind at 1, ret at 1. unfold bind at 1, gets at 1.
  rewrite Hs, TokenType_eqb_refl. cbn [andb]. reflexivity.
Qed.

Lemma parseBindingList_elision n close atc elts s :
  close <> tt.comma -> type s = tt.comma -> type (advance s) = tt.comma ->
  parseBindingList_loop env rec fuel (S n) close true atc elts false s
  = parseBindingList_loop env rec fuel n close true atc (elts ++ [None]) false (advance s).
Proof.
  intros Hc Hs Hs'. cbn [parseBindingList_loop].
  assert (Hne : type s <> close) by congruence.
  rewrite (bind_Ok _ (eat_other Hne)).
  rewrite (bind_Ok _ (expect_same Hs)).
  unfold bind at 1, gets at 1.
  rewrite Hs', TokenType_eqb_refl. cbn [andb]. reflexivity.
Qed.

End Elisions.

(** C9.  In [parseExprList] and [parseBindingList], called with
    [allowEmpty] as they are for array literals and array patterns, a comma
    where an element is due appends a [null] entry at that position and
    consumes only the separator; so [[a,,b]] is an [ArrayExpression] with
    elements [a, null, b], [[a,,b] = c] has the [ArrayPattern] [a, null, b] on
    its left, and [let [a,,b] = c] declares that pattern.  The consumers
    skip a [null]: [toAssignableList] keeps it in place and converts the
    other elements as it would without it, and [checkLValPattern] and
    [checkPatternExport] behave on the list with the [null] as on the list
    without it. *)
Theorem C9_elision_is_null_and_skipped (env : Env) (rec : Rec) (fuel : nat) :
  (forall n close atc ref elts s,
      close <> tt.comma -> type s = tt.comma ->
      parseExprList_loop rec (S n) close atc true ref elts true s
      = parseExprList_loop rec n close atc true ref (elts ++ [None]) false s)
  /\ (forall n close atc ref elts s,
        close <> tt.comma -> type s = tt.comma -> type (advance s) = tt.comma ->
        parseExprList_loop rec (S n) close atc true ref elts false s
        = parseExprList_loop rec n close atc true ref (elts ++ [None]) false (advance s))
  /\ (forall n close atc elts s,
        close <> tt.comma -> type s = tt.comma ->
        parseBindingList_loop env rec fuel (S n) close true atc elts true s
        = parseBindingList_loop env rec fuel n close true atc (elts ++ [None]) false s)
  /\ (forall n close atc elts s,
        close <> tt.comma -> type s = tt.comma -> type (advance s) = tt.comma ->
        parseBindingList_loop env rec fuel (S n) close true atc elts false s
        = parseBindingList_loop env rec fuel n close true atc (elts ++ [None]) false
            (advance s))
  /\ (forall l1 l2 l' isBinding s s',
        toAssignableList env (l1 ++ l2) isBinding s = Ok l' s' ->
        exists l1' l2',
          l' = l1' ++ l2' /\ List.length l1' = List.length l1
          /\ toAssignableList env (l1 ++ None :: l2) isBinding s
             = Ok (l1' ++ None :: l2') s')
  /\ (forall st en l1 l2 bindingType checkClashes s,
        checkLValPattern env (ArrayPattern st en (l1 ++ None :: l2))
          bindingType checkClashes s
        = checkLValPattern env (ArrayPattern st en (l1 ++ l2))
            bindingType checkClashes s)
  /\ (forall st en l1 l2 exports s,
        checkPatternExport exports (ArrayPattern st en (l1 ++ None :: l2)) s
        = checkPatternExport exports (ArrayPattern st en (l1 ++ l2)) s)
  /\ returns (Acorn.parseExpression 10 C9_literal)
       (ArrayExpression 0 6
          [Some (Identifier 1 2 "a"); None; Some (Identifier 4 5 "b")])
  /\ returns (Acorn.parseExpression 10 C9_assignment)
       (AssignmentExpression 0 10 "="
          (ArrayPattern 0 6 [Some (Identifier 1 2 "a"); None; Some (Identifier 4 5 "b")])
          (Identifier 9 10 "c"))
  /\ returns (Acorn.parseStatement 10 None true C9_binding)
       (VariableDeclaration 0 14
          [VariableDeclarator 4 14
             (ArrayPattern 4 10
                [Some (Identifier 5 6 "a"); None; Some (Identifier 8 9 "b")])
             (Some (Identifier 13 14 "c"))]
          "let").
Proof.
  split; [| split; [| split; [| split; [| split; [| split; [| split;
    [| split; [| split]]]]]]]].
  - intros. now apply parseExprList_elision_first.
  - intros. now apply parseExprList_elision.
  - intros. now apply parseBindingList_elision_first.
  - intros. now apply parseBindingList_elision.
  - intros. now apply toAssignableList_null.
  - intros. apply checkLValPattern_null.
  - intros. apply checkPatternExport_null.
  - eexists. vm_compute. reflexivity.
  - eexists. vm_compute. reflexivity.
  - eexists. vm_compute. reflexivity.
Qed.

(** C9 where the hypotheses hold: in [[a,,b]] after [[a], and on the list
    [a, b] with a [null] put in the middle. *)
Lemma C9_elision_is_null_and_skipped_witness :
  parseExprList_loop (parser Acorn.env 5) 6 tt.bracketR true true None
    [Some (Identifier 1 2 "a")] false C9_at_elision
  = parseExprList_loop (parser Acorn.env 5) 5 tt.bracketR true true None
      ([Some (Identifier 1 2 "a")] ++ [None]) false (advance C9_at_elision)
  /\ exists l1' l2',
       [Some (Identifier 1 2 "a"); Some (Identifier 4 5 "b")] = l1' ++ l2'
       /\ List.length l1' = List.length [Some (Identifier 1 2 "a")]
       /\ toAssignableList Acorn.env
            ([Some (Identifier 1 2 "a")] ++ None :: [Some (Identifier 4 5 "b")])
            false C9_literal
          = Ok (l1' ++ None :: l2') C9_literal.
Proof.
  destruct (C9_elision_is_null_and_skipped Acorn.env (parser Acorn.env 5) 5)
    as (_ & Hexpr & _ & _ & Hlist & _).
  split.
  - apply Hexpr; [discriminate | reflexivity | reflexivity].
  - apply Hlist. vm_compute. reflexivity.
Defined.

(** ** [do ... while (...)] *)

Lemma semicolon_cases (s : State) :
  semicolon s
  = if TokenType.eqb (type s) tt.semi then Ok tt (advance s)
    else if canInsertSemicolon s then Ok tt s
    else SyntaxError Fatal (start s) "Unexpected token".
Proof.
  unfold semicolon, bind, eat, insertSemicolon.
  destruct (TokenType.eqb (type s) tt.semi); cbn; [reflexivity|].
  destruct (canInsertSemicolon s); reflexivity.
Qed.

(** C10.  [parseDoStatement], once the body, [while] and the parenthesized
    test are parsed (leaving the parser in [s1]): for [ecmaVersion >= 6] it
    raises no error whatever the next token is, consumes that token exactly
    when it is [;], and returns the [DoWhileStatement]; for [ecmaVersion < 6]
    it goes through [semicolon()], which takes a [;], else accepts where a
    semicolon can be inserted (before [}], at the end of input, after a line
    break), else raises "Unexpected token".  So [do x; while (y) z] is two
    statements for [ecmaVersion] 2020 with or without a line break before
    [z], while for [ecmaVersion] 5 it is an error on one line and two
    statements with the line break. *)
Theorem C10_do_while_semicolon (rec : Rec) (startPos : Z) (s s1 : State)
    (body test : Node) :
  parseDoStatement_head rec s = Ok (body, test) s1 ->
  (ecmaVersion (options s1) >= 6 ->
   parseDoStatement rec startPos s
   = if TokenType.eqb (type s1) tt.semi
     then Ok (DoWhileStatement startPos (end_ s1) body test) (advance s1)
     else Ok (DoWhileStatement startPos (lastTokEnd s1) body test) s1)
  /\ (ecmaVersion (options s1) < 6 ->
      parseDoStatement rec startPos s
      = if TokenType.eqb (type s1) tt.semi
        then Ok (DoWhileStatement startPos (end_ s1) body test) (advance s1)
        else if canInsertSemicolon s1
        then Ok (DoWhileStatement startPos (lastTokEnd s1) body test) s1
        else SyntaxError Fatal (start s1) "Unexpected token")
  /\ returns (Acorn.parseProgramBody 10 (C10_one_line 2020))
       [DoWhileStatement 0 15 (ExpressionStatement 3 5 (Identifier 3 4 "x") None)
          (Identifier 13 14 "y");
        ExpressionStatement 16 17 (Identifier 16 17 "z") None]
  /\ returns (Acorn.parseProgramBody 10 (C10_two_lines 2020))
       [DoWhileStatement 0 15 (ExpressionStatement 3 5 (Identifier 3 4 "x") None)
          (Identifier 13 14 "y");
        ExpressionStatement 16 17 (Identifier 16 17 "z") None]
  /\ Acorn.parseProgramBody 10 (C10_one_line 5)
     = SyntaxError Fatal 16 "Unexpected token"
  /\ returns (Acorn.parseProgramBody 10 (C10_two_lines 5))
       [DoWhileStatement 0 15 (ExpressionStatement 3 5 (Identifier 3 4 "x") None)
          (Identifier 13 14 "y");
        ExpressionStatement 16 17 (Identifier 16 17 "z") None].
Proof.
  intros H.
  assert (Hdo : parseDoStatement rec startPos s
                = ((fun s => if ecmaVersion (options s) >=? 6
                             then (eat tt.semi ;; ret tt) s
                             else semicolon s) ;;
                   finishNode (fun st en => DoWhileStatement st en body test) startPos) s1).
  { unfold parseDoStatement. unfold parseDoStatement_head in H.
    apply bind_inv_Ok in H. destruct H as (u1 & sa & H1 & H). rewrite (bind_Ok _ H1).
    apply bind_inv_Ok in H. destruct H as (u2 & sb & H2 & H). rewrite (bind_Ok _ H2).
    apply bind_inv_Ok in H. destruct H as (b & sc & H3 & H). rewrite (bind_Ok _ H3).
    apply bind_inv_Ok in H. destruct H as (u4 & sd & H4 & H). rewrite (bind_Ok _ H4).
    apply bind_inv_Ok in H. destruct H as (u5 & se & H5 & H). rewrite (bind_Ok _ H5).
    apply bind_inv_Ok in H. destruct H as (t & sf & H6 & H). rewrite (bind_Ok _ H6).
    unfold ret in H. inversion H; subst. reflexivity. }
  split; [| split; [| split; [| split; [| split]]]].
  - intros Hv. rewrite Hdo. unfold bind at 1.
    assert (Hge : (ecmaVersion (options s1) >=? 6) = true) by (apply Z.geb_le; lia).
    rewrite Hge. unfold bind, eat, finishNode.
    destruct (TokenType.eqb (type s1) tt.semi); reflexivity.
  - intros Hv. rewrite Hdo. unfold bind at 1.
    assert (Hlt : (ecmaVersion (options s1) >=? 6) = false).
    { destruct (Z.geb_spec (ecmaVersion (options s1)) 6); [lia | reflexivity]. }
    rewrite Hlt, semicolon_cases. unfold finishNode.
    destruct (TokenType.eqb (type s1) tt.semi); [reflexivity|].
    destruct (canInsertSemicolon s1); reflexivity.
  - eexists. vm_compute. reflexivity.
  - eexists. vm_compute. reflexivity.
  - vm_compute. reflexivity.
  - eexists. vm_compute. reflexivity.
Qed.

(** C10 at [do x; while (y) z] for [ecmaVersion] 2020: the hypotheses hold
    after [do x; while (y)], and no error is raised before [z]. *)
Lemma C10_do_while_semicolon_witness :
  parseDoStatement (parser Acorn.env 9) 0 (C10_one_line 2020)
  = Ok (DoWhileStatement 0 15 (ExpressionStatement 3 5 (Identifier 3 4 "x") None)
          (Identifier 13 14 "y"))
       (state_of (parseDoStatement_head (parser Acorn.env 9) (C10_one_line 2020)) (C10_one_line 2020)).
Proof.
  assert (Hhead : parseDoStatement_head (parser Acorn.env 9) (C10_one_line 2020)
                  = Ok (ExpressionStatement 3 5 (Identifier 3 4 "x") None, Identifier 13 14 "y")
                       (state_of (parseDoStatement_head (parser Acorn.env 9) (C10_one_line 2020))
                                 (C10_one_line 2020)))
    by (vm_compute; reflexivity).
  assert (Hv : ecmaVersion
                 (options (state_of (parseDoStatement_head (parser Acorn.env 9) (C10_one_line 2020))
                                    (C10_one_line 2020))) >= 6)
    by (vm_compute; discriminate).
  rewrite (proj1 (C10_do_while_semicolon _ 0 _ _ _ _ Hhead) Hv).
  vm_compute. reflexivity.
Defined.

(** ** Unary operators *)

Ltac inv_bind H :=
  let a := fresh "a" in
  let s := fresh "s" in
  let H1 := fresh "H" in
  apply bind_inv_Ok in H; destruct H as (a & s & H1 & H).

Ltac inv_ret H := unfold ret in H; inversion H; subst; clear H.

Section Unary.

Variable env : Env.
Variable rec : Rec.
Variable fuel : nat.

(** Checking an assignment target binds nothing: the state is as before. *)
Lemma checkLValSimple_none_state expr checkClashes s c s' :
  checkLValSimple env expr BIND_NONE checkClashes s = Ok c s' -> s' = s.
Proof.
  revert s c s'. induction expr; intros s c s' H; cbn in H; try discriminate.
  - unfold bind, when, raiseRecoverable, ret in H.
    destruct (strict s && reservedWordsStrictBind env name); [discriminate|].
    now inversion H.
  - unfold bind, ret in H. eauto.
  - unfold bind, ret in H. now inversion H.
Qed.

Lemma canInsertSemicolon_newline s :
  lineBreak_test (slice (input s) (lastTokEnd s) (start s)) = true ->
  canInsertSemicolon s = true.
Proof.
  intros H. unfold canInsertSemicolon. rewrite H. now rewrite !orb_true_r.
Qed.

(** One round of the postfix loop. *)
Lemma parsePostfix_loop_step n startPos expr s c s2 :
  TokenType.postfix (type s) = true ->
  canInsertSemicolon s = false ->
  checkLValSimple env expr BIND_NONE None s = Ok c s2 ->
  parsePostfix_loop env (S n) startPos expr s
  = parsePostfix_loop env n startPos
      (UnaryExpression startPos (end_ s) (str (value s)) false expr) (advance s).
Proof.
  intros Hp Hc Hl. cbn [parsePostfix_loop]. rewrite Hp, Hc. cbn [negb andb].
  assert (s2 = s) by (eapply checkLValSimple_none_state; eauto). subst s2.
  rewrite (bind_Ok _ Hl). reflexivity.
Qed.

Lemma parsePostfix_loop_stop n startPos expr s :
  TokenType.postfix (type s) && negb (canInsertSemicolon s) = false ->
  parsePostfix_loop env (S n) startPos expr s = Ok expr s.
Proof. intros H. cbn [parsePostfix_loop]. now rewrite H. Qed.

Lemma parseMaybeUnary_prefix ref sawUnary incDec forInit s node r s' :
  isContextual "await" s && canAwait env s = false ->
  TokenType.prefix (type s) = true ->
  parseMaybeUnary env rec fuel ref sawUnary incDec forInit s = Ok (node, r) s' ->
  exists argument e,
    node = prefixNode s e argument
    \/ exists e' right_,
         node = BinaryExpression (start s) e' (prefixNode s e argument) "**" right_.
Proof.
  intros Ha Hp H. unfold parseMaybeUnary in H. rewrite Ha, Hp in H.
  inv_bind H. destruct a as [[[expr r0] sawUnary'] returned].
  inv_bind H0. inv_bind H0. destruct a0 as [argument r1].
  inv_bind H0. inv_bind H0. inv_bind H0. inv_ret H0.
  unfold finishNode in H5. injection H5 as He Hs. subst s0. subst expr.
  exists argument, (lastTokEnd s4).
  assert (Hnode : (if TokenType.eqb (type s) tt.incDec
                   then UpdateExpression (start s) (lastTokEnd s4) (str (value s)) true argument
                   else UnaryExpression (start s) (lastTokEnd s4) (str (value s)) true argument)
                  = prefixNode s (lastTokEnd s4) argument) by reflexivity.
  rewrite Hnode in H. clear Hnode.
  apply bind_inv_Ok in H. destruct H as (starstar & st & Hss & H).
  destruct starstar.
  - destruct sawUnary'.
    + unfold unexpected, raise in H. cbn in H. discriminate.
    + apply bind_inv_Ok in H. destruct H as ([right_ r2] & st2 & Hr & H).
      apply bind_inv_Ok in H. destruct H as (bin & st3 & Hb & H).
      inv_ret H. unfold buildBinary in Hb.
      apply bind_inv_Ok in Hb. destruct Hb as (u & st4 & _ & Hb).
      unfold finishNode in Hb. inversion Hb; subst. right. eauto.
  - inv_ret H. now left.
Qed.

(** Without a prefix operator, [await] or a private name, the expression
    comes from [parseExprSubscripts] and goes through the postfix loop. *)
Lemma parseMaybeUnary_postfix ref sawUnary incDec forInit s e r s1 :
  isContextual "await" s && canAwait env s = false ->
  TokenType.prefix (type s) = false ->
  negb sawUnary && TokenType.eqb (type s) tt.privateId = false ->
  parseExprSubscripts env rec fuel ref forInit s = Ok (e, r) s1 ->
  checkExpressionErrors r false s1 = Ok false s1 ->
  parseMaybeUnary env rec fuel ref sawUnary incDec forInit s
  = (e' <- parsePostfix_loop env fuel (start s) e ;;
     starstar <- (if negb incDec then eat tt.starstar else ret false) ;;
     if starstar then
       if sawUnary then fun s' => unexpected (Some (lastTokStart s')) s'
       else
         '(right_, _) <- rec_parseMaybeUnary rec None false false forInit ;;
         node <- buildBinary (start s) e' right_ "**" false ;;
         ret (node, r)
     else ret (e', r)) s1.
Proof.
  intros Ha Hp Hq He Hc. unfold parseMaybeUnary. rewrite Ha, Hp, Hq.
  unfold bind at 1. unfold bind at 1. rewrite He.
  unfold bind at 1. rewrite Hc.
  unfold bind. destruct (parsePostfix_loop env fuel (start s) e s1); reflexivity.
Qed.

End Unary.

(** C4, as amended.  On a prefix operator, [parseMaybeUnary] builds an
    [UpdateExpression] for [++] and [--] and a [UnaryExpression] for the
    other prefix operators, with [prefix] true, and returns it, or a [**]
    expression whose left side it is.  Otherwise the expression comes from
    [parseExprSubscripts], and each postfix [++] or [--] that no line break
    precedes is consumed and wraps it in a node of type [UnaryExpression]
    (the type this code gives a postfix update) with [prefix] false; a postfix
    operator preceded by a line break is not consumed.  So [++x] is an
    [UpdateExpression], [!x] and [typeof x] are [UnaryExpression]s, [x++] is a
    [UnaryExpression] with [prefix] false, and [x], line break, [++y] is two
    statements. *)
Theorem C4_unary_and_update (env : Env) (rec : Rec) (fuel : nat) :
  (forall ref sawUnary incDec forInit s node r s',
      isContextual "await" s && canAwait env s = false ->
      TokenType.prefix (type s) = true ->
      parseMaybeUnary env rec fuel ref sawUnary incDec forInit s = Ok (node, r) s' ->
      exists argument e,
        node = prefixNode s e argument
        \/ exists e' right_,
             node = BinaryExpression (start s) e' (prefixNode s e argument) "**" right_)
  /\ (forall ref sawUnary incDec forInit s e r s1,
        isContextual "await" s && canAwait env s = false ->
        TokenType.prefix (type s) = false ->
        negb sawUnary && TokenType.eqb (type s) tt.privateId = false ->
        parseExprSubscripts env rec fuel ref forInit s = Ok (e, r) s1 ->
        checkExpressionErrors r false s1 = Ok false s1 ->
        parseMaybeUnary env rec fuel ref sawUnary incDec forInit s
        = (e' <- parsePostfix_loop env fuel (start s) e ;;
           starstar <- (if negb incDec then eat tt.starstar else ret false) ;;
           if starstar then
             if sawUnary then fun s' => unexpected (Some (lastTokStart s')) s'
             else
               '(right_, _) <- rec_parseMaybeUnary rec None false false forInit ;;
               node <- buildBinary (start s) e' right_ "**" false ;;
               ret (node, r)
           else ret (e', r)) s1)
  /\ (forall n startPos expr s c s2,
        TokenType.postfix (type s) = true ->
        canInsertSemicolon s = false ->
        checkLValSimple env expr BIND_NONE None s = Ok c s2 ->
        parsePostfix_loop env (S n) startPos expr s
        = parsePostfix_loop env n startPos
            (UnaryExpression startPos (end_ s) (str (value s)) false expr) (advance s))
  /\ (forall n startPos expr s,
        lineBreak_test (slice (input s) (lastTokEnd s) (start s)) = true ->
        parsePostfix_loop env (S n) startPos expr s = Ok expr s)
  /\ (forall ty, TokenType.postfix ty = true <-> ty = tt.incDec)
  /\ (forall ty, TokenType.prefix ty = true <->
                 ty = tt.incDec \/ ty = tt.prefix \/ ty = tt.plusMin
                 \/ ty = tt._typeof \/ ty = tt._void \/ ty = tt._delete)
  /\ returns (Acorn.parseExpression 10 C4_prefix_update)
       (UpdateExpression 0 3 "++" true (Identifier 2 3 "x"))
  /\ returns (Acorn.parseExpression 10 C4_prefix_not)
       (UnaryExpression 0 2 "!" true (Identifier 1 2 "x"))
  /\ returns (Acorn.parseExpression 10 C4_prefix_typeof)
       (UnaryExpression 0 8 "typeof" true (Identifier 7 8 "x"))
  /\ returns (Acorn.parseExpression 10 C4_postfix)
       (UnaryExpression 0 3 "++" false (Identifier 0 1 "x"))
  /\ returns (Acorn.parseProgramBody 10 C4_newline)
       [ExpressionStatement 0 1 (Identifier 0 1 "x") None;
        ExpressionStatement 2 5 (UpdateExpression 2 5 "++" true (Identifier 4 5 "y")) None].
Proof.
  split; [| split; [| split; [| split; [| split; [| split; [| split; [| split;
    [| split; [| split]]]]]]]]].
  - intros. eapply parseMaybeUnary_prefix; eauto.
  - intros. now apply parseMaybeUnary_postfix.
  - intros. eapply parsePostfix_loop_step; eauto.
  - intros n startPos expr s H. apply parsePostfix_loop_stop.
    rewrite (canInsertSemicolon_newline s H). apply andb_false_r.
  - intros ty. split; [destruct ty; cbn; congruence | now intros ->].
  - intros ty. split.
    + destruct ty; cbn; intros; try discriminate; tauto.
    + intros [-> | [-> | [-> | [-> | [-> | ->]]]]]; reflexivity.
  - eexists. vm_compute. reflexivity.
  - eexists. vm_compute. reflexivity.
  - eexists. vm_compute. reflexivity.
  - eexists. vm_compute. reflexivity.
  - eexists. vm_compute. reflexivity.
Qed.

(** C4 on [x++] once [x] is parsed, and on [x], line break, [++y]: the
    operator on the same line is consumed into a [UnaryExpression] node, the
    one on the next line is left. *)
Lemma C4_unary_and_update_witness :
  parsePostfix_loop Acorn.env 2 0 (Identifier 0 1 "x") (advance C4_postfix)
  = parsePostfix_loop Acorn.env 1 0
      (UnaryExpression 0 3 "++" false (Identifier 0 1 "x"))
      (advance (advance C4_postfix))
  /\ parsePostfix_loop Acorn.env 2 0 (Identifier 0 1 "x") (advance C4_newline)
     = Ok (Identifier 0 1 "x") (advance C4_newline).
Proof.
  destruct (C4_unary_and_update Acorn.env (parser Acorn.env 1) 1)
    as (_ & _ & Hstep & Hstop & _).
  split.
  - apply (Hstep 1%nat 0 (Identifier 0 1 "x") (advance C4_postfix) None
             (advance C4_postfix)); reflexivity.
  - apply Hstop. reflexivity.
Defined.

(** C4 as stated fails: the node built for the postfix [++] of [x++] has
    type [UnaryExpression], not [UpdateExpression]. *)
Lemma C4_counterexample :
  returns (Acorn.parseExpression 10 C4_postfix)
    (UnaryExpression 0 3 "++" false (Identifier 0 1 "x"))
  /\ node_type (UnaryExpression 0 3 "++" false (Identifier 0 1 "x")) <> "UpdateExpression".
Proof.
  split; [eexists; vm_compute; reflexivity | discriminate].
Qed.

(** ** Binary operators: [??] with [||] and [&&] *)

Section ExprOp.

Variable rec : Rec.

(** One operator of [parseExprOp]: the right operand is parsed at
    [operandPrec], the node is built, and the token that follows decides
    between the error of mixing and going on. *)
Lemma parseExprOp_step left_ leftStartPos minPrec forInit s prec operand r s1 right_ s2 :
  TokenType.binop (type s) = Some prec ->
  negb (truthy forInit) || negb (TokenType.eqb (type s) tt._in) = true ->
  prec > minPrec ->
  rec_parseMaybeUnary rec None false false forInit (advance s) = Ok (operand, r) s1 ->
  rec_parseExprOp rec operand (start (advance s)) (operandPrec (type s) prec) forInit s1
  = Ok right_ s2 ->
  node_type right_ <> "PrivateIdentifier" ->
  parseExprOp rec left_ leftStartPos minPrec forInit s
  = if mixed (type s) (type s2)
    then SyntaxError Recoverable (start s2) mixedMessage
    else rec_parseExprOp rec
           (binaryNode (type s) leftStartPos (lastTokEnd s2) left_ (str (value s)) right_)
           leftStartPos minPrec forInit s2.
Proof.
  intros Hb Hin Hprec Hu Hr Hp. unfold parseExprOp. rewrite Hb, Hin.
  assert (Hgt : (prec >? minPrec) = true) by (apply Z.gtb_lt; lia).
  rewrite Hgt. cbn [andb].
  rewrite (bind_Ok _ (eq_refl : next s = Ok tt (advance s))).
  rewrite (bind_Ok _ (eq_refl : gets start (advance s)
                                = Ok (start (advance s)) (advance s))).
  rewrite (bind_Ok _ Hu). cbn beta iota.
  unfold operandPrec in Hr. rewrite (bind_Ok _ Hr).
  assert (Hbuild :
            buildBinary leftStartPos left_ right_ (str (value s))
              (TokenType.eqb (type s) tt.logicalOR || TokenType.eqb (type s) tt.logicalAND
               || TokenType.eqb (type s) tt.coalesce) s2
            = Ok (binaryNode (type s) leftStartPos (lastTokEnd s2) left_
                    (str (value s)) right_) s2).
  { unfold buildBinary, bind.
    destruct (String.eqb_spec (node_type right_) "PrivateIdentifier") as [E|_];
      [contradiction|].
    reflexivity. }
  rewrite (bind_Ok _ Hbuild).
  unfold bind. fold (mixed (type s) (type s2)).
  destruct (mixed (type s) (type s2)); reflexivity.
Qed.

End ExprOp.

Lemma mixed_iff (op next : TokenType.t) :
  mixed op next = true <->
  ((op = tt.logicalOR \/ op = tt.logicalAND) /\ next = tt.coalesce)
  \/ (op = tt.coalesce /\ (next = tt.logicalOR \/ next = tt.logicalAND)).
Proof.
  unfold mixed. rewrite orb_true_iff, !andb_true_iff, !orb_true_iff,
    !TokenType_eqb_eq. tauto.
Qed.

(** C3.  In [parseExprOp], once the right operand of an operator is parsed
    and the node built, a [??] that follows a [||] or [&&] node, or a [||] or
    [&&] that follows a [??] node, raises the recoverable error of mixing at
    that token; otherwise parsing goes on with the node as left operand.  The
    right operand of [??] is parsed at the precedence of [&&], so it takes up
    no [||] or [&&].  So [1 && 2 ?? 3] and [1 ?? 2 || 3] raise the error,
    while [(1 && 2) ?? 3] and [1 ?? (2 || 3)] parse. *)
Theorem C3_coalesce_not_mixed (rec : Rec) :
  (forall left_ leftStartPos minPrec forInit s prec operand r s1 right_ s2,
      TokenType.binop (type s) = Some prec ->
      negb (truthy forInit) || negb (TokenType.eqb (type s) tt._in) = true ->
      prec > minPrec ->
      rec_parseMaybeUnary rec None false false forInit (advance s) = Ok (operand, r) s1 ->
      rec_parseExprOp rec operand (start (advance s)) (operandPrec (type s) prec)
        forInit s1 = Ok right_ s2 ->
      node_type right_ <> "PrivateIdentifier" ->
      parseExprOp rec left_ leftStartPos minPrec forInit s
      = if mixed (type s) (type s2)
        then SyntaxError Recoverable (start s2) mixedMessage
        else rec_parseExprOp rec
               (binaryNode (type s) leftStartPos (lastTokEnd s2) left_
                  (str (value s)) right_)
               leftStartPos minPrec forInit s2)
  /\ (forall op next,
        mixed op next = true <->
        ((op = tt.logicalOR \/ op = tt.logicalAND) /\ next = tt.coalesce)
        \/ (op = tt.coalesce /\ (next = tt.logicalOR \/ next = tt.logicalAND)))
  /\ (forall prec,
        TokenType.binop tt.logicalAND = Some (operandPrec tt.coalesce prec)
        /\ operandPrec tt.logicalAND 2 = operandPrec tt.coalesce prec)
  /\ Acorn.parseExpression 10 C3_mixed = SyntaxError Recoverable 7 mixedMessage
  /\ Acorn.parseExpression 10 C3_mixed_or = SyntaxError Recoverable 7 mixedMessage
  /\ returns (Acorn.parseExpression 10 C3_parenthesized)
       (LogicalExpression 0 13
          (LogicalExpression 1 7 (Literal 1 2 (VNum 1) [49] None) "&&"
             (Literal 6 7 (VNum 2) [50] None))
          "??" (Literal 12 13 (VNum 3) [51] None))
  /\ returns (Acorn.parseExpression 10 C3_parenthesized_or)
       (LogicalExpression 0 13 (Literal 0 1 (VNum 1) [49] None) "??"
          (LogicalExpression 6 12 (Literal 6 7 (VNum 2) [50] None) "||"
             (Literal 11 12 (VNum 3) [51] None))).
Proof.
  split; [| split; [| split; [| split; [| split; [| split]]]]].
  - intros. eapply parseExprOp_step; eauto.
  - apply mixed_iff.
  - intros prec. split; reflexivity.
  - vm_compute. reflexivity.
  - vm_compute. reflexivity.
  - eexists. vm_compute. reflexivity.
  - eexists. vm_compute. reflexivity.
Qed.

(** C3 in [1 && 2 ?? 3] at [&&], the [1] parsed: the hypotheses hold, the
    right operand is [2], and the [??] that follows raises the error. *)
Lemma C3_coalesce_not_mixed_witness :
  parseExprOp (parser Acorn.env 5) (Literal 0 1 (VNum 1) [49] None) 0 (-1) VUndefined
    (advance C3_mixed)
  = SyntaxError Recoverable 7 mixedMessage.
Proof.
  pose (rec := parser Acorn.env 5).
  pose (s := advance C3_mixed).
  pose (s1 := state_of (rec_parseMaybeUnary rec None false false VUndefined (advance s)) s).
  pose (s2 := state_of (rec_parseExprOp rec (Literal 5 6 (VNum 2) [50] None) 5 2
                          VUndefined s1) s).
  assert (Hb : TokenType.binop (type s) = Some 2) by reflexivity.
  assert (Hin : negb (truthy VUndefined) || negb (TokenType.eqb (type s) tt._in) = true)
    by reflexivity.
  assert (Hprec : 2 > -1) by lia.
  assert (Hu : rec_parseMaybeUnary rec None false false VUndefined (advance s)
               = Ok (Literal 5 6 (VNum 2) [50] None, None) s1)
    by (vm_compute; reflexivity).
  assert (Hr : rec_parseExprOp rec (Literal 5 6 (VNum 2) [50] None) (start (advance s))
                 (operandPrec (type s) 2) VUndefined s1
               = Ok (Literal 5 6 (VNum 2) [50] None) s2)
    by (vm_compute; reflexivity).
  assert (Hp : node_type (Literal 5 6 (VNum 2) [50] None) <> "PrivateIdentifier")
    by discriminate.
  refine (eq_trans
            (proj1 (C3_coalesce_not_mixed rec) (Literal 0 1 (VNum 1) [49] None) 0 (-1)
               VUndefined s 2 (Literal 5 6 (VNum 2) [50] None) None s1
               (Literal 5 6 (VNum 2) [50] None) s2 Hb Hin Hprec Hu Hr Hp) _).
  vm_compute. reflexivity.
Defined.

(** ** Optional chains *)

Section Chains.

Variable env : Env.
Variable rec : Rec.
Variable fuel : nat.

Lemma node_optional_spine (n : Node) :
  node_optional n = true -> (1 <= optionalsOnSpine n)%nat.
Proof.
  destruct n; cbn; try discriminate;
    destruct optional as [[|]|]; try discriminate; intros _; lia.
Qed.

Lemma parseArrowExpression_type startPos params isAsync forInit s n s' :
  parseArrowExpression env rec startPos params isAsync forInit s = Ok n s' ->
  node_type n = "ArrowFunctionExpression".
Proof.
  unfold parseArrowExpression. intros H.
  inv_bind H. inv_bind H. inv_bind H. inv_bind H. destruct a2 as [body expression].
  inv_bind H. unfold finishNode in H. inversion H. reflexivity.
Qed.

(** What [parseSubscript] returns: [base] itself, or a node built on
    [base], or an arrow function. *)
Lemma parseSubscript_shape base startPos noCalls maybeAsyncArrow optionalChained
    forInit s element same s1 :
  parseSubscript env rec fuel base startPos noCalls maybeAsyncArrow optionalChained
    forInit s = Ok (element, same) s1 ->
  (same = true /\ element = base)
  \/ (same = false
      /\ (node_type element = "ArrowFunctionExpression"
          \/ (exists e p c opt, element = MemberExpression startPos e base p c opt)
          \/ (exists e args opt, element = CallExpression startPos e base args opt)
          \/ (optionalChained = false
              /\ exists e q, element = TaggedTemplateExpression startPos e base q))).
Proof.
  unfold parseSubscript. intros H.
  apply bind_inv_Ok in H. destruct H as (optional & sa & _ & H).
  apply bind_inv_Ok in H. destruct H as (u & sb & _ & H).
  apply bind_inv_Ok in H. destruct H as (computed & sc & _ & H).
  apply bind_inv_Ok in H. destruct H as (member & sd & _ & H).
  destruct member.
  - apply bind_inv_Ok in H. destruct H as (property & se & _ & H).
    apply bind_inv_Ok in H. destruct H as (node & sf & Hn & H).
    inv_ret H. unfold finishNode in Hn. inversion Hn; subst.
    right. split; [reflexivity|]. right. left. eauto.
  - apply bind_inv_Ok in H. destruct H as (call & se & _ & H).
    destruct call.
    + apply bind_inv_Ok in H. destruct H as (y & s3 & _ & H).
      apply bind_inv_Ok in H. destruct H as (aw & s4 & _ & H).
      apply bind_inv_Ok in H. destruct H as (ai & s5 & _ & H).
      apply bind_inv_Ok in H. destruct H as (u2 & s6 & _ & H).
      apply bind_inv_Ok in H. destruct H as (ev & s7 & _ & H).
      apply bind_inv_Ok in H. destruct H as ([exprList r] & s8 & _ & H).
      apply bind_inv_Ok in H. destruct H as (isArrow & s9 & _ & H).
      destruct isArrow.
      * apply bind_inv_Ok in H. destruct H as (u3 & s10 & _ & H).
        apply bind_inv_Ok in H. destruct H as (u4 & s11 & _ & H).
        apply bind_inv_Ok in H. destruct H as (u5 & s12 & _ & H).
        apply bind_inv_Ok in H. destruct H as (u6 & s13 & _ & H).
        apply bind_inv_Ok in H. destruct H as (arrow & s14 & Ha & H).
        inv_ret H. apply parseArrowExpression_type in Ha.
        right. split; [reflexivity|]. now left.
      * apply bind_inv_Ok in H. destruct H as (b & s10 & _ & H).
        apply bind_inv_Ok in H. destruct H as (u4 & s11 & _ & H).
        apply bind_inv_Ok in H. destruct H as (node & s12 & Hn & H).
        inv_ret H. unfold finishNode in Hn. inversion Hn; subst.
        right. split; [reflexivity|]. right. right. left. eauto.
    + destruct (TokenType.eqb (type se) tt.backQuote).
      * apply bind_inv_Ok in H. destruct H as (u2 & s3 & Ho & H).
        apply bind_inv_Ok in H. destruct H as (quasi & s4 & _ & H).
        apply bind_inv_Ok in H. destruct H as (node & s5 & Hn & H).
        inv_ret H. unfold finishNode in Hn. inversion Hn; subst.
        right. split; [reflexivity|]. right. right. right.
        destruct optional, optionalChained; cbn in Ho; try discriminate.
        split; [reflexivity | eauto].
      * inv_ret H. now left.
Qed.

Lemma parseSubscripts_loop_elements n base startPos noCalls maybeAsyncArrow
    optionalChained forInit s :
  parseSubscripts_loop env rec fuel n base startPos noCalls maybeAsyncArrow
    optionalChained forInit s
  = ('(element, chained) <- parseSubscripts_elements env rec fuel n base startPos
                              noCalls maybeAsyncArrow optionalChained forInit ;;
     if chained then finishNode (fun st en => ChainExpression st en element) startPos
     else ret element) s.
Proof.
  revert base optionalChained s.
  induction n as [|n IH]; intros base optionalChained s; [reflexivity|].
  cbn [parseSubscripts_loop parseSubscripts_elements]. unfold bind.
  destruct (parseSubscript env rec fuel base startPos noCalls maybeAsyncArrow
              optionalChained forInit s) as [[element same] s1| |]; try reflexivity.
  destruct (same || String.eqb (node_type element) "ArrowFunctionExpression").
  - unfold ret.
    destruct (if node_optional element then true else optionalChained); reflexivity.
  - rewrite IH. reflexivity.
Qed.

(** When the loop ends with [optionalChained] set, the element is an arrow
    function or has a node with [optional] true on its spine; and
    [optionalChained], once set, stays set. *)
Lemma parseSubscripts_elements_spine n base startPos noCalls maybeAsyncArrow
    optionalChained forInit s element chained s' :
  (optionalChained = true -> (1 <= optionalsOnSpine base)%nat) ->
  parseSubscripts_elements env rec fuel n base startPos noCalls maybeAsyncArrow
    optionalChained forInit s = Ok (element, chained) s' ->
  (chained = true ->
   node_type element = "ArrowFunctionExpression"
   \/ (1 <= optionalsOnSpine element)%nat)
  /\ (optionalChained = true -> chained = true).
Proof.
  revert base optionalChained s.
  induction n as [|n IH]; intros base optionalChained s Hinv H; [discriminate|].
  cbn [parseSubscripts_elements] in H.
  apply bind_inv_Ok in H. destruct H as ([elt same] & s1 & Hsub & H).
  assert (Hspine : (if node_optional elt then true else optionalChained) = true ->
                   node_type elt = "ArrowFunctionExpression"
                   \/ (1 <= optionalsOnSpine elt)%nat).
  { destruct (node_optional elt) eqn:Hopt.
    - intros _. right. now apply node_optional_spine.
    - intros Hoc. specialize (Hinv Hoc).
      apply parseSubscript_shape in Hsub.
      destruct Hsub as [[_ ->] | [_ [Ha | [(e & p & c & opt & ->) |
                                   [(e & args & opt & ->) | [Hf _]]]]]].
      + now right.
      + now left.
      + right. cbn. lia.
      + right. cbn. lia.
      + congruence. }
  destruct (same || String.eqb (node_type elt) "ArrowFunctionExpression") eqn:Hexit.
  - inv_ret H. split; [exact Hspine|].
    intros ->. now destruct (node_optional element).
  - assert (Hnotarrow : node_type elt <> "ArrowFunctionExpression").
    { apply orb_false_iff in Hexit. destruct Hexit as [_ Hexit].
      now apply String.eqb_neq in Hexit. }
    apply IH in H.
    + destruct H as [H1 H2]. split; [exact H1|].
      intros ->. apply H2. now destruct (node_optional elt).
    + intros Hoc. destruct (Hspine Hoc); [contradiction | assumption].
Qed.

(** An element with [optional] true that does not end the loop sets
    [optionalChained] for the rest of the loop. *)
Lemma parseSubscripts_elements_optional n base startPos noCalls maybeAsyncArrow
    optionalChained forInit s element s1 :
  parseSubscript env rec fuel base startPos noCalls maybeAsyncArrow optionalChained
    forInit s = Ok (element, false) s1 ->
  node_type element <> "ArrowFunctionExpression" ->
  node_optional element = true ->
  parseSubscripts_elements env rec fuel (S n) base startPos noCalls maybeAsyncArrow
    optionalChained forInit s
  = parseSubscripts_elements env rec fuel n element startPos noCalls maybeAsyncArrow
      true forInit s1.
Proof.
  intros Hsub Ha Hopt. cbn [parseSubscripts_elements].
  rewrite (bind_Ok _ Hsub). cbn beta iota. rewrite Hopt.
  apply String.eqb_neq in Ha. rewrite Ha. reflexivity.
Qed.

End Chains.




(** ** [parseVar]: a [const] declarator without an initializer *)

(** A [const] declarator without [=].  Unless the next token is [in] or,
    for ecmaVersion >= 6, the contextual [of], [parseVar] raises at that
    token.  When it is, and the id is an identifier, the declarator gets
    [init = null]; [isFor] is not consulted. *)
Lemma parseVar_const_without_init (env : Env) (rec : Rec) (fuel n : nat)
    (isFor : bool) (declarations : list Node) (s s1 : State) (id : Node) :
  parseVarId env rec fuel "const" s = Ok id s1 ->
  TokenType.eqb (type s1) tt.eq = false ->
  node_type id = "Identifier" ->
  parseVar_loop env rec fuel (S n) isFor "const" declarations s
  = if TokenType.eqb (type s1) tt._in
       || ((ecmaVersion (options s1) >=? 6) && isContextual "of" s1)
    then (c <- eat tt.comma ;;
          let decl := VariableDeclarator (start s) (lastTokEnd s1) id None in
          if negb c then ret (declarations ++ [decl])
          else parseVar_loop env rec fuel n isFor "const" (declarations ++ [decl])) s1
    else SyntaxError Fatal (start s1) "Unexpected token".
Proof.
  intros Hid Heq Hty.
  cbn [parseVar_loop]. unfold bind, gets, eat, ret, finishNode, raise, unexpected.
  rewrite Hid, Heq. cbn [String.eqb Ascii.eqb Bool.eqb andb].
  destruct (TokenType.eqb (type s1) tt._in
            || (ecmaVersion (options s1) >=? 6) && isContextual "of" s1) eqn:Hnext.
  - cbn [negb]. rewrite Hty. cbn [String.eqb Ascii.eqb Bool.eqb negb andb].
    reflexivity.
  - reflexivity.
Qed.

(** C8.  What the parser does at [const x], line break, [of]: the program
    is a [const] declaration whose declarator has no init, outside any
    [for] head, followed by the expression statement [of].  Beside it,
    [for (const x of xs) x++;] parses with [init = null], and [const x;]
    and [const x in y] are errors. *)
Theorem C8_const_without_initializer :
  returns (Acorn.parseProgramBody 10 C8_const_of)
    [VariableDeclaration 0 7 [VariableDeclarator 6 7 (Identifier 6 7 "x") None] "const";
     ExpressionStatement 8 10 (Identifier 8 10 "of") None]
  /\ returns (Acorn.parseProgramBody 10 C8_for_of)
       [ForOfStatement 0 24 (Some false)
          (VariableDeclaration 5 12
             [VariableDeclarator 11 12 (Identifier 11 12 "x") None] "const")
          (Identifier 16 18 "xs")
          (ExpressionStatement 20 24
             (UnaryExpression 20 23 "++" false (Identifier 20 21 "x")) None)]
  /\ Acorn.parseProgramBody 10 C8_const_semi = SyntaxError Fatal 7 "Unexpected token"
  /\ Acorn.parseProgramBody 10 C8_const_in = SyntaxError Fatal 8 "Unexpected token".
Proof.
  split; [| split; [| split]].
  - eexists. vm_compute. reflexivity.
  - eexists. vm_compute. reflexivity.
  - vm_compute. reflexivity.
  - vm_compute. reflexivity.
Qed.

(** ** [let] at the start of a statement *)

Lemma isCode_eq (ch : option Z) (code : Z) : isCode ch code = true <-> ch = Some code.
Proof.
  destruct ch as [c|]; cbn; [|split; discriminate].
  rewrite Z.eqb_eq. split; congruence.
Qed.

Section Let.

Variable env : Env.
Variable rec : Rec.
Variable fuel : nat.

Lemma isLet_old context s : ecmaVersion (options s) < 6 -> isLet env context s = false.
Proof.
  intros H. unfold isLet. apply Z.ltb_lt in H. now rewrite H.
Qed.

Lemma isLet_not_contextual context s :
  isContextual "let" s = false -> isLet env context s = false.
Proof.
  intros H. unfold isLet. rewrite H. now rewrite orb_true_r.
Qed.

Lemma isLet_no_context context s :
  isContext context = false ->
  ecmaVersion (options s) >= 6 ->
  isContextual "let" s = true ->
  isLet env context s = true <-> startsBinding env (input s) (pos s).
Proof.
  intros Hc Hv Hl. unfold isLet, startsBinding.
  assert (Hv' : (ecmaVersion (options s) <? 6) = false) by (apply Z.ltb_ge; lia).
  rewrite Hv', Hl, Hc. cbn [negb orb].
  set (next := afterWhiteSpace (input s) (pos s)).
  set (nextCh := charCodeAt (input s) next).
  set (p := identEnd env (List.length (input s)) (input s) (next + 1)).
  rewrite <- !isCode_eq.
  destruct (isCode nextCh 91); [cbn; tauto|].
  destruct (isCode nextCh 92); [cbn; tauto|].
  destruct (isCode nextCh 123); [cbn; tauto|].
  destruct (isLeadSurrogate nextCh); [cbn; tauto|].
  cbn [orb].
  destruct (identifierStart env nextCh true).
  - destruct (isCode (charCodeAt (input s) p) 92); [cbn; tauto|].
    destruct (isLeadSurrogate (charCodeAt (input s) p)); [cbn; tauto|].
    cbn [orb].
    destruct (keywordRelationalOperator_test (slice (input s) next p)); cbn.
    + split; [discriminate|].
      intros [H|[H|[H|[H|[_ [H|[H|H]]]]]]]; discriminate.
    + tauto.
  - split; [discriminate|].
    intros [H|[H|[H|[H|[H _]]]]]; discriminate.
Qed.

Lemma isLet_in_context context s :
  isContext context = true ->
  ecmaVersion (options s) >= 6 ->
  isContextual "let" s = true ->
  isLet env context s = true <-> startsBindingInContext (input s) (pos s).
Proof.
  intros Hc Hv Hl. unfold isLet, startsBindingInContext.
  assert (Hv' : (ecmaVersion (options s) <? 6) = false) by (apply Z.ltb_ge; lia).
  rewrite Hv', Hl, Hc. cbn [negb orb].
  rewrite <- !isCode_eq.
  destruct (isCode _ 91); [cbn; tauto|].
  destruct (isCode _ 92); [cbn; tauto|].
  cbn. split; [discriminate|]. intros [H|H]; discriminate.
Qed.

(** [let] that starts a declaration is handed to [parseVarStatement]. *)
Lemma parseStatement_let context topLevel s :
  isLet env context s = true ->
  isContext context = false ->
  parseStatement env rec fuel context topLevel s
  = parseVarStatement env rec fuel (start s) "let" s.
Proof.
  intros Hl Hc. unfold parseStatement. rewrite Hl, Hc. reflexivity.
Qed.

Lemma parseStatement_let_in_context context topLevel s :
  isLet env context s = true ->
  isContext context = true ->
  parseStatement env rec fuel context topLevel s
  = SyntaxError Fatal (start s) "Unexpected token".
Proof.
  intros Hl Hc. unfold parseStatement. rewrite Hl, Hc. reflexivity.
Qed.

Lemma parseVarStatement_type startPos kind s node s' :
  parseVarStatement env rec fuel startPos kind s = Ok node s' ->
  exists e declarations, node = VariableDeclaration startPos e declarations kind.
Proof.
  unfold parseVarStatement. intros H.
  inv_bind H. inv_bind H. inv_bind H.
  unfold finishNode in H. inversion H. eauto.
Qed.

Lemma parseLabeledStatement_type startPos maybeName expr context s node s' :
  parseLabeledStatement rec startPos maybeName expr context s = Ok node s' ->
  node_type node = "LabeledStatement".
Proof.
  unfold parseLabeledStatement. intros H.
  inv_bind H. inv_bind H. inv_bind H. inv_bind H. inv_bind H. inv_bind H.
  unfold finishNode in H. inversion H. reflexivity.
Qed.

Lemma parseExpressionStatement_type startPos expr s node s' :
  parseExpressionStatement startPos expr s = Ok node s' ->
  node_type node = "ExpressionStatement".
Proof.
  unfold parseExpressionStatement. intros H. inv_bind H.
  unfold finishNode in H. inversion H. reflexivity.
Qed.

(** [let] that does not start a declaration is the start of an
    expression. *)
Lemma parseStatement_let_expression context topLevel s node s' :
  isContextual "let" s = true ->
  isLet env context s = false ->
  parseStatement env rec fuel context topLevel s = Ok node s' ->
  node_type node = "ExpressionStatement" \/ node_type node = "LabeledStatement".
Proof.
  intros Hl Hn H. unfold parseStatement in H. rewrite Hn in H.
  pose proof Hl as Hl'. unfold isContextual in Hl'.
  apply andb_prop in Hl'. destruct Hl' as [Hl' Hesc].
  apply andb_prop in Hl'. destruct Hl' as [Hty Hval].
  apply TokenType_eqb_eq in Hty.
  assert (Hasync : isAsyncFunction env s = false).
  { unfold isAsyncFunction, isContextual. rewrite Hty.
    destruct (value s) as [| |b|z|v]; try discriminate.
    cbn in Hval. apply String.eqb_eq in Hval. subst v.
    cbn. now rewrite orb_true_r. }
  rewrite Hty in H. cbv beta iota zeta in H. rewrite Hasync in H.
  inv_bind H. destruct a as [expr r]. inv_bind H.
  destruct a.
  - right. eapply parseLabeledStatement_type; eauto.
  - left. eapply parseExpressionStatement_type; eauto.
Qed.

End Let.

(** C5, as amended.  Below ecmaVersion 6, and where the token is not the
    word [let] written without escapes, [isLet] answers false.  From
    ecmaVersion 6 on, where the statement has no context, [isLet] answers
    true exactly when [let] is followed, after white space and comments, by
    [[], a backslash, [{], a lead surrogate, or an identifier start whose
    identifier is not [in] or [instanceof]; [parseStatement] then is
    [parseVarStatement] with kind [let], whose node is a
    [VariableDeclaration].  Where the statement has a context, [isLet]
    answers true exactly on [[] and a backslash, and [parseStatement] then
    raises: no declaration is parsed.  Where [isLet] answers false,
    [parseStatement] on [let] gives an expression statement or a labeled
    statement. *)
Theorem C5_let_declaration (env : Env) (rec : Rec) (fuel : nat) :
  (forall context s, ecmaVersion (options s) < 6 -> isLet env context s = false)
  /\ (forall context s, isContextual "let" s = false -> isLet env context s = false)
  /\ (forall context s,
        isContext context = false ->
        ecmaVersion (options s) >= 6 ->
        isContextual "let" s = true ->
        isLet env context s = true <-> startsBinding env (input s) (pos s))
  /\ (forall context s,
        isContext context = true ->
        ecmaVersion (options s) >= 6 ->
        isContextual "let" s = true ->
        isLet env context s = true <-> startsBindingInContext (input s) (pos s))
  /\ (forall context topLevel s,
        isLet env context s = true ->
        isContext context = false ->
        parseStatement env rec fuel context topLevel s
        = parseVarStatement env rec fuel (start s) "let" s)
  /\ (forall startPos kind s node s',
        parseVarStatement env rec fuel startPos kind s = Ok node s' ->
        exists e declarations, node = VariableDeclaration startPos e declarations kind)
  /\ (forall context topLevel s,
        isLet env context s = true ->
        isContext context = true ->
        parseStatement env rec fuel context topLevel s
        = SyntaxError Fatal (start s) "Unexpected token")
  /\ (forall context topLevel s node s',
        isContextual "let" s = true ->
        isLet env context s = false ->
        parseStatement env rec fuel context topLevel s = Ok node s' ->
        node_type node = "ExpressionStatement" \/ node_type node = "LabeledStatement").
Proof.
  split; [| split; [| split; [| split; [| split; [| split; [| split]]]]]].
  - intros. now apply isLet_old.
  - intros. now apply isLet_not_contextual.
  - intros. now apply isLet_no_context.
  - intros. now apply isLet_in_context.
  - intros. now apply parseStatement_let.
  - intros. eapply parseVarStatement_type; eauto.
  - intros. now apply parseStatement_let_in_context.
  - intros. eapply parseStatement_let_expression; eauto.
Qed.

(** C5 on [let [x] = 1] for ecmaVersion 5, on [let x = 1], on [let in x]
    and on the [let [x] = 1] that the label [l] holds. *)
Lemma C5_let_declaration_witness :
  isLet Acorn.env None (C5_let_bracket 5) = false
  /\ isLet Acorn.env None C5_let_x = true
  /\ Acorn.parseStatement 10 None true C5_let_x
     = parseVarStatement Acorn.env (parser Acorn.env 9) 9 0 "let" C5_let_x
  /\ (exists e declarations,
        VariableDeclaration 0 9
          [VariableDeclarator 4 9 (Identifier 4 5 "x")
             (Some (Literal 8 9 (VNum 1) [49] None))] "let"
        = VariableDeclaration 0 e declarations "let")
  /\ isLet Acorn.env (Some "label") (advance (advance C5_label_let)) = true
  /\ Acorn.parseStatement 10 (Some "label") false (advance (advance C5_label_let))
     = SyntaxError Fatal 3 "Unexpected token"
  /\ (node_type (ExpressionStatement 0 8
                   (BinaryExpression 0 8 (Identifier 0 3 "let") "in" (Identifier 7 8 "x"))
                   None) = "ExpressionStatement"
      \/ node_type (ExpressionStatement 0 8
                      (BinaryExpression 0 8 (Identifier 0 3 "let") "in"
                         (Identifier 7 8 "x"))
                      None) = "LabeledStatement").
Proof.
  destruct (C5_let_declaration Acorn.env (parser Acorn.env 9) 9)
    as (Hold & _ & Hnone & Hctx & Hvar & Htype & Herr & Hexpr).
  split; [| split; [| split; [| split; [| split; [| split]]]]].
  - apply Hold. cbn. lia.
  - apply (proj2 (Hnone None C5_let_x eq_refl ltac:(cbn; lia) eq_refl)).
    unfold startsBinding. do 4 right. split; [reflexivity|].
    right. right. reflexivity.
  - refine (eq_trans _ (eq_trans (Hvar None true C5_let_x _ _) _));
      vm_compute; reflexivity.
  - apply (Htype 0 "let" C5_let_x _
             (state_of (parseVarStatement Acorn.env (parser Acorn.env 9) 9 0 "let" C5_let_x)
                C5_let_x)).
    vm_compute. reflexivity.
  - apply (proj2 (Hctx (Some "label") (advance (advance C5_label_let)) eq_refl
                    ltac:(cbn; lia) eq_refl)).
    left. reflexivity.
  - refine (eq_trans _ (Herr (Some "label") false (advance (advance C5_label_let)) _ _));
      vm_compute; reflexivity.
  - apply (Hexpr None true C5_let_in _
             (state_of (Acorn.parseStatement 10 None true C5_let_in) C5_let_in));
      [reflexivity | reflexivity |].
    vm_compute. reflexivity.
Defined.

(** C5 as stated fails.  For ecmaVersion 5, [let [x] = 1] has [let] followed
    by [[] and is an assignment to the member [let[x]], not a declaration.
    For ecmaVersion 2020, [let] followed by an identifier written with an
    escape is a declaration, and the code unit after [let], the backslash,
    is none of [[], [{], an identifier start and a lead surrogate. *)
Lemma C5_counterexample :
  (charCodeAt (input (C5_let_bracket 5))
     (afterWhiteSpace (input (C5_let_bracket 5)) (pos (C5_let_bracket 5))) = Some 91
   /\ isLet Acorn.env None (C5_let_bracket 5) = false
   /\ returns (Acorn.parseProgramBody 10 (C5_let_bracket 5))
        [ExpressionStatement 0 11
           (AssignmentExpression 0 11 "="
              (MemberExpression 0 7 (Identifier 0 3 "let") (Identifier 5 6 "x") true None)
              (Literal 10 11 (VNum 1) [49] None))
           None])
  /\ (charCodeAt (input C5_let_escape)
        (afterWhiteSpace (input C5_let_escape) (pos C5_let_escape)) = Some 92
      /\ Acorn.isIdentifierStart 92 true = false
      /\ isLeadSurrogate (Some 92) = false
      /\ isLet Acorn.env None C5_let_escape = true
      /\ returns (Acorn.parseProgramBody 10 C5_let_escape)
           [VariableDeclaration 0 14
              [VariableDeclarator 4 14 (Identifier 4 10 "a")
                 (Some (Literal 13 14 (VNum 1) [49] None))]
              "let"]).
Proof.
  split; [split; [| split] | split; [| split; [| split; [| split]]]];
    try reflexivity; eexists; vm_compute; reflexivity.
Qed.

(** ** Private names *)

Lemma exitClassBody_loop_parent declared used pused s :
  exitClassBody_loop declared used (Some pused) s
  = Ok (Some (pused ++ undeclared declared used)) s.
Proof.
  revert pused. induction used as [|id rest IH]; intros pused; cbn.
  - now rewrite app_nil_r.
  - destruct (hasOwn_declared declared (node_name id)); cbn.
    + apply IH.
    + rewrite IH. now rewrite <- app_assoc.
Qed.

Lemma exitClassBody_loop_declared declared used s :
  undeclared declared used = [] ->
  exitClassBody_loop declared used None s = Ok None s.
Proof.
  induction used as [|id rest IH]; cbn; [reflexivity|].
  destruct (hasOwn_declared declared (node_name id)); cbn; [exact IH | discriminate].
Qed.

Lemma exitClassBody_loop_undeclared declared used id others s :
  undeclared declared used = id :: others ->
  exitClassBody_loop declared used None s
  = SyntaxError Recoverable (node_start id)
      ("Private field '#" ++ node_name id ++ "' must be declared in an enclosing class").
Proof.
  induction used as [|id' rest IH]; cbn; [discriminate|].
  destruct (hasOwn_declared declared (node_name id')); cbn; [exact IH|].
  intros H. injection H as -> _. reflexivity.
Qed.

Lemma exitClassBody_parent declared used pdeclared pused rest s :
  privateNameStack s
  = mkPrivateFrame declared used :: mkPrivateFrame pdeclared pused :: rest ->
  exitClassBody s
  = Ok tt (set_privateNameStack
             (mkPrivateFrame pdeclared (pused ++ undeclared declared used) :: rest) s).
Proof.
  intros H. unfold exitClassBody. rewrite H.
  unfold bind. rewrite exitClassBody_loop_parent. reflexivity.
Qed.

Lemma exitClassBody_declared declared used s :
  privateNameStack s = [mkPrivateFrame declared used] ->
  undeclared declared used = [] ->
  exitClassBody s = Ok tt (set_privateNameStack [] s).
Proof.
  intros H Hu. unfold exitClassBody. rewrite H.
  unfold bind, modify. rewrite (exitClassBody_loop_declared _ _ _ Hu). reflexivity.
Qed.

Lemma exitClassBody_undeclared declared used id others s :
  privateNameStack s = [mkPrivateFrame declared used] ->
  undeclared declared used = id :: others ->
  exitClassBody s
  = SyntaxError Recoverable (node_start id)
      ("Private field '#" ++ node_name id ++ "' must be declared in an enclosing class").
Proof.
  intros H Hu. unfold exitClassBody. rewrite H.
  unfold bind, modify. rewrite (exitClassBody_loop_undeclared _ _ _ _ _ Hu). reflexivity.
Qed.

(** A private name that is read goes to the [used] of the innermost class. *)
Lemma parsePrivateIdent_used s declared used below :
  type s = tt.privateId ->
  privateNameStack s = mkPrivateFrame declared used :: below ->
  let node := PrivateIdentifier (start s) (end_ s) (str (value s)) in
  parsePrivateIdent s
  = Ok node (set_privateNameStack (mkPrivateFrame declared (used ++ [node]) :: below)
               (advance s)).
Proof.
  intros Hty Hst node. unfold parsePrivateIdent. rewrite Hty.
  unfold bind, ret, next, finishNode. cbn [TokenType.eqb].
  rewrite TokenType_eqb_refl.
  replace (privateNameStack (advance s)) with (privateNameStack s) by reflexivity.
  rewrite Hst. reflexivity.
Qed.

(** C7.  [exitClassBody] pops the frame of the class.  Where a frame lies
    below it, the private names of the popped frame's [used] that its
    [declared] does not have are appended, in their order, to the [used] of
    that frame.  Where none lies below, the first such name stops the parse
    with "Private field '#x' must be declared in an enclosing class" at the
    position of the use, and the parse goes on when there is none.  A private
    name that is read goes to the [used] of the innermost class.  So
    [class C { #x; method() { return this.#x; } }] parses,
    [class C { method() { return this.#x; } }] stops with that message at
    the [#x], and an inner class may read the [#x] of the class around it. *)
Theorem C7_private_names_checked_on_exit :
  (forall declared used pdeclared pused rest s,
      privateNameStack s
      = mkPrivateFrame declared used :: mkPrivateFrame pdeclared pused :: rest ->
      exitClassBody s
      = Ok tt (set_privateNameStack
                 (mkPrivateFrame pdeclared (pused ++ undeclared declared used) :: rest) s))
  /\ (forall declared used s,
        privateNameStack s = [mkPrivateFrame declared used] ->
        undeclared declared used = [] ->
        exitClassBody s = Ok tt (set_privateNameStack [] s))
  /\ (forall declared used id others s,
        privateNameStack s = [mkPrivateFrame declared used] ->
        undeclared declared used = id :: others ->
        exitClassBody s
        = SyntaxError Recoverable (node_start id)
            ("Private field '#" ++ node_name id
             ++ "' must be declared in an enclosing class"))
  /\ (forall s declared used below,
        type s = tt.privateId ->
        privateNameStack s = mkPrivateFrame declared used :: below ->
        let node := PrivateIdentifier (start s) (end_ s) (str (value s)) in
        parsePrivateIdent s
        = Ok node (set_privateNameStack
                     (mkPrivateFrame declared (used ++ [node]) :: below) (advance s)))
  /\ returns (Acorn.parseProgramBody 12 C7_declared)
       [ClassDeclaration 0 44 (Some (Identifier 6 7 "C")) None
          (ClassBody 8 44
             [PropertyDefinition 10 13 false (Some false) (PrivateIdentifier 10 12 "x") None;
              MethodDefinition 14 42 false (Some false) (Identifier 14 20 "method") "method"
                (FunctionExpression 20 42 None (Some false) (Some false) (Some false) []
                   (BlockStatement 23 42
                      [ReturnStatement 25 40
                         (Some (MemberExpression 32 39 (ThisExpression 32 36)
                                  (PrivateIdentifier 37 39 "x") false (Some false)))]))])]
  /\ Acorn.parseProgramBody 12 C7_undeclared
     = SyntaxError Recoverable 33
         "Private field '#x' must be declared in an enclosing class"
  /\ returns (Acorn.parseProgramBody 14 C7_nested)
       [ClassDeclaration 0 59 (Some (Identifier 6 7 "A")) None
          (ClassBody 8 59
             [PropertyDefinition 10 13 false (Some false) (PrivateIdentifier 10 12 "x") None;
              MethodDefinition 14 57 false (Some false) (Identifier 14 15 "m") "method"
                (FunctionExpression 15 57 None (Some false) (Some false) (Some false) []
                   (BlockStatement 18 57
                      [ClassDeclaration 20 55 (Some (Identifier 26 27 "B")) None
                         (ClassBody 28 55
                            [MethodDefinition 30 53 false (Some false)
                               (Identifier 30 31 "n") "method"
                               (FunctionExpression 31 53 None (Some false) (Some false)
                                  (Some false) []
                                  (BlockStatement 34 53
                                     [ReturnStatement 36 51
                                        (Some (MemberExpression 43 50
                                                 (ThisExpression 43 47)
                                                 (PrivateIdentifier 48 50 "x") false
                                                 (Some false)))]))])]))])].
Proof.
  split; [| split; [| split; [| split; [| split; [| split]]]]].
  - intros declared used pdeclared pused rest s H.
    exact (exitClassBody_parent _ _ _ _ _ _ H).
  - intros declared used s H Hu. exact (exitClassBody_declared _ _ _ H Hu).
  - intros declared used id others s H Hu. exact (exitClassBody_undeclared _ _ _ _ _ H Hu).
  - intros s declared used below Hty H. exact (parsePrivateIdent_used _ _ _ _ Hty H).
  - eexists. vm_compute. reflexivity.
  - vm_compute. reflexivity.
  - eexists. vm_compute. reflexivity.
Qed.

(** C7 where an inner class that read [#x] and its own [#y] is left, where
    an outermost class that read an undeclared [#x] is left, where a class
    that declared what it read is left, and at the [#x] of [this.#x]. *)
Lemma C7_private_names_checked_on_exit_witness :
  exitClassBody C7_inner_exit
  = Ok tt (set_privateNameStack
             [mkPrivateFrame [("x", "true")] [PrivateIdentifier 48 50 "x"]] C7_inner_exit)
  /\ exitClassBody C7_outer_exit
     = SyntaxError Recoverable 33
         "Private field '#x' must be declared in an enclosing class"
  /\ exitClassBody (state_of (parsePrivateIdent C7_at_use) C7_at_use)
     = Ok tt (set_privateNameStack [] (state_of (parsePrivateIdent C7_at_use) C7_at_use))
  /\ parsePrivateIdent C7_at_use
     = Ok (PrivateIdentifier 37 39 "x")
          (set_privateNameStack
             [mkPrivateFrame [("x", "true")]
                [PrivateIdentifier 10 12 "x"; PrivateIdentifier 37 39 "x"]]
             (advance C7_at_use)).
Proof.
  destruct C7_private_names_checked_on_exit as (Hparent & Hdeclared & Hundeclared & Hused & _).
  split; [| split; [| split]].
  - exact (Hparent [("y", "true")]
             [PrivateIdentifier 48 50 "x"; PrivateIdentifier 60 62 "y"]
             [("x", "true")] [] [] C7_inner_exit eq_refl).
  - exact (Hundeclared [] [PrivateIdentifier 33 35 "x"] (PrivateIdentifier 33 35 "x") []
             C7_outer_exit eq_refl eq_refl).
  - exact (Hdeclared [("x", "true")]
             [PrivateIdentifier 10 12 "x"; PrivateIdentifier 37 39 "x"]
             (state_of (parsePrivateIdent C7_at_use) C7_at_use) eq_refl eq_refl).
  - exact (Hused C7_at_use [("x", "true")] [PrivateIdentifier 10 12 "x"] [] eq_refl eq_refl).
Defined.

(** * Further properties of the code *)

Ltac case_if H :=
  match type of H with
  | (if ?c then _ else _) _ = _ => destruct c eqn:?
  | (if ?c then _ else _) = _ => destruct c eqn:?
  end.

(** ** util.js: code points as UTF-16 *)

Lemma codePointToString_astral (code : Z) :
  0x10000 <= code <= 0x10FFFF ->
  Util.codePointToString code
  = [0xD800 + (code - 0x10000) / 1024; 0xDC00 + (code - 0x10000) mod 1024].
Proof.
  intros H. unfold Util.codePointToString.
  assert (Hle : (code <=? 0xFFFF) = false) by (apply Z.leb_gt; lia).
  rewrite Hle. cbv zeta.
  assert (Hint : Util.toInt32 (code - 0x10000) = code - 0x10000).
  { unfold Util.toInt32. change (2 ^ 31) with 2147483648.
    change (2 ^ 32) with 4294967296. rewrite Z.mod_small; lia. }
  rewrite Hint.
  rewrite Z.shiftr_div_pow2 by lia.
  change 1023 with (Z.ones 10). rewrite Z.land_ones by lia.
  change (2 ^ 10) with 1024.
  assert (0 <= (code - 0x10000) / 1024 < 1024).
  { split; [apply Z.div_pos; lia | apply Z.div_lt_upper_bound; lia]. }
  assert (0 <= (code - 0x10000) mod 1024 < 1024) by (apply Z.mod_pos_bound; lia).
  unfold Util.fromCharCode. change (2 ^ 16) with 65536.
  rewrite !Z.mod_small by lia.
  f_equal; [lia | f_equal; lia].
Qed.

Lemma codePointToString_bmp (code : Z) :
  0 <= code <= 0xFFFF -> Util.codePointToString code = [code].
Proof.
  intros H. unfold Util.codePointToString.
  assert (Hle : (code <=? 0xFFFF) = true) by (apply Z.leb_le; lia).
  rewrite Hle. unfold Util.fromCharCode. change (2 ^ 16) with 65536.
  rewrite Z.mod_small; [reflexivity | lia].
Qed.

(** X1.  [codePointToString] gives a code point of the basic plane as the
    one code unit it is, and a code point from 0x10000 to 0x10FFFF as a lead
    surrogate followed by a trail surrogate from which the code point is
    computed back; so different code points give different strings. *)
Theorem X1_codePointToString_round_trip :
  (forall code, 0 <= code <= 0xFFFF -> Util.codePointToString code = [code])
  /\ (forall code,
        0x10000 <= code <= 0x10FFFF ->
        exists hi lo,
          Util.codePointToString code = [hi; lo]
          /\ isLeadSurrogate (Some hi) = true
          /\ 0xDC00 <= lo <= 0xDFFF
          /\ code = 0x10000 + (hi - 0xD800) * 1024 + (lo - 0xDC00))
  /\ (forall a b,
        0 <= a <= 0x10FFFF -> 0 <= b <= 0x10FFFF ->
        Util.codePointToString a = Util.codePointToString b -> a = b).
Proof.
  assert (Hpair : forall code,
             0x10000 <= code <= 0x10FFFF ->
             0 <= (code - 0x10000) / 1024 < 1024
             /\ 0 <= (code - 0x10000) mod 1024 < 1024
             /\ code - 0x10000
                = 1024 * ((code - 0x10000) / 1024) + (code - 0x10000) mod 1024).
  { intros code H. split; [|split].
    - split; [apply Z.div_pos; lia | apply Z.div_lt_upper_bound; lia].
    - apply Z.mod_pos_bound; lia.
    - apply Z.div_mod; lia. }
  split; [exact codePointToString_bmp | split].
  - intros code H. destruct (Hpair code H) as (Hd & Hm & He).
    exists (0xD800 + (code - 0x10000) / 1024), (0xDC00 + (code - 0x10000) mod 1024).
    split; [now apply codePointToString_astral|].
    split; [|split; lia].
    unfold isLeadSurrogate. apply andb_true_intro. split.
    + apply Z.gtb_lt. lia.
    + apply Z.ltb_lt. lia.
  - intros a b Ha Hb Heq.
    destruct (Z_le_gt_dec a 0xFFFF) as [Ha'|Ha'];
      destruct (Z_le_gt_dec b 0xFFFF) as [Hb'|Hb'].
    + rewrite !codePointToString_bmp in Heq by lia. congruence.
    + rewrite codePointToString_bmp in Heq by lia.
      rewrite codePointToString_astral in Heq by lia. discriminate.
    + rewrite (codePointToString_bmp b) in Heq by lia.
      rewrite codePointToString_astral in Heq by lia. discriminate.
    + rewrite !codePointToString_astral in Heq by lia.
      destruct (Hpair a ltac:(lia)) as (_ & _ & Hea).
      destruct (Hpair b ltac:(lia)) as (_ & _ & Heb).
      assert (Hhi := f_equal (fun l => hd 0 l) Heq).
      assert (Hlo := f_equal (fun l => hd 0 (tl l)) Heq).
      cbn [hd tl] in Hhi, Hlo. lia.
Qed.

(** X1 at U+1F600, which is the pair D83D DE00, and at U+0041. *)
Lemma X1_codePointToString_round_trip_witness :
  Util.codePointToString 0x41 = [0x41]
  /\ (exists hi lo,
        Util.codePointToString 0x1F600 = [hi; lo]
        /\ isLeadSurrogate (Some hi) = true
        /\ 0xDC00 <= lo <= 0xDFFF
        /\ 0x1F600 = 0x10000 + (hi - 0xD800) * 1024 + (lo - 0xDC00))
  /\ 0x1F600 = 0x1F600.
Proof.
  destruct X1_codePointToString_round_trip as (Hbmp & Hastral & Hinj).
  split; [| split].
  - apply Hbmp. lia.
  - apply Hastral. lia.
  - apply (Hinj 0x1F600 0x1F600); [lia | lia | reflexivity].
Defined.

(** ** whitespace.js and locutil.js: line breaks and positions *)

Lemma charCodeAt_cons c l i : 0 <= i -> charCodeAt (c :: l) (i + 1) = charCodeAt l i.
Proof.
  intros H. unfold charCodeAt.
  assert (H1 : (i + 1 <? 0) = false) by (apply Z.ltb_ge; lia).
  assert (H2 : (i <? 0) = false) by (apply Z.ltb_ge; lia).
  rewrite H1, H2. replace (Z.to_nat (i + 1)) with (S (Z.to_nat i)) by lia. reflexivity.
Qed.

(** The first line break between [i] and [end_]: where it is found, and what
    [nextLineBreak_loop] answers. *)
Lemma nextLineBreak_loop_spec n code i end_ :
  n = Z.to_nat (end_ - i) ->
  (nextLineBreak_loop n code i end_ = -1
   /\ forall j, i <= j < end_ -> newlineAt code j = false)
  \/ (exists j,
        i <= j < end_
        /\ (forall k, i <= k < j -> newlineAt code k = false)
        /\ newlineAt code j = true
        /\ nextLineBreak_loop n code i end_
           = if (j <? end_ - 1) && isCode (charCodeAt code j) 13
                && isCode (charCodeAt code (j + 1)) 10
             then j + 2 else j + 1).
Proof.
  revert i. induction n as [|n IH]; intros i Hn.
  - left. split; [reflexivity|]. intros j Hj. lia.
  - cbn [nextLineBreak_loop].
    assert (Hlt : (i <? end_) = true) by (apply Z.ltb_lt; lia).
    rewrite Hlt. fold (newlineAt code i).
    destruct (newlineAt code i) eqn:Hnl.
    + right. exists i. split; [lia|]. split; [intros k Hk; lia|].
      split; [exact Hnl | reflexivity].
    + destruct (IH (i + 1) ltac:(lia)) as [[Hr Hall] | (j & Hj & Hbefore & Hat & Hr)].
      * left. split; [exact Hr|]. intros j Hj.
        destruct (Z.eq_dec j i) as [->|Hne]; [exact Hnl | apply Hall; lia].
      * right. exists j. split; [lia|]. split; [|split; assumption].
        intros k Hk. destruct (Z.eq_dec k i) as [->|Hne]; [exact Hnl | apply Hbefore; lia].
Qed.

(** X2.  [nextLineBreak(code, from, end)] answers -1 exactly when no code
    unit from [from] up to [end] is a line terminator.  Otherwise it answers
    the index after the first line break found there, which lies after
    [from] and at most at [end]: two past a CR that an LF follows before
    [end], one past the terminator otherwise. *)
Theorem X2_nextLineBreak_first_break (code : list Z) (from end_ : Z) :
  (nextLineBreak code from end_ = -1
   <-> forall j, from <= j < end_ -> newlineAt code j = false)
  /\ (nextLineBreak code from end_ <> -1 ->
      exists j,
        from <= j < end_
        /\ (forall k, from <= k < j -> newlineAt code k = false)
        /\ newlineAt code j = true
        /\ from < nextLineBreak code from end_ <= end_
        /\ nextLineBreak code from end_
           = if (j <? end_ - 1) && isCode (charCodeAt code j) 13
                && isCode (charCodeAt code (j + 1)) 10
             then j + 2 else j + 1).
Proof.
  unfold nextLineBreak.
  destruct (nextLineBreak_loop_spec (Z.to_nat (end_ - from)) code from end_ eq_refl)
    as [[Hr Hall] | (j & Hj & Hbefore & Hat & Hr)].
  - split; [split; [intros _; exact Hall | intros _; exact Hr]|].
    intros Hne. contradiction.
  - assert (Hrange : from < nextLineBreak_loop (Z.to_nat (end_ - from)) code from end_
                     <= end_).
    { rewrite Hr.
      destruct ((j <? end_ - 1) && isCode (charCodeAt code j) 13
                && isCode (charCodeAt code (j + 1)) 10) eqn:Hc; [|lia].
      apply andb_prop in Hc. destruct Hc as [Hc _].
      apply andb_prop in Hc. destruct Hc as [Hc _].
      apply Z.ltb_lt in Hc. lia. }
    assert (Hj0 : 0 <= j).
    { destruct (Z_lt_le_dec j 0) as [Hneg|]; [|assumption].
      unfold newlineAt, charCodeAt in Hat. apply Z.ltb_lt in Hneg.
      rewrite Hneg in Hat. discriminate. }
    split.
    + split; [intros H; rewrite Hr in H;
              destruct ((j <? end_ - 1) && isCode (charCodeAt code j) 13
                        && isCode (charCodeAt code (j + 1)) 10); lia|].
      intros Hall. rewrite (Hall j Hj) in Hat. discriminate.
    + intros _. exists j. repeat split; try assumption; lia.
Qed.

(** X2 on a CR LF pair after two letters. *)
Lemma X2_nextLineBreak_first_break_witness :
  exists j,
    0 <= j < 5
    /\ (forall k, 0 <= k < j -> newlineAt [97; 98; 13; 10; 99] k = false)
    /\ newlineAt [97; 98; 13; 10; 99] j = true
    /\ 0 < nextLineBreak [97; 98; 13; 10; 99] 0 5 <= 5
    /\ nextLineBreak [97; 98; 13; 10; 99] 0 5
       = if (j <? 5 - 1) && isCode (charCodeAt [97; 98; 13; 10; 99] j) 13
            && isCode (charCodeAt [97; 98; 13; 10; 99] (j + 1)) 10
         then j + 2 else j + 1.
Proof.
  apply (proj2 (X2_nextLineBreak_first_break [97; 98; 13; 10; 99] 0 5)).
  vm_compute. discriminate.
Defined.

Lemma nextLineBreak_loop_range n code i end_ :
  0 <= i -> n = Z.to_nat (end_ - i) ->
  nextLineBreak_loop n code i end_ = -1
  \/ i < nextLineBreak_loop n code i end_ <= end_.
Proof.
  intros Hi Hn.
  destruct (nextLineBreak_loop_spec n code i end_ Hn)
    as [[Hr _] | (j & Hj & _ & _ & Hr)]; [now left|].
  right. rewrite Hr.
  destruct ((j <? end_ - 1) && isCode (charCodeAt code j) 13
            && isCode (charCodeAt code (j + 1)) 10) eqn:Hc; [|lia].
  apply andb_prop in Hc. destruct Hc as [Hc _].
  apply andb_prop in Hc. destruct Hc as [Hc _].
  apply Z.ltb_lt in Hc. lia.
Qed.

(** The index found in a text is one more than the index found in its
    tail. *)
Lemma nextLineBreak_loop_cons n c l i e :
  0 <= i ->
  nextLineBreak_loop n (c :: l) (i + 1) (e + 1)
  = if nextLineBreak_loop n l i e <? 0 then -1 else nextLineBreak_loop n l i e + 1.
Proof.
  revert i. induction n as [|n IH]; intros i Hi; [reflexivity|].
  cbn [nextLineBreak_loop].
  replace (i + 1 <? e + 1) with (i <? e)
    by (destruct (Z.ltb_spec i e), (Z.ltb_spec (i + 1) (e + 1)); lia).
  destruct (i <? e); [|reflexivity].
  replace (i + 1 <? e + 1 - 1) with (i <? e - 1)
    by (destruct (Z.ltb_spec i (e - 1)), (Z.ltb_spec (i + 1) (e + 1 - 1)); lia).
  rewrite (charCodeAt_cons c l i Hi).
  replace (i + 1 + 1) with ((i + 1) + 1) by lia.
  rewrite (charCodeAt_cons c l (i + 1)) by lia.
  destruct (match charCodeAt l i with Some c0 => isNewLine c0 | None => false end).
  - destruct ((i <? e - 1) && isCode (charCodeAt l i) 13
              && isCode (charCodeAt l (i + 1)) 10).
    + replace (i + 2 <? 0) with false by (symmetry; apply Z.ltb_ge; lia). lia.
    + replace (i + 1 <? 0) with false by (symmetry; apply Z.ltb_ge; lia). lia.
  - apply IH. lia.
Qed.

Lemma nextLineBreak_nil from end_ : nextLineBreak [] from end_ = -1.
Proof.
  unfold nextLineBreak.
  destruct (nextLineBreak_loop_spec (Z.to_nat (end_ - from)) [] from end_ eq_refl)
    as [[Hr _] | (j & _ & _ & Hat & _)]; [exact Hr|].
  unfold newlineAt, charCodeAt in Hat.
  destruct (j <? 0); [discriminate|]. now destruct (Z.to_nat j).
Qed.

(** [nextLineBreak] on a text that begins with [c]. *)
Lemma nextLineBreak_head c l (k : nat) :
  nextLineBreak (c :: l) 0 (Z.of_nat (S k))
  = if isNewLine c then
      if (0 <? Z.of_nat k) && (c =? 13) && isCode (charCodeAt l 0) 10 then 2 else 1
    else if nextLineBreak l 0 (Z.of_nat k) <? 0 then -1
         else nextLineBreak l 0 (Z.of_nat k) + 1.
Proof.
  unfold nextLineBreak.
  replace (Z.to_nat (Z.of_nat (S k) - 0)) with (S k) by lia.
  cbn [nextLineBreak_loop].
  assert (Hlt : (0 <? Z.of_nat (S k)) = true) by (apply Z.ltb_lt; lia).
  rewrite Hlt. change (charCodeAt (c :: l) 0) with (Some c). cbv iota beta.
  destruct (isNewLine c).
  - replace (0 <? Z.of_nat (S k) - 1) with (0 <? Z.of_nat k)
      by (destruct (Z.ltb_spec 0 (Z.of_nat k)), (Z.ltb_spec 0 (Z.of_nat (S k) - 1)); lia).
    change (0 + 1) with (0 + 1). rewrite (charCodeAt_cons c l 0) by lia.
    reflexivity.
  - replace (Z.of_nat (S k)) with (Z.of_nat k + 1) by lia.
    rewrite (nextLineBreak_loop_cons k c l 0 (Z.of_nat k)) by lia.
    replace (Z.to_nat (Z.of_nat k - 0)) with k by lia. reflexivity.
Qed.

Lemma lineBreaks_plain c l :
  isNewLine c = false -> Locutil.lineBreaks (c :: l) = Locutil.lineBreaks l.
Proof.
  intros H. cbn [Locutil.lineBreaks]. rewrite H.
  assert (Hc : (c =? 13) = false).
  { destruct (Z.eqb_spec c 13) as [->|]; [discriminate H | reflexivity]. }
  rewrite Hc. cbn [andb]. now destruct l.
Qed.

(** What the index [nextLineBreak] finds says of the text before [k]: with
    no index, the text has no line break; with an index [r], it has one more
    than the text from [r] on, and the same last line. *)
Lemma nextLineBreak_lineBreaks l : forall k : nat,
  (k <= List.length l)%nat ->
  let r := nextLineBreak l 0 (Z.of_nat k) in
  if r <? 0 then
    existsb isNewLine (firstn k l) = false
    /\ Locutil.lineBreaks (firstn k l) = O
  else
    0 < r <= Z.of_nat k
    /\ existsb isNewLine (firstn k l) = true
    /\ Locutil.lineBreaks (firstn k l)
       = S (Locutil.lineBreaks (firstn (k - Z.to_nat r) (skipn (Z.to_nat r) l)))
    /\ Locutil.lastLine (firstn k l)
       = Locutil.lastLine (firstn (k - Z.to_nat r) (skipn (Z.to_nat r) l)).
Proof.
  induction l as [|c l IH]; intros k Hk r; subst r.
  - rewrite nextLineBreak_nil. cbn. now destruct k.
  - destruct k as [|k].
    + cbn. split; reflexivity.
    + rewrite nextLineBreak_head. cbn [List.length] in Hk.
      specialize (IH k ltac:(lia)). cbv zeta in IH.
      cbn [firstn]. destruct (isNewLine c) eqn:Hc.
      * destruct ((0 <? Z.of_nat k) && (c =? 13) && isCode (charCodeAt l 0) 10) eqn:Hcr.
        -- apply andb_prop in Hcr. destruct Hcr as [Hcr Hlf].
           apply andb_prop in Hcr. destruct Hcr as [Hk0 Hcr].
           apply Z.ltb_lt in Hk0. apply Z.eqb_eq in Hcr. subst c.
           destruct l as [|d l]; [discriminate Hlf|].
           cbn in Hlf. apply Z.eqb_eq in Hlf. subst d.
           destruct k as [|k]; [lia|].
           cbn [Z.ltb Z.compare]. change (Z.to_nat 2) with 2%nat.
           cbn [firstn skipn Nat.sub]. rewrite Nat.sub_0_r.
           split; [lia|]. split; [reflexivity|].
           split; reflexivity.
        -- cbn [Z.ltb Z.compare]. change (Z.to_nat 1) with 1%nat.
           cbn [skipn Nat.sub]. rewrite Nat.sub_0_r.
           split; [lia|]. split; [cbn; now rewrite Hc|].
           split.
           ++ cbn [Locutil.lineBreaks]. rewrite Hc.
              destruct (firstn k l) as [|d tl] eqn:Hf; [reflexivity|].
              assert (Hd : (c =? 13) && (d =? 10) = false).
              { destruct k as [|k]; [discriminate Hf|].
                destruct l as [|d' l']; [discriminate Hf|].
                cbn [firstn] in Hf. injection Hf as -> _.
                cbn in Hcr. destruct (c =? 13); [|reflexivity].
                cbn in Hcr |- *. exact Hcr. }
              rewrite Hd. reflexivity.
           ++ cbn [Locutil.lastLine existsb]. rewrite Hc. reflexivity.
      * destruct (nextLineBreak l 0 (Z.of_nat k) <? 0) eqn:Hr.
        -- cbn [Z.ltb Z.compare]. destruct IH as [Hex Hlb].
           split; [cbn [existsb]; now rewrite Hc, Hex|].
           now rewrite lineBreaks_plain.
        -- destruct IH as (Hrange & Hex & Hlb & Hll).
           set (r := nextLineBreak l 0 (Z.of_nat k)) in *.
           assert (Hpos : (r + 1 <? 0) = false) by (apply Z.ltb_ge; lia).
           rewrite Hpos.
           replace (Z.to_nat (r + 1)) with (S (Z.to_nat r)) by lia.
           cbn [skipn Nat.sub].
           split; [lia|]. split; [cbn [existsb]; now rewrite Hex, orb_true_r|].
           split; [now rewrite lineBreaks_plain|].
           cbn [Locutil.lastLine existsb]. rewrite Hex, orb_true_r. exact Hll.
Qed.

Lemma nextLineBreak_skipn (k : nat) : forall input offset,
  nextLineBreak input (Z.of_nat k) offset
  = if nextLineBreak (skipn k input) 0 (offset - Z.of_nat k) <? 0 then -1
    else nextLineBreak (skipn k input) 0 (offset - Z.of_nat k) + Z.of_nat k.
Proof.
  induction k as [|k IH]; intros input offset.
  - cbn [skipn Z.of_nat]. rewrite Z.sub_0_r.
    unfold nextLineBreak.
    destruct (nextLineBreak_loop_range (Z.to_nat (offset - 0)) input 0 offset
                ltac:(lia) eq_refl) as [Hr | Hr].
    + rewrite Hr. reflexivity.
    + set (r := nextLineBreak_loop (Z.to_nat (offset - 0)) input 0 offset) in *.
      assert (Hpos : (r <? 0) = false) by (apply Z.ltb_ge; lia).
      rewrite Hpos. lia.
  - destruct input as [|c l].
    + cbn [skipn]. rewrite !nextLineBreak_nil. reflexivity.
    + cbn [skipn]. unfold nextLineBreak at 1.
      replace (Z.of_nat (S k)) with (Z.of_nat k + 1) by lia.
      replace offset with ((offset - 1) + 1) at 2 by lia.
      rewrite nextLineBreak_loop_cons by lia.
      replace (Z.to_nat (offset - (Z.of_nat k + 1)))
        with (Z.to_nat ((offset - 1) - Z.of_nat k)) by lia.
      fold (nextLineBreak l (Z.of_nat k) (offset - 1)).
      rewrite (IH l (offset - 1)).
      replace (offset - 1 - Z.of_nat k) with (offset - (Z.of_nat k + 1)) by lia.
      destruct (nextLineBreak (skipn k l) 0 (offset - (Z.of_nat k + 1)) <? 0) eqn:Hr.
      * reflexivity.
      * apply Z.ltb_ge in Hr.
        set (r := nextLineBreak (skipn k l) 0 (offset - (Z.of_nat k + 1))) in *.
        assert (Hpos : (r + Z.of_nat k <? 0) = false) by (apply Z.ltb_ge; lia).
        rewrite Hpos. lia.
Qed.

Lemma lastLine_plain l : existsb isNewLine l = false -> Locutil.lastLine l = l.
Proof. destruct l as [|c l]; [reflexivity|]. intros H. cbn [Locutil.lastLine]. now rewrite H. Qed.

Lemma lastLine_length l : (List.length (Locutil.lastLine l) <= List.length l)%nat.
Proof.
  induction l as [|c l IH]; [reflexivity|].
  cbn [Locutil.lastLine]. destruct (existsb isNewLine (c :: l)); cbn [List.length]; lia.
Qed.

(** The loop of [getLineInfo] from [cur] on, [cur] being where a line
    starts. *)
Lemma getLineInfo_loop_spec input (offset : nat) : forall (n cur : nat) line,
  (offset <= List.length input)%nat -> (cur <= offset)%nat -> (offset - cur < n)%nat ->
  Locutil.getLineInfo_loop n input (Z.of_nat offset) line (Z.of_nat cur)
  = Some (Locutil.mkPosition
            (line + Z.of_nat (Locutil.lineBreaks (firstn (offset - cur) (skipn cur input))))
            (Z.of_nat (List.length
                         (Locutil.lastLine (firstn (offset - cur) (skipn cur input)))))).
Proof.
  induction n as [|n IH]; intros cur line Hlen Hcur Hn; [lia|].
  cbn [Locutil.getLineInfo_loop]. rewrite nextLineBreak_skipn.
  replace (Z.of_nat offset - Z.of_nat cur) with (Z.of_nat (offset - cur)) by lia.
  assert (Hk : (offset - cur <= List.length (skipn cur input))%nat)
    by (rewrite length_skipn; lia).
  pose proof (nextLineBreak_lineBreaks (skipn cur input) (offset - cur) Hk) as K.
  cbv zeta in K.
  destruct (nextLineBreak (skipn cur input) 0 (Z.of_nat (offset - cur)) <? 0) eqn:Hr.
  - destruct K as [Hex Hlb]. cbn [Z.ltb Z.compare].
    rewrite Hlb, (lastLine_plain _ Hex), length_firstn.
    f_equal. f_equal; lia.
  - destruct K as (Hrange & Hex & Hlb & Hll).
    set (r := nextLineBreak (skipn cur input) 0 (Z.of_nat (offset - cur))) in *.
    assert (Hpos : (r + Z.of_nat cur <? 0) = false) by (apply Z.ltb_ge; lia).
    rewrite Hpos.
    replace (r + Z.of_nat cur) with (Z.of_nat (cur + Z.to_nat r)) by lia.
    rewrite IH by lia.
    rewrite Hlb, Hll, skipn_skipn.
    replace (offset - (cur + Z.to_nat r))%nat with (offset - cur - Z.to_nat r)%nat by lia.
    replace (Z.to_nat r + cur)%nat with (cur + Z.to_nat r)%nat by lia.
    f_equal. f_equal. lia.
Qed.

(** X3.  For an offset into the input, [getLineInfo] ends, and gives as
    line one more than the number of line breaks before the offset, a CR LF
    pair being one, and as column the number of code units between the last
    line terminator before the offset and the offset. *)
Theorem X3_getLineInfo_line_and_column (input : list Z) (offset : Z) :
  0 <= offset <= Z.of_nat (List.length input) ->
  exists p,
    Locutil.getLineInfo input offset = Some p
    /\ Locutil.line p
       = 1 + Z.of_nat (Locutil.lineBreaks (firstn (Z.to_nat offset) input))
    /\ Locutil.column p
       = Z.of_nat (List.length (Locutil.lastLine (firstn (Z.to_nat offset) input)))
    /\ 0 <= Locutil.column p <= offset.
Proof.
  intros H. unfold Locutil.getLineInfo.
  pose proof (getLineInfo_loop_spec input (Z.to_nat offset) (S (Z.to_nat offset)) 0 1
                ltac:(lia) ltac:(lia) ltac:(lia)) as Hs.
  rewrite Z2Nat.id in Hs by lia. cbn [Z.of_nat] in Hs. rewrite Hs.
  rewrite Nat.sub_0_r. cbn [skipn].
  eexists. split; [reflexivity|]. cbn [Locutil.line Locutil.column].
  split; [reflexivity|]. split; [reflexivity|].
  pose proof (lastLine_length (firstn (Z.to_nat offset) input)) as Hl.
  rewrite length_firstn in Hl. lia.
Qed.

(** X3 at the end of a text of three lines, the first ending in CR LF and
    the second in LF: line 3, column 2. *)
Lemma X3_getLineInfo_line_and_column_witness :
  exists p,
    Locutil.getLineInfo [97; 13; 10; 98; 10; 99; 100] 7 = Some p
    /\ Locutil.line p = 3
    /\ Locutil.column p = 2
    /\ 0 <= Locutil.column p <= 7.
Proof.
  exact (X3_getLineInfo_line_and_column [97; 13; 10; 98; 10; 99; 100] 7
           ltac:(cbn; lia)).
Defined.

(** ** whitespace.js: [skipWhiteSpace] *)

Lemma restOfLine_le l : (restOfLine l <= List.length l)%nat.
Proof.
  induction l as [|c l IH]; [reflexivity|].
  cbn [restOfLine]. destruct (isNewLine c); cbn [List.length]; lia.
Qed.

Lemma blockCommentEnd_cons c l :
  blockCommentEnd (c :: l)
  = if (c =? 42) && match l with d :: _ => d =? 47 | [] => false end
    then Some 2%nat else option_map S (blockCommentEnd l).
Proof.
  destruct c as [|p|p]; try reflexivity.
  do 6 (destruct p as [p|p|]; try reflexivity).
  destruct l as [|d l]; [reflexivity|].
  destruct d as [|q|q]; try reflexivity.
  do 6 (destruct q as [q|q|]; try reflexivity).
Qed.

Lemma blockCommentEnd_le l k : blockCommentEnd l = Some k -> (k <= List.length l)%nat.
Proof.
  revert k. induction l as [|c l IH]; intros k H; [discriminate|].
  rewrite blockCommentEnd_cons in H. cbn [List.length].
  destruct ((c =? 42) && match l with d :: _ => d =? 47 | [] => false end) eqn:E.
  - injection H as <-. destruct l; [rewrite andb_false_r in E; discriminate|].
    cbn [List.length]. lia.
  - destruct (blockCommentEnd l) as [k'|]; [|discriminate].
    cbn in H. injection H as <-. specialize (IH k' eq_refl). lia.
Qed.

(** One round of the pattern: what [skipWhiteSpace_exec] does on a text
    that begins with [c], with fuel left. *)
Lemma skipWhiteSpace_exec_cons n c l :
  skipWhiteSpace_exec (S n) (c :: l)
  = if isWhiteSpaceUnit c then S (skipWhiteSpace_exec n l)
    else if (c =? 47) && match l with d :: _ => d =? 47 | [] => false end
    then (2 + restOfLine (tl l) + skipWhiteSpace_exec n (skipn (restOfLine (tl l)) (tl l)))%nat
    else if (c =? 47) && match l with d :: _ => d =? 42 | [] => false end
    then match blockCommentEnd (tl l) with
         | Some k => (2 + k + skipWhiteSpace_exec n (skipn k (tl l)))%nat
         | None => O
         end
    else O.
Proof.
  cbn [skipWhiteSpace_exec]. destruct (isWhiteSpaceUnit c); [reflexivity|].
  destruct (c =? 47); [|reflexivity]. cbn [andb].
  destruct l as [|d l]; [reflexivity|]. cbn [tl].
  destruct d as [|q|q]; try reflexivity.
  do 6 (destruct q as [q|q|]; try reflexivity).
Qed.

Lemma skipWhiteSpace_exec_le n : forall l, (skipWhiteSpace_exec n l <= List.length l)%nat.
Proof.
  induction n as [|n IH]; intros l; [cbn; lia|].
  destruct l as [|c l]; [cbn; lia|].
  rewrite skipWhiteSpace_exec_cons. cbn [List.length].
  destruct (isWhiteSpaceUnit c); [specialize (IH l); lia|].
  destruct ((c =? 47) && match l with d :: _ => d =? 47 | [] => false end) eqn:E1.
  - destruct l as [|d l]; [rewrite andb_false_r in E1; discriminate|].
    cbn [tl List.length].
    pose proof (restOfLine_le l). specialize (IH (skipn (restOfLine l) l)).
    rewrite length_skipn in IH. lia.
  - destruct ((c =? 47) && match l with d :: _ => d =? 42 | [] => false end) eqn:E2; [|lia].
    destruct l as [|d l]; [rewrite andb_false_r in E2; discriminate|].
    cbn [tl List.length].
    destruct (blockCommentEnd l) as [k|] eqn:Hk; [|lia].
    pose proof (blockCommentEnd_le l k Hk). specialize (IH (skipn k l)).
    rewrite length_skipn in IH. lia.
Qed.

(** Fuel beyond the length of the text changes nothing. *)
Lemma skipWhiteSpace_exec_fuel n : forall m l,
  (List.length l < n)%nat -> (List.length l < m)%nat ->
  skipWhiteSpace_exec n l = skipWhiteSpace_exec m l.
Proof.
  induction n as [|n IH]; intros m l Hn Hm; [lia|].
  destruct m as [|m]; [lia|].
  destruct l as [|c l]; [reflexivity|].
  rewrite !skipWhiteSpace_exec_cons. cbn [List.length] in Hn, Hm.
  destruct (isWhiteSpaceUnit c); [f_equal; apply IH; lia|].
  destruct ((c =? 47) && match l with d :: _ => d =? 47 | [] => false end) eqn:E1.
  - destruct l as [|d l]; [rewrite andb_false_r in E1; discriminate|].
    cbn [tl List.length] in *. f_equal.
    apply IH; rewrite length_skipn; lia.
  - destruct ((c =? 47) && match l with d :: _ => d =? 42 | [] => false end) eqn:E2;
      [|reflexivity].
    destruct l as [|d l]; [rewrite andb_false_r in E2; discriminate|].
    cbn [tl List.length] in *.
    destruct (blockCommentEnd l) as [k|]; [|reflexivity].
    f_equal. apply IH; rewrite length_skipn; lia.
Qed.

(** Where the match ends, the pattern matches nothing more. *)
Lemma skipWhiteSpace_exec_stop n : forall l,
  (List.length l < n)%nat ->
  skipWhiteSpace_exec (S (List.length (skipn (skipWhiteSpace_exec n l) l)))
    (skipn (skipWhiteSpace_exec n l) l) = O.
Proof.
  induction n as [|n IH]; intros l Hn; [lia|].
  destruct l as [|c l]; [reflexivity|].
  rewrite skipWhiteSpace_exec_cons. cbn [List.length] in Hn.
  destruct (isWhiteSpaceUnit c) eqn:Hws; [cbn [skipn]; apply IH; lia|].
  destruct ((c =? 47) && match l with d :: _ => d =? 47 | [] => false end) eqn:E1.
  - destruct l as [|d l]; [rewrite andb_false_r in E1; discriminate|].
    cbn [tl List.length] in *.
    replace (2 + restOfLine l + skipWhiteSpace_exec n (skipn (restOfLine l) l))%nat
      with (S (S (skipWhiteSpace_exec n (skipn (restOfLine l) l) + restOfLine l)))
      by lia.
    cbn [skipn]. rewrite <- skipn_skipn.
    apply IH. rewrite length_skipn. lia.
  - destruct ((c =? 47) && match l with d :: _ => d =? 42 | [] => false end) eqn:E2.
    + destruct l as [|d l]; [rewrite andb_false_r in E2; discriminate|].
      cbn [tl List.length] in *.
      destruct (blockCommentEnd l) as [k|] eqn:Hk.
      * replace (2 + k + skipWhiteSpace_exec n (skipn k l))%nat
          with (S (S (skipWhiteSpace_exec n (skipn k l) + k))) by lia.
        cbn [skipn]. rewrite <- skipn_skipn.
        apply IH. rewrite length_skipn. lia.
      * cbn [skipn]. rewrite skipWhiteSpace_exec_cons, Hws, E1, E2.
        cbn [tl]. now rewrite Hk.
    + cbn [skipn]. rewrite skipWhiteSpace_exec_cons, Hws, E1, E2. reflexivity.
Qed.

Lemma afterWhiteSpace_skipn input (pos : Z) :
  0 <= pos ->
  afterWhiteSpace input pos
  = pos + Z.of_nat (skipWhiteSpace_exec
                      (S (List.length (skipn (Z.to_nat pos) input)))
                      (skipn (Z.to_nat pos) input)).
Proof. reflexivity. Qed.



(** ** parseutil.js: [strictDirective] *)

(** What [literalBody] matches is the text up to the closing quote. *)
Lemma literalBody_text q : forall m l content n,
  (List.length l < m)%nat ->
  Parseutil.literalBody q l = Some (content, n) ->
  n = S (List.length content) /\ l = content ++ q :: skipn n l.
Proof.
  induction m as [|m IH]; intros l content n Hm H; [lia|].
  destruct l as [|c tl]; [discriminate|].
  cbn [Parseutil.literalBody] in H. cbn [List.length] in Hm.
  destruct (Z.eqb_spec c q) as [->|Hq].
  - injection H as <- <-. split; reflexivity.
  - destruct (c =? 92).
    + destruct tl as [|d tl']; [discriminate|].
      destruct (isNewLine d); [discriminate|].
      destruct (Parseutil.literalBody q tl') as [[content' n']|] eqn:Hb; [|discriminate].
      injection H as <- <-.
      destruct (IH tl' content' n' ltac:(cbn [List.length] in Hm; lia) Hb) as [Hn Hl].
      split; [cbn [List.length]; lia|].
      cbn [skipn app]. now rewrite <- Hl.
    + destruct (Parseutil.literalBody q tl) as [[content' n']|] eqn:Hb; [|discriminate].
      injection H as <- <-.
      destruct (IH tl content' n' ltac:(lia) Hb) as [Hn Hl].
      split; [cbn [List.length]; lia|].
      cbn [skipn app]. now rewrite <- Hl.
Qed.

Lemma literal_exec_text text content len :
  Parseutil.literal_exec text = Some (content, len) ->
  exists q,
    (q = 39 \/ q = 34)
    /\ len = S (S (List.length content))
    /\ text = q :: content ++ q :: skipn len text.
Proof.
  unfold Parseutil.literal_exec. destruct text as [|c tl]; [discriminate|].
  destruct ((c =? 39) || (c =? 34)) eqn:Hq; [|discriminate].
  destruct (Parseutil.literalBody c tl) as [[content' n]|] eqn:Hb; [|discriminate].
  intros H. injection H as <- <-.
  destruct (literalBody_text c (S (List.length tl)) tl content' n ltac:(lia) Hb)
    as [Hn Hl].
  exists c. split.
  - apply orb_prop in Hq. destruct Hq as [Hq|Hq]; apply Z.eqb_eq in Hq; auto.
  - split; [lia|]. cbn [skipn]. now rewrite <- Hl.
Qed.

Lemma list_eqb_eq a b : list_eqb a b = true -> a = b.
Proof.
  unfold list_eqb. revert b. induction a as [|x a IH]; intros [|y b] H;
    try reflexivity; try discriminate.
  cbn in H. apply andb_prop in H. destruct H as [Hlen H].
  apply andb_prop in H. destruct H as [Hxy H].
  apply Z.eqb_eq in Hxy. subst y. f_equal. apply IH.
  now rewrite Hlen, H.
Qed.

Lemma afterWhiteSpace_ge input pos : 0 <= pos -> pos <= afterWhiteSpace input pos.
Proof. intros H. unfold afterWhiteSpace. lia. Qed.

Lemma slice_skipn input (p : Z) (k : nat) :
  0 <= p -> slice input p (p + Z.of_nat k) = firstn k (skipn (Z.to_nat p) input).
Proof.
  intros H. unfold slice. f_equal. lia.
Qed.

(** The loop ends: with more fuel than the input has code units after
    [start], it answers. *)
Lemma strictDirective_loop_ends input : forall n start,
  0 <= start ->
  Z.of_nat (List.length input) - start < Z.of_nat n -> (1 <= n)%nat ->
  exists b, Parseutil.strictDirective_loop n input start = Some b.
Proof.
  induction n as [|n IH]; intros start Hs Hn H1; [lia|].
  cbn [Parseutil.strictDirective_loop].
  pose proof (afterWhiteSpace_ge input start Hs) as Hge.
  set (start1 := afterWhiteSpace input start) in *.
  destruct (Parseutil.literal_exec (skipn (Z.to_nat start1) input))
    as [[content len]|] eqn:Hlit; [|eauto].
  destruct (list_eqb content (codeUnits "use strict")); [eauto|].
  destruct (literal_exec_text _ _ _ Hlit) as (q & _ & Hlen & Htext).
  assert (Hbound : (len <= List.length (skipn (Z.to_nat start1) input))%nat).
  { rewrite Htext at 1. cbn [List.length]. rewrite length_app. cbn [List.length]. lia. }
  rewrite length_skipn in Hbound.
  set (start2 := afterWhiteSpace input (start1 + Z.of_nat len)).
  assert (Hge2 : start1 + Z.of_nat len <= start2)
    by (apply afterWhiteSpace_ge; lia).
  apply IH.
  - destruct (isCode (charCodeAt input start2) 59); lia.
  - destruct (isCode (charCodeAt input start2) 59); lia.
  - lia.
Qed.

(** An answer of true comes from a literal that reads [use strict]. *)
Lemma strictDirective_loop_true input : forall n start,
  0 <= start ->
  Parseutil.strictDirective_loop n input start = Some true ->
  exists p q,
    start <= p /\ (q = 39 \/ q = 34)
    /\ slice input p (p + 12) = q :: codeUnits "use strict" ++ [q].
Proof.
  induction n as [|n IH]; intros start Hs H; [discriminate|].
  cbn [Parseutil.strictDirective_loop] in H.
  pose proof (afterWhiteSpace_ge input start Hs) as Hge.
  set (start1 := afterWhiteSpace input start) in *.
  destruct (Parseutil.literal_exec (skipn (Z.to_nat start1) input))
    as [[content len]|] eqn:Hlit; [|discriminate].
  destruct (literal_exec_text _ _ _ Hlit) as (q & Hq & Hlen & Htext).
  destruct (list_eqb content (codeUnits "use strict")) eqn:Hc.
  - apply list_eqb_eq in Hc. subst content.
    exists start1, q. split; [lia|]. split; [exact Hq|].
    change 12 with (Z.of_nat 12). rewrite slice_skipn by lia.
    rewrite Htext. reflexivity.
  - set (start2 := afterWhiteSpace input (start1 + Z.of_nat len)) in *.
    assert (Hge2 : start1 + Z.of_nat len <= start2)
      by (apply afterWhiteSpace_ge; lia).
    apply IH in H.
    + destruct H as (p & q' & Hp & Hq' & Hsl). exists p, q'.
      split; [|split; assumption].
      destruct (isCode (charCodeAt input start2) 59); lia.
    + destruct (isCode (charCodeAt input start2) 59); lia.
Qed.

(** [skipWhiteSpace] matches nothing where a code unit stands that is no
    white space and no slash. *)
Lemma afterWhiteSpace_at pre c rest :
  isWhiteSpaceUnit c = false -> c <> 47 ->
  afterWhiteSpace (pre ++ c :: rest) (Z.of_nat (List.length pre))
  = Z.of_nat (List.length pre).
Proof.
  intros Hws Hc. unfold afterWhiteSpace.
  rewrite Nat2Z.id, skipn_app, skipn_all, Nat.sub_diag. cbn [app skipn].
  rewrite skipWhiteSpace_exec_cons, Hws.
  apply Z.eqb_neq in Hc. rewrite Hc. cbn [andb]. lia.
Qed.

Lemma charCodeAt_app pre c rest :
  charCodeAt (pre ++ c :: rest) (Z.of_nat (List.length pre)) = Some c.
Proof.
  unfold charCodeAt.
  assert (H : (Z.of_nat (List.length pre) <? 0) = false) by (apply Z.ltb_ge; lia).
  rewrite H, Nat2Z.id, nth_error_app2, Nat.sub_diag by lia. reflexivity.
Qed.



(** ** lval.js: conversions and checks *)

Section Lval.

Variable env : Env.

(** A node that [toAssignable] gave back is given back as it is. *)
Lemma toAssignable_patternOf_again :
  forall node isBinding ref s n s',
    ecmaVersion (options s) >= 6 ->
    toAssignable env node isBinding ref s = Ok n s' ->
    toAssignable env (patternOf node) isBinding ref s = Ok (patternOf node) s.
Proof.
  fix IH 1.
  intros node isBinding ref s n s' Hv H.
  assert (Hge : (ecmaVersion (options s) >=? 6) = true) by (apply Z.geb_le; lia).
  destruct node; cbn in H; rewrite Hge in H;
    try (cbn in H; discriminate H);
    try (cbn; rewrite Hge; reflexivity).
  - (* Identifier *)
    cbn. rewrite Hge.
    destruct (inAsync env s && String.eqb name "await"); cbn in H |- *;
      [discriminate | reflexivity].
  - (* Property *)
    apply bind_inv_Ok in H. destruct H as (u & s1 & Hk & H).
    cbn. rewrite Hge.
    destruct (negb (String.eqb kind "init")); cbn in Hk; [discriminate|].
    unfold ret in Hk. inversion Hk; subst; clear Hk.
    apply bind_inv_Ok in H. destruct H as (v' & s2 & Hval & H).
    apply IH in Hval; [|assumption].
    unfold bind at 1. unfold ret at 1. rewrite (bind_Ok _ Hval). reflexivity.
  - (* ParenthesizedExpression *)
    apply bind_inv_Ok in H. destruct H as (e' & s1 & He & H).
    apply IH in He; [|assumption].
    cbn. rewrite Hge. rewrite (bind_Ok _ He). reflexivity.
  - (* MemberExpression *)
    cbn. rewrite Hge. destruct (negb isBinding); cbn in H |- *;
      [reflexivity | discriminate].
Qed.

(** A check for an assignment binds nothing: the parser and the table of
    names are as before. *)
Lemma checkLValSimple_none expr checkClashes s c s' :
  checkLValSimple env expr BIND_NONE checkClashes s = Ok c s' ->
  s' = s /\ c = checkClashes.
Proof.
  revert s c s'. induction expr; intros s c s' H; cbn in H; try discriminate.
  - unfold bind, when, raiseRecoverable, ret in H.
    destruct (strict s && reservedWordsStrictBind env name); [discriminate|].
    inversion H. now split.
  - unfold bind, ret in H. eauto.
  - unfold bind, ret in H. inversion H. now split.
Qed.

Lemma checkLVal_none :
  forall expr inner checkClashes s c s',
    checkLVal env inner expr BIND_NONE checkClashes s = Ok c s' ->
    s' = s /\ c = checkClashes.
Proof.
  fix IH 1.
  intros expr inner checkClashes s c s' H.
  destruct expr; cbn [checkLVal] in H;
    try (now apply checkLValSimple_none in H).
  - (* ArrayPattern *)
    revert checkClashes s H.
    induction elements as [|[e|] tl IHl]; intros checkClashes s H; cbn in H.
    + unfold ret in H. inversion H. now split.
    + apply bind_inv_Ok in H. destruct H as (c1 & s1 & Hp & H).
      apply IH in Hp. destruct Hp as [-> ->]. now apply IHl.
    + now apply IHl.
  - (* ObjectPattern *)
    revert checkClashes s H.
    induction properties as [|p tl IHl]; intros checkClashes s H; cbn in H.
    + unfold ret in H. inversion H. now split.
    + apply bind_inv_Ok in H. destruct H as (c1 & s1 & Hp & H).
      apply IH in Hp. destruct Hp as [-> ->]. now apply IHl.
  - (* Property *)
    destruct inner; [now apply IH in H | now apply checkLValSimple_none in H].
  - (* RestElement *)
    destruct inner; [now apply IH in H | now apply checkLValSimple_none in H].
  - (* AssignmentPattern *)
    destruct inner; [now apply IH in H | now apply checkLValSimple_none in H].
Qed.

End Lval.

(** X6.  Where [toAssignable] accepts a node, the parser is as it was
    before the call, and the node it returns is accepted again, with the same
    arguments, and returned as it is: a second conversion changes nothing. *)
Theorem X6_toAssignable_idempotent (env : Env) (node : Node) (isBinding : bool)
    (ref : option DestructuringErrors) (s s' : State) (p : Node) :
  toAssignable env node isBinding ref s = Ok p s' ->
  s' = s /\ toAssignable env p isBinding ref s = Ok p s.
Proof.
  intros H.
  destruct (Z_lt_ge_dec (ecmaVersion (options s)) 6) as [Hlt|Hge].
  - assert (Hv : (ecmaVersion (options s) >=? 6) = false).
    { destruct (Z.geb_spec (ecmaVersion (options s)) 6); [lia | reflexivity]. }
    assert (Hold : forall n, toAssignable env n isBinding ref s
                             = (checkPatternErrors ref true ;; ret n) s).
    { intros n. destruct n; cbn; rewrite Hv; reflexivity. }
    rewrite Hold in H. apply bind_inv_Ok in H. destruct H as (u & s1 & Hc & H).
    pose proof (checkPatternErrors_state _ _ _ _ _ Hc) as ->.
    unfold ret in H. inversion H; subst. split; [reflexivity|].
    rewrite Hold. rewrite (bind_Ok _ Hc). reflexivity.
  - pose proof (toAssignable_patternOf_again env node isBinding ref s p s' Hge H) as Hagain.
    destruct (toAssignable_patternOf env node isBinding ref s p s' Hge H) as [-> ->].
    split; [reflexivity | exact Hagain].
Qed.

(** X6 on the array literal [[a,,b=1,...{c:(d.e)}]] as an assignment
    target. *)
Lemma X6_toAssignable_idempotent_witness :
  C9_literal = C9_literal
  /\ toAssignable Acorn.env C1_example_pattern false None C9_literal
     = Ok C1_example_pattern C9_literal.
Proof.
  apply (X6_toAssignable_idempotent Acorn.env C1_example false None C9_literal
           C9_literal C1_example_pattern).
  vm_compute. reflexivity.
Defined.

(** X7.  A check of an assignment target, which is a check with
    [BIND_NONE], declares no name: where [checkLValSimple],
    [checkLValPattern] or [checkLValInnerPattern] accepts the target, the
    parser and the table of argument names are as before the call. *)
Theorem X7_assignment_check_binds_nothing (env : Env) (expr : Node)
    (checkClashes c : option (list string)) (s s' : State) :
  (checkLValSimple env expr BIND_NONE checkClashes s = Ok c s' ->
   s' = s /\ c = checkClashes)
  /\ (checkLValPattern env expr BIND_NONE checkClashes s = Ok c s' ->
      s' = s /\ c = checkClashes)
  /\ (checkLValInnerPattern env expr BIND_NONE checkClashes s = Ok c s' ->
      s' = s /\ c = checkClashes).
Proof.
  split; [| split].
  - apply checkLValSimple_none.
  - apply checkLVal_none.
  - apply checkLVal_none.
Qed.

(** X7 on the identifier [a] and on the pattern [[a,,b=1,...{c:(d.e)}]]. *)
Lemma X7_assignment_check_binds_nothing_witness :
  (C9_literal = C9_literal /\ @None (list string) = None)
  /\ (C9_literal = C9_literal /\ @None (list string) = None)
  /\ (C9_literal = C9_literal /\ Some ["x"] = Some ["x"]).
Proof.
  split; [| split].
  - apply (proj1 (X7_assignment_check_binds_nothing Acorn.env (Identifier 1 2 "a")
                    None None C9_literal C9_literal)).
    vm_compute. reflexivity.
  - apply (proj1 (proj2 (X7_assignment_check_binds_nothing Acorn.env C1_example_pattern
                           None None C9_literal C9_literal))).
    vm_compute. reflexivity.
  - apply (proj2 (proj2 (X7_assignment_check_binds_nothing Acorn.env C1_example_pattern
                           (Some ["x"]) (Some ["x"]) C9_literal C9_literal))).
    vm_compute. reflexivity.
Defined.

(** ** lval.js: the table of argument names *)

Section Clashes.

Variable env : Env.

Lemma hasOwn_names_In names name : hasOwn_names names name = false -> ~ In name names.
Proof.
  unfold hasOwn_names. intros H Hin.
  assert (Hex : existsb (String.eqb name) names = true).
  { apply existsb_exists. exists name. split; [exact Hin | apply String.eqb_refl]. }
  congruence.
Qed.

Lemma hasOwn_names_true names name : In name names -> hasOwn_names names name = true.
Proof.
  intros Hin. unfold hasOwn_names. apply existsb_exists.
  exists name. split; [exact Hin | apply String.eqb_refl].
Qed.

Lemma BindingType_eqb_none bindingType :
  bindingType <> BIND_NONE -> BindingType_eqb bindingType BIND_NONE = false.
Proof. destruct bindingType; intros H; try reflexivity. now elim H. Qed.

(** A binding check with a table: what it accepts adds its names to the
    table, and none of them was there. *)
Lemma checkLValSimple_table expr bindingType names s c s' :
  bindingType <> BIND_NONE -> NoDup names ->
  checkLValSimple env expr bindingType (Some names) s = Ok c s' ->
  c = Some (rev (boundNames false expr) ++ names)
  /\ NoDup (rev (boundNames false expr) ++ names).
Proof.
  intros Hb Hnd. apply BindingType_eqb_none in Hb.
  revert s c s'. induction expr; intros s c s' H; cbn in H; rewrite ?Hb in H;
    cbn in H; try discriminate.
  - (* Identifier *)
    apply bind_inv_Ok in H. destruct H as (u & s1 & _ & H).
    apply bind_inv_Ok in H. destruct H as (u1 & s2 & _ & H).
    apply bind_inv_Ok in H. destruct H as (c1 & s3 & Hc & H).
    apply bind_inv_Ok in H. destruct H as (u2 & s4 & _ & H).
    unfold ret in H. inversion H; subst; clear H.
    apply bind_inv_Ok in Hc. destruct Hc as (u3 & s5 & Hown & Hc).
    unfold ret in Hc. inversion Hc; subst; clear Hc.
    destruct (hasOwn_names names name) eqn:Hh; [discriminate Hown|].
    cbn. split; [reflexivity|]. constructor; [now apply hasOwn_names_In | exact Hnd].
Qed.

Lemma checkLVal_table :
  forall expr inner bindingType names s c s',
    bindingType <> BIND_NONE -> NoDup names ->
    checkLVal env inner expr bindingType (Some names) s = Ok c s' ->
    c = Some (rev (boundNames inner expr) ++ names)
    /\ NoDup (rev (boundNames inner expr) ++ names).
Proof.
  fix IH 1.
  intros expr inner bindingType names s c s' Hb Hnd H.
  assert (Hsimple : forall e, boundNames inner e = boundNames false e ->
            checkLValSimple env e bindingType (Some names) s = Ok c s' ->
            c = Some (rev (boundNames inner e) ++ names)
            /\ NoDup (rev (boundNames inner e) ++ names)).
  { intros e He Hs. rewrite He. eapply checkLValSimple_table; eauto. }
  destruct expr; cbn [checkLVal] in H;
    try (apply Hsimple; [reflexivity | exact H]).
  - (* ArrayPattern *)
    cbn [boundNames]. clear Hsimple.
    revert names s Hnd H.
    induction elements as [|[e|] tl IHl]; intros names s Hnd H; cbn in H.
    + unfold ret in H. inversion H. now split.
    + apply bind_inv_Ok in H. destruct H as (c1 & s1 & Hp & H).
      destruct (IH e true bindingType names s c1 s1 Hb Hnd Hp) as [-> Hnd1].
      destruct (IHl _ s1 Hnd1 H) as [-> Hnd2].
      cbn [flat_map]. rewrite rev_app_distr, <- app_assoc. now split.
    + cbn [flat_map app]. exact (IHl _ _ Hnd H).
  - (* ObjectPattern *)
    cbn [boundNames]. clear Hsimple.
    revert names s Hnd H.
    induction properties as [|p tl IHl]; intros names s Hnd H; cbn in H.
    + unfold ret in H. inversion H. now split.
    + apply bind_inv_Ok in H. destruct H as (c1 & s1 & Hp & H).
      destruct (IH p true bindingType names s c1 s1 Hb Hnd Hp) as [-> Hnd1].
      destruct (IHl _ s1 Hnd1 H) as [-> Hnd2].
      cbn [flat_map]. rewrite rev_app_distr, <- app_assoc. now split.
  - (* Property *)
    destruct inner; [now apply IH in H | apply Hsimple; [reflexivity | exact H]].
  - (* RestElement *)
    destruct inner; [now apply IH in H | apply Hsimple; [reflexivity | exact H]].
  - (* AssignmentPattern *)
    destruct inner; [now apply IH in H | apply Hsimple; [reflexivity | exact H]].
Qed.

Lemma checkParams_table : forall params names s names' s',
  NoDup names ->
  foldM (fun (param : option Node) (nameHash : list string) =>
           match param with
           | None => halt (TypeError "expr is null")
           | Some p =>
               h <- checkLValInnerPattern env p BIND_VAR (Some nameHash) ;;
               ret (match h with Some h' => h' | None => nameHash end)
           end) params names s = Ok names' s' ->
  names' = rev (paramNames params) ++ names /\ NoDup names'.
Proof.
  induction params as [|[p|] tl IHl]; intros names s names' s' Hnd H; cbn in H.
  - unfold ret in H. inversion H; subst. now split.
  - apply bind_inv_Ok in H. destruct H as (c1 & s1 & Hp & H).
    apply bind_inv_Ok in Hp. destruct Hp as (h & s2 & Hh & Hp).
    unfold ret in Hp. inversion Hp; subst; clear Hp.
    destruct (checkLVal_table p true BIND_VAR names s h s1 ltac:(discriminate) Hnd Hh)
      as [-> Hnd1].
    destruct (IHl _ _ _ _ Hnd1 H) as [-> Hnd2].
    unfold paramNames. cbn [flat_map]. rewrite rev_app_distr, <- app_assoc. now split.
  - discriminate H.
Qed.

End Clashes.

(** X8.  A binding check that is given a table of argument names adds to
    it, where it accepts a pattern, the names the pattern binds, and none of
    them was in the table: the table stays free of duplicates.  So where
    [checkParams] accepts the parameters without [allowDuplicates], no name
    is bound twice by them; and an identifier whose name is in the table is
    refused with "Argument name clash" at the identifier. *)
Theorem X8_no_argument_name_clash (env : Env) :
  (forall expr inner bindingType names s c s',
      bindingType <> BIND_NONE -> NoDup names ->
      checkLVal env inner expr bindingType (Some names) s = Ok c s' ->
      c = Some (rev (boundNames inner expr) ++ names)
      /\ NoDup (rev (boundNames inner expr) ++ names))
  /\ (forall params s s',
        checkParams env params false s = Ok tt s' -> NoDup (paramNames params))
  /\ (forall start end_ name bindingType names s,
        bindingType <> BIND_NONE ->
        strict s && reservedWordsStrictBind env name = false ->
        BindingType_eqb bindingType BIND_LEXICAL && String.eqb name "let" = false ->
        In name names ->
        checkLValSimple env (Identifier start end_ name) bindingType (Some names) s
        = SyntaxError Recoverable start "Argument name clash").
Proof.
  split; [| split].
  - apply checkLVal_table.
  - intros params s s' H. unfold checkParams in H.
    apply bind_inv_Ok in H. destruct H as (names' & s1 & Hf & _).
    destruct (checkParams_table env params [] s names' s1 (NoDup_nil _) Hf) as [-> Hnd].
    rewrite app_nil_r in Hnd. apply NoDup_rev in Hnd. now rewrite rev_involutive in Hnd.
  - intros start end_ name bindingType names s Hb Hstrict Hlet Hin.
    apply BindingType_eqb_none in Hb.
    cbn [checkLValSimple]. rewrite Hb. cbn [negb].
    unfold bind at 1. rewrite Hstrict. cbn [when]. unfold ret at 1.
    unfold bind at 1. rewrite Hlet. cbn [when]. unfold ret at 1.
    unfold bind at 1. unfold bind at 1.
    rewrite (hasOwn_names_true _ _ Hin). reflexivity.
Qed.

(** X8 on the pattern [[a, b]], on the parameters [a] and [b], and on a
    second [a]. *)
Lemma X8_no_argument_name_clash_witness :
  (Some ["b"; "a"]
   = Some (rev (boundNames true
                  (ArrayPattern 0 6 [Some (Identifier 1 2 "a"); Some (Identifier 4 5 "b")]))
           ++ [])
   /\ NoDup (rev (boundNames true
                    (ArrayPattern 0 6
                       [Some (Identifier 1 2 "a"); Some (Identifier 4 5 "b")])) ++ []))
  /\ NoDup (paramNames [Some (Identifier 1 2 "a"); Some (Identifier 4 5 "b")])
  /\ checkLValSimple Acorn.env (Identifier 4 5 "a") BIND_VAR (Some ["a"]) C9_literal
     = SyntaxError Recoverable 4 "Argument name clash".
Proof.
  destruct (X8_no_argument_name_clash Acorn.env) as (Htable & Hparams & Hclash).
  split; [| split].
  - apply (Htable (ArrayPattern 0 6 [Some (Identifier 1 2 "a"); Some (Identifier 4 5 "b")])
             true BIND_VAR [] C9_literal (Some ["b"; "a"])
             (state_of (checkLVal Acorn.env true
                          (ArrayPattern 0 6
                             [Some (Identifier 1 2 "a"); Some (Identifier 4 5 "b")])
                          BIND_VAR (Some []) C9_literal) C9_literal));
      [discriminate | constructor | vm_compute; reflexivity].
  - apply (Hparams [Some (Identifier 1 2 "a"); Some (Identifier 4 5 "b")] C9_literal
             (state_of (checkParams Acorn.env
                          [Some (Identifier 1 2 "a"); Some (Identifier 4 5 "b")] false
                          C9_literal) C9_literal)).
    vm_compute. reflexivity.
  - apply Hclash; [discriminate | reflexivity | reflexivity | now left].
Defined.

(** ** statement.js: the table of exported names *)

Lemma checkExport_table names name pos s r s' :
  NoDup names ->
  checkExport (Some names) name pos s = Ok r s' ->
  s' = s /\ r = Some (name :: names) /\ NoDup (name :: names).
Proof.
  intros Hnd H. unfold checkExport in H.
  apply bind_inv_Ok in H. destruct H as (u & s1 & Hw & H).
  inv_ret H.
  destruct (hasOwn_names names name) eqn:Hh; [discriminate Hw|].
  inv_ret Hw. split; [reflexivity|]. split; [reflexivity|].
  constructor; [apply hasOwn_names_In; exact Hh | exact Hnd].
Qed.

Lemma checkPatternExport_table :
  forall pat names s r s',
    NoDup names ->
    checkPatternExport (Some names) pat s = Ok r s' ->
    s' = s /\ r = Some (rev (exportNames pat) ++ names)
    /\ NoDup (rev (exportNames pat) ++ names).
Proof.
  fix IH 1.
  intros pat names s r s' Hnd H.
  destruct pat; cbn [checkPatternExport exportNames] in *;
    try (exact (IH _ _ _ _ _ Hnd H)); try (inv_ret H; clear IH; auto; fail).
  - (* Identifier *)
    apply checkExport_table in H; [|exact Hnd]. exact H.
  - (* ArrayPattern *)
    revert names s Hnd H.
    induction elements as [|[e|] tl IHl]; intros names s Hnd H; cbn in H.
    + inv_ret H. auto.
    + apply bind_inv_Ok in H. destruct H as (c1 & s1 & Hp & H).
      destruct (IH e names s c1 s1 Hnd Hp) as (-> & -> & Hnd1).
      destruct (IHl _ _ Hnd1 H) as (-> & -> & Hnd2).
      cbn [flat_map]. rewrite rev_app_distr, <- app_assoc. auto.
    + cbn [flat_map app]. exact (IHl _ _ Hnd H).
  - (* ObjectPattern *)
    revert names s Hnd H.
    induction properties as [|p tl IHl]; intros names s Hnd H; cbn in H.
    + inv_ret H. auto.
    + apply bind_inv_Ok in H. destruct H as (c1 & s1 & Hp & H).
      destruct (IH p names s c1 s1 Hnd Hp) as (-> & -> & Hnd1).
      destruct (IHl _ _ Hnd1 H) as (-> & -> & Hnd2).
      cbn [flat_map]. rewrite rev_app_distr, <- app_assoc. auto.
Qed.

Lemma checkPatternExport_none : forall pat s, checkPatternExport None pat s = Ok None s.
Proof.
  fix IH 1.
  intros pat s.
  destruct pat; cbn [checkPatternExport]; try reflexivity; try apply IH.
  - induction elements as [|[e|] tl IHl]; cbn; [reflexivity | | exact IHl].
    unfold bind. rewrite IH. exact IHl.
  - induction properties as [|p tl IHl]; cbn; [reflexivity|].
    unfold bind. rewrite IH. exact IHl.
Qed.

(** X24.  With a table of exported names that has no duplicates,
    [checkPatternExport] adds the names of a pattern it accepts, none of
    which was in the table, and leaves the parser as it was; so
    [checkVariableExport] accepts the declarators of a declaration only when
    the names they declare are distinct and new.  A name that is in the
    table is refused with "Duplicate export".  Without a table nothing is
    checked. *)
Theorem X24_no_duplicate_export :
  (forall pat names s r s',
      NoDup names ->
      checkPatternExport (Some names) pat s = Ok r s' ->
      s' = s /\ r = Some (rev (exportNames pat) ++ names)
      /\ NoDup (rev (exportNames pat) ++ names))
  /\ (forall decls names s r s',
        NoDup names -> forallb isDeclarator decls = true ->
        checkVariableExport (Some names) decls s = Ok r s' ->
        s' = s /\ r = Some (rev (declaredNames decls) ++ names)
        /\ NoDup (rev (declaredNames decls) ++ names))
  /\ (forall names name pos s,
        In name names ->
        checkExport (Some names) name pos s
        = SyntaxError Recoverable pos ("Duplicate export '" ++ name ++ "'"))
  /\ (forall pat s, checkPatternExport None pat s = Ok None s).
Proof.
  split; [exact checkPatternExport_table|]. split; [|split].
  - unfold checkVariableExport.
    induction decls as [|decl tl IHl]; intros names s r s' Hnd Hd H; cbn in H.
    + inv_ret H. auto.
    + cbn [forallb] in Hd. apply andb_true_iff in Hd. destruct Hd as [Hdecl Htl].
      destruct decl; try discriminate Hdecl.
      apply bind_inv_Ok in H. destruct H as (c1 & s1 & Hp & H).
      destruct (checkPatternExport_table _ _ _ _ _ Hnd Hp) as (-> & -> & Hnd1).
      destruct (IHl _ _ _ _ Hnd1 Htl H) as (-> & -> & Hnd2).
      unfold declaredNames. cbn [flat_map]. rewrite rev_app_distr, <- app_assoc. auto.
  - intros names name pos s Hin. unfold checkExport.
    unfold bind. rewrite (hasOwn_names_true _ _ Hin). reflexivity.
  - exact checkPatternExport_none.
Qed.

Lemma X24_no_duplicate_export_witness :
  (C9_literal = C9_literal
   /\ Some ["c"; "b"; "a"] = Some (rev (declaredNames
        [VariableDeclarator 4 5 (Identifier 4 5 "b") None;
         VariableDeclarator 7 14 (ArrayPattern 7 10 [Some (Identifier 8 9 "c")])
           (Some (Identifier 13 14 "d"))]) ++ ["a"])
   /\ NoDup (rev (declaredNames
        [VariableDeclarator 4 5 (Identifier 4 5 "b") None;
         VariableDeclarator 7 14 (ArrayPattern 7 10 [Some (Identifier 8 9 "c")])
           (Some (Identifier 13 14 "d"))]) ++ ["a"]))
  /\ checkExport (Some ["b"; "a"]) "a" 4 C9_literal
     = SyntaxError Recoverable 4 "Duplicate export 'a'".
Proof.
  destruct X24_no_duplicate_export as (_ & Hdecls & Hdup & _).
  split.
  - apply (Hdecls _ ["a"] C9_literal (Some ["c"; "b"; "a"]) C9_literal).
    + repeat constructor. intros [].
    + reflexivity.
    + vm_compute. reflexivity.
  - apply (Hdup ["b"; "a"] "a" 4 C9_literal). right. left. reflexivity.
Defined.

(** ** expression.js: the left side of an assignment *)

Section Targets.

Variable env : Env.

Lemma checkLValSimple_target expr bindingType checkClashes s c s' :
  checkLValSimple env expr bindingType checkClashes s = Ok c s' ->
  simpleTarget expr = true.
Proof.
  revert s c s'. induction expr; intros s c s' H; cbn in H; try discriminate;
    try reflexivity.
  - apply bind_inv_Ok in H. destruct H as (u & s1 & _ & H). cbn. eauto.
Qed.

Lemma assignTarget_simple inner expr :
  simpleTarget expr = true -> assignTarget inner expr = true.
Proof. destruct expr; cbn; intros H; try discriminate H; exact H. Qed.

Lemma checkLVal_target :
  forall expr inner bindingType checkClashes s c s',
    checkLVal env inner expr bindingType checkClashes s = Ok c s' ->
    assignTarget inner expr = true.
Proof.
  fix IH 1.
  intros expr inner bindingType checkClashes s c s' H.
  destruct expr; cbn [checkLVal] in H;
    try (apply assignTarget_simple; exact (checkLValSimple_target _ _ _ _ _ _ H)).
  - (* ArrayPattern *)
    cbn [assignTarget]. revert checkClashes s H.
    induction elements as [|[e|] tl IHl]; intros checkClashes s H; cbn in H.
    + reflexivity.
    + apply bind_inv_Ok in H. destruct H as (c1 & s1 & Hp & H).
      cbn [forallb]. rewrite (IH _ _ _ _ _ _ _ Hp). exact (IHl _ _ H).
    + exact (IHl _ _ H).
  - (* ObjectPattern *)
    cbn [assignTarget]. revert checkClashes s H.
    induction properties as [|p tl IHl]; intros checkClashes s H; cbn in H.
    + reflexivity.
    + apply bind_inv_Ok in H. destruct H as (c1 & s1 & Hp & H).
      cbn [forallb]. rewrite (IH _ _ _ _ _ _ _ Hp). exact (IHl _ _ H).
  - (* Property *)
    destruct inner; [exact (IH _ _ _ _ _ _ _ H)|].
    apply checkLValSimple_target in H. discriminate H.
  - (* RestElement *)
    destruct inner; [exact (IH _ _ _ _ _ _ _ H)|].
    apply checkLValSimple_target in H. discriminate H.
  - (* AssignmentPattern *)
    destruct inner; [exact (IH _ _ _ _ _ _ _ H)|].
    apply checkLValSimple_target in H. discriminate H.
Qed.

End Targets.



(** ** expression.js: sequences *)

Section Sequences.

Variable env : Env.
Variable rec : Rec.
Variable fuel : nat.

(** The loop of [parseExpression] adds an expression for every comma and
    ends where no comma follows. *)
Lemma parseExpression_loop_commas : forall n forInit ref expressions s l r s',
  parseExpression_loop env rec fuel n forInit ref expressions s = Ok (l, r) s' ->
  TokenType.eqb (type s') tt.comma = false
  /\ (List.length expressions <= List.length l)%nat
  /\ (TokenType.eqb (type s) tt.comma = true ->
      (S (List.length expressions) <= List.length l)%nat).
Proof.
  induction n as [|n IH]; intros forInit ref expressions s l r s' H; [discriminate H|].
  cbn [parseExpression_loop] in H.
  apply bind_inv_Ok in H. destruct H as (c & s0 & Hc & H).
  unfold eat in Hc.
  destruct (TokenType.eqb (type s) tt.comma) eqn:Hcomma.
  - cbv [bind next ret] in Hc. inversion Hc. subst c s0. clear Hc.
    apply bind_inv_Ok in H. destruct H as ([e r1] & s1 & _ & H).
    apply IH in H. destruct H as (Hend & Hlen & _).
    rewrite length_app in Hlen. cbn [List.length] in Hlen.
    split; [exact Hend|]. split; [lia | intros _; lia].
  - inv_ret Hc. inv_ret H. split; [exact Hcomma|]. split; [lia | discriminate].
Qed.

End Sequences.

(** X27.  Where [parseExpression] returns, no comma follows: it has read
    the whole sequence.  What it returns is the one expression that
    [parseMaybeAssign] read, or a [SequenceExpression] that starts where the
    first expression starts and holds at least two expressions. *)
Theorem X27_sequence_is_read_whole (env : Env) (rec : Rec) (fuel : nat) :
  forall forInit ref s node r s',
    parseExpression env rec fuel forInit ref s = Ok (node, r) s' ->
    type s' <> tt.comma
    /\ (parseMaybeAssign env rec fuel forInit ref None s = Ok (node, r) s'
        \/ exists expressions,
             node = SequenceExpression (start s) (lastTokEnd s') expressions
             /\ (2 <= List.length expressions)%nat).
Proof.
  intros forInit ref s node r s' H. unfold parseExpression in H.
  apply bind_inv_Ok in H. destruct H as ([expr r1] & s1 & Hfirst & H).
  destruct (TokenType.eqb (type s1) tt.comma) eqn:Hcomma.
  - apply bind_inv_Ok in H. destruct H as ([expressions r2] & s2 & Hloop & H).
    apply bind_inv_Ok in H. destruct H as (n & s3 & Hf & H).
    inv_ret H. unfold finishNode in Hf. inversion Hf. subst. clear Hf.
    apply parseExpression_loop_commas in Hloop.
    destruct Hloop as (Hend & _ & Hlen).
    split; [apply TokenType_eqb_neq; exact Hend|].
    right. exists expressions. split; [reflexivity|].
    apply Hlen in Hcomma. cbn [List.length] in Hcomma. exact Hcomma.
  - inv_ret H. split; [apply TokenType_eqb_neq; exact Hcomma|].
    left. exact Hfirst.
Qed.

Lemma X27_sequence_is_read_whole_witness :
  type (state_of (parseExpression Acorn.env (parser Acorn.env 8) 8 VUndefined None
                    X27_sequence) X27_sequence) <> tt.comma
  /\ (parseMaybeAssign Acorn.env (parser Acorn.env 8) 8 VUndefined None None X27_sequence
      = Ok (node_of (Acorn.parseExpression 9 X27_sequence), None)
           (state_of (parseExpression Acorn.env (parser Acorn.env 8) 8 VUndefined None
                        X27_sequence) X27_sequence)
      \/ exists expressions,
           node_of (Acorn.parseExpression 9 X27_sequence)
           = SequenceExpression (start X27_sequence)
               (lastTokEnd (state_of (parseExpression Acorn.env (parser Acorn.env 8) 8
                                        VUndefined None X27_sequence) X27_sequence))
               expressions
           /\ (2 <= List.length expressions)%nat).
Proof.
  apply (X27_sequence_is_read_whole Acorn.env (parser Acorn.env 8) 8 VUndefined None
           X27_sequence _ None).
  vm_compute. reflexivity.
Defined.

(** ** statement.js: declared private names *)

Lemma lookup_set_declared m name v :
  lookup_declared (set_declared m name v) name = Some v.
Proof.
  unfold lookup_declared, set_declared. cbn [find fst snd].
  now rewrite String.eqb_refl.
Qed.

Lemma lookup_set_declared_other m name name' v :
  name' <> name ->
  lookup_declared (set_declared m name v) name' = lookup_declared m name'.
Proof.
  intros Hne. unfold lookup_declared, set_declared. cbn [find fst].
  assert (H1 : String.eqb name name' = false) by (apply String.eqb_neq; congruence).
  rewrite H1. f_equal.
  induction m as [|[k w] m IH]; [reflexivity|].
  cbn [filter find fst].
  destruct (String.eqb k name) eqn:Hk; cbn [negb].
  - apply String.eqb_eq in Hk. subst k. rewrite H1. exact IH.
  - cbn [find fst]. destruct (String.eqb k name'); [reflexivity | exact IH].
Qed.

Lemma privateSlot_cases type kind static :
  (type = "MethodDefinition" /\ kind = "get"
   /\ privateSlot type kind static = if static then "sget" else "iget")
  \/ (type = "MethodDefinition" /\ kind = "set"
      /\ privateSlot type kind static = if static then "sset" else "iset")
  \/ (~ (type = "MethodDefinition" /\ (kind = "get" \/ kind = "set"))
      /\ privateSlot type kind static = "true").
Proof.
  unfold privateSlot.
  destruct (String.eqb_spec type "MethodDefinition") as [->|Ht].
  - destruct (String.eqb_spec kind "get") as [->|Hg].
    + left. now destruct static.
    + destruct (String.eqb_spec kind "set") as [->|Hs].
      * right. left. now destruct static.
      * right. right. split; [|reflexivity]. intros [_ [?|?]]; congruence.
  - right. right. split; [|reflexivity]. intros [? _]. congruence.
Qed.

Lemma isPrivateNameConflicted_fresh m name type kind static :
  lookup_declared m name = None ->
  isPrivateNameConflicted m name type kind static
  = (false, set_declared m name (privateSlot type kind static)).
Proof.
  intros H. unfold isPrivateNameConflicted. rewrite H. reflexivity.
Qed.

(** A declaration of a name that has a slot already. *)
Lemma isPrivateNameConflicted_declared m name slot type kind static :
  lookup_declared m name = Some slot -> slot <> "" ->
  isPrivateNameConflicted m name type kind static
  = if slotsPair slot (privateSlot type kind static)
    then (false, set_declared m name "true") else (true, m).
Proof.
  intros H Hne. unfold isPrivateNameConflicted. rewrite H.
  fold (privateSlot type kind static). fold (slotsPair slot (privateSlot type kind static)).
  destruct (slotsPair slot (privateSlot type kind static)); [reflexivity|].
  apply String.eqb_neq in Hne. now rewrite Hne.
Qed.

(** X9.  A private name that a class body has not declared is accepted,
    by [isPrivateNameConflicted], whatever declares it.  A second
    declaration of the name is accepted exactly when the two are a getter
    and a setter, in either order, both static or both not.  After such a
    pair every further declaration of the name is a conflict.  The slots of
    the other names are not touched. *)
Theorem X9_private_name_accessor_pair (m : list (string * string)) (name : string)
    (t1 k1 t2 k2 t3 k3 : string) (st1 st2 st3 : bool) :
  lookup_declared m name = None ->
  let r1 := isPrivateNameConflicted m name t1 k1 st1 in
  let r2 := isPrivateNameConflicted (snd r1) name t2 k2 st2 in
  let r3 := isPrivateNameConflicted (snd r2) name t3 k3 st3 in
  fst r1 = false
  /\ (fst r2 = false <->
      t1 = "MethodDefinition" /\ t2 = "MethodDefinition" /\ st1 = st2
      /\ ((k1 = "get" /\ k2 = "set") \/ (k1 = "set" /\ k2 = "get")))
  /\ (fst r2 = false -> fst r3 = true)
  /\ (forall name', name' <> name ->
        lookup_declared (snd r2) name' = lookup_declared m name').
Proof.
  intros Hfresh r1 r2 r3. subst r3 r2 r1.
  rewrite (isPrivateNameConflicted_fresh m name t1 k1 st1 Hfresh). cbn [fst snd].
  set (m1 := set_declared m name (privateSlot t1 k1 st1)).
  assert (Hl1 : lookup_declared m1 name = Some (privateSlot t1 k1 st1))
    by apply lookup_set_declared.
  assert (Hne1 : privateSlot t1 k1 st1 <> "").
  { destruct (privateSlot_cases t1 k1 st1) as [(_ & _ & ->)|[(_ & _ & ->)|(_ & ->)]];
      try destruct st1; discriminate. }
  assert (Hother1 : forall name', name' <> name ->
            lookup_declared m1 name' = lookup_declared m name')
    by (intros; now apply lookup_set_declared_other).
  rewrite (isPrivateNameConflicted_declared m1 name _ t2 k2 st2 Hl1 Hne1).
  assert (Hpair : slotsPair (privateSlot t1 k1 st1) (privateSlot t2 k2 st2) = true <->
            t1 = "MethodDefinition" /\ t2 = "MethodDefinition" /\ st1 = st2
            /\ ((k1 = "get" /\ k2 = "set") \/ (k1 = "set" /\ k2 = "get"))).
  { destruct (privateSlot_cases t1 k1 st1)
      as [(Ht1 & Hk1 & ->)|[(Ht1 & Hk1 & ->)|(Hn1 & ->)]];
      destruct (privateSlot_cases t2 k2 st2)
        as [(Ht2 & Hk2 & ->)|[(Ht2 & Hk2 & ->)|(Hn2 & ->)]];
      try destruct st1; try destruct st2; cbn;
        (split; [try discriminate; intros _; subst; tauto
                | intros (? & ? & ? & [[? ?]|[? ?]]); subst;
                  try reflexivity; try discriminate; try tauto]). }
  split; [reflexivity|].
  destruct (slotsPair (privateSlot t1 k1 st1) (privateSlot t2 k2 st2)) eqn:Hp;
    cbn [fst snd].
  - split; [split; [intros _; now apply Hpair | reflexivity]|].
    split.
    + intros _.
      rewrite (isPrivateNameConflicted_declared (set_declared m1 name "true") name "true"
                 t3 k3 st3 (lookup_set_declared _ _ _) ltac:(discriminate)).
      reflexivity.
    + intros name' Hne. rewrite lookup_set_declared_other by exact Hne.
      now apply Hother1.
  - split; [split; [discriminate | intros H; apply Hpair in H; discriminate]|].
    split; [discriminate | exact Hother1].
Qed.

(** X9 on [get #x] followed by [set #x] and a field [#x], in a class that
    declared [#y]. *)
Lemma X9_private_name_accessor_pair_witness :
  let m := [("y", "true")] in
  let r1 := isPrivateNameConflicted m "x" "MethodDefinition" "get" false in
  let r2 := isPrivateNameConflicted (snd r1) "x" "MethodDefinition" "set" false in
  let r3 := isPrivateNameConflicted (snd r2) "x" "PropertyDefinition" "" false in
  fst r1 = false
  /\ (fst r2 = false <->
      "MethodDefinition" = "MethodDefinition" /\ "MethodDefinition" = "MethodDefinition"
      /\ false = false
      /\ (("get" = "get" /\ "set" = "set") \/ ("get" = "set" /\ "set" = "get")))
  /\ (fst r2 = false -> fst r3 = true)
  /\ (forall name', name' <> "x" ->
        lookup_declared (snd r2) name' = lookup_declared m name').
Proof.
  exact (X9_private_name_accessor_pair [("y", "true")] "x"
           "MethodDefinition" "get" "MethodDefinition" "set" "PropertyDefinition" ""
           false false false eq_refl).
Defined.

(** ** Lists of elements *)

Section Lists.

Variable env : Env.
Variable rec : Rec.
Variable fuel : nat.

Lemma parseBindingList_loop_noHole : forall n close atc elts first s l s',
  Forall (fun e : option Node => e <> None) elts ->
  parseBindingList_loop env rec fuel n close false atc elts first s = Ok l s' ->
  Forall (fun e : option Node => e <> None) l.
Proof.
  induction n as [|n IH]; intros close atc elts first s l s' Hel H; [discriminate|].
  cbn [parseBindingList_loop] in H.
  apply bind_inv_Ok in H. destruct H as (closed & s1 & _ & H).
  destruct closed; [inv_ret H; exact Hel|].
  apply bind_inv_Ok in H. destruct H as (u & s2 & _ & H).
  apply bind_inv_Ok in H. destruct H as (st & s3 & _ & H).
  cbn [andb] in H.
  apply bind_inv_Ok in H. destruct H as (trailing & s4 & _ & H).
  destruct trailing; [inv_ret H; exact Hel|].
  apply bind_inv_Ok in H. destruct H as (st1 & s5 & _ & H).
  destruct (TokenType.eqb (type st1) tt.ellipsis).
  - apply bind_inv_Ok in H. destruct H as (rest & s6 & _ & H).
    apply bind_inv_Ok in H. destruct H as (u1 & s7 & _ & H).
    apply bind_inv_Ok in H. destruct H as (u2 & s8 & _ & H).
    inv_ret H. apply Forall_app. split; [exact Hel|].
    constructor; [discriminate | constructor].
  - apply bind_inv_Ok in H. destruct H as (elem & s6 & _ & H).
    eapply IH; [|exact H]. apply Forall_app. split; [exact Hel|].
    constructor; [discriminate | constructor].
Qed.

Lemma parseExprList_loop_noHole : forall n close atc ref elts first s l r s',
  Forall (fun e : option Node => e <> None) elts ->
  parseExprList_loop rec n close atc false ref elts first s = Ok (l, r) s' ->
  Forall (fun e : option Node => e <> None) l.
Proof.
  induction n as [|n IH]; intros close atc ref elts first s l r s' Hel H; [discriminate|].
  cbn [parseExprList_loop] in H.
  apply bind_inv_Ok in H. destruct H as (closed & s1 & _ & H).
  destruct closed; [inv_ret H; exact Hel|].
  apply bind_inv_Ok in H. destruct H as (brk & s2 & _ & H).
  destruct brk; [inv_ret H; exact Hel|].
  apply bind_inv_Ok in H. destruct H as (ty & s3 & _ & H).
  cbn [andb] in H.
  apply bind_inv_Ok in H. destruct H as ([elt r1] & s4 & Helt & H).
  eapply IH; [|exact H]. apply Forall_app. split; [exact Hel|].
  constructor; [|constructor].
  destruct (TokenType.eqb ty tt.ellipsis).
  - apply bind_inv_Ok in Helt. destruct Helt as ([e r2] & s5 & _ & Helt).
    apply bind_inv_Ok in Helt. destruct Helt as (st & s6 & _ & Helt).
    inv_ret Helt. discriminate.
  - apply bind_inv_Ok in Helt. destruct Helt as ([e r2] & s5 & _ & Helt).
    inv_ret Helt. discriminate.
Qed.

(** After a rest element the list closes: a comma there is an error. *)
Lemma parseBindingList_loop_rest n close allowEmpty atc elts (first : bool) s s0 rest s1 :
  type s <> close ->
  (if first then ret tt else expect tt.comma) s = Ok tt s0 ->
  type s0 = tt.ellipsis -> close <> tt.ellipsis ->
  parseRestBinding rec s0 = Ok rest s1 ->
  parseBindingList_loop env rec fuel (S n) close allowEmpty atc elts first s
  = if TokenType.eqb (type s1) tt.comma
    then SyntaxError Fatal (start s1) "Comma is not permitted after the rest element"
    else (expect close ;; ret (elts ++ [Some rest])) s1.
Proof.
  intros Hc Hsep He Hclose Hr. cbn [parseBindingList_loop].
  rewrite (bind_Ok _ (eat_other Hc)).
  rewrite (bind_Ok _ Hsep).
  unfold bind at 1. unfold gets at 1.
  rewrite He. cbn [TokenType.eqb].
  replace (TokenType.eqb tt.ellipsis tt.comma) with false by reflexivity.
  rewrite andb_false_r.
  assert (Htr : (if atc then afterTrailingComma close false else ret false) s0
                = Ok false s0).
  { destruct atc; [|reflexivity]. apply afterTrailingComma_other. congruence. }
  rewrite (bind_Ok _ Htr).
  unfold bind at 1. unfold gets at 1. rewrite He, TokenType_eqb_refl.
  rewrite (bind_Ok _ Hr). unfold parseBindingListItem.
  unfold bind at 1. destruct (TokenType.eqb (type s1) tt.comma); reflexivity.
Qed.

End Lists.

(** X10.  [parseBindingList] and [parseExprList], called without
    [allowEmpty], return a list that has no [null] entry: the parameters of
    a function and the arguments of a call are nodes.  In
    [parseBindingList], a rest element ends the list: a comma after it is
    the error "Comma is not permitted after the rest element", raised at the
    comma, and anything but the closing token is an error too. *)
Theorem X10_lists_without_holes (env : Env) (rec : Rec) (fuel : nat) :
  (forall close allowTrailingComma s l s',
      parseBindingList env rec fuel close false allowTrailingComma s = Ok l s' ->
      Forall (fun e : option Node => e <> None) l)
  /\ (forall close allowTrailingComma ref s l r s',
        parseExprList rec fuel close allowTrailingComma false ref s = Ok (l, r) s' ->
        Forall (fun e : option Node => e <> None) l)
  /\ (forall n close allowEmpty allowTrailingComma elts (first : bool) s s0 rest s1,
        type s <> close ->
        (if first then ret tt else expect tt.comma) s = Ok tt s0 ->
        type s0 = tt.ellipsis -> close <> tt.ellipsis ->
        parseRestBinding rec s0 = Ok rest s1 ->
        parseBindingList_loop env rec fuel (S n) close allowEmpty allowTrailingComma
          elts first s
        = if TokenType.eqb (type s1) tt.comma
          then SyntaxError Fatal (start s1)
                 "Comma is not permitted after the rest element"
          else if TokenType.eqb (type s1) close
          then Ok (elts ++ [Some rest]) (advance s1)
          else SyntaxError Fatal (start s1) "Unexpected token").
Proof.
  split; [| split].
  - intros close atc s l s' H. unfold parseBindingList in H.
    eapply parseBindingList_loop_noHole; [|exact H]. constructor.
  - intros close atc ref s l r s' H. unfold parseExprList in H.
    eapply parseExprList_loop_noHole; [|exact H]. constructor.
  - intros n close allowEmpty atc elts first s s0 rest s1 Hc Hsep He Hclose Hr.
    rewrite (parseBindingList_loop_rest env rec fuel n close allowEmpty atc elts first
               s s0 rest s1 Hc Hsep He Hclose Hr).
    destruct (TokenType.eqb (type s1) tt.comma); [reflexivity|].
    unfold bind, expect, bind, eat.
    destruct (TokenType.eqb (type s1) close); reflexivity.
Qed.

(** X10 on the parameters [a, b = 1)], on the arguments [x, y)] and on
    the parameters [...a, b)]. *)
Lemma X10_lists_without_holes_witness :
  Forall (fun e : option Node => e <> None)
    [Some (Identifier 1 2 "a");
     Some (AssignmentPattern 4 9 (Identifier 4 5 "b") (Literal 8 9 (VNum 1) [49] None))]
  /\ Forall (fun e : option Node => e <> None)
       [Some (Identifier 1 2 "x"); Some (Identifier 4 5 "y")]
  /\ parseBindingList_loop Acorn.env (parser Acorn.env 6) 6 6 tt.parenR false true [] true
       X10_rest_comma
     = SyntaxError Fatal 5 "Comma is not permitted after the rest element".
Proof.
  destruct (X10_lists_without_holes Acorn.env (parser Acorn.env 6) 6)
    as (Hbind & Hexpr & Hrest).
  split; [| split].
  - apply (Hbind tt.parenR true X10_params _
             (state_of (parseBindingList Acorn.env (parser Acorn.env 6) 6 tt.parenR
                          false true X10_params) X10_params)).
    vm_compute. reflexivity.
  - apply (Hexpr tt.parenR true None X10_arguments _ None
             (state_of (parseExprList (parser Acorn.env 6) 6 tt.parenR true false None
                          X10_arguments) X10_arguments)).
    vm_compute. reflexivity.
  - refine (eq_trans
              (Hrest 5%nat tt.parenR false true [] true X10_rest_comma X10_rest_comma
                 (RestElement 1 5 (Identifier 4 5 "a"))
                 (state_of (parseRestBinding (parser Acorn.env 6) X10_rest_comma)
                    X10_rest_comma) _ _ _ _ _) _);
      try discriminate; vm_compute; reflexivity.
Defined.

(** ** statement.js: class bodies *)

Section ClassBodies.

Variable env : Env.
Variable rec : Rec.
Variable fuel : nat.

Lemma constructors_app body element :
  constructors (body ++ [element])
  = constructors body ++ (if isConstructorMethod element then [element] else []).
Proof. unfold constructors. rewrite filter_app. reflexivity. Qed.

(** The loop of [parseClass] keeps [hadConstructor] in step with the
    elements read: more than one constructor does not pass. *)
Lemma parseClass_loop_constructors : forall n cas body (had : bool) s l s',
  List.length (constructors body) = (if had then 1%nat else O) ->
  parseClass_loop env rec fuel n cas body had s = Ok l s' ->
  (List.length (constructors l) <= 1)%nat.
Proof.
  induction n as [|n IH]; intros cas body had s l s' Hinv H; [discriminate|].
  cbn [parseClass_loop] in H.
  apply bind_inv_Ok in H. destruct H as (ty & s1 & _ & H).
  destruct (TokenType.eqb ty tt.braceR).
  { inv_ret H. rewrite Hinv. destruct had; lia. }
  apply bind_inv_Ok in H. destruct H as (element & s2 & _ & H).
  destruct element as [element|]; [|eapply IH; eauto].
  assert (Hplain : isConstructorMethod element = false ->
            forall s3,
              parseClass_loop env rec fuel n cas (body ++ [element]) had s3 = Ok l s' ->
              (List.length (constructors l) <= 1)%nat).
  { intros Hc s3 Hl. eapply IH; [|exact Hl].
    rewrite constructors_app, Hc, app_nil_r. exact Hinv. }
  destruct element; try (apply (Hplain eq_refl _ H)).
  - (* MethodDefinition *)
    destruct (String.eqb kind "constructor") eqn:Hk.
    + apply bind_inv_Ok in H. destruct H as (u & s3 & Hw & H).
      destruct had; [discriminate Hw|].
      eapply IH; [|exact H].
      rewrite constructors_app. cbn [isConstructorMethod]. rewrite Hk.
      rewrite length_app, Hinv. reflexivity.
    + match type of H with
      | match ?k with _ => _ end _ = _ => destruct k; try (apply (Hplain Hk _ H))
      end.
      apply bind_inv_Ok in H. destruct H as (c & s3 & _ & H).
      apply bind_inv_Ok in H. destruct H as (u & s4 & _ & H).
      apply (Hplain Hk _ H).
  - (* PropertyDefinition *)
    match type of H with
    | match ?k with _ => _ end _ = _ => destruct k; try (apply (Hplain eq_refl _ H))
    end.
    apply bind_inv_Ok in H. destruct H as (c & s3 & _ & H).
    apply bind_inv_Ok in H. destruct H as (u & s4 & _ & H).
    apply (Hplain eq_refl _ H).
Qed.

End ClassBodies.

(** X11.  A class that [parseClass] returns has at most one constructor
    in its body; in the loop over the elements, a second constructor is the
    error "Duplicate constructor in the same class", raised at the start of
    that element. *)
Theorem X11_class_has_one_constructor (env : Env) (rec : Rec) (fuel : nat) :
  (forall startPos isStatement s node s',
      parseClass env rec fuel startPos isStatement s = Ok node s' ->
      exists e id superClass bstart bend elements,
        node = (if truthy isStatement then ClassDeclaration else ClassExpression)
                 startPos e id superClass (ClassBody bstart bend elements)
        /\ (List.length (constructors elements) <= 1)%nat)
  /\ (forall n cas body s start end_ static computed key value s1,
        type s <> tt.braceR ->
        parseClassElement env rec fuel cas s
        = Ok (Some (MethodDefinition start end_ static computed key "constructor" value)) s1 ->
        parseClass_loop env rec fuel (S n) cas body true s
        = SyntaxError Fatal start "Duplicate constructor in the same class").
Proof.
  split.
  - intros startPos isStatement s node s' H. unfold parseClass in H.
    inv_bind H. inv_bind H. inv_bind H. inv_bind H. inv_bind H. inv_bind H.
    inv_bind H. inv_bind H. inv_bind H. inv_bind H. inv_bind H. inv_bind H.
    inv_bind H.
    unfold finishNode in H, H11. inversion H11; subst. inversion H; subst.
    do 6 eexists. split.
    + destruct (truthy isStatement); reflexivity.
    + eapply (parseClass_loop_constructors env rec fuel); [|eassumption]. reflexivity.
  - intros n cas body s start end_ static computed key value s1 Hty He.
    cbn [parseClass_loop]. unfold bind at 1. unfold gets at 1.
    apply TokenType_eqb_neq in Hty. rewrite Hty.
    rewrite (bind_Ok _ He). reflexivity.
Qed.

(** X11 on [class A { constructor() {} m() {} }] and, in
    [class A { constructor() {} constructor() {} }], at the second
    constructor. *)
Lemma X11_class_has_one_constructor_witness :
  (exists e id superClass bstart bend elements,
      node_of (parseClass Acorn.env (parser Acorn.env 8) 8 0 (VBool true)
                 X11_one_constructor)
      = ClassDeclaration 0 e id superClass (ClassBody bstart bend elements)
      /\ (List.length (constructors elements) <= 1)%nat)
  /\ parseClass_loop Acorn.env (parser Acorn.env 8) 8 3 false
       [node_of (Ok (MethodDefinition 10 26 false (Some false)
                       (Identifier 10 21 "constructor") "constructor"
                       (FunctionExpression 21 26 None (Some false) (Some false)
                          (Some false) [] (BlockStatement 24 26 [])))
                   X11_second_element)]
       true X11_second_element
     = SyntaxError Fatal 27 "Duplicate constructor in the same class".
Proof.
  destruct (X11_class_has_one_constructor Acorn.env (parser Acorn.env 8) 8)
    as (Hone & Hdup).
  split.
  - apply (Hone 0 (VBool true) X11_one_constructor _
             (state_of (parseClass Acorn.env (parser Acorn.env 8) 8 0 (VBool true)
                          X11_one_constructor) X11_one_constructor)).
    vm_compute. reflexivity.
  - apply (Hdup 2%nat false _ X11_second_element 27 43 false (Some false)
             (Identifier 27 38 "constructor")
             (FunctionExpression 38 43 None (Some false) (Some false) (Some false) []
                (BlockStatement 41 43 []))
             (state_of (parseClassElement Acorn.env (parser Acorn.env 8) 8 false
                          X11_second_element) X11_second_element)).
    + vm_compute. discriminate.
    + vm_compute. reflexivity.
Defined.

(** ** statement.js: the elements of a class *)

Section ClassElements.

Variable env : Env.
Variable rec : Rec.
Variable fuel : nat.

Lemma eatContextual_value name s s' :
  eatContextual name s = Ok true s' -> value s = VStr name.
Proof.
  unfold eatContextual. destruct (isContextual name s) eqn:Hc; cbn [negb]; [|discriminate].
  intros _. unfold isContextual in Hc.
  apply andb_true_iff in Hc. destruct Hc as [Hc _].
  apply andb_true_iff in Hc. destruct Hc as [_ Hc].
  destruct (value s); try discriminate Hc.
  cbn in Hc. apply String.eqb_eq in Hc. subst. reflexivity.
Qed.

Lemma eatContextual_false name s s' :
  eatContextual name s = Ok false s' -> s' = s.
Proof.
  unfold eatContextual. destruct (isContextual name s); cbn [negb]; intros H.
  - cbv [bind next ret] in H. discriminate H.
  - inv_ret H. reflexivity.
Qed.

Lemma parseClassMethod_checked startPos (static : bool) computed key kind
    (isGenerator isAsync allowsDirectSuper : bool) s node s' :
  parseClassMethod env rec fuel startPos static computed key kind
    isGenerator isAsync allowsDirectSuper s = Ok node s' ->
  exists end_ value,
    node = MethodDefinition startPos end_ static computed key kind value
    /\ (String.eqb kind "constructor" = false ->
        static && checkKeyName computed key "prototype" = false)
    /\ (if String.eqb kind "get" then
          match node_params value with [] => true | _ => false end
        else if String.eqb kind "set" then
          match node_params value with
          | [Some param] => negb (String.eqb (node_type param) "RestElement")
          | _ => false
          end
        else true) = true.
Proof.
  unfold parseClassMethod. intros H.
  apply bind_inv_Ok in H. destruct H as (u0 & s0 & Hchecks & H).
  apply bind_inv_Ok in H. destruct H as (value & s1 & _ & H).
  apply bind_inv_Ok in H. destruct H as (u1 & s2 & Hget & H).
  apply bind_inv_Ok in H. destruct H as (u2 & s3 & Hset & H).
  apply bind_inv_Ok in H. destruct H as (u3 & s4 & Hrest & H).
  unfold finishNode in H. inversion H. subst node s'. clear H.
  exists (lastTokEnd s4), value. split; [reflexivity|]. split.
  - intros Hk. rewrite Hk in Hchecks.
    destruct (static && checkKeyName computed key "prototype"); [discriminate Hchecks|].
    reflexivity.
  - destruct (String.eqb kind "get") eqn:Hkg.
    + cbn [andb] in Hget.
      destruct (node_params value); [reflexivity | discriminate Hget].
    + destruct (String.eqb kind "set") eqn:Hks; [|reflexivity].
      cbn [andb] in Hset.
      destruct (node_params value) as [|[param|] [|]]; try discriminate Hset;
        try discriminate Hrest.
      destruct (String.eqb (node_type param) "RestElement"); [discriminate Hrest|].
      reflexivity.
Qed.

Lemma parseClassField_checked startPos (static : bool) computed key s node s' :
  parseClassField env rec fuel startPos static computed key s = Ok node s' ->
  exists end_ value,
    node = PropertyDefinition startPos end_ static computed key value
    /\ checkKeyName computed key "constructor" = false
    /\ static && checkKeyName computed key "prototype" = false.
Proof.
  unfold parseClassField. intros H.
  apply bind_inv_Ok in H. destruct H as (u0 & s0 & Hchecks & H).
  apply bind_inv_Ok in H. destruct H as (hasInit & s1 & _ & H).
  apply bind_inv_Ok in H. destruct H as (value & s2 & _ & H).
  apply bind_inv_Ok in H. destruct H as (u1 & s3 & _ & H).
  unfold finishNode in H. inversion H. subst node s'. clear H.
  exists (lastTokEnd s3), value. split; [reflexivity|].
  destruct (checkKeyName computed key "constructor"); [discriminate Hchecks|].
  destruct (static && checkKeyName computed key "prototype"); [discriminate Hchecks|].
  auto.
Qed.

Lemma parseClassElement_wellFormed constructorAllowsSuper s element s' :
  parseClassElement env rec fuel constructorAllowsSuper s = Ok (Some element) s' ->
  wellFormedElement element = true.
Proof.
  unfold parseClassElement. intros H.
  apply bind_inv_Ok in H. destruct H as (semi & s0 & _ & H).
  destruct semi; [discriminate H|].
  apply bind_inv_Ok in H. destruct H as (static_ & s1 & _ & H).
  apply bind_inv_Ok in H. destruct H as (r & s2 & Hr & H).
  destruct r as [n|[isStatic keyName]].
  { inv_ret H.
    destruct static_; [|discriminate Hr].
    apply bind_inv_Ok in Hr. destruct Hr as (brace & s3 & _ & Hr).
    destruct brace.
    - apply bind_inv_Ok in Hr. destruct Hr as (n & s4 & Hb & Hr). inv_ret Hr.
      unfold parseClassStaticBlock in Hb.
      repeat (apply bind_inv_Ok in Hb; destruct Hb as (? & ? & _ & Hb)).
      unfold finishNode in Hb. inversion Hb. reflexivity.
    - case_if Hr; discriminate Hr. }
  apply bind_inv_Ok in H. destruct H as ([isAsync keyName1] & s3 & _ & H).
  apply bind_inv_Ok in H. destruct H as (isGenerator & s4 & _ & H).
  apply bind_inv_Ok in H. destruct H as ([kind keyName2] & s5 & Hkind & H).
  apply bind_inv_Ok in H. destruct H as ([computed key] & s6 & _ & H).
  assert (Hk : String.eqb kind "constructor" = false).
  { case_if Hkind; [|inv_ret Hkind; reflexivity].
    apply bind_inv_Ok in Hkind. destruct Hkind as (lastValue & s7 & Hv & Hkind).
    unfold gets in Hv. inversion Hv. subst lastValue s7. clear Hv.
    apply bind_inv_Ok in Hkind. destruct Hkind as (get_ & s8 & Hget & Hkind).
    apply bind_inv_Ok in Hkind. destruct Hkind as (accessor & s9 & Hacc & Hkind).
    destruct accessor; [|inv_ret Hkind; reflexivity].
    case_if Hkind; inv_ret Hkind; try reflexivity.
    destruct get_.
    - apply eatContextual_value in Hget. rewrite Hget. reflexivity.
    - apply eatContextual_false in Hget. subst s8.
      apply eatContextual_value in Hacc. rewrite Hacc. reflexivity. }
  case_if H.
  - apply bind_inv_Ok in H. destruct H as (u & s7 & Hmod & H).
    apply bind_inv_Ok in H. destruct H as (n & s8 & Hm & H). inv_ret H.
    apply parseClassMethod_checked in Hm.
    destruct Hm as (end_ & value & -> & Hproto & Harity).
    cbn [wellFormedElement]. rewrite Harity, andb_true_r.
    destruct (negb isStatic && checkKeyName computed key "constructor") eqn:Hc.
    + cbn [String.eqb Ascii.eqb Bool.eqb andb]. rewrite andb_true_r.
      apply andb_true_iff in Hc. destruct Hc as [Hs _].
      destruct isStatic; [discriminate Hs|]. reflexivity.
    + rewrite Hk. cbn [Bool.eqb]. rewrite andb_true_r.
      rewrite (Hproto Hk). reflexivity.
  - apply bind_inv_Ok in H. destruct H as (n & s7 & Hf & H). inv_ret H.
    apply parseClassField_checked in Hf.
    destruct Hf as (end_ & value & -> & Hc & Hp).
    cbn [wellFormedElement]. rewrite Hc, Hp. reflexivity.
Qed.

Lemma parseClass_loop_wellFormed : forall n cas body (had : bool) s l s',
  forallb wellFormedElement body = true ->
  parseClass_loop env rec fuel n cas body had s = Ok l s' ->
  forallb wellFormedElement l = true.
Proof.
  induction n as [|n IH]; intros cas body had s l s' Hinv H; [discriminate|].
  cbn [parseClass_loop] in H.
  apply bind_inv_Ok in H. destruct H as (ty & s1 & _ & H).
  destruct (TokenType.eqb ty tt.braceR); [inv_ret H; exact Hinv|].
  apply bind_inv_Ok in H. destruct H as (element & s2 & He & H).
  destruct element as [element|]; [|eapply IH; eauto].
  apply parseClassElement_wellFormed in He.
  assert (Hnext : forall had' s3,
            parseClass_loop env rec fuel n cas (body ++ [element]) had' s3 = Ok l s' ->
            forallb wellFormedElement l = true).
  { intros had' s3 Hl. eapply IH; [|exact Hl].
    rewrite forallb_app, Hinv. cbn [forallb]. rewrite He. reflexivity. }
  clear He.
  destruct element; try (apply (Hnext _ _ H)).
  - destruct (String.eqb kind "constructor").
    + apply bind_inv_Ok in H. destruct H as (u & s3 & _ & H). apply (Hnext _ _ H).
    + match type of H with
      | match ?k with _ => _ end _ = _ => destruct k; try (apply (Hnext _ _ H))
      end.
      apply bind_inv_Ok in H. destruct H as (c & s3 & _ & H).
      apply bind_inv_Ok in H. destruct H as (u & s4 & _ & H).
      apply (Hnext _ _ H).
  - match type of H with
    | match ?k with _ => _ end _ = _ => destruct k; try (apply (Hnext _ _ H))
    end.
    apply bind_inv_Ok in H. destruct H as (c & s3 & _ & H).
    apply bind_inv_Ok in H. destruct H as (u & s4 & _ & H).
    apply (Hnext _ _ H).
Qed.

End ClassElements.

(** X19.  Every element of a class that [parseClass] returns is a method,
    a field or a static block, and passed the checks on its name and its
    parameters: the kind [constructor] belongs to the instance method
    named [constructor] alone, no field is named [constructor], no static
    method or field is named [prototype], a getter has no parameter and a
    setter has exactly one, which is not a rest element. *)
Theorem X19_class_elements_are_checked (env : Env) (rec : Rec) (fuel : nat) :
  forall startPos isStatement s node s',
    parseClass env rec fuel startPos isStatement s = Ok node s' ->
    forallb wellFormedElement (class_elements node) = true.
Proof.
  intros startPos isStatement s node s' H. unfold parseClass in H.
  apply bind_inv_Ok in H. destruct H as (u0 & s0 & _ & H).
  apply bind_inv_Ok in H. destruct H as (oldStrict & s1 & _ & H).
  apply bind_inv_Ok in H. destruct H as (u1 & s2 & _ & H).
  apply bind_inv_Ok in H. destruct H as (id & s3 & _ & H).
  apply bind_inv_Ok in H. destruct H as (superClass & s4 & _ & H).
  apply bind_inv_Ok in H. destruct H as (u2 & s5 & _ & H).
  apply bind_inv_Ok in H. destruct H as (classBodyStart & s6 & _ & H).
  apply bind_inv_Ok in H. destruct H as (u3 & s7 & _ & H).
  apply bind_inv_Ok in H. destruct H as (elements & s8 & Hloop & H).
  apply bind_inv_Ok in H. destruct H as (u4 & s9 & _ & H).
  apply bind_inv_Ok in H. destruct H as (u5 & s10 & _ & H).
  apply bind_inv_Ok in H. destruct H as (body & s11 & Hbody & H).
  apply bind_inv_Ok in H. destruct H as (u6 & s12 & _ & H).
  unfold finishNode in H, Hbody. inversion Hbody. subst body s11. clear Hbody.
  inversion H. subst node s'. clear H.
  apply (parseClass_loop_wellFormed env rec fuel) in Hloop; [|reflexivity].
  destruct (truthy isStatement); exact Hloop.
Qed.

Lemma X19_class_elements_are_checked_witness :
  forallb wellFormedElement
    (class_elements (node_of (parseClass Acorn.env (parser Acorn.env 8) 8 0 (VBool true)
                                X19_class))) = true.
Proof.
  apply (X19_class_elements_are_checked Acorn.env (parser Acorn.env 8) 8 0 (VBool true)
           X19_class _
           (state_of (parseClass Acorn.env (parser Acorn.env 8) 8 0 (VBool true)
                        X19_class) X19_class)).
  vm_compute. reflexivity.
Defined.

(** ** statement.js: the directive prologue *)

Lemma isDirectiveCandidate_withDirective s statement :
  isDirectiveCandidate s (withDirective statement) = isDirectiveCandidate s statement.
Proof.
  destruct statement; try reflexivity.
  destruct statement; try reflexivity.
Qed.

Lemma adaptDirectivePrologue_cons s statement rest :
  adaptDirectivePrologue s (statement :: rest)
  = if isDirectiveCandidate s statement
    then withDirective statement :: adaptDirectivePrologue s rest
    else statement :: rest.
Proof.
  cbn [adaptDirectivePrologue].
  destruct (isDirectiveCandidate s statement) eqn:Hc; [|reflexivity].
  unfold isDirectiveCandidate in Hc.
  apply andb_true_iff in Hc. destruct Hc as [_ Hc].
  destruct statement; try discriminate Hc.
  destruct statement; try discriminate Hc.
  reflexivity.
Qed.

(** X20.  [adaptDirectivePrologue] keeps the number and the order of the
    statements.  A statement gets a [directive], the text between the quotes
    of its literal, exactly when it and all the statements before it are
    directive candidates; the others are left as they are.  Adapting the
    result again changes nothing. *)
Theorem X20_directives_lead_the_body (s : State) (statements : list Node) :
  List.length (adaptDirectivePrologue s statements) = List.length statements
  /\ (forall i statement,
        nth_error statements i = Some statement ->
        nth_error (adaptDirectivePrologue s statements) i
        = Some (if forallb (isDirectiveCandidate s) (firstn (S i) statements)
                then withDirective statement else statement))
  /\ adaptDirectivePrologue s (adaptDirectivePrologue s statements)
     = adaptDirectivePrologue s statements.
Proof.
  split; [|split].
  - induction statements as [|st rest IH]; [reflexivity|].
    rewrite adaptDirectivePrologue_cons.
    destruct (isDirectiveCandidate s st); cbn [List.length]; [rewrite IH|]; reflexivity.
  - induction statements as [|st rest IH]; intros i statement Hi.
    + destruct i; discriminate Hi.
    + rewrite adaptDirectivePrologue_cons. cbn [firstn forallb].
      destruct (isDirectiveCandidate s st) eqn:Hc; cbn [andb].
      * destruct i as [|i]; cbn [nth_error] in *.
        { inversion Hi. subst. reflexivity. }
        apply IH. exact Hi.
      * exact Hi.
  - induction statements as [|st rest IH]; [reflexivity|].
    rewrite adaptDirectivePrologue_cons.
    destruct (isDirectiveCandidate s st) eqn:Hc.
    + rewrite adaptDirectivePrologue_cons, isDirectiveCandidate_withDirective, Hc, IH.
      f_equal. destruct st; try reflexivity. destruct st; reflexivity.
    + rewrite adaptDirectivePrologue_cons, Hc. reflexivity.
Qed.

(** ** statement.js: [break] and [continue] *)

Section Labels.

Variable env : Env.

Lemma eat_labels ty s b s' : eat ty s = Ok b s' -> labels s' = labels s.
Proof.
  unfold eat. destruct (TokenType.eqb (type s) ty); intros H.
  - cbv [bind next ret] in H. inversion H. reflexivity.
  - inv_ret H. reflexivity.
Qed.

Lemma insertSemicolon_state s b s' : insertSemicolon s = Ok b s' -> s' = s.
Proof.
  unfold insertSemicolon. destruct (canInsertSemicolon s); intros H; inv_ret H; reflexivity.
Qed.

Lemma semicolon_labels s u s' : semicolon s = Ok u s' -> labels s' = labels s.
Proof.
  unfold semicolon. intros H. inv_bind H.
  apply eat_labels in H0. rewrite <- H0.
  destruct a; cbn [negb] in H.
  - inv_ret H. reflexivity.
  - inv_bind H. apply insertSemicolon_state in H1. subst s1.
    destruct a; cbn [negb] in H; [inv_ret H; reflexivity | discriminate H].
Qed.

Lemma when_raiseRecoverable_state b pos msg s u s' :
  when b (raiseRecoverable pos msg) s = Ok u s' -> s' = s.
Proof. destruct b; cbn; intros H; [discriminate H | inv_ret H; reflexivity]. Qed.

Lemma checkUnreserved_state start end_ name s u s' :
  checkUnreserved env start end_ name s = Ok u s' -> s' = s.
Proof.
  unfold checkUnreserved. intros H.
  inv_bind H. apply when_raiseRecoverable_state in H0. subst s0.
  inv_bind H. apply when_raiseRecoverable_state in H0. subst s0.
  inv_bind H. apply when_raiseRecoverable_state in H0. subst s0.
  inv_bind H.
  destruct (inClassStaticBlock env s && _); [discriminate H0|]. inv_ret H0.
  inv_bind H.
  destruct (keywords env name); [discriminate H0|]. inv_ret H0.
  destruct (_ && _); [inv_ret H; reflexivity|].
  match type of H with
  | (if ?c then _ else _) _ = _ => destruct c
  end.
  - inv_bind H. discriminate H.
  - inv_ret H. reflexivity.
Qed.

Lemma parseIdent_labels liberal s node s' :
  parseIdent env liberal s = Ok node s' -> labels s' = labels s.
Proof.
  unfold parseIdent. intros H.
  inv_bind H.
  assert (s0 = s).
  { destruct (TokenType.eqb (type s) tt.name); [inv_ret H0; reflexivity|].
    destruct (TokenType.keyword (type s)); [inv_ret H0; reflexivity | discriminate H0]. }
  subst s0. clear H0.
  inv_bind H. cbv [next] in H0. inversion H0. subst s0. clear H0.
  inv_bind H. unfold finishNode in H0. inversion H0. subst. clear H0.
  inv_bind H. inv_ret H.
  destruct liberal; cbn [negb] in H0.
  - inv_ret H0. reflexivity.
  - apply bind_inv_Ok in H0. destruct H0 as (u & s3 & Hc & H0).
    apply checkUnreserved_state in Hc. subst s3.
    destruct (_ && _); inversion H0; reflexivity.
Qed.

End Labels.

Lemma existsb_isTarget isBreak label ls :
  existsb (Statement.isTarget isBreak label) ls = true ->
  exists lab, In lab ls
    /\ match label with
       | None => label_kind lab <> None
       | Some l => label_name lab = Some (node_name l)
       end
    /\ (isBreak = false -> label_kind lab = Some "loop").
Proof.
  intros H. apply existsb_exists in H. destruct H as (lab & Hin & H).
  exists lab. split; [exact Hin|].
  unfold Statement.isTarget in H.
  apply andb_true_iff in H. destruct H as [Hname H].
  destruct label as [l|].
  - destruct (label_name lab) as [name|]; [|discriminate Hname].
    apply String.eqb_eq in Hname. subst name. split; [reflexivity|].
    intros ->. rewrite orb_false_r in H.
    destruct (label_kind lab) as [kind|]; [|discriminate H].
    cbn in H. apply String.eqb_eq in H. subst kind. reflexivity.
  - rewrite orb_false_r in H.
    destruct (label_kind lab) as [kind|]; [|discriminate H].
    split; [discriminate|].
    intros ->. cbn in H. apply String.eqb_eq in H. subst kind. reflexivity.
Qed.

(** X12.  A [break] or [continue] statement is accepted only when an
    enclosing statement can be its target: some entry of [this.labels], as
    they are when the statement starts, carries the name of the label when
    the statement has one and is a loop or a switch when it has none; for
    [continue] the entry is a loop in both cases. *)
Theorem X12_break_continue_has_target (env : Env) :
  forall startPos keyword s node s',
    Statement.parseBreakContinueStatement env startPos keyword s = Ok node s' ->
    exists lab, In lab (labels s)
      /\ match Statement.bc_label node with
         | None => label_kind lab <> None
         | Some l => label_name lab = Some (node_name l)
         end
      /\ (keyword <> "break" -> label_kind lab = Some "loop").
Proof.
  intros startPos keyword s node s' H.
  unfold Statement.parseBreakContinueStatement in H.
  apply bind_inv_Ok in H. destruct H as (u0 & s0 & Hn & H).
  cbv [next] in Hn. inversion Hn. subst s0. clear Hn.
  apply bind_inv_Ok in H. destruct H as (semi & s0 & He & H).
  apply eat_labels in He.
  apply bind_inv_Ok in H. destruct H as (inserted & s1 & Hins & H).
  assert (Hl1 : labels s1 = labels s).
  { destruct semi; [inv_ret Hins | apply insertSemicolon_state in Hins; subst s1];
      exact He. }
  clear He Hins.
  apply bind_inv_Ok in H. destruct H as (label & s2 & H0 & H).
  assert (Hl2 : labels s2 = labels s).
  { rewrite <- Hl1. destruct inserted; [inv_ret H0; reflexivity|].
    destruct (negb (TokenType.eqb (type s1) tt.name)); [discriminate H0|].
    apply bind_inv_Ok in H0. destruct H0 as (l & s3 & Hi & H0).
    apply (parseIdent_labels env) in Hi.
    apply bind_inv_Ok in H0. destruct H0 as (u & s4 & Hs & H0).
    apply semicolon_labels in Hs. inv_ret H0. congruence. }
  clear H0.
  apply bind_inv_Ok in H. destruct H as (found & s5 & Hg & H).
  unfold gets in Hg. inversion Hg. subst found s5. clear Hg.
  apply bind_inv_Ok in H. destruct H as (u1 & s6 & H0 & H).
  destruct (existsb _ (labels s2)) eqn:Hfound; cbn [negb] in H0; [|discriminate H0].
  inv_ret H0. inversion H. subst node s'. clear H. cbn [Statement.bc_label].
  rewrite Hl2 in Hfound.
  apply existsb_isTarget in Hfound. destruct Hfound as (lab & Hin & Hname & Hkind).
  exists lab. split; [exact Hin|]. split; [exact Hname|].
  intros Hk. apply Hkind. apply String.eqb_neq. exact Hk.
Qed.

Lemma X12_break_continue_has_target_witness :
  exists lab, In lab (labels X12_continue_in_loop)
    /\ label_kind lab <> None
    /\ ("continue" <> "break" -> label_kind lab = Some "loop").
Proof.
  exact (X12_break_continue_has_target Acorn.env 0 "continue" X12_continue_in_loop
           (Statement.mkBreakContinue "ContinueStatement" 0 9 None)
           (state_of (Statement.parseBreakContinueStatement Acorn.env 0 "continue"
                        X12_continue_in_loop) X12_continue_in_loop)
           eq_refl).
Defined.

(** ** statement.js: [switch] *)

Section Switch.

Variable env : Env.
Variable rec : Rec.
Variable fuel : nat.

Lemma defaultCases_app a b : defaultCases (a ++ b) = defaultCases a ++ defaultCases b.
Proof. apply filter_app. Qed.

Lemma finishCase_openCase cur cases s l s' :
  Statement.finishCase cur cases s = Ok l s' ->
  l = cases ++ openCase cur (lastTokEnd s).
Proof.
  unfold Statement.finishCase, openCase.
  destruct cur as [[[caseStart test] consequent]|]; intros H; inversion H;
    [reflexivity | symmetry; apply app_nil_r].
Qed.

Lemma defaultCases_openCase cur e1 e2 :
  List.length (defaultCases (openCase cur e1)) = List.length (defaultCases (openCase cur e2)).
Proof.
  destruct cur as [[[caseStart test] consequent]|]; [|reflexivity].
  destruct test; reflexivity.
Qed.

Lemma defaultCases_more caseStart test consequent consequent' e :
  List.length (defaultCases (openCase (Some (caseStart, test, consequent)) e))
  = List.length (defaultCases (openCase (Some (caseStart, test, consequent')) e)).
Proof. destruct test; reflexivity. Qed.

(** The loop of [parseSwitchStatement] keeps [sawDefault] in step with the
    cases read. *)
Lemma parseSwitch_loop_defaults : forall n cases cur (sawDefault : bool) s cases' cur' s' e,
  List.length (defaultCases (cases ++ openCase cur e)) = (if sawDefault then 1%nat else O) ->
  Statement.parseSwitch_loop env rec fuel n cases cur sawDefault s = Ok (cases', cur') s' ->
  (List.length (defaultCases (cases' ++ openCase cur' e)) <= 1)%nat.
Proof.
  induction n as [|n IH]; intros cases cur sawDefault s cases' cur' s' e Hinv H;
    [discriminate|].
  cbn [Statement.parseSwitch_loop] in H.
  destruct (TokenType.eqb (type s) tt.braceR).
  { inv_ret H. rewrite Hinv. destruct sawDefault; lia. }
  destruct (TokenType.eqb (type s) tt._case || TokenType.eqb (type s) tt._default).
  - apply bind_inv_Ok in H. destruct H as (cases1 & s1 & Hf & H).
    apply finishCase_openCase in Hf. subst cases1.
    apply bind_inv_Ok in H. destruct H as (u & s2 & _ & H).
    apply bind_inv_Ok in H. destruct H as (r & s3 & Hr & H).
    apply bind_inv_Ok in H. destruct H as (u' & s4 & _ & H).
    eapply IH; [|exact H].
    rewrite defaultCases_app, length_app in Hinv.
    rewrite (defaultCases_openCase cur e (lastTokEnd s)) in Hinv.
    rewrite defaultCases_app, length_app, defaultCases_app, length_app.
    destruct (TokenType.eqb (type s) tt._case).
    + apply bind_inv_Ok in Hr. destruct Hr as ([test ref] & s5 & _ & Hr).
      inv_ret Hr. cbn. lia.
    + apply bind_inv_Ok in Hr. destruct Hr as (u'' & s5 & Hd & Hr).
      destruct sawDefault; [discriminate Hd|].
      inv_ret Hr. cbn. lia.
  - destruct cur as [[[caseStart test] consequent]|]; [|discriminate H].
    apply bind_inv_Ok in H. destruct H as (stmt & s1 & _ & H).
    eapply IH; [|exact H].
    rewrite defaultCases_app, length_app in *.
    rewrite <- (defaultCases_more caseStart test consequent). exact Hinv.
Qed.

End Switch.

(** X13.  A [switch] statement that [parseSwitchStatement] returns has at
    most one [default] clause.  In the loop over its body, a second
    [default] is the error "Multiple default clauses" at the start of that
    keyword, and a statement before the first clause is an unexpected
    token. *)
Theorem X13_switch_has_one_default (env : Env) (rec : Rec) (fuel : nat) :
  (forall startPos s node s',
      Statement.parseSwitchStatement env rec fuel startPos s = Ok node s' ->
      (List.length (defaultCases (Statement.sw_cases node)) <= 1)%nat)
  /\ (forall n cases cur s,
        type s = tt._default ->
        Statement.parseSwitch_loop env rec fuel (S n) cases cur true s
        = SyntaxError Recoverable (start s) "Multiple default clauses")
  /\ (forall n cases (sawDefault : bool) s,
        type s <> tt.braceR -> type s <> tt._case -> type s <> tt._default ->
        Statement.parseSwitch_loop env rec fuel (S n) cases None sawDefault s
        = SyntaxError Fatal (start s) "Unexpected token").
Proof.
  split; [|split].
  - intros startPos s node s' H. unfold Statement.parseSwitchStatement in H.
    apply bind_inv_Ok in H. destruct H as (u0 & s0 & _ & H).
    apply bind_inv_Ok in H. destruct H as (discriminant & s1 & _ & H).
    apply bind_inv_Ok in H. destruct H as (u1 & s2 & _ & H).
    apply bind_inv_Ok in H. destruct H as (u2 & s3 & _ & H).
    apply bind_inv_Ok in H. destruct H as (u3 & s4 & _ & H).
    apply bind_inv_Ok in H. destruct H as ([cases cur] & s5 & Hloop & H).
    apply bind_inv_Ok in H. destruct H as (u4 & s6 & _ & H).
    apply bind_inv_Ok in H. destruct H as (cases' & s7 & Hf & H).
    apply bind_inv_Ok in H. destruct H as (u5 & s8 & _ & H).
    apply bind_inv_Ok in H. destruct H as (u6 & s9 & _ & H).
    inversion H. subst node s'. clear H. cbn [Statement.sw_cases].
    apply finishCase_openCase in Hf. subst cases'.
    exact (parseSwitch_loop_defaults env rec fuel fuel [] None false s4 cases cur s5
             (lastTokEnd s6) eq_refl Hloop).
  - intros n cases cur s Hty. cbn [Statement.parseSwitch_loop].
    rewrite Hty. cbn [TokenType.eqb orb].
    destruct cur as [[[caseStart test] consequent]|]; reflexivity.
  - intros n cases sawDefault s Hb Hc Hd. cbn [Statement.parseSwitch_loop].
    apply TokenType_eqb_neq in Hb, Hc, Hd. rewrite Hb, Hc, Hd. reflexivity.
Qed.

Lemma X13_switch_has_one_default_witness :
  (List.length (defaultCases
      (Statement.sw_cases
         (Statement.mkSwitchStatement 0 36 (Identifier 8 9 "x")
            [Statement.mkSwitchCase 13 23 (Some (Literal 18 19 (VNum 1) [49%Z] None))
               [ExpressionStatement 21 23 (Identifier 21 22 "f") None];
             Statement.mkSwitchCase 24 34 None
               [ExpressionStatement 33 34 (Identifier 33 34 "g") None]]))) <= 1)%nat
  /\ Statement.parseSwitch_loop Acorn.env (parser Acorn.env 8) 8 1 [] None true
       X13_second_default
     = SyntaxError Recoverable 22 "Multiple default clauses"
  /\ Statement.parseSwitch_loop Acorn.env (parser Acorn.env 8) 8 1 [] None false
       (advance X13_two_defaults)
     = SyntaxError Fatal 7 "Unexpected token".
Proof.
  pose proof (X13_switch_has_one_default Acorn.env (parser Acorn.env 8) 8) as (H1 & H2 & H3).
  split; [|split].
  - apply (H1 0 X13_switch _
             (state_of (Statement.parseSwitchStatement Acorn.env (parser Acorn.env 8) 8 0
                          X13_switch) X13_switch)).
    vm_compute. reflexivity.
  - refine (eq_trans (H2 O [] None X13_second_default _) _); vm_compute; reflexivity.
  - refine (eq_trans (H3 O [] false (advance X13_two_defaults) _ _ _) _);
      vm_compute; try reflexivity; discriminate.
Defined.

(** ** statement.js: [try] *)

(** X14.  A [try] statement that [parseTryStatement] returns has a handler
    or a finalizer.  When the block is followed by neither [catch] nor
    [finally], the error is "Missing catch or finally clause" at the start
    of the statement; a [catch] without a parameter is an unexpected token
    when [ecmaVersion] is below 10. *)
Theorem X14_try_needs_catch_or_finally (env : Env) (rec : Rec) (fuel : nat) :
  (forall startPos s node s',
      Statement.parseTryStatement env rec fuel startPos s = Ok node s' ->
      Statement.try_handler node <> None \/ Statement.try_finalizer node <> None)
  /\ (forall startPos s block s1,
        parseBlock env rec fuel true None false (advance s) = Ok block s1 ->
        type s1 <> tt._catch -> type s1 <> tt._finally ->
        Statement.parseTryStatement env rec fuel startPos s
        = SyntaxError Fatal startPos "Missing catch or finally clause")
  /\ (forall startPos s block s1,
        parseBlock env rec fuel true None false (advance s) = Ok block s1 ->
        type s1 = tt._catch -> type (advance s1) <> tt.parenL ->
        ecmaVersion (options s1) < 10 ->
        Statement.parseTryStatement env rec fuel startPos s
        = SyntaxError Fatal (start (advance s1)) "Unexpected token").
Proof.
  split; [|split].
  - intros startPos s node s' H. unfold Statement.parseTryStatement in H.
    apply bind_inv_Ok in H. destruct H as (u0 & s0 & _ & H).
    apply bind_inv_Ok in H. destruct H as (block & s1 & _ & H).
    apply bind_inv_Ok in H. destruct H as (handler & s2 & _ & H).
    apply bind_inv_Ok in H. destruct H as (hasFinally & s3 & _ & H).
    apply bind_inv_Ok in H. destruct H as (finalizer & s4 & _ & H).
    apply bind_inv_Ok in H. destruct H as (u1 & s5 & Hc & H).
    inversion H. subst node s'. clear H. cbn [Statement.try_handler Statement.try_finalizer].
    destruct handler; [left; discriminate|].
    destruct finalizer; [right; discriminate|discriminate Hc].
  - intros startPos s block s1 Hb Hc Hf.
    apply TokenType_eqb_neq in Hc, Hf.
    unfold Statement.parseTryStatement.
    cbv [bind next]. rewrite Hb, Hc. cbv [ret eat]. rewrite Hf. reflexivity.
  - intros startPos s block s1 Hb Hc Hp Hv.
    apply TokenType_eqb_neq in Hp. apply Z.ltb_lt in Hv.
    unfold Statement.parseTryStatement.
    cbv [bind next]. rewrite Hb, Hc. cbn [TokenType.eqb].
    cbv [ret eat]. rewrite Hp.
    change (options (advance s1)) with (options s1). rewrite Hv. reflexivity.
Qed.

Lemma X14_try_needs_catch_or_finally_witness :
  (Statement.try_handler
     (Statement.mkTryStatement 0 19 (BlockStatement 4 7 []) None
        (Some (BlockStatement 16 19 []))) <> None
   \/ Statement.try_finalizer
        (Statement.mkTryStatement 0 19 (BlockStatement 4 7 []) None
           (Some (BlockStatement 16 19 []))) <> None)
  /\ Statement.parseTryStatement Acorn.env (parser Acorn.env 8) 8 0 X14_try_alone
     = SyntaxError Fatal 0 "Missing catch or finally clause"
  /\ Statement.parseTryStatement Acorn.env (parser Acorn.env 8) 8 0 (X14_try_catch 9)
     = SyntaxError Fatal 14 "Unexpected token".
Proof.
  pose proof (X14_try_needs_catch_or_finally Acorn.env (parser Acorn.env 8) 8)
    as (H1 & H2 & H3).
  split; [|split].
  - apply (H1 0 X14_try_finally _
             (state_of (Statement.parseTryStatement Acorn.env (parser Acorn.env 8) 8 0
                          X14_try_finally) X14_try_finally)).
    vm_compute. reflexivity.
  - refine (H2 0 X14_try_alone (BlockStatement 4 7 [])
              (state_of (parseBlock Acorn.env (parser Acorn.env 8) 8 true None false
                           (advance X14_try_alone)) X14_try_alone) _ _ _);
      vm_compute; try reflexivity; discriminate.
  - refine (eq_trans
              (H3 0 (X14_try_catch 9) (BlockStatement 4 7 [])
                 (state_of (parseBlock Acorn.env (parser Acorn.env 8) 8 true None false
                              (advance (X14_try_catch 9))) (X14_try_catch 9)) _ _ _ _) _);
      vm_compute; try reflexivity; discriminate.
Defined.

(** ** statement.js: variable declarations *)

Section Declarations.

Variable env : Env.
Variable rec : Rec.
Variable fuel : nat.

(** The loop of [parseVar], outside the head of a [for]: the declarators
    with a pattern have an initializer, and there is at least one. *)
Lemma parseVar_loop_initialized : forall n kind declarations s l s',
  forallb patternInitialized declarations = true ->
  parseVar_loop env rec fuel n false kind declarations s = Ok l s' ->
  forallb patternInitialized l = true /\ l <> [].
Proof.
  induction n as [|n IH]; intros kind declarations s l s' Hinv H; [discriminate|].
  cbn [parseVar_loop] in H.
  apply bind_inv_Ok in H. destruct H as (startPos & s0 & _ & H).
  apply bind_inv_Ok in H. destruct H as (id & s1 & _ & H).
  apply bind_inv_Ok in H. destruct H as (e & s2 & _ & H).
  apply bind_inv_Ok in H. destruct H as (init & s3 & Hinit & H).
  apply bind_inv_Ok in H. destruct H as (decl & s4 & Hdecl & H).
  apply bind_inv_Ok in H. destruct H as (c & s5 & _ & H).
  unfold finishNode in Hdecl. inversion Hdecl. subst decl s4. clear Hdecl.
  assert (Hd : patternInitialized (VariableDeclarator startPos (lastTokEnd s3) id init) = true).
  { cbn [patternInitialized].
    destruct e.
    - apply bind_inv_Ok in Hinit. destruct Hinit as ([i r] & s6 & _ & Hinit).
      inv_ret Hinit. apply orb_true_r.
    - destruct (_ && _) in Hinit; [discriminate Hinit|].
      cbn [andb negb] in Hinit. rewrite andb_true_r in Hinit.
      destruct (String.eqb (node_type id) "Identifier"); [reflexivity|].
      discriminate Hinit. }
  assert (Hall : forallb patternInitialized
                   (declarations ++ [VariableDeclarator startPos (lastTokEnd s3) id init])
                 = true).
  { rewrite forallb_app, Hinv. cbn [forallb]. rewrite Hd. reflexivity. }
  destruct c; cbn [negb] in H.
  - exact (IH _ _ _ _ _ Hall H).
  - inv_ret H. split; [exact Hall|]. intros Hnil. apply app_eq_nil in Hnil.
    destruct Hnil as [_ Hnil]. discriminate Hnil.
Qed.

End Declarations.

(** X15.  A declaration statement that [parseVarStatement] returns has
    the kind it was called with and at least one declarator, and every
    declarator whose target is a destructuring pattern has an
    initializer. *)
Theorem X15_declared_patterns_are_initialized (env : Env) (rec : Rec) (fuel : nat) :
  forall startPos kind s node s',
    parseVarStatement env rec fuel startPos kind s = Ok node s' ->
    exists end_ declarations,
      node = VariableDeclaration startPos end_ declarations kind
      /\ declarations <> []
      /\ forallb patternInitialized declarations = true.
Proof.
  intros startPos kind s node s' H. unfold parseVarStatement in H.
  apply bind_inv_Ok in H. destruct H as (u0 & s0 & _ & H).
  apply bind_inv_Ok in H. destruct H as (declarations & s1 & Hv & H).
  apply bind_inv_Ok in H. destruct H as (u1 & s2 & _ & H).
  unfold finishNode in H. inversion H. subst node s'. clear H.
  unfold parseVar in Hv.
  destruct (parseVar_loop_initialized env rec fuel fuel kind [] s0 declarations s1
              eq_refl Hv) as [Hall Hne].
  exists (lastTokEnd s2), declarations. auto.
Qed.

Lemma X15_declared_patterns_are_initialized_witness :
  exists end_ declarations,
    node_of (parseVarStatement Acorn.env (parser Acorn.env 8) 8 0 "var" X15_declaration)
    = VariableDeclaration 0 end_ declarations "var"
    /\ declarations <> []
    /\ forallb patternInitialized declarations = true.
Proof.
  apply (X15_declared_patterns_are_initialized Acorn.env (parser Acorn.env 8) 8 0 "var"
           X15_declaration _
           (state_of (parseVarStatement Acorn.env (parser Acorn.env 8) 8 0 "var"
                        X15_declaration) X15_declaration)).
  vm_compute. reflexivity.
Defined.

(** ** statement.js: labelled statements *)

Lemma updateLabels_names maybeName nodeStart newStart kind : forall ls,
  labelDeclared maybeName (updateLabels ls nodeStart newStart kind)
  = labelDeclared maybeName ls.
Proof.
  induction ls as [|l tl IH]; [reflexivity|].
  cbn [updateLabels].
  destruct (label_statementStart l) as [p|]; [|reflexivity].
  destruct (p =? nodeStart); [|reflexivity].
  unfold labelDeclared in *. cbn [existsb label_name]. rewrite IH. reflexivity.
Qed.

Lemma isTarget_other_name isBreak start end_ maybeName : forall ls,
  labelDeclared maybeName ls = false ->
  existsb (Statement.isTarget isBreak (Some (Identifier start end_ maybeName))) ls
  = false.
Proof.
  induction ls as [|l tl IH]; intros H; [reflexivity|].
  unfold labelDeclared in H. cbn [existsb] in *.
  apply orb_false_iff in H. destruct H as [Hl Htl].
  rewrite (IH Htl), orb_false_r.
  unfold Statement.isTarget. cbn [node_name].
  destruct (label_name l); [rewrite Hl|]; reflexivity.
Qed.

(** X21.  A label that is already in [this.labels] is refused with "Label
    ... is already declared" at the label.  Otherwise the body of the
    labelled statement is parsed with the label on top of [this.labels], and
    there a [break] with this label has a target, while a [continue] with
    this label has one exactly when the body starts with a loop keyword. *)
Theorem X21_label_is_a_target (rec : Rec) (startPos : Z) (maybeName : string)
    (expr : Node) (context : option string) (s : State) :
  (labelDeclared maybeName (labels s) = true ->
   parseLabeledStatement rec startPos maybeName expr context s
   = SyntaxError Fatal (node_start expr)
       ("Label '" ++ maybeName ++ "' is already declared"))
  /\ (labelDeclared maybeName (labels s) = false ->
      (exists context',
          parseLabeledStatement rec startPos maybeName expr context s
          = (body <- rec_parseStatement rec (Some context') false ;;
             labels_pop ;;
             finishNode (fun st en => LabeledStatement st en body expr) startPos)
              (set_labels (bodyLabels startPos maybeName s) s))
      /\ forall from to,
          existsb (Statement.isTarget true (Some (Identifier from to maybeName)))
            (bodyLabels startPos maybeName s) = true
          /\ existsb (Statement.isTarget false (Some (Identifier from to maybeName)))
               (bodyLabels startPos maybeName s) = TokenType.isLoop (type s)).
Proof.
  split.
  - intros Hd. unfold parseLabeledStatement. unfold bind at 1.
    unfold labelDeclared in Hd. rewrite Hd. reflexivity.
  - intros Hd. split.
    + eexists. unfold parseLabeledStatement. unfold bind at 1.
      unfold labelDeclared in Hd. rewrite Hd. reflexivity.
    + intros from to.
      assert (Hrest : forall isBreak,
                existsb (Statement.isTarget isBreak (Some (Identifier from to maybeName)))
                  (updateLabels (labels s) startPos (start s) (labelKind s)) = false).
      { intros isBreak. apply isTarget_other_name. rewrite updateLabels_names. exact Hd. }
      unfold bodyLabels. cbn [existsb]. rewrite !Hrest, !orb_false_r.
      unfold Statement.isTarget. cbn [label_name label_kind node_name].
      rewrite String.eqb_refl. cbn [andb].
      split.
      * destruct (labelKind s); reflexivity.
      * unfold labelKind. destruct (TokenType.isLoop (type s)); [reflexivity|].
        destruct (TokenType.eqb (type s) tt._switch); reflexivity.
Qed.

Lemma X21_label_is_a_target_witness :
  parseLabeledStatement (parser Acorn.env 8) 3 "a" (Identifier 3 4 "a") (Some "label")
    X21_label_twice
  = SyntaxError Fatal 3 "Label 'a' is already declared"
  /\ existsb (Statement.isTarget false (Some (Identifier 22 23 "a")))
       (bodyLabels 0 "a" X21_labelled_loop) = true
  /\ existsb (Statement.isTarget false (Some (Identifier 14 15 "a")))
       (bodyLabels 0 "a" X21_labelled_block) = false.
Proof.
  split; [|split].
  - refine (proj1 (X21_label_is_a_target (parser Acorn.env 8) 3 "a" (Identifier 3 4 "a")
                     (Some "label") X21_label_twice) _).
    vm_compute. reflexivity.
  - refine (eq_trans
              (proj2 (proj2 (proj2 (X21_label_is_a_target (parser Acorn.env 8) 0 "a"
                                      (Identifier 0 1 "a") None X21_labelled_loop) _)
                        22 23)) _);
      vm_compute; reflexivity.
  - refine (eq_trans
              (proj2 (proj2 (proj2 (X21_label_is_a_target (parser Acorn.env 8) 0 "a"
                                      (Identifier 0 1 "a") None X21_labelled_block) _)
                        14 15)) _);
      vm_compute; reflexivity.
Defined.

(** ** statement.js: line breaks after [return], [break], [continue] and
    [throw] *)

(** X22.  When a line break separates [return], [break] or [continue] from
    the token that follows, the statement ends at the keyword: it has no
    argument and no label, and only the keyword is consumed.  [return] is
    refused outside of a function unless the option allows it, and [break]
    and [continue] still need a target.  After [throw] the line break is the
    error "Illegal newline after throw" at the end of the keyword. *)
Theorem X22_line_break_ends_the_statement (env : Env) (rec : Rec) (fuel : nat)
    (startPos : Z) (s : State) :
  lineBreak_test (slice (input s) (end_ s) (start (advance s))) = true ->
  type (advance s) <> tt.semi ->
  parseReturnStatement env rec fuel startPos s
  = (if negb (inFunction env s) && negb (allowReturnOutsideFunction (options s))
     then SyntaxError Fatal (start s) "'return' outside of function"
     else Ok (ReturnStatement startPos (end_ s) None) (advance s))
  /\ parseThrowStatement env rec fuel startPos s
     = SyntaxError Fatal (end_ s) "Illegal newline after throw"
  /\ forall keyword,
      Statement.parseBreakContinueStatement env startPos keyword s
      = if existsb (Statement.isTarget (String.eqb keyword "break") None) (labels s)
        then Ok (Statement.mkBreakContinue
                   (if String.eqb keyword "break"
                    then "BreakStatement" else "ContinueStatement")
                   startPos (end_ s) None) (advance s)
        else SyntaxError Fatal startPos ("Unsyntactic " ++ keyword).
Proof.
  intros Hbreak Hsemi. apply TokenType_eqb_neq in Hsemi.
  assert (Hins : canInsertSemicolon (advance s) = true).
  { unfold canInsertSemicolon.
    replace (lineBreak_test (slice (input (advance s)) (lastTokEnd (advance s))
                               (start (advance s)))) with true
      by (symmetry; exact Hbreak).
    apply orb_true_r. }
  split; [|split].
  - unfold parseReturnStatement. unfold bind at 1.
    destruct (negb (inFunction env s) && negb (allowReturnOutsideFunction (options s)));
      [reflexivity|].
    cbv [ret bind next eat insertSemicolon finishNode]. rewrite Hsemi.
    cbv [ret]. rewrite Hins. reflexivity.
  - unfold parseThrowStatement. cbv [bind next].
    replace (lineBreak_test (slice (input (advance s)) (lastTokEnd (advance s))
                               (start (advance s)))) with true
      by (symmetry; exact Hbreak).
    reflexivity.
  - intros keyword. unfold Statement.parseBreakContinueStatement.
    cbv [bind next eat insertSemicolon ret gets]. rewrite Hsemi.
    cbv [ret]. rewrite Hins.
    change (labels (advance s)) with (labels s).
    destruct (existsb _ (labels s)); reflexivity.
Qed.

Lemma X22_line_break_ends_the_statement_witness :
  parseReturnStatement Acorn.env (parser Acorn.env 8) 8 0 X22_return
  = Ok (ReturnStatement 0 6 None) (advance X22_return)
  /\ parseThrowStatement Acorn.env (parser Acorn.env 8) 8 0 X22_throw
     = SyntaxError Fatal 5 "Illegal newline after throw"
  /\ Statement.parseBreakContinueStatement Acorn.env 0 "continue" X22_continue
     = Ok (Statement.mkBreakContinue "ContinueStatement" 0 8 None) (advance X22_continue).
Proof.
  split; [|split].
  - refine (eq_trans
              (proj1 (X22_line_break_ends_the_statement Acorn.env (parser Acorn.env 8) 8 0
                        X22_return _ _)) _);
      vm_compute; try reflexivity; discriminate.
  - refine (eq_trans
              (proj1 (proj2 (X22_line_break_ends_the_statement Acorn.env
                               (parser Acorn.env 8) 8 0 X22_throw _ _))) _);
      vm_compute; try reflexivity; discriminate.
  - refine (eq_trans
              (proj2 (proj2 (X22_line_break_ends_the_statement Acorn.env
                               (parser Acorn.env 8) 8 0 X22_continue _ _)) "continue") _);
      vm_compute; try reflexivity; discriminate.
Defined.

(** ** statement.js: declarations where one statement is expected *)

Lemma isLet_name env context s : type s <> tt.name -> isLet env context s = false.
Proof.
  intros H. apply TokenType_eqb_neq in H.
  unfold isLet, isContextual. rewrite H. cbn [andb negb]. rewrite orb_true_r. reflexivity.
Qed.

(** X23.  Where [parseStatement] is called with a context, as for the body
    of an [if], of a loop or of a label, a class, a [const] declaration and,
    from ECMAScript 6 on, a function in strict code or in a context other
    than [if] and [label] are refused as unexpected tokens at their
    keyword; [export] is refused outside the top level unless the option
    [allowImportExportEverywhere] is set. *)
Theorem X23_no_declaration_in_statement_position (env : Env) (rec : Rec) (fuel : nat)
    (context : option string) (topLevel : bool) (s : State) :
  isContext context = true ->
  (type s = tt._class \/ (type s = tt._const /\ value s = VStr "const")
   \/ (type s = tt._function /\ 6 <= ecmaVersion (options s)
       /\ (strict s = true \/ (contextIs context "if" = false
                               /\ contextIs context "label" = false))) ->
   parseStatement env rec fuel context topLevel s
   = SyntaxError Fatal (start s) "Unexpected token")
  /\ (type s = tt._export -> topLevel = false ->
      allowImportExportEverywhere (options s) = false ->
      parseStatement env rec fuel context topLevel s
      = SyntaxError Fatal (start s)
          "'import' and 'export' may only appear at the top level").
Proof.
  intros Hctx. split.
  - intros [Hty|[[Hty Hval]|(Hty & Hev & Hstrict)]].
    + unfold parseStatement. rewrite isLet_name by (rewrite Hty; discriminate).
      rewrite Hty. unfold bind at 1. rewrite Hctx. reflexivity.
    + unfold parseStatement. rewrite isLet_name by (rewrite Hty; discriminate).
      rewrite Hty. unfold bind at 1. rewrite Hctx, Hval. reflexivity.
    + unfold parseStatement. rewrite isLet_name by (rewrite Hty; discriminate).
      rewrite Hty. unfold bind at 1. rewrite Hctx.
      assert (Hge : (ecmaVersion (options s) >=? 6) = true)
        by (rewrite Z.geb_leb; apply Z.leb_le; exact Hev).
      rewrite Hge.
      destruct Hstrict as [Hs|[Hif Hlabel]].
      * rewrite Hs. reflexivity.
      * rewrite Hif, Hlabel. rewrite orb_true_r. reflexivity.
  - intros Hty Htop Hallow.
    unfold parseStatement. rewrite isLet_name by (rewrite Hty; discriminate).
    rewrite Hty. cbn [TokenType.eqb andb]. rewrite andb_false_r.
    unfold bind at 1. rewrite Hallow. cbn [negb]. unfold bind at 1. rewrite Htop.
    reflexivity.
Qed.

Lemma X23_no_declaration_in_statement_position_witness :
  parseStatement Acorn.env (parser Acorn.env 8) 8 (Some "if") false X23_class
  = SyntaxError Fatal 0 "Unexpected token"
  /\ parseStatement Acorn.env (parser Acorn.env 8) 8 (Some "if") false X23_const
     = SyntaxError Fatal 0 "Unexpected token"
  /\ parseStatement Acorn.env (parser Acorn.env 8) 8 (Some "while") false X23_function
     = SyntaxError Fatal 0 "Unexpected token"
  /\ parseStatement Acorn.env (parser Acorn.env 8) 8 (Some "if") false X23_export
     = SyntaxError Fatal 0 "'import' and 'export' may only appear at the top level".
Proof.
  split; [|split; [|split]].
  - refine (eq_trans
              (proj1 (X23_no_declaration_in_statement_position Acorn.env
                        (parser Acorn.env 8) 8 (Some "if") false X23_class _) _) _);
      [reflexivity | left; reflexivity | reflexivity].
  - refine (eq_trans
              (proj1 (X23_no_declaration_in_statement_position Acorn.env
                        (parser Acorn.env 8) 8 (Some "if") false X23_const _) _) _);
      [reflexivity | right; left; split; reflexivity | reflexivity].
  - refine (eq_trans
              (proj1 (X23_no_declaration_in_statement_position Acorn.env
                        (parser Acorn.env 8) 8 (Some "while") false X23_function _) _) _);
      [reflexivity
      | right; right; split; [reflexivity|]; split;
          [vm_compute; discriminate | right; split; reflexivity]
      | reflexivity].
  - refine (eq_trans
              (proj2 (X23_no_declaration_in_statement_position Acorn.env
                        (parser Acorn.env 8) 8 (Some "if") false X23_export _) _ _ _) _);
      reflexivity.
Defined.

(** ** statement.js: the statements of a program and of a block *)



(** ** expression.js: object literals and object patterns *)

Section ObjectMembers.

Variable env : Env.
Variable rec : Rec.
Variable fuel : nat.

Lemma parseIdent_Identifier liberal s node s' :
  parseIdent env liberal s = Ok node s' -> node_type node = "Identifier".
Proof.
  unfold parseIdent. intros H.
  apply bind_inv_Ok in H. destruct H as (name & s0 & _ & H).
  apply bind_inv_Ok in H. destruct H as (u & s1 & _ & H).
  apply bind_inv_Ok in H. destruct H as (n & s2 & Hf & H).
  apply bind_inv_Ok in H. destruct H as (u' & s3 & _ & H).
  inv_ret H. unfold finishNode in Hf. inversion Hf. reflexivity.
Qed.

(** The value of a property: what the branches of [parsePropertyValue]
    give to [kind], [method] and [refDestructuringErrors]. *)
Lemma parsePropertyValue_fields method shorthand computed key
    (isPattern isGenerator isAsync : bool) startPos ref containsEsc s f ref' s' :
  Expression.parsePropertyValue env rec fuel method shorthand computed key
    isPattern isGenerator isAsync startPos ref containsEsc s = Ok (f, ref') s' ->
  (forall a b,
      accessorArity (Expression.PropertyMember
                       (Expression.mkPropertyNode a b (Expression.f_method f)
                          (Expression.f_shorthand f) (Expression.f_computed f)
                          (Expression.f_key f) (Expression.f_value f)
                          (Expression.f_kind f))) = true)
  /\ (isPattern = true ->
      Expression.f_kind f = "init" /\ Expression.f_method f = method /\ ref' = ref).
Proof.
  unfold Expression.parsePropertyValue. intros H.
  apply bind_inv_Ok in H. destruct H as (u0 & s0 & _ & H).
  apply bind_inv_Ok in H. destruct H as (colon & s1 & _ & H).
  destruct colon.
  { apply bind_inv_Ok in H. destruct H as ([value r] & s2 & Hv & H).
    inv_ret H. split; [reflexivity|].
    intros ->. apply bind_inv_Ok in Hv. destruct Hv as (v & s3 & _ & Hv).
    inv_ret Hv. auto. }
  case_if H.
  { apply bind_inv_Ok in H. destruct H as (u1 & s2 & Hp & H).
    apply bind_inv_Ok in H. destruct H as (value & s3 & _ & H).
    inv_ret H. split; [reflexivity|].
    intros ->. discriminate Hp. }
  case_if H.
  { apply bind_inv_Ok in H. destruct H as (u1 & s2 & _ & H).
    apply bind_inv_Ok in H. destruct H as ([computed' key'] & s3 & _ & H).
    apply bind_inv_Ok in H. destruct H as (value & s4 & _ & H).
    apply bind_inv_Ok in H. destruct H as (u2 & s5 & Hcheck & H).
    inv_ret H.
    repeat (match goal with
            | Hc : _ && _ = true |- _ => apply andb_true_iff in Hc; destruct Hc
            end).
    split.
    - intros a b. cbn [accessorArity Expression.prop_kind Expression.prop_value
                       Expression.f_kind Expression.f_value].
      destruct (String.eqb (node_name key) "get") eqn:Hget.
      + destruct (node_params value); [reflexivity|]. discriminate Hcheck.
      + match goal with
        | Hor : false || _ = true |- _ => cbn [orb] in Hor; rewrite Hor in *
        end.
        destruct (node_params value) as [|[param|] [|]]; try discriminate Hcheck.
        cbn in Hcheck.
        destruct (String.eqb (node_type param) "RestElement"); [discriminate Hcheck|].
        reflexivity.
    - intros ->. match goal with Hn : negb true = true |- _ => discriminate Hn end. }
  case_if H; [|discriminate H].
  apply bind_inv_Ok in H. destruct H as (u1 & s2 & _ & H).
  apply bind_inv_Ok in H. destruct H as (u2 & s3 & _ & H).
  apply bind_inv_Ok in H. destruct H as (u3 & s4 & _ & H).
  destruct isPattern.
  - apply bind_inv_Ok in H. destruct H as (value & s5 & _ & H).
    inv_ret H. split; [reflexivity|auto].
  - split; [|discriminate].
    destruct ref as [r|].
    + case_if H.
      * apply bind_inv_Ok in H. destruct H as (value & s5 & _ & H).
        inv_ret H. reflexivity.
      * inv_ret H. reflexivity.
    + inv_ret H. reflexivity.
Qed.

(** A member of a pattern; after a rest element there is no comma. *)
Lemma parseProperty_pattern ref s m ref' s' :
  Expression.parseProperty env rec fuel true ref s = Ok (m, ref') s' ->
  ref' = ref /\ patternMember m = true
  /\ (isRest m = true -> TokenType.eqb (type s') tt.comma = false).
Proof.
  unfold Expression.parseProperty. intros H.
  apply bind_inv_Ok in H. destruct H as (ellipsis & s0 & _ & H).
  destruct ellipsis.
  - apply bind_inv_Ok in H. destruct H as (argument & s1 & Hi & H).
    apply bind_inv_Ok in H. destruct H as (u & s2 & Hc & H).
    inversion H. subst m ref' s'. clear H.
    apply parseIdent_Identifier in Hi.
    destruct (TokenType.eqb (type s1) tt.comma) eqn:Hcomma; [discriminate Hc|].
    inv_ret Hc. cbn [patternMember]. rewrite Hi. auto.
  - apply bind_inv_Ok in H. destruct H as (isGenerator & s1 & _ & H).
    apply bind_inv_Ok in H. destruct H as (containsEsc & s2 & _ & H).
    apply bind_inv_Ok in H. destruct H as ([computed key] & s3 & _ & H).
    apply bind_inv_Ok in H.
    destruct H as ([[[isAsync isGenerator1] computed1] key1] & s4 & _ & H).
    apply bind_inv_Ok in H. destruct H as ([f r] & s5 & Hv & H).
    inversion H. subst m ref' s'. clear H.
    apply parsePropertyValue_fields in Hv. destruct Hv as [_ Hv].
    destruct (Hv eq_refl) as (Hk & Hm & Hr).
    split; [exact Hr|]. split; [|discriminate].
    cbn [patternMember Expression.prop_kind Expression.prop_method].
    rewrite Hk, Hm. destruct (ecmaVersion (options s0) >=? 6); reflexivity.
Qed.

Lemma parseProperty_arity isPattern ref s m ref' s' :
  Expression.parseProperty env rec fuel isPattern ref s = Ok (m, ref') s' ->
  accessorArity m = true.
Proof.
  unfold Expression.parseProperty. intros H.
  apply bind_inv_Ok in H. destruct H as (ellipsis & s0 & _ & H).
  destruct ellipsis.
  - destruct isPattern.
    + apply bind_inv_Ok in H. destruct H as (argument & s1 & _ & H).
      apply bind_inv_Ok in H. destruct H as (u & s2 & _ & H).
      inversion H. reflexivity.
    + apply bind_inv_Ok in H. destruct H as ([argument r] & s1 & _ & H).
      inversion H. reflexivity.
  - apply bind_inv_Ok in H. destruct H as (isGenerator & s1 & _ & H).
    apply bind_inv_Ok in H. destruct H as (containsEsc & s2 & _ & H).
    apply bind_inv_Ok in H. destruct H as ([computed key] & s3 & _ & H).
    apply bind_inv_Ok in H.
    destruct H as ([[[isAsync isGenerator1] computed1] key1] & s4 & _ & H).
    apply bind_inv_Ok in H. destruct H as ([f r] & s5 & Hv & H).
    inversion H. subst m ref' s'. clear H.
    apply parsePropertyValue_fields in Hv. destruct Hv as [Hv _]. apply Hv.
Qed.

(** The loop of [parseObj] on a pattern: a rest element ends the list. *)
Lemma parseObj_loop_pattern : forall n (first : bool) propHash ref properties s l ref' s',
  forallb patternMember properties = true ->
  (properties <> [] -> first = false) ->
  (existsb isRest properties = true ->
   existsb isRest (removelast properties) = false
   /\ TokenType.eqb (type s) tt.comma = false) ->
  Expression.parseObj_loop env rec fuel n true first propHash ref properties s
  = Ok (l, ref') s' ->
  ref' = ref /\ forallb patternMember l = true
  /\ existsb isRest (removelast l) = false.
Proof.
  induction n as [|n IH]; intros first propHash ref properties s l ref' s' Hall Hfirst Hrest H;
    [discriminate|].
  assert (Hdone : existsb isRest (removelast properties) = false).
  { destruct (existsb isRest properties) eqn:Hr; [apply Hrest; reflexivity|].
    clear - Hr. induction properties as [|m tl IHtl]; [reflexivity|].
    cbn [existsb] in Hr. apply orb_false_iff in Hr. destruct Hr as [Hm Htl].
    destruct tl as [|m' tl']; [reflexivity|].
    cbn [removelast existsb] in *. rewrite Hm. cbn [orb]. apply IHtl. exact Htl. }
  cbn [Expression.parseObj_loop] in H.
  apply bind_inv_Ok in H. destruct H as (close & s0 & Hclose & H).
  destruct close; [inv_ret H; auto|].
  assert (s0 = s).
  { unfold eat in Hclose. destruct (TokenType.eqb (type s) tt.braceR);
      [cbv [bind next ret] in Hclose; discriminate Hclose | inv_ret Hclose; reflexivity]. }
  subst s0.
  apply bind_inv_Ok in H. destruct H as (stop & s1 & Hstop & H).
  destruct stop; [inv_ret H; auto|].
  apply bind_inv_Ok in H. destruct H as ([prop ref1] & s2 & Hprop & H).
  apply bind_inv_Ok in H. destruct H as ([propHash' ref2] & s3 & Hclash & H).
  cbn [negb] in Hclash. inv_ret Hclash.
  apply parseProperty_pattern in Hprop. destruct Hprop as (-> & Hmem & Hcomma).
  assert (Hnorest : existsb isRest properties = false).
  { destruct (existsb isRest properties) eqn:Hr; [|reflexivity].
    destruct (Hrest eq_refl) as [_ Hc].
    assert (first = false) as -> by (apply Hfirst; intros ->; discriminate Hr).
    cbn [negb] in Hstop.
    apply bind_inv_Ok in Hstop. destruct Hstop as (u & s4 & He & _).
    unfold expect, eat in He. cbv [bind] in He. rewrite Hc in He.
    discriminate He. }
  apply (IH false propHash' ref (properties ++ [prop]) s3 l ref' s'); [| | |exact H].
  - rewrite forallb_app, Hall. cbn [forallb]. rewrite Hmem. reflexivity.
  - reflexivity.
  - intros Hx. rewrite removelast_last. split; [exact Hnorest|].
    apply Hcomma. rewrite existsb_app, Hnorest in Hx. cbn in Hx.
    rewrite orb_false_r in Hx. exact Hx.
Qed.

Lemma parseObj_loop_arity : forall n isPattern (first : bool) propHash ref properties s l ref' s',
  forallb accessorArity properties = true ->
  Expression.parseObj_loop env rec fuel n isPattern first propHash ref properties s
  = Ok (l, ref') s' ->
  forallb accessorArity l = true.
Proof.
  induction n as [|n IH];
    intros isPattern first propHash ref properties s l ref' s' Hall H; [discriminate|].
  cbn [Expression.parseObj_loop] in H.
  apply bind_inv_Ok in H. destruct H as (close & s0 & _ & H).
  destruct close; [inv_ret H; auto|].
  apply bind_inv_Ok in H. destruct H as (stop & s1 & _ & H).
  destruct stop; [inv_ret H; auto|].
  apply bind_inv_Ok in H. destruct H as ([prop ref1] & s2 & Hprop & H).
  apply bind_inv_Ok in H. destruct H as ([propHash' ref2] & s3 & _ & H).
  apply parseProperty_arity in Hprop.
  eapply IH; [|exact H].
  rewrite forallb_app, Hall. cbn [forallb]. rewrite Hprop. reflexivity.
Qed.

End ObjectMembers.

(** X16.  An object pattern that [parseObj] returns holds properties of
    kind [init] that are not methods and rest elements whose argument is an
    identifier; a rest element is the last member.  Reading a pattern
    leaves [refDestructuringErrors] as it was. *)
Theorem X16_object_pattern_members (env : Env) (rec : Rec) (fuel : nat) :
  forall ref s node ref' s',
    Expression.parseObj env rec fuel true ref s = Ok (node, ref') s' ->
    Expression.obj_type node = "ObjectPattern"
    /\ ref' = ref
    /\ forallb patternMember (Expression.obj_properties node) = true
    /\ existsb isRest (removelast (Expression.obj_properties node)) = false.
Proof.
  intros ref s node ref' s' H. unfold Expression.parseObj in H.
  apply bind_inv_Ok in H. destruct H as (u & s0 & _ & H).
  apply bind_inv_Ok in H. destruct H as ([properties r] & s1 & Hloop & H).
  inversion H. subst node ref' s'. clear H.
  cbn [Expression.obj_type Expression.obj_properties].
  split; [reflexivity|].
  apply (parseObj_loop_pattern env rec fuel fuel true Expression.emptyHash ref [] s0
           properties r s1); [reflexivity | intros Hne; contradiction Hne; reflexivity
                             | discriminate | exact Hloop].
Qed.

Lemma X16_object_pattern_members_witness :
  let node := fst (value_of (Expression.parseObj Acorn.env (parser Acorn.env 8) 8 true None
                               X16_pattern)
                     (Expression.mkObjectNode "" 0 0 [], None)) in
  Expression.obj_type node = "ObjectPattern"
  /\ (None : Ref) = None
  /\ forallb patternMember (Expression.obj_properties node) = true
  /\ existsb isRest (removelast (Expression.obj_properties node)) = false.
Proof.
  apply (X16_object_pattern_members Acorn.env (parser Acorn.env 8) 8 None X16_pattern _ None
           (state_of (Expression.parseObj Acorn.env (parser Acorn.env 8) 8 true None
                        X16_pattern) X16_pattern)).
  vm_compute. reflexivity.
Defined.

(** X17.  In an object that [parseObj] returns, a getter has no parameter
    and a setter has exactly one, which is not a rest element; every other
    property has the kind [init]. *)
Theorem X17_accessors_have_their_parameters (env : Env) (rec : Rec) (fuel : nat) :
  forall isPattern ref s node ref' s',
    Expression.parseObj env rec fuel isPattern ref s = Ok (node, ref') s' ->
    forallb accessorArity (Expression.obj_properties node) = true.
Proof.
  intros isPattern ref s node ref' s' H. unfold Expression.parseObj in H.
  apply bind_inv_Ok in H. destruct H as (u & s0 & _ & H).
  apply bind_inv_Ok in H. destruct H as ([properties r] & s1 & Hloop & H).
  inversion H. subst node ref' s'. clear H.
  cbn [Expression.obj_properties].
  exact (parseObj_loop_arity env rec fuel fuel isPattern true Expression.emptyHash ref []
           s0 properties r s1 eq_refl Hloop).
Qed.

Lemma X17_accessors_have_their_parameters_witness :
  forallb accessorArity
    (Expression.obj_properties
       (fst (value_of (Expression.parseObj Acorn.env (parser Acorn.env 8) 8 false None
                         X17_accessors)
               (Expression.mkObjectNode "" 0 0 [], None)))) = true.
Proof.
  apply (X17_accessors_have_their_parameters Acorn.env (parser Acorn.env 8) 8 false None
           X17_accessors _ None
           (state_of (Expression.parseObj Acorn.env (parser Acorn.env 8) 8 false None
                        X17_accessors) X17_accessors)).
  vm_compute. reflexivity.
Defined.

(** [checkPropClash] leaves the parser as it is and never clears
    [propHash.proto]; a property [__proto__: value] sets it. *)
Lemma checkPropClash_proto prop propHash ref s propHash' ref' s' :
  Expression.checkPropClash prop propHash ref s = Ok (propHash', ref') s' ->
  (Expression.ph_proto propHash = true -> Expression.ph_proto propHash' = true)
  /\ (checksProto (prop, ref, s) = true -> Expression.ph_proto propHash' = true).
Proof.
  unfold checksProto, Expression.checkPropClash. cbn [fst snd]. intros H.
  destruct prop as [p| |].
  - cbn [isProtoInit].
    destruct (ecmaVersion (options s) >=? 6) eqn:Hev.
    + cbn [andb] in H.
      destruct (Expression.isTrue (Expression.prop_computed p));
        [inv_ret H; split; [auto|discriminate]|].
      destruct (Expression.isTrue (Expression.prop_method p));
        [inv_ret H; split; [auto|discriminate]|].
      destruct (Expression.isTrue (Expression.prop_shorthand p));
        [inv_ret H; split; [auto|discriminate]|].
      cbn [orb negb andb] in *.
      destruct (Expression.keyName (Expression.prop_key p)) as [name|] eqn:Hname.
      * destruct (String.eqb name "__proto__" && String.eqb (Expression.prop_kind p) "init")
          eqn:Hproto.
        { apply bind_inv_Ok in H. destruct H as (r & s1 & _ & H). inv_ret H.
          split; reflexivity. }
        inv_ret H. split; [auto|]. intros Hc. exfalso.
        apply andb_true_iff in Hc. destruct Hc as [Hc _].
        apply andb_true_iff in Hc. destruct Hc as [Hkind Hkey].
        rewrite Hkind, andb_true_r in Hproto.
        destruct (Expression.prop_key p); try discriminate Hkey.
        { inversion Hname. subst name. rewrite Hkey in Hproto. discriminate Hproto. }
        { match type of Hkey with
          | match ?v with _ => _ end = true => destruct v; try discriminate Hkey
          end.
          cbn [Expression.keyName Expression.String_] in Hname.
          inversion Hname. subst name. rewrite Hkey in Hproto.
          discriminate Hproto. }
      * inv_ret H. split; [auto|]. intros Hc. exfalso.
        apply andb_true_iff in Hc. destruct Hc as [Hc _].
        apply andb_true_iff in Hc. destruct Hc as [_ Hkey].
        destruct (Expression.prop_key p); try discriminate Hkey; discriminate Hname.
    + cbn [andb] in H.
      assert (Hlt : (6 <=? ecmaVersion (options s)) = false).
      { rewrite Z.geb_leb in Hev. exact Hev. }
      rewrite Hlt, andb_false_r.
      destruct (Expression.keyName (Expression.prop_key p)) as [name|];
        [|inv_ret H; split; [auto|discriminate]].
      destruct (Expression.lookup _ _).
      * apply bind_inv_Ok in H. destruct H as (u & s1 & _ & H). inv_ret H.
        split; [auto|discriminate].
      * inv_ret H. split; [auto|discriminate].
  - discriminate H.
  - destruct (ecmaVersion (options s) >=? 9); [|discriminate H].
    inv_ret H. split; [auto|discriminate].
Qed.

Lemma checkAll_proto : forall calls propHash propHash',
  checkAll calls propHash = Some propHash' ->
  Expression.ph_proto propHash = true \/ existsb checksProto calls = true ->
  Expression.ph_proto propHash' = true.
Proof.
  induction calls as [|[[prop ref] s] calls IH]; intros propHash propHash' H Hor.
  - inversion H. subst propHash'. destruct Hor as [Hp|He]; [exact Hp|discriminate He].
  - cbn [checkAll] in H.
    destruct (Expression.checkPropClash prop propHash ref s) as [[h1 r1] s1| |] eqn:Hc;
      try discriminate H.
    apply checkPropClash_proto in Hc. destruct Hc as [Hkeep Hset].
    apply (IH h1 propHash' H).
    destruct Hor as [Hp|He]; [left; auto|].
    cbn [existsb] in He. apply orb_true_iff in He.
    destruct He as [He|He]; [left; auto | right; exact He].
Qed.

(** X18.  Once a property [__proto__: value] has been checked by
    [checkPropClash] under ECMAScript 6 or later, whatever was checked
    after it, another one is the error "Redefinition of __proto__ property"
    at its key when there is no [refDestructuringErrors]; when there is one
    the call returns, and [doubleProto] holds the start of the key unless a
    position was recorded there before. *)
Theorem X18_second_proto_is_reported :
  forall calls propHash p s,
    checkAll calls Expression.emptyHash = Some propHash ->
    existsb checksProto calls = true ->
    isProtoInit (Expression.PropertyMember p) = true ->
    6 <= ecmaVersion (options s) ->
    Expression.checkPropClash (Expression.PropertyMember p) propHash None s
    = SyntaxError Recoverable (node_start (Expression.prop_key p))
        "Redefinition of __proto__ property"
    /\ forall r,
        Expression.checkPropClash (Expression.PropertyMember p) propHash (Some r) s
        = Ok (propHash,
              Some (if doubleProto r <? 0
                    then set_doubleProto (node_start (Expression.prop_key p)) r
                    else r)) s.
Proof.
  intros calls propHash p s Hall Hex Hp Hev.
  assert (Hproto : Expression.ph_proto propHash = true)
    by (apply (checkAll_proto calls _ _ Hall); right; exact Hex).
  cbn [isProtoInit] in Hp.
  repeat (apply andb_true_iff in Hp; destruct Hp as [Hp ?]).
  apply negb_true_iff in Hp.
  repeat match goal with Hn : negb _ = true |- _ => apply negb_true_iff in Hn end.
  assert (Hname : Expression.keyName (Expression.prop_key p) = Some "__proto__").
  { destruct (Expression.prop_key p); try discriminate.
    - match goal with Hk : String.eqb _ _ = true |- _ =>
        apply String.eqb_eq in Hk; subst; reflexivity end.
    - match goal with
      | Hk : match ?v with _ => _ end = true |- _ => destruct v; try discriminate Hk;
          apply String.eqb_eq in Hk; subst; reflexivity
      end. }
  assert (Hge : (ecmaVersion (options s) >=? 6) = true)
    by (rewrite Z.geb_leb; apply Z.leb_le; exact Hev).
  unfold Expression.checkPropClash.
  rewrite Hge, Hp.
  repeat match goal with Hn : Expression.isTrue _ = false |- _ => rewrite Hn; clear Hn end.
  cbn [orb andb]. rewrite Hname.
  match goal with Hk : String.eqb (Expression.prop_kind p) _ = true |- _ => rewrite Hk end.
  cbn [String.eqb Ascii.eqb Bool.eqb andb]. rewrite Hproto.
  split; [reflexivity|].
  intros r. destruct propHash as [proto names]. cbn in Hproto. subst proto. reflexivity.
Qed.

Lemma X18_second_proto_is_reported_witness :
  Expression.checkPropClash (Expression.PropertyMember X18_proto_again)
    (Expression.mkPropHash true []) None X18_literal
  = SyntaxError Recoverable 21 "Redefinition of __proto__ property"
  /\ forall r,
      Expression.checkPropClash (Expression.PropertyMember X18_proto_again)
        (Expression.mkPropHash true []) (Some r) X18_literal
      = Ok (Expression.mkPropHash true [],
            Some (if doubleProto r <? 0 then set_doubleProto 21 r else r)) X18_literal.
Proof.
  apply (X18_second_proto_is_reported
           [(X18_proto, None, X18_literal); (X18_other, None, X18_literal)]
           (Expression.mkPropHash true []) X18_proto_again X18_literal).
  - vm_compute. reflexivity.
  - vm_compute. reflexivity.
  - vm_compute. reflexivity.
  - vm_compute. discriminate.
Defined.

(** ** expression.js: binary operators *)


